(* ===== verification/_CoqProject ===== *)
-Q . S2P
Prelude.v
Errors.v
Strs.v
Externals.v
Instances.v
Crypto.v
IpFilter.v
Net.v
Ssrf.v
Fetch.v
Identity.v
Discovery.v
Multikey.v
ServiceAuth.v
Store.v
StoreModel.v
Replay.v
Nonces.v
Pkce.v
Nsid.v
Htu.v
Keys.v
Dpop.v
Session.v
Sealed.v
Exchange.v
Par.v
TokenRequest.v
ClientConfig.v
Client.v
ClientFacts.v
Progress.v
SharedRefresh.v
Callbacks.v
Validator.v
Issuer.v
Tower.v
Interop.v
EndToEnd.v
Web.v
Redaction.v
Harness.v
KaniHarnesses.v
KaniProofs.v
KernelTests.v
StateTests.v
ApiTests.v
TokenTests.v
ProofTests.v
TowerTests.v
HandshakeTests.v
ClientTests.v
VerusSpecs.v
VerusProofs.v
