(* ===== verification/Prelude.v ===== *)
(** * skyauth, verified

    skyauth is a Rust library for OAuth in the AT Protocol: DPoP-bound tokens (RFC 9449), PKCE,
    pushed authorization requests, decentralised identities, and server middleware.  This
    development models its core as executable Rocq functions, translated definition by definition
    from the files under src/src/, and proves what makes them correct.

    ** How the program is modelled

    - [Result] is [result], [?] its bind; an [async] function that talks to the network is a
      computation of the state monad [st] (this file).  The error enums of error.rs keep their
      constructors and payloads (Errors).
    - A [str] is the byte string of its UTF-8 encoding ([string]); the operations of the standard
      library the code calls are written out in Strs ([trim], [split], [from_utf8], ...) and Net
      ([IpAddr] parsing and printing).  Machine integers are [Z] with the saturation the code
      chooses written out; [SystemTime] and [Instant] are [Z] nanoseconds.
    - Every clock reading and every random byte string is an argument, so a theorem speaks about all
      of them.  Locks make critical sections atomic: the state after a schedule of threads is the
      result of [run] on the list of their critical sections, and where a function releases its
      locks in the middle (an [await]), what others do meanwhile is a further argument.
    - Crates (serde_json, base64, sha2, p256, k256, subtle, url, http) are operational classes of
      Externals (and next to their only user); what the code relies on of their documented behaviour
      is a class of laws, named by the theorems that use it.  Instances holds small functions that
      satisfy the laws, which the concrete runs use.  The order in which a hash map iterates and
      keyed hash functions are parameters.

    ** The parts, and where they are

    - store.rs (OAuth state, 64 shards, single use): Store.  [store_step] is one critical section.
    - verification/formal_models.rs (the repository's own executable models and specifications):
      StoreModel (state machines), and next to what they specify in IpFilter, Crypto, Pkce, Htu.
    - dpop.rs: Replay (replay cache), Nonces (client cache, server nonce source), Htu (target URI,
      with kernels/htu_components.rs), Dpop (proofs, verification, replay admission).
    - kernels/ip_filter.rs: IpFilter.  ssrf.rs: Ssrf (filter, pinning resolver, client pool,
      redirects, bounded bodies).  Fetch packages its guarded request as an interface for the
      components that make several.
    - identity.rs: Identity (handles, DIDs, documents, resolver).  discovery.rs: Discovery (metadata
      documents, capability checks, the chain from an identifier to a server's endpoints).
    - DPoPKey of dpop.rs: Keys (import and export), Dpop.  session.rs: Session.  sealed.rs: Sealed.
    - par.rs and client.rs: Exchange holds what their requests share (the environment that answers
      DNS lookups, requests, clock readings and random draws; the log of what was sent; a small
      Hoare logic over that log).  Par is par.rs; TokenRequest the token endpoint and resource
      requests of client.rs; ClientConfig its metadata and mutex table; Client its data, builder and
      flows; ClientFacts the theorems on the flows; Progress their liveness against a server that
      grants; SharedRefresh the interleavings of [refresh_shared_session] as a step relation, with calls
      that fail or are dropped at any await, and what becomes of the tokens the server exchanged
      meanwhile; Callbacks those of [handle_callback], whose one critical
      section is the taking of the stored login.
    - service_auth.rs and kernels/service_auth_bytes.rs: Multikey (base58, multikeys, kernel) and
      ServiceAuth (key cache, JWT verification).
    - integrations/validator.rs: Validator (JWT and in-memory validators; the trait as a class) and
      Issuer (issuing and registering tokens).  integrations/tower.rs: Tower (the authentication
      middleware, over that class).  Web: its layer, integrations/mod.rs, axum.rs and actix.rs.
      Interop joins Session and Tower; EndToEnd goes from a login's callback to the resource server.
    - Debug and Zeroize implementations, wherever they are written: Redaction, with an interface for
      types whose text is a function of a public view.
    - verification/kani_harnesses.rs: Harness is the language of a proof body (assertions, assumptions,
      cover points, overflow and bounds checks) with the anti-vacuity tracker; KaniHarnesses the
      bodies, each in its symbolic form as a function of its [kani::any()] draws and in its concrete
      form; KaniProofs their theorems.
    - verification/verus_contracts.rs, verus_kernels.rs and the annotated copies of the kernels
      (kernels/ip_filter.rs, service_auth_bytes.rs): VerusSpecs has the specifications, the model,
      the annotated functions and the statements as propositions; VerusProofs proves them and
      relates them to the kernels of the plain build.
    - The [#[test]] functions: KernelTests (kernels, formal models, addresses), StateTests (store,
      caches, registry, sessions), ApiTests (handles, PKCE with its two properties, discovery, URLs),
      TokenTests (access tokens), ProofTests (DPoP keys and proofs), TowerTests and HandshakeTests
      (middleware), ClientTests.  They are written in the language of Harness, each as a function of
      what it draws and reads ([TestClock] is what they need of the clock).
    - crypto.rs: Crypto.  pkce.rs and kernels/pkce_bytes.rs: Pkce.  kernels/nsid_bytes.rs: Nsid.

    ** What is shown

    - State tokens (Store): under every interleaving a token is handed out at most once per
      insertion, and only its last insertion's entry, unexpired; insert/take round trip; capacity;
      exactness of pruning.  StoreModel: the store refines the repository's state-transition model,
      whose announced invariants hold.
    - DPoP: acceptance of a proof is exactly a declarative validity predicate; a created proof
      verifies; a recorded proof is refused until its cache entry expires, and the one second in
      which a proof can be accepted twice is characterised; two-phase admission equals one-phase.
      Nonces are accepted only if issued and unexpired, and issuance is bounded per second, in every
      interleaving of the two critical sections of an issuance with others.
      Normalised target URIs agree exactly when scheme, host, effective port and path do.
    - Outbound requests: the address filter is membership in a list of CIDR blocks and agrees with
      the repository's specification; the resolver hook yields only admissible addresses, a pinned
      host resolves to its pin whatever DNS says later, and [safe_get] sends at most four requests,
      all confined, against adversarial DNS and servers.
    - Identity: the accepted handles and DIDs are exactly two grammars; a resolved identity is
      consistent in both directions (the handle's DNS records or HTTPS document name the DID, the DID's
      document names the handle) and reached by confined requests only, except one query to the
      DNS-over-HTTPS service, whose client has no SSRF filter: a [World] logs both kinds apart.
    - Discovery: a server's metadata is accepted exactly when it satisfies the AT Protocol profile;
      what discovery returns is bound to a consistent identity, its PDS and that server, after at
      most twenty confined requests and that query.
    - The client's flows (ClientFacts): a login pushes the state and the challenge of the verifier it
      stores, to the discovered server, and returns the request_uri that server answered with;
      a callback is answered once, only for the login whose state
      and issuer it names, by at most two requests to that login's token endpoint, and before the
      deadline it does reach the code exchange; a refresh keeps identity and never widens the
      scope.  Requests are repeated at most once and only on a nonce challenge (Par, TokenRequest),
      and against a server that demands nonces a pushed request succeeds (Par); against a token
      endpoint of that kind which grants, a callback returns exactly the session of the grant and a
      refresh the rotated session (Progress).  Concurrent refreshes of a shared session never submit a token
      whose exchange reached the session; they submit an exchanged token again only where its call
      failed or was dropped after the exchange, and all that are not dropped return (SharedRefresh).  However callbacks and
      other users of the store interleave, and whichever futures are dropped, each stored login is
      redeemed at most once, by the caller that took it (Callbacks).
    - Sessions stay DPoP-bound and fail closed on unrepresentable lifetimes (Session); sealed records
      open to what was sealed and only to that (Sealed); keys survive export (Keys).
    - Service auth: an accepted JWT is signed by a key its issuer's document published within the
      cache's time to live; expiry and audience count only where the token has the claim; a bad
      signature evicts the key; multikeys round-trip through base58.
    - Middleware: an access token is accepted exactly when a declarative predicate holds; the
      wrapped service is called only for an authenticated, replay-checked request, and every other
      answer is a 401 or 503.  Conversely a request with a session's own headers is authenticated
      (Interop), a signed token is accepted exactly under the validator's policy (Issuer), and the
      axum and actix extractors agree (Web).  End to end, the session a callback returns is served by
      a resource server that trusts the issuer, and whoever presents its access token with another
      key is refused (EndToEnd).
    - Credentials: the Debug text of a type that holds some depends only on its public view, and
      zeroize leaves nothing of them (Redaction); [PkcePair], which derives Debug, shows its verifier.
    - PKCE, NSID and constant-time comparison: exact characterisations of what is accepted.
    - The repository's own verification (KaniProofs, VerusProofs): no execution of a Kani body fails,
      and each of its cover points is reached; the concrete bodies pass and satisfy the anti-vacuity
      gate; the statements given to Verus are true, the annotated kernels are the shipped ones on all
      inputs in range, and the Verus state model agrees with the executable one on every sequence.
      The modelled unit tests pass, for every hash function, key and random draw, under stated
      conditions on the clock: a check of the models against what the authors expect of the code.

    Divergences between documentation and code that came up are stated as lemmas next to the code
    they concern (the replay cache's last second, digit-leading NSID segments, bracketed IPv6
    literals, text after a did:plc, tokens without audience, the leeway that shortens a token's
    life, the eviction of a held refresh mutex, waiting refreshes that fail when the grant brings no
    new refresh token or that resubmit the token of a call dropped after its exchange, the issuer of access tokens that is
    compared without the documented normalisation, the DNS-over-HTTPS query outside the filter, Verus statements that
    cover less of an address family than their comment says, a test that needs the clock to advance
    between two lines, ...).

    ** Bounds and fuel

    Recursion is structural wherever the code's is bounded by its data.  Fuel is used in three
    places and shown or evidently enough: the decimal port buffer of Htu (six digits for a [u16]),
    the carry loops of base58 in Multikey (a [u32] has four bytes and fewer than seven base-58
    digits; [push_spec] has the bound as its hypothesis and [radix_step] discharges it), and the
    UTF-8 check of Strs (one unit per byte, each step consumes one).  The redirect loop of
    [safe_get] recurses on its own counter, which starts at three.

    ** Not modelled

    Re-exports and module lists; field accessors, the [Default] and [Arc] forwarding implementations
    that only call a modelled function, the generation of keys from the system's entropy, the
    creation of the shared client for DNS over HTTPS and the redirects it follows, the Debug text of
    the middleware types and of
    [ServiceAuthVerifier], and most Display texts of errors.  Of the Verus files, the hints inside
    proofs, which are input of another solver.  Timing and the fairness of the scheduler are outside
    the model, and so is the cancellation of a future except in SharedRefresh and Callbacks;
    decoding and encoding of JSON documents, HTTP, DNS, URL parsing and cryptography are parameters
    with laws.  Of the unit tests, those that talk to a mock server, pin the texts serde or other
    encoders produce, need concrete values of a hash or signature, measure how a hash spreads keys,
    or fill a cache to its capacity.

    This file: the result and state monads, tactics ([b2p], [case_if], [res_inv], [step_ok]), integer
    and clock conventions, runs of step functions, and sharded maps. *)
From stdpp Require Export base option list list_numbers numbers strings gmap sets fin_maps pretty.
From Stdlib Require Export Bool ZArith Lia Ascii.

Open Scope Z_scope.

(** ** Fallible computations: Rust's [Result]

    [Result<A, E>] with the [?] operator as the monadic bind. *)
Inductive result (E A : Type) : Type :=
| Ok (a : A)
| Err (e : E).
Arguments Ok {E A} a.
Arguments Err {E A} e.

#[export] Instance result_ret {E} : MRet (result E) := λ A a, Ok a.
#[export] Instance result_bind {E} : MBind (result E) := λ A B f r,
  match r with Ok a => f a | Err e => Err e end.
#[export] Instance result_fmap {E} : FMap (result E) := λ A B f r,
  match r with Ok a => Ok (f a) | Err e => Err e end.

(** [Result::map_err]. *)
Definition map_err {E F A} (f : E → F) (r : result E A) : result F A :=
  match r with Ok a => Ok a | Err e => Err (f e) end.

(** [Option::ok_or]. *)
Definition ok_or {E A} (o : option A) (e : E) : result E A :=
  match o with Some a => Ok a | None => Err e end.

(** [Result::ok]. *)
Definition result_ok {E A} (r : result E A) : option A :=
  match r with Ok a => Some a | Err _ => None end.

Definition is_ok {E A} (r : result E A) : bool :=
  match r with Ok _ => true | Err _ => false end.

(** Early return with an error: [if c { return Err(e); }]. *)
Definition fail_if {E} (c : bool) (e : E) : result E unit :=
  if c then Err e else Ok tt.

#[export] Instance result_eq_dec {E A} `{EqDecision E, EqDecision A} : EqDecision (result E A).
Proof. solve_decision. Defined.

(** Inversion lemmas for the monad: what a successful or failing computation went through. *)
Lemma bind_Ok {E A B} (r : result E A) (f : A → result E B) b :
  r ≫= f = Ok b ↔ ∃ a, r = Ok a ∧ f a = Ok b.
Proof. destruct r; simpl; naive_solver. Qed.

Lemma bind_Err {E A B} (r : result E A) (f : A → result E B) e :
  r ≫= f = Err e ↔ r = Err e ∨ ∃ a, r = Ok a ∧ f a = Err e.
Proof. destruct r; simpl; naive_solver. Qed.

(** The next check of a sequence of checks. *)
Lemma bind_unit {E} (r : result E unit) {B} (k : result E B) b :
  (r ≫= λ _, k) = Ok b ↔ r = Ok tt ∧ k = Ok b.
Proof. rewrite bind_Ok. split; [intros ([] & ?); done|intros []; by exists tt]. Qed.

Lemma fail_if_Ok {E} c (e : E) u : fail_if c e = Ok u ↔ c = false.
Proof. destruct c, u; simpl; naive_solver. Qed.

Lemma fail_if_Err {E} c (e e' : E) : fail_if c e = Err e' ↔ c = true ∧ e = e'.
Proof. destruct c; simpl; naive_solver. Qed.

Lemma map_err_Ok {E F A} (f : E → F) (r : result E A) a : map_err f r = Ok a ↔ r = Ok a.
Proof. destruct r; simpl; naive_solver. Qed.

Lemma map_err_Err {E F A} (f : E → F) (r : result E A) e :
  map_err f r = Err e ↔ ∃ e', r = Err e' ∧ f e' = e.
Proof. destruct r; simpl; naive_solver. Qed.

Lemma ok_or_Ok {E A} (o : option A) (e : E) a : ok_or o e = Ok a ↔ o = Some a.
Proof. destruct o; simpl; naive_solver. Qed.

Lemma ok_or_Err {E A} (o : option A) (e e' : E) : ok_or o e = Err e' ↔ o = None ∧ e = e'.
Proof. destruct o; simpl; naive_solver. Qed.

Lemma is_ok_true {E A} (r : result E A) : is_ok r = true ↔ ∃ a, r = Ok a.
Proof. destruct r; simpl; naive_solver. Qed.

(** ** Fallible computations that thread a state

    An [async] function that talks to the network: the state is what the calls share and change. *)
Definition st (S E A : Type) : Type := S → S * result E A.
#[export] Instance st_ret {S E} : MRet (st S E) := λ A a s, (s, Ok a).
#[export] Instance st_bind {S E} : MBind (st S E) := λ A B f m s,
  match m s with (s', Ok a) => f a s' | (s', Err e) => (s', Err e) end.

(** A pure step, and [map_err] on an effectful one. *)
Definition lift {S E A} (r : result E A) : st S E A := λ s, (s, r).
Definition st_map_err {S E F A} (f : E → F) (m : st S E A) : st S F A := λ s,
  let '(s', r) := m s in (s', map_err f r).

Lemma st_bind_Ok {S E A B} (m : st S E A) (f : A → st S E B) s s' b :
  (m ≫= f) s = (s', Ok b) ↔ ∃ s1 a, m s = (s1, Ok a) ∧ f a s1 = (s', Ok b).
Proof.
  unfold mbind, st_bind. destruct (m s) as [s1 [a|e]]; [naive_solver|]. split; [by intros [=]|].
  by intros (? & ? & [=] & _).
Qed.

Lemma lift_Ok {S E A} (r : result E A) (s s' : S) a : lift r s = (s', Ok a) ↔ s = s' ∧ r = Ok a.
Proof. unfold lift. naive_solver. Qed.

Lemma st_map_err_Ok {S E F A} (f : E → F) (m : st S E A) s s' a :
  st_map_err f m s = (s', Ok a) ↔ m s = (s', Ok a).
Proof. unfold st_map_err. destruct (m s) as [s1 [x|e]]; simpl; naive_solver. Qed.

(** What a successful effectful step went through. *)
Ltac st_inv :=
  repeat match goal with
  | E : (_ ≫= _) _ = (_, Ok _) |- _ => apply st_bind_Ok in E as (? & ? & ? & E)
  | E : lift _ _ = (_, Ok _) |- _ => apply lift_Ok in E as [<- E]
  | E : st_map_err _ _ _ = (_, Ok _) |- _ => apply st_map_err_Ok in E
  | E : mret _ _ = (_, Ok _) |- _ => injection E as <- <-
  end.

(** ** Booleans as propositions *)
Create Rewrite HintDb b2p.
#[export] Hint Rewrite andb_true_iff orb_true_iff negb_true_iff negb_false_iff andb_false_iff
  orb_false_iff Z.eqb_eq Z.eqb_neq Z.ltb_lt Z.ltb_ge Z.leb_le Z.leb_gt Z.geb_leb Z.gtb_ltb
  bool_decide_eq_true bool_decide_eq_false String.eqb_eq String.eqb_neq
  Nat.eqb_eq Nat.eqb_neq Nat.leb_le Nat.leb_gt Nat.ltb_lt Nat.ltb_ge : b2p.

Ltac b2p := autorewrite with b2p in *.

(** Decide one boolean condition of the goal or of a hypothesis and keep its equation. *)
Ltac case_if :=
  match goal with
  | |- context [if ?b then _ else _] => let E := fresh "Hif" in destruct b eqn:E
  | H : context [if ?b then _ else _] |- _ => let E := fresh "Hif" in destruct b eqn:E
  end.

(** Decompose a successful (or failing) run of a [result] computation. *)
Create Rewrite HintDb res.
#[export] Hint Rewrite @bind_Ok @fail_if_Ok @map_err_Ok @ok_or_Ok : res.

Ltac res_inv :=
  repeat (match goal with
  | H : mbind _ _ = Ok _ |- _ => apply bind_Ok in H as (? & ? & H)
  | H : fail_if _ _ = Ok _ |- _ => apply fail_if_Ok in H
  | H : map_err _ _ = Ok _ |- _ => apply map_err_Ok in H
  | H : ok_or _ _ = Ok _ |- _ => apply ok_or_Ok in H
  | H : Ok _ = Ok _ |- _ => injection H as H
  | H : Ok _ = Err _ |- _ => discriminate H
  | H : Err _ = Ok _ |- _ => discriminate H
  end; try subst).

(** Run the next steps of a [result] computation without unfolding anything else. *)
Ltac step_ok E := rewrite E; cbn [mbind result_bind map_err ok_or fail_if].

(** ** Machine integers

    Unsigned integers of width w are [Z] in [0, 2^w); the wrap-around or saturation the code
    chooses is written out. *)
Definition u8_max : Z := 255.
Definition u16_max : Z := 65535.
Definition u64_max : Z := 18446744073709551615.
Definition i64_max : Z := 9223372036854775807.

Definition u8_valid (x : Z) : Prop := 0 ≤ x ≤ u8_max.
Definition u16_valid (x : Z) : Prop := 0 ≤ x ≤ u16_max.
Definition u64_valid (x : Z) : Prop := 0 ≤ x ≤ u64_max.

Definition u64_saturating_add (x y : Z) : Z := Z.min u64_max (x + y).
Definition u64_saturating_sub (x y : Z) : Z := Z.max 0 (x - y).

Lemma u64_saturating_add_valid x y :
  u64_valid x → u64_valid y → u64_valid (u64_saturating_add x y).
Proof. unfold u64_valid, u64_saturating_add; lia. Qed.

Lemma u64_saturating_sub_valid x y :
  u64_valid x → u64_valid y → u64_valid (u64_saturating_sub x y).
Proof. unfold u64_valid, u64_saturating_sub; lia. Qed.

Lemma u64_saturating_sub_le x y : 0 ≤ y → 0 ≤ x → u64_saturating_sub x y ≤ x.
Proof. unfold u64_saturating_sub; lia. Qed.

(** ** Wall-clock time

    A [SystemTime] is a signed number of nanoseconds from the Unix epoch. *)
Definition unix_secs (t : Z) : option Z := if t <? 0 then None else Some (t / 1000000000).

(** [duration_since(UNIX_EPOCH).map(|d| d.as_secs()).unwrap_or(0)]. *)
Definition unix_secs_or_zero (t : Z) : Z := default 0 (unix_secs t).

Lemma unix_secs_mono t t' : t ≤ t' → unix_secs_or_zero t ≤ unix_secs_or_zero t'.
Proof.
  intros H. unfold unix_secs_or_zero, unix_secs. repeat case_if; b2p; simpl; try lia.
  - apply Z.div_pos; lia.
  - apply Z.div_le_mono; lia.
Qed.

(** [Vec::len], [HashMap::len] and [str::len] as a [usize]. *)
Definition zlen {A} (l : list A) : Z := Z.of_nat (length l).

(** ** Shared facts on lists and maps *)

(** The reflexive transitive closure by a function run over a list of events. *)
Fixpoint run {S E O : Type} (step : S → E → S * O) (s : S) (es : list E) : S * list O :=
  match es with
  | [] => (s, [])
  | e :: es' =>
      let '(s', o) := step s e in
      let '(s'', os) := run step s' es' in (s'', o :: os)
  end.

Lemma run_app {S E O} (step : S → E → S * O) s es1 es2 :
  run step s (es1 ++ es2) =
  let '(s1, os1) := run step s es1 in
  let '(s2, os2) := run step s1 es2 in (s2, os1 ++ os2).
Proof.
  revert s; induction es1 as [|e es1 IH]; intros s; simpl.
  - by destruct (run step s es2).
  - destruct (step s e) as [s' o]. rewrite IH.
    destruct (run step s' es1), (run step _ es2); done.
Qed.

Lemma run_length {S E O} (step : S → E → S * O) s es :
  length (snd (run step s es)) = length es.
Proof.
  revert s; induction es as [|e es IH]; intros s; simpl; [done|].
  destruct (step s e) as [s' o]. specialize (IH s'). destruct (run step s' es); simpl in *; lia.
Qed.

(** An invariant that one step preserves holds after every sequence of steps. *)
Lemma run_invariant {S E O} (step : S → E → S * O) (I : S → Prop) :
  (∀ s e, I s → I (step s e).1) → ∀ es s, I s → I (run step s es).1.
Proof.
  intros Hstep es. induction es as [|e es IH]; intros s Hs; simpl; [done|].
  specialize (Hstep s e Hs). destruct (step s e) as [s' o]; simpl in *.
  specialize (IH s' Hstep). by destruct (run step s' es).
Qed.

(** [HashMap::retain]: the entries that satisfy the predicate. *)
Definition retain {V : Type} (keep : V → bool) (m : gmap string V) : gmap string V :=
  filter (λ kv, keep (snd kv) = true) m.

Lemma retain_lookup {V} (keep : V → bool) m k v :
  retain keep m !! k = Some v ↔ m !! k = Some v ∧ keep v = true.
Proof. unfold retain. rewrite map_lookup_filter_Some. done. Qed.

Lemma retain_lookup_option {V} (keep : V → bool) m k :
  retain keep m !! k = (v ← m !! k; if keep v then Some v else None).
Proof.
  destruct (m !! k) as [v|] eqn:E; simpl.
  - destruct (keep v) eqn:Ek; [by apply retain_lookup|].
    apply eq_None_not_Some; intros [v' [Hv Hk]%retain_lookup]; congruence.
  - apply eq_None_not_Some; intros [v' [Hv _]%retain_lookup]; congruence.
Qed.

Lemma retain_subseteq {V} (keep : V → bool) m : retain keep m ⊆ m.
Proof. apply map_filter_subseteq. Qed.

Lemma size_subseteq {V} (m1 m2 : gmap string V) : m1 ⊆ m2 → (size m1 ≤ size m2)%nat.
Proof.
  intros H. rewrite <-!size_dom. apply subseteq_size. by apply subseteq_dom.
Qed.

Lemma retain_size {V} (keep : V → bool) m : (size (retain keep m) ≤ size m)%nat.
Proof. apply size_subseteq, retain_subseteq. Qed.

Lemma map_size_insert_le {V} (m : gmap string V) k v : (size (<[k:=v]> m) ≤ S (size m))%nat.
Proof. rewrite map_size_insert. destruct (m !! k); simpl; lia. Qed.

Lemma map_size_delete_le {V} (m : gmap string V) k : (size (delete k m) ≤ size m)%nat.
Proof. rewrite map_size_delete. destruct (m !! k); simpl; lia. Qed.

(** ** Maps partitioned into shards

    The state store and the replay cache keep an array of [RwLock<HashMap<String, V>>]; the array
    is a list, its [i]-th map read with the empty map as default. *)
Definition shard_get {V} (l : list (gmap string V)) (i : nat) : gmap string V := default ∅ (l !! i).

Lemma shard_get_insert {V} (l : list (gmap string V)) i m j :
  (i < length l)%nat → shard_get (<[i:=m]> l) j = if decide (i = j) then m else shard_get l j.
Proof.
  intros Hi. unfold shard_get. destruct (decide (i = j)) as [<-|Hij].
  - by rewrite list_lookup_insert_eq.
  - by rewrite list_lookup_insert_ne.
Qed.

Lemma shard_get_replicate {V} n i : shard_get (replicate n (∅ : gmap string V)) i = ∅.
Proof.
  unfold shard_get. match goal with |- default _ ?o = _ => destruct o eqn:E; [|done] end.
  by apply lookup_replicate in E as [-> _].
Qed.

(** The sum of the shards' sizes, as the loops of the code compute it. *)
Definition shards_total {V} (l : list (gmap string V)) : Z :=
  foldl (λ sum shard, sum + Z.of_nat (size shard)) 0 l.

Lemma shards_total_acc {V} (l : list (gmap string V)) acc :
  foldl (λ sum shard, sum + Z.of_nat (size shard)) acc l = acc + shards_total l.
Proof.
  unfold shards_total. revert acc. induction l as [|m l IH]; intros acc; simpl; [lia|].
  rewrite IH, (IH (0 + _)). lia.
Qed.

Lemma shards_total_cons {V} m (l : list (gmap string V)) :
  shards_total (m :: l) = Z.of_nat (size m) + shards_total l.
Proof. unfold shards_total at 1; simpl. by rewrite shards_total_acc. Qed.

Lemma shards_total_bound {V} (l : list (gmap string V)) (cap : Z) :
  0 ≤ cap → (∀ i, Z.of_nat (size (shard_get l i)) ≤ cap) → 0 ≤ shards_total l ≤ zlen l * cap.
Proof.
  intros Hcap. induction l as [|m l IH]; intros Hl; [done|].
  rewrite shards_total_cons. pose proof (Hl 0%nat) as H0. unfold shard_get in H0; simpl in H0.
  specialize (IH (λ i, Hl (S i))). unfold zlen in *. simpl length. nia.
Qed.

Lemma shards_total_empty {V} n : shards_total (replicate n (∅ : gmap string V)) = 0.
Proof. induction n as [|n IH]; [done|]. simpl. by rewrite shards_total_cons, map_size_empty, IH. Qed.

Lemma shards_total_insert {V} (l : list (gmap string V)) i m :
  (i < length l)%nat →
  shards_total (<[i := m]> l) = shards_total l - Z.of_nat (size (shard_get l i)) + Z.of_nat (size m).
Proof.
  revert i. induction l as [|m0 l IH]; intros [|i] Hi; simpl in *; [lia..| |].
  - rewrite !shards_total_cons. unfold shard_get. simpl. lia.
  - rewrite !shards_total_cons, IH by lia. unfold shard_get. simpl. lia.
Qed.

Lemma shards_total_ge {V} (l : list (gmap string V)) i : Z.of_nat (size (shard_get l i)) ≤ shards_total l.
Proof.
  assert (∀ l : list (gmap string V), 0 ≤ shards_total l) as Hp.
  { clear. induction l as [|m l IH]; [done|]. rewrite shards_total_cons. lia. }
  revert i. induction l as [|m0 l IH]; intros [|i]; rewrite ?shards_total_cons; try done.
  - specialize (Hp l). unfold shard_get. simpl. lia.
  - specialize (IH i). unfold shard_get in *. simpl in *. lia.
Qed.

Create HintDb skyauth.
#[export] Hint Resolve u64_saturating_add_valid u64_saturating_sub_valid retain_size
  map_size_insert_le map_size_delete_le retain_subseteq : skyauth.
