(* ===== verification/Errors.v ===== *)
(** * Errors: the error enumerations of src/src/error.rs

    One inductive type per Rust [enum], with the source's variants and payloads; a variant [V] of
    the enum [E] is the constructor [E_V].  [String] and [&'static str] are [string]; [usize],
    [u64], [u16] and [char] are [Z]; a [Duration] is its number of nanoseconds.  The [#[from]]
    conversions are the constructors themselves: the [?] operator at a conversion is
    [map_err E_V].  The [Display] texts are not modelled. *)
From S2P Require Import Prelude.

(** [CryptoError], error.rs 55-107. *)
Inductive CryptoError : Type :=
| CryptoError_EcdsaSign (msg : string)
| CryptoError_EcdsaVerify (msg : string)
| CryptoError_InvalidKey (msg : string)
| CryptoError_InvalidPoint (msg : string)
| CryptoError_Base64Decode (msg : string)
| CryptoError_Json (msg : string)
| CryptoError_Rng (msg : string)
| CryptoError_Hmac (msg : string)
| CryptoError_Pem (msg : string)
| CryptoError_Seal (msg : string)
| CryptoError_Open (msg : string)
| CryptoError_InvalidEnvelope (msg : string)
| CryptoError_Utf8 (msg : string).
#[export] Instance CryptoError_eq_dec : EqDecision CryptoError.
Proof. solve_decision. Defined.

(** [DPoPError], error.rs 111-283. *)
Inductive DPoPError : Type :=
| DPoPError_MalformedJwt (msg : string)
| DPoPError_InvalidHeaderTyp (msg : string)
| DPoPError_UnsupportedAlgorithm (msg : string)
| DPoPError_MissingJwk
| DPoPError_InvalidJwk (msg : string)
| DPoPError_PrivateKeyInJwk
| DPoPError_MissingClaim (msg : string)
| DPoPError_JtiTooLong (max : Z) (actual : Z)
| DPoPError_MethodMismatch (expected : string) (actual : string)
| DPoPError_UriMismatch (expected : string) (actual : string)
| DPoPError_InvalidUri (msg : string)
| DPoPError_ExpiredProof (exp : Z) (now : Z)
| DPoPError_FutureProof (iat : Z) (now : Z) (leeway : Z)
| DPoPError_ProofTooOld (iat : Z) (now : Z) (max_age_secs : Z)
| DPoPError_NonceMismatch (expected : string) (actual : string)
| DPoPError_MissingNonce
| DPoPError_ResponseMissingDpopNonce
| DPoPError_AthMismatch (expected : string) (actual : string)
| DPoPError_MissingAth
| DPoPError_SignatureVerificationFailed
| DPoPError_ReplayDetected (jti : string)
| DPoPError_NonceRetryLimitExceeded
| DPoPError_ReplayCacheSaturated
| DPoPError_NonceCacheSaturated
| DPoPError_Serialization (msg : string)
| DPoPError_ClockSkew (msg : string)
| DPoPError_Crypto (e : CryptoError).
#[export] Instance DPoPError_eq_dec : EqDecision DPoPError.
Proof. solve_decision. Defined.

(** [PkceError], error.rs 287-326. *)
Inductive PkceError : Type :=
| PkceError_InvalidVerifierLength (len : Z) (min : Z) (max : Z)
| PkceError_InvalidVerifierCharacter (char : Z) (position : Z)
| PkceError_InvalidChallengeLength (len : Z)
| PkceError_UnsupportedMethod (msg : string)
| PkceError_ChallengeMismatch
| PkceError_Crypto (e : CryptoError).
#[export] Instance PkceError_eq_dec : EqDecision PkceError.
Proof. solve_decision. Defined.

(** [SsrfError], error.rs 553-604. *)
Inductive SsrfError : Type :=
| SsrfError_BlockedIp (msg : string)
| SsrfError_BlockedHost (msg : string)
| SsrfError_InsecureScheme (msg : string)
| SsrfError_DnsResolutionFailed (msg : string)
| SsrfError_InvalidUrl (msg : string)
| SsrfError_TooManyRedirects
| SsrfError_ResponseTooLarge (max_bytes : Z) (actual_bytes : Z)
| SsrfError_HttpStatus (msg0 : Z) (msg1 : string)
| SsrfError_Http (msg : string)
| SsrfError_Io (msg : string)
| SsrfError_Json (msg : string).
#[export] Instance SsrfError_eq_dec : EqDecision SsrfError.
Proof. solve_decision. Defined.

(** [TokenError], error.rs 330-506. *)
Inductive TokenError : Type :=
| TokenError_MissingHeader
| TokenError_InvalidScheme (expected : string) (actual : string)
| TokenError_Expired (exp : Z) (now : Z)
| TokenError_NotYetValid (nbf : Z) (now : Z)
| TokenError_AudienceMismatch (expected : string) (actual : string)
| TokenError_IssuerMismatch (expected : string) (actual : string)
| TokenError_InvalidSignature
| TokenError_CnfThumbprintMismatch (expected_jkt : string) (actual_jkt : string)
| TokenError_MissingAudience
| TokenError_MissingIssuer
| TokenError_MissingDid
| TokenError_MalformedToken (msg : string)
| TokenError_InvalidNsid (msg : string)
| TokenError_InvalidStateTtl (msg : Z)
| TokenError_InvalidTokenType (msg : string)
| TokenError_MissingField (msg : string)
| TokenError_SubMismatch (expected : string) (actual : string)
| TokenError_MissingAtprotoScope (msg : string)
| TokenError_ScopeExpansion (granted : string) (requested : string)
| TokenError_RequestFailed (status : Z) (error : string) (description : option string)
| TokenError_MissingRefreshToken
| TokenError_InvalidState (msg : string)
| TokenError_StateExpired
| TokenError_MissingCallbackIssuer
| TokenError_MissingScope
| TokenError_Http (msg : string)
| TokenError_Json (msg : string)
| TokenError_DPoP (e : DPoPError)
| TokenError_Ssrf (e : SsrfError)
| TokenError_Crypto (e : CryptoError).
#[export] Instance TokenError_eq_dec : EqDecision TokenError.
Proof. solve_decision. Defined.

(** [ParError], error.rs 510-549. *)
Inductive ParError : Type :=
| ParError_RequestFailed (status : Z) (error : string) (description : option string)
| ParError_MissingField (msg : string)
| ParError_InvalidRequestUri (msg : string)
| ParError_InvalidEndpoint (msg : string)
| ParError_Http (msg : string)
| ParError_Json (msg : string)
| ParError_DPoP (e : DPoPError)
| ParError_Ssrf (e : SsrfError).
#[export] Instance ParError_eq_dec : EqDecision ParError.
Proof. solve_decision. Defined.

(** [IdentityError], error.rs 608-679. *)
Inductive IdentityError : Type :=
| IdentityError_InvalidHandleSyntax (msg : string)
| IdentityError_DisallowedHandleTld (msg : string)
| IdentityError_HandleResolutionFailed (msg : string)
| IdentityError_AmbiguousHandleResolution (msg : string)
| IdentityError_HandleDidMismatch (msg : string)
| IdentityError_InvalidDidSyntax (msg : string)
| IdentityError_UnsupportedDidMethod (msg : string)
| IdentityError_DidNotFound (msg : string)
| IdentityError_MalformedDidDocument (msg : string)
| IdentityError_DidDocumentIdMismatch (expected : string) (actual : string)
| IdentityError_MissingPdsEndpoint (msg : string)
| IdentityError_InvalidPdsEndpoint (msg : string)
| IdentityError_Ssrf (e : SsrfError)
| IdentityError_Http (msg : string)
| IdentityError_Json (msg : string)
| IdentityError_Dns (msg : string).
#[export] Instance IdentityError_eq_dec : EqDecision IdentityError.
Proof. solve_decision. Defined.

(** [DiscoveryError], error.rs 683-824. *)
Inductive DiscoveryError : Type :=
| DiscoveryError_ProtectedResourceDiscoveryFailed (msg : string)
| DiscoveryError_MissingAuthorizationServers (msg : string)
| DiscoveryError_MultipleAuthorizationServers (msg : Z)
| DiscoveryError_InvalidAuthorizationServerUrl (msg : string)
| DiscoveryError_ResourceMismatch (expected : string) (actual : string)
| DiscoveryError_AuthServerDiscoveryFailed (msg : string)
| DiscoveryError_IssuerMismatch (expected : string) (actual : string)
| DiscoveryError_MissingDpopAlgorithm (msg : string)
| DiscoveryError_MissingPkceMethod (msg : string)
| DiscoveryError_MissingParEndpoint (msg : string)
| DiscoveryError_ParNotRequired (msg : string)
| DiscoveryError_MissingRequestUriRegistration (msg : string)
| DiscoveryError_MissingResponseType (msg : string)
| DiscoveryError_MissingGrantType (auth_server : string) (missing : string)
| DiscoveryError_MissingTokenAuthMethod (msg : string)
| DiscoveryError_MissingTokenAuthSigningAlg (msg : string)
| DiscoveryError_InvalidTokenAuthSigningAlg (msg : string)
| DiscoveryError_MissingAtprotoScope (msg : string)
| DiscoveryError_MissingIssParameterSupport (msg : string)
| DiscoveryError_MissingClientMetadataSupport (msg : string)
| DiscoveryError_MissingTokenEndpoint (msg : string)
| DiscoveryError_MissingAuthorizationEndpoint (msg : string)
| DiscoveryError_InvalidEndpointUrl (msg : string)
| DiscoveryError_Identity (e : IdentityError)
| DiscoveryError_Ssrf (e : SsrfError)
| DiscoveryError_Http (msg : string)
| DiscoveryError_Json (msg : string).
#[export] Instance DiscoveryError_eq_dec : EqDecision DiscoveryError.
Proof. solve_decision. Defined.

(** [StoreError], error.rs 828-855. *)
Inductive StoreError : Type :=
| StoreError_StateExpired (msg : string)
| StoreError_StateNotFound (msg : string)
| StoreError_Backend (msg : string)
| StoreError_CapacityExceeded (msg : Z)
| StoreError_Serialization (msg : string)
| StoreError_Lock (msg : string).
#[export] Instance StoreError_eq_dec : EqDecision StoreError.
Proof. solve_decision. Defined.

(** [IntegrationError], error.rs 859-912. *)
Inductive IntegrationError : Type :=
| IntegrationError_MissingCode
| IntegrationError_MissingState
| IntegrationError_OAuthError (error : string) (description : string)
| IntegrationError_MissingAuthHeader
| IntegrationError_InvalidAuthScheme (msg : string)
| IntegrationError_MissingDPoPProofHeader
| IntegrationError_SessionNotFound
| IntegrationError_AuthFailed (msg : string)
| IntegrationError_Internal (msg : string)
| IntegrationError_Store (e : StoreError)
| IntegrationError_DPoP (e : DPoPError)
| IntegrationError_Token (e : TokenError).
#[export] Instance IntegrationError_eq_dec : EqDecision IntegrationError.
Proof. solve_decision. Defined.

(** [AtprotoOAuthError], error.rs 11-51. *)
Inductive AtprotoOAuthError : Type :=
| AtprotoOAuthError_Crypto (e : CryptoError)
| AtprotoOAuthError_DPoP (e : DPoPError)
| AtprotoOAuthError_Pkce (e : PkceError)
| AtprotoOAuthError_Token (e : TokenError)
| AtprotoOAuthError_Par (e : ParError)
| AtprotoOAuthError_Ssrf (e : SsrfError)
| AtprotoOAuthError_Identity (e : IdentityError)
| AtprotoOAuthError_Discovery (e : DiscoveryError)
| AtprotoOAuthError_Store (e : StoreError)
| AtprotoOAuthError_Integration (e : IntegrationError).
#[export] Instance AtprotoOAuthError_eq_dec : EqDecision AtprotoOAuthError.
Proof. solve_decision. Defined.
