(* ===== verification/Strs.v ===== *)
(** * Strs: the operations of Rust's [str] the code uses

    A Rust [str] is a UTF-8 byte string; it is modelled as [string], one [ascii] per byte.
    [char::is_whitespace] is the Unicode White_Space property, recognised on the bytes of the
    UTF-8 encodings, which is exact on well-formed UTF-8. *)
From S2P Require Import Prelude.
Open Scope Z_scope.

Definition byte_of (c : ascii) : Z := Z.of_N (N_of_ascii c).
Definition as_bytes (s : string) : list Z := byte_of <$> String.list_ascii_of_string s.
Definition str_len (s : string) : Z := Z.of_nat (String.length s).
Definition str_is_empty (s : string) : bool := (s =? "")%string.

(** ** Byte classes *)
Definition in_range (lo hi : Z) (c : ascii) : bool := (lo <=? byte_of c) && (byte_of c <=? hi).
Definition is_ascii_digit (c : ascii) : bool := in_range 48 57 c.
Definition is_ascii_uppercase (c : ascii) : bool := in_range 65 90 c.
Definition is_ascii_lowercase (c : ascii) : bool := in_range 97 122 c.
Definition is_ascii_alphabetic (c : ascii) : bool := is_ascii_uppercase c || is_ascii_lowercase c.
Definition is_ascii_alphanumeric (c : ascii) : bool := is_ascii_alphabetic c || is_ascii_digit c.

(** ** White space: one-, two- and three-byte encodings *)
Definition ws1 (a : ascii) : bool := in_range 9 13 a || (byte_of a =? 32).
Definition ws2 (a b : ascii) : bool :=
  (byte_of a =? 0xC2) && ((byte_of b =? 0x85) || (byte_of b =? 0xA0)).
Definition ws3 (a b c : ascii) : bool :=
  let '(x, y, z) := (byte_of a, byte_of b, byte_of c) in
  ((x =? 0xE1) && (y =? 0x9A) && (z =? 0x80))
  || ((x =? 0xE2) && (y =? 0x80)
      && (((0x80 <=? z) && (z <=? 0x8A)) || (z =? 0xA8) || (z =? 0xA9) || (z =? 0xAF)))
  || ((x =? 0xE2) && (y =? 0x81) && (z =? 0x9F))
  || ((x =? 0xE3) && (y =? 0x80) && (z =? 0x80)).

Fixpoint trim_start (s : string) : string :=
  match s with
  | String a s1 =>
      if ws1 a then trim_start s1
      else match s1 with
           | String b s2 =>
               if ws2 a b then trim_start s2
               else match s2 with
                    | String c s3 => if ws3 a b c then trim_start s3 else s
                    | EmptyString => s
                    end
           | EmptyString => s
           end
  | EmptyString => s
  end.

(** The same scan from the end, on the reversed bytes. *)
Fixpoint trim_start_rev (s : string) : string :=
  match s with
  | String a s1 =>
      if ws1 a then trim_start_rev s1
      else match s1 with
           | String b s2 =>
               if ws2 b a then trim_start_rev s2
               else match s2 with
                    | String c s3 => if ws3 c b a then trim_start_rev s3 else s
                    | EmptyString => s
                    end
           | EmptyString => s
           end
  | EmptyString => s
  end.

Fixpoint str_rev_app (s acc : string) : string :=
  match s with String a s' => str_rev_app s' (String a acc) | EmptyString => acc end.
Definition str_rev (s : string) : string := str_rev_app s "".

Definition trim_end (s : string) : string := str_rev (trim_start_rev (str_rev s)).
Definition trim (s : string) : string := trim_end (trim_start s).

(** ** Searching and splitting *)
Fixpoint str_contains_char (c : ascii) (s : string) : bool :=
  match s with String a s' => Ascii.eqb a c || str_contains_char c s' | EmptyString => false end.

Fixpoint str_forall (f : ascii → bool) (s : string) : bool :=
  match s with String a s' => f a && str_forall f s' | EmptyString => true end.

(** [s.split(c)]: at least one piece. *)
Fixpoint split_char (c : ascii) (s : string) : list string :=
  match s with
  | EmptyString => [""]
  | String a s' =>
      if Ascii.eqb a c then "" :: split_char c s'
      else match split_char c s' with
           | h :: t => String a h :: t
           | [] => [String a ""]
           end
  end.

(** [s.split_once(c)]. *)
Fixpoint split_once_char (c : ascii) (s : string) : option (string * string) :=
  match s with
  | EmptyString => None
  | String a s' =>
      if Ascii.eqb a c then Some ("", s')
      else '(l, r) ← split_once_char c s'; Some (String a l, r)
  end.

(** [s.strip_prefix(p)], [s.starts_with(p)]. *)
Fixpoint strip_prefix (p s : string) : option string :=
  match p, s with
  | EmptyString, _ => Some s
  | String a p', String b s' => if Ascii.eqb a b then strip_prefix p' s' else None
  | String _ _, EmptyString => None
  end.
Definition starts_with (s p : string) : bool :=
  match strip_prefix p s with Some _ => true | None => false end.
Definition strip_suffix (p s : string) : option string :=
  str_rev <$> strip_prefix (str_rev p) (str_rev s).
Definition ends_with (s p : string) : bool :=
  match strip_suffix p s with Some _ => true | None => false end.

(** [s.trim_start_matches(c)], [s.trim_end_matches(c)] for a character. *)
Fixpoint trim_start_matches (c : ascii) (s : string) : string :=
  match s with
  | String a s' => if Ascii.eqb a c then trim_start_matches c s' else s
  | EmptyString => s
  end.
Definition trim_end_matches (c : ascii) (s : string) : string :=
  str_rev (trim_start_matches c (str_rev s)).

(** [s.contains(p)] for a string pattern. *)
Fixpoint str_contains (s p : string) : bool :=
  starts_with s p || match s with String _ s' => str_contains s' p | EmptyString => false end.

(** [s.trim_matches(c)]. *)
Definition trim_matches (c : ascii) (s : string) : string :=
  trim_end_matches c (trim_start_matches c s).

(** [s.replace(p, r)] for a non-empty pattern: left to right, without overlaps. *)
Fixpoint str_replace_from (skip : nat) (p r s : string) : string :=
  match s with
  | EmptyString => ""
  | String a s' =>
      match skip with
      | S k => str_replace_from k p r s'
      | O => if starts_with s p then r +:+ str_replace_from (String.length p - 1) p r s'
             else String a (str_replace_from 0 p r s')
      end
  end.
Definition str_replace (p r s : string) : string := str_replace_from 0 p r s.

(** [s.split_once(p)] for a string pattern. *)
Fixpoint split_once_str (p s : string) : option (string * string) :=
  match strip_prefix p s with
  | Some rest => Some ("", rest)
  | None =>
      match s with
      | EmptyString => None
      | String a s' => '(l, r) ← split_once_str p s'; Some (String a l, r)
      end
  end.

(** [s.split(f).next()]: the text before the first character that satisfies [f]. *)
Fixpoint before_first (f : ascii → bool) (s : string) : string :=
  match s with
  | EmptyString => ""
  | String a s' => if f a then "" else String a (before_first f s')
  end.

(** [s.rsplit(c).next()]: the text after the last [c], or all of it. *)
Definition after_last (c : ascii) (s : string) : string := default "" (last (split_char c s)).

(** [&s[i..]] for [s.rfind(c) = Some(i)]: the suffix that starts at the last [c]. *)
Fixpoint from_last (c : ascii) (s : string) : option string :=
  match s with
  | EmptyString => None
  | String a s' =>
      match from_last c s' with
      | Some t => Some t
      | None => if Ascii.eqb a c then Some s else None
      end
  end.

(** [s.parse::<u16>()]: an optional plus sign and decimal digits, leading zeros allowed. *)
Fixpoint decimal_value (acc : Z) (s : string) : option Z :=
  match s with
  | EmptyString => Some acc
  | String c s' => if is_ascii_digit c then decimal_value (10 * acc + (byte_of c - 48)) s' else None
  end.
Definition parse_u16 (s : string) : option Z :=
  let digits := match s with String "+" s' => s' | _ => s end in
  if str_is_empty digits then None
  else v ← decimal_value 0 digits; if v <=? u16_max then Some v else None.

(** [s.split_whitespace()]: the non-empty pieces between white space. *)
Definition cons_char (a : ascii) (l : list string) : list string :=
  match l with h :: t => String a h :: t | [] => [String a ""] end.
Fixpoint split_ws (s : string) : list string :=
  match s with
  | EmptyString => [""]
  | String a s1 =>
      if ws1 a then "" :: split_ws s1
      else match s1 with
           | String b s2 =>
               if ws2 a b then "" :: split_ws s2
               else match s2 with
                    | String c s3 => if ws3 a b c then "" :: split_ws s3 else cons_char a (split_ws s1)
                    | EmptyString => cons_char a (split_ws s1)
                    end
           | EmptyString => cons_char a (split_ws s1)
           end
  end.
Definition split_whitespace (s : string) : list string :=
  List.filter (λ w, negb (str_is_empty w)) (split_ws s).

(** [l.join(sep)]. *)
Fixpoint join_str (sep : string) (l : list string) : string :=
  match l with
  | [] => ""
  | [x] => x
  | x :: l' => x +:+ sep +:+ join_str sep l'
  end.

(** [std::str::from_utf8]: the byte sequences of Table 3-7 of the Unicode standard. *)
Definition string_of_bytes (b : list Z) : string :=
  String.string_of_list_ascii ((λ x, ascii_of_N (Z.to_N x)) <$> b).
Definition cont (x : Z) : bool := (0x80 <=? x) && (x <=? 0xBF).
Fixpoint utf8_valid (fuel : nat) (b : list Z) : bool :=
  match fuel, b with
  | _, [] => true
  | O, _ => false
  | S n, x :: b1 =>
      if x <? 0x80 then utf8_valid n b1
      else match b1 with
      | [] => false
      | y :: b2 =>
          if (0xC2 <=? x) && (x <=? 0xDF) then cont y && utf8_valid n b2
          else match b2 with
          | [] => false
          | z :: b3 =>
              let second3 := if x =? 0xE0 then (0xA0 <=? y) && (y <=? 0xBF)
                             else if x =? 0xED then (0x80 <=? y) && (y <=? 0x9F) else cont y in
              if (0xE0 <=? x) && (x <=? 0xEF) then second3 && cont z && utf8_valid n b3
              else match b3 with
              | [] => false
              | w :: b4 =>
                  let second4 := if x =? 0xF0 then (0x90 <=? y) && (y <=? 0xBF)
                                 else if x =? 0xF4 then (0x80 <=? y) && (y <=? 0x8F) else cont y in
                  (0xF0 <=? x) && (x <=? 0xF4) && second4 && cont z && cont w && utf8_valid n b4
              end
          end
      end
  end.
Definition from_utf8 (b : list Z) : option string :=
  if utf8_valid (length b) b then Some (string_of_bytes b) else None.

(** ** ASCII case *)
Definition ascii_lower (c : ascii) : ascii :=
  if is_ascii_uppercase c then ascii_of_N (N_of_ascii c + 32) else c.
Definition ascii_upper (c : ascii) : ascii :=
  if is_ascii_lowercase c then ascii_of_N (N_of_ascii c - 32) else c.
Fixpoint str_map (f : ascii → ascii) (s : string) : string :=
  match s with String a s' => String (f a) (str_map f s') | EmptyString => "" end.
Definition to_ascii_lowercase (s : string) : string := str_map ascii_lower s.
Definition to_ascii_uppercase (s : string) : string := str_map ascii_upper s.
Definition eq_ignore_ascii_case (a b : string) : bool :=
  (to_ascii_lowercase a =? to_ascii_lowercase b)%string.

(** ** Lemmas *)
#[global] Arguments String.append : simpl nomatch.

Lemma ascii_lower_idem c : ascii_lower (ascii_lower c) = ascii_lower c.
Proof. destruct c as [[] [] [] [] [] [] [] []]; reflexivity. Qed.

Lemma str_map_idem f s : (∀ c, f (f c) = f c) → str_map f (str_map f s) = str_map f s.
Proof. intros Hf. induction s as [|a s IH]; simpl; [done|]. by rewrite Hf, IH. Qed.

Lemma to_ascii_lowercase_idem s :
  to_ascii_lowercase (to_ascii_lowercase s) = to_ascii_lowercase s.
Proof. apply str_map_idem, ascii_lower_idem. Qed.

Lemma eq_ignore_ascii_case_refl s : eq_ignore_ascii_case s s = true.
Proof. apply String.eqb_refl. Qed.

Lemma str_rev_app_app a b acc : str_rev_app (a +:+ b) acc = str_rev_app b (str_rev_app a acc).
Proof. revert acc. induction a as [|x a IH]; intros acc; simpl; [done|apply IH]. Qed.

Lemma str_cons_app c t : String c "" +:+ t = String c t.
Proof. done. Qed.

Lemma str_app_nil s : s +:+ "" = s.
Proof. induction s as [|a s IH]; simpl; [done|]. by rewrite IH. Qed.

Lemma str_app_assoc a b c : (a +:+ b) +:+ c = a +:+ (b +:+ c).
Proof. induction a as [|x a IH]; simpl; [done|]. by rewrite IH. Qed.

Lemma str_rev_app_acc s acc : str_rev_app s acc = str_rev s +:+ acc.
Proof.
  unfold str_rev. revert acc. induction s as [|a s IH]; intros acc; simpl; [done|].
  rewrite IH, (IH (String a "")), str_app_assoc. done.
Qed.

Lemma str_rev_cons a s : str_rev (String a s) = str_rev s +:+ String a "".
Proof. unfold str_rev; simpl. apply str_rev_app_acc. Qed.

Lemma str_rev_concat a b : str_rev (a +:+ b) = str_rev b +:+ str_rev a.
Proof. unfold str_rev. rewrite str_rev_app_app. apply str_rev_app_acc. Qed.

Lemma str_rev_involutive s : str_rev (str_rev s) = s.
Proof.
  induction s as [|a s IH]; [done|]. by rewrite str_rev_cons, str_rev_concat, IH.
Qed.

(** A string without the separator is one piece; pieces are recovered from their join. *)
Lemma split_char_free c s : str_contains_char c s = false → split_char c s = [s].
Proof.
  induction s as [|a s IH]; simpl; [done|]. rewrite orb_false_iff. intros [-> Hs].
  by rewrite IH.
Qed.

Lemma split_char_cons c a s :
  str_contains_char c a = false → split_char c (a +:+ String c s) = a :: split_char c s.
Proof.
  induction a as [|x a IH]; simpl.
  - intros _. by rewrite Ascii.eqb_refl.
  - rewrite orb_false_iff. intros [-> Ha]. by rewrite IH.
Qed.

Lemma split_once_char_free c a s :
  str_contains_char c a = false → split_once_char c (a +:+ String c s) = Some (a, s).
Proof.
  induction a as [|x a IH]; simpl.
  - intros _. by rewrite Ascii.eqb_refl.
  - rewrite orb_false_iff. intros [-> Ha]. by rewrite IH.
Qed.

(** Joining with a separator the left part does not contain is injective. *)
Lemma join_inj c a1 s1 a2 s2 :
  str_contains_char c a1 = false → str_contains_char c a2 = false →
  a1 +:+ String c s1 = a2 +:+ String c s2 → a1 = a2 ∧ s1 = s2.
Proof.
  intros H1 H2 E. pose proof (split_once_char_free c a1 s1 H1) as E1.
  rewrite E, split_once_char_free in E1 by done. by simplify_eq.
Qed.

Lemma strip_prefix_spec p s r : strip_prefix p s = Some r ↔ s = p +:+ r.
Proof.
  revert s. induction p as [|a p IH]; intros s; simpl; [naive_solver|].
  destruct s as [|b s]; [done|]. destruct (Ascii.eqb_spec a b) as [->|Hab].
  - rewrite IH. split; [by intros ->|by intros [=]].
  - split; [done|]. by intros [=].
Qed.

Lemma starts_with_spec s p : starts_with s p = true ↔ ∃ r, s = p +:+ r.
Proof.
  unfold starts_with. destruct (strip_prefix p s) as [r|] eqn:E.
  - apply strip_prefix_spec in E. naive_solver.
  - split; [done|]. intros [r Hr%strip_prefix_spec]. congruence.
Qed.

(** A string none of whose bytes can begin or end a white-space character is left alone. *)
Definition ws_free_byte (c : ascii) : bool :=
  (33 <=? byte_of c) && (byte_of c <=? 126).

Lemma ws_free_start s : str_forall ws_free_byte s = true → trim_start s = s.
Proof.
  destruct s as [|a [|b [|c s]]]; simpl; [done|..]; rewrite ?andb_true_iff; intros Hs;
    assert (ws_free_byte a = true) as Ha by tauto; clear Hs;
    revert Ha; destruct a as [[] [] [] [] [] [] [] []]; done.
Qed.

Lemma ws_free_start_rev s : str_forall ws_free_byte s = true → trim_start_rev s = s.
Proof.
  destruct s as [|a [|b [|c s]]]; simpl; [done|..]; rewrite ?andb_true_iff; intros Hs;
    assert (ws_free_byte a = true) as Ha by tauto.
  - revert Ha. destruct a as [[] [] [] [] [] [] [] []]; done.
  - assert (ws2 b a = false) as ->.
    { unfold ws2. revert Ha. destruct a as [[] [] [] [] [] [] [] []]; simpl; try done;
        intros _; apply andb_false_r. }
    revert Ha. destruct a as [[] [] [] [] [] [] [] []]; done.
  - assert (ws2 b a = false) as ->.
    { unfold ws2. revert Ha. destruct a as [[] [] [] [] [] [] [] []]; simpl; try done;
        intros _; apply andb_false_r. }
    assert (ws3 c b a = false) as ->.
    { unfold ws3, ws_free_byte in *. b2p. lia. }
    revert Ha. destruct a as [[] [] [] [] [] [] [] []]; done.
Qed.

Lemma str_forall_impl (f g : ascii → bool) s :
  (∀ c, f c = true → g c = true) → str_forall f s = true → str_forall g s = true.
Proof.
  intros Hfg. induction s as [|a s IH]; simpl; [done|]. rewrite !andb_true_iff. naive_solver.
Qed.

Lemma str_forall_app f a b : str_forall f (a +:+ b) = str_forall f a && str_forall f b.
Proof. induction a as [|x a IH]; simpl; [done|]. by rewrite IH, andb_assoc. Qed.

Lemma str_forall_rev f s : str_forall f (str_rev s) = str_forall f s.
Proof.
  induction s as [|a s IH]; [done|]. rewrite str_rev_cons, str_forall_app, IH. simpl.
  by rewrite andb_true_r, andb_comm.
Qed.

Lemma trim_ws_free s : str_forall ws_free_byte s = true → trim s = s.
Proof.
  intros Hs. unfold trim, trim_end. rewrite ws_free_start by done.
  rewrite ws_free_start_rev by (by rewrite str_forall_rev). apply str_rev_involutive.
Qed.

Lemma str_forall_no_char f c s :
  f c = false → str_forall f s = true → str_contains_char c s = false.
Proof.
  intros Hc. induction s as [|a s IH]; simpl; [done|]. rewrite andb_true_iff. intros [Ha Hs].
  rewrite IH by done. destruct (Ascii.eqb_spec a c); [congruence|done].
Qed.

Lemma zlen_as_bytes s : zlen (as_bytes s) = str_len s.
Proof.
  unfold zlen, str_len, as_bytes. rewrite length_fmap. f_equal.
  induction s as [|a s IH]; simpl; [done|]. by rewrite IH.
Qed.

Lemma byte_of_inj c d : byte_of c = byte_of d → c = d.
Proof.
  unfold byte_of. intros E%N2Z.inj. rewrite <-(ascii_N_embedding c), <-(ascii_N_embedding d).
  by rewrite E.
Qed.

Lemma as_bytes_inj s t : as_bytes s = as_bytes t → s = t.
Proof.
  unfold as_bytes. revert t. induction s as [|a s IH]; intros [|b t]; simpl; try done.
  intros E. injection E as E1 E2. apply byte_of_inj in E1 as ->. by rewrite (IH t E2).
Qed.

(** ** Case folding and trimming commute for a character without case *)
Lemma str_map_app f a b : str_map f (a +:+ b) = str_map f a +:+ str_map f b.
Proof. induction a as [|c a IH]; simpl; [done|]. by rewrite IH. Qed.

Lemma str_map_rev f s : str_map f (str_rev s) = str_rev (str_map f s).
Proof.
  induction s as [|c s IH]; [done|]. rewrite str_rev_cons, str_map_app, IH. simpl.
  by rewrite str_rev_cons.
Qed.

Lemma ascii_lower_dot c : Ascii.eqb (ascii_lower c) "." = Ascii.eqb c ".".
Proof. destruct c as [[] [] [] [] [] [] [] []]; reflexivity. Qed.

Lemma trim_dots_lower s :
  trim_end_matches "." (to_ascii_lowercase s) = to_ascii_lowercase (trim_end_matches "." s).
Proof.
  unfold trim_end_matches, to_ascii_lowercase. rewrite str_map_rev, <-(str_map_rev _ s). f_equal.
  induction (str_rev s) as [|c t IH]; simpl; [done|]. rewrite ascii_lower_dot.
  by destruct (Ascii.eqb c ".").
Qed.

Lemma trim_end_matches_idem c s : trim_end_matches c (trim_end_matches c s) = trim_end_matches c s.
Proof.
  unfold trim_end_matches. rewrite str_rev_involutive. f_equal.
  induction (str_rev s) as [|a t IH]; simpl; [done|].
  destruct (Ascii.eqb a c) eqn:E; [done|]. simpl. by rewrite E.
Qed.

(** ** Splitting and joining *)
Lemma split_char_nonempty c s : split_char c s ≠ [].
Proof. destruct s as [|a s]; simpl; [done|]. destruct (Ascii.eqb a c); [done|]. by destruct (split_char c s). Qed.

Lemma join_split c s : join_str (String c "") (split_char c s) = s.
Proof.
  induction s as [|a s IH]; simpl; [done|]. destruct (Ascii.eqb_spec a c) as [->|Hac].
  - pose proof (split_char_nonempty c s). destruct (split_char c s) as [|h t] eqn:E; [done|].
    simpl in *. by rewrite IH.
  - destruct (split_char c s) as [|h [|h' t]] eqn:E; [by apply split_char_nonempty in E|..]; simpl in *;
      by rewrite IH.
Qed.

Lemma split_join c l :
  l ≠ [] → Forall (λ s, str_contains_char c s = false) l → split_char c (join_str (String c "") l) = l.
Proof.
  induction l as [|x [|y l] IH]; intros Hne Hl; [done|..].
  - apply Forall_cons in Hl as [Hx _]. by apply split_char_free.
  - apply Forall_cons in Hl as [Hx Hl]. change (join_str _ _) with (x +:+ String c "" +:+ join_str (String c "") (y :: l)).
    rewrite str_cons_app, split_char_cons by done. by rewrite IH.
Qed.

Lemma split_forall f c s : str_forall f s = true → Forall (λ l, str_forall f l = true) (split_char c s).
Proof.
  induction s as [|a s IH]; simpl; [by repeat constructor|]. rewrite andb_true_iff. intros [Ha Hs].
  specialize (IH Hs). destruct (Ascii.eqb a c); [by constructor|].
  destruct (split_char c s) as [|h t]; [constructor; [simpl; by rewrite Ha|done]|].
  apply Forall_cons in IH as [Hh Ht]. constructor; [|done]. simpl. by rewrite Ha, Hh.
Qed.

Lemma join_forall f sep l :
  str_forall f sep = true → Forall (λ s, str_forall f s = true) l → str_forall f (join_str sep l) = true.
Proof.
  intros Hsep Hl. induction l as [|x [|y l] IH]; [done|by apply Forall_cons in Hl as [? _]|].
  apply Forall_cons in Hl as [Hx Hl]. change (join_str _ _) with (x +:+ sep +:+ join_str sep (y :: l)).
  by rewrite !str_forall_app, Hx, Hsep, IH.
Qed.

(** ASCII lower case never yields an upper-case letter, and leaves a string without any alone. *)
Lemma lower_not_upper s : str_forall (λ c, negb (is_ascii_uppercase c)) (to_ascii_lowercase s) = true.
Proof.
  induction s as [|a s IH]; [done|]. change (to_ascii_lowercase (String a s)) with (String (ascii_lower a) (to_ascii_lowercase s)).
  simpl. rewrite IH, andb_true_r. destruct a as [[] [] [] [] [] [] [] []]; reflexivity.
Qed.

Lemma lower_id s : str_forall (λ c, negb (is_ascii_uppercase c)) s = true → to_ascii_lowercase s = s.
Proof.
  induction s as [|a s IH]; [done|]. change (to_ascii_lowercase (String a s)) with (String (ascii_lower a) (to_ascii_lowercase s)).
  simpl. rewrite andb_true_iff. intros [Ha Hs]. rewrite IH by done. f_equal.
  unfold ascii_lower. by apply negb_true_iff in Ha as ->.
Qed.

Lemma str_forall_and f g s :
  str_forall f s = true → str_forall g s = true → str_forall (λ c, f c && g c) s = true.
Proof. induction s as [|a s IH]; simpl; [done|]. rewrite !andb_true_iff. naive_solver. Qed.

Lemma as_bytes_of_bytes b : Forall u8_valid b → as_bytes (string_of_bytes b) = b.
Proof.
  unfold as_bytes, string_of_bytes. rewrite String.list_ascii_of_string_of_list_ascii.
  induction 1 as [|x b Hx Hb IH]; [done|]. cbn. f_equal; [|exact IH]. unfold u8_valid, u8_max in Hx.
  unfold byte_of. rewrite N_ascii_embedding by lia. lia.
Qed.

(** ** Cancellation *)
Lemma str_contains_char_app c a b :
  str_contains_char c (a +:+ b) = str_contains_char c a || str_contains_char c b.
Proof. induction a as [|x a IH]; simpl; [done|]. by rewrite IH, orb_assoc. Qed.

Lemma str_app_inj_l (a b c : string) : a +:+ b = a +:+ c → b = c.
Proof. apply (inj (String.append a)). Qed.
Lemma str_app_length (a b : string) : String.length (a +:+ b) = (String.length a + String.length b)%nat.
Proof. induction a; simpl; congruence. Qed.
Lemma str_app_inj_r (a b c : string) : a +:+ c = b +:+ c → a = b.
Proof.
  revert b. induction a as [|x a IH]; intros [|y b] E; [done| | |].
  - apply (f_equal String.length) in E. cbn in E. rewrite str_app_length in E. lia.
  - apply (f_equal String.length) in E. cbn in E. rewrite str_app_length in E. lia.
  - cbn in E. injection E as -> E. f_equal. by apply IH.
Qed.
