(* ===== verification/Externals.v ===== *)
(** * Externals: the third-party crates the code calls

    One operational class per crate (its operations are parameters of every definition that uses
    them) and one class of laws that states documented behaviour.  A law is only assumed by the
    theorems that name its class.  A fallible crate function returns [result string A]: the error
    is the text its [Display] gives, which is all the code ever keeps of it.

    [json] is [serde_json::Value]; objects are association lists in the map's key order. *)
From S2P Require Import Prelude Strs.
Open Scope Z_scope.

(** ** serde_json *)
Inductive json :=
| JNull
| JBool (b : bool)
| JInt (n : Z)
| JFloat (repr : string)
| JString (s : string)
| JArray (l : list json)
| JObject (m : list (string * json)).

(** [Value::get(key)], [Value::as_str], [Value::as_u64], [Value::as_bool], [Value::as_array]. *)
Fixpoint assoc {A} (key : string) (m : list (string * A)) : option A :=
  match m with
  | [] => None
  | (k, v) :: m' => if (k =? key)%string then Some v else assoc key m'
  end.
Definition json_get (v : json) (key : string) : option json :=
  match v with JObject m => assoc key m | _ => None end.
Definition as_str (v : json) : option string := match v with JString s => Some s | _ => None end.
Definition as_u64 (v : json) : option Z :=
  match v with JInt n => if (0 <=? n) && (n <=? u64_max) then Some n else None | _ => None end.
Definition as_bool (v : json) : option bool := match v with JBool b => Some b | _ => None end.
Definition as_array (v : json) : option (list json) := match v with JArray l => Some l | _ => None end.

(** [v.get(key).and_then(|v| v.as_str())]. *)
Definition get_str (v : json) (key : string) : option string := json_get v key ≫= as_str.

(** The values a [serde_json::Value] can be: integers in range, object keys in strictly increasing
    order (the map is a [BTreeMap]). *)
Fixpoint sorted_keys {A} (m : list (string * A)) : bool :=
  match m with
  | (k1, _) :: (((k2, _) :: _) as m') => String.ltb k1 k2 && sorted_keys m'
  | _ => true
  end.
Fixpoint json_wf (v : json) : bool :=
  match v with
  | JInt n => (- i64_max - 1 <=? n) && (n <=? u64_max)
  | JArray l => forallb json_wf l
  | JObject m => sorted_keys m && forallb (λ kv, json_wf (snd kv)) m
  | _ => true
  end.

(** [Map::insert] on the ordered map. *)
Fixpoint json_insert {A} (key : string) (v : A) (m : list (string * A)) : list (string * A) :=
  match m with
  | [] => [(key, v)]
  | (k, w) :: m' =>
      if (k =? key)%string then (key, v) :: m'
      else if String.ltb key k then (key, v) :: m
      else (k, w) :: json_insert key v m'
  end.

Class SerdeJson := {
  (** [serde_json::from_slice::<Value>] and [serde_json::to_string]. *)
  json_from_slice : list Z → result string json;
  json_to_string : json → result string string
}.

(** Printing a float-free value succeeds, and parsing the bytes gives the value back. *)
Fixpoint float_free (v : json) : bool :=
  match v with
  | JFloat _ => false
  | JArray l => forallb float_free l
  | JObject m => forallb (λ kv, float_free (snd kv)) m
  | _ => true
  end.
Class SerdeJsonLaws `{SerdeJson} : Prop := {
  json_roundtrip v : json_wf v = true → float_free v = true →
    ∃ s, json_to_string v = Ok s ∧ json_from_slice (as_bytes s) = Ok v
}.

(** ** base64: the engines [URL_SAFE_NO_PAD] and [URL_SAFE] *)
Class Base64 := {
  b64_no_pad_encode : list Z → string;
  b64_no_pad_decode : string → result string (list Z);
  b64_padded_decode : string → result string (list Z)
}.

(** The alphabet of RFC 4648 section 5. *)
Definition base64url_char (c : ascii) : bool :=
  is_ascii_alphanumeric c || Ascii.eqb c "-" || Ascii.eqb c "_".

Class Base64Laws `{Base64} : Prop := {
  b64_roundtrip b : Forall u8_valid b → b64_no_pad_decode (b64_no_pad_encode b) = Ok b
}.
Class Base64Alphabet `{Base64} : Prop := {
  b64_alphabet b : str_forall base64url_char (b64_no_pad_encode b) = true
}.
(** Unpadded length: four characters per three bytes, rounded up. *)
Class Base64Length `{Base64} : Prop := {
  b64_length b : str_len (b64_no_pad_encode b) = (4 * zlen b + 2) / 3
}.

(** ** subtle: [ct_eq] on slices of equal length *)
Class Subtle := { ct_eq : list Z → list Z → bool }.
Class SubtleLaws `{Subtle} : Prop := {
  ct_eq_spec a b : length a = length b → ct_eq a b = true ↔ a = b
}.

(** ** sha2 *)
Class Sha2 := { sha256 : list Z → list Z }.
Class Sha2Laws `{Sha2} : Prop := {
  sha256_len d : length (sha256 d) = 32%nat;
  sha256_bytes d : Forall u8_valid (sha256 d)
}.

(** ** hmac: [Hmac<Sha256>]. Keys of every length are accepted. *)
Class HmacSha256 := {
  HmacState : Type;
  hmac_new_from_slice : list Z → result string HmacState;
  hmac_update : HmacState → list Z → HmacState;
  hmac_finalize : HmacState → list Z
}.
Class HmacLaws `{HmacSha256} : Prop := {
  hmac_any_key k : is_ok (hmac_new_from_slice k) = true;
  hmac_len h : length (hmac_finalize h) = 32%nat
}.

(** ** p256: ECDSA keys and signatures *)
Class P256 := {
  SigningKey : Type;
  VerifyingKey : Type;
  Signature : Type;
  sk_sign : SigningKey → list Z → Signature;
  sk_verifying_key : SigningKey → VerifyingKey;
  sig_to_bytes : Signature → list Z;
  sig_from_slice : list Z → result string Signature;
  vk_verify : VerifyingKey → list Z → Signature → result string unit;
  vk_from_sec1_bytes : list Z → result string VerifyingKey;
  (** The coordinates of [to_sec1_point(false)]. *)
  vk_sec1_x : VerifyingKey → option (list Z);
  vk_sec1_y : VerifyingKey → option (list Z)
}.

(** Signatures are 64 bytes and parse back, a signature verifies under the signer's key, and the
    uncompressed point of a key determines it. *)
Class P256Laws `{P256} : Prop := {
  sig_len s : length (sig_to_bytes s) = 64%nat;
  sig_bytes s : Forall u8_valid (sig_to_bytes s);
  sig_roundtrip s : sig_from_slice (sig_to_bytes s) = Ok s;
  sign_verifies k m : vk_verify (sk_verifying_key k) m (sk_sign k m) = Ok tt;
  sec1_coords v : ∃ x y, vk_sec1_x v = Some x ∧ vk_sec1_y v = Some y ∧
    length x = 32%nat ∧ length y = 32%nat ∧ Forall u8_valid x ∧ Forall u8_valid y ∧
    vk_from_sec1_bytes (0x04 :: x ++ y) = Ok v
}.

(** [to_sec1_point(true).as_bytes()]: the compressed point, 33 bytes with tag 2 or 3. *)
Class P256Compressed `{P256} := { vk_to_sec1_compressed : VerifyingKey → list Z }.
Definition compressed_point (b : list Z) : Prop :=
  ∃ tag x, b = tag :: x ∧ (tag = 2 ∨ tag = 3) ∧ length x = 32%nat ∧ Forall u8_valid x.
Class P256CompressedLaws `{P256Compressed} : Prop := {
  vk_compressed_shape v : compressed_point (vk_to_sec1_compressed v);
  vk_compressed_roundtrip v : vk_from_sec1_bytes (vk_to_sec1_compressed v) = Ok v
}.

(** Import and export of private keys (PKCS#8 and raw scalars). *)
Class P256Keys `{P256} := {
  sk_from_pkcs8_der : list Z → result string SigningKey;
  sk_from_pkcs8_pem : string → result string SigningKey;
  sk_to_pkcs8_pem : SigningKey → result string string;
  sk_to_bytes : SigningKey → list Z;
  sk_from_slice : list Z → result string SigningKey
}.
(** An exported key imports back; a scalar has 32 bytes. *)
Class P256KeysLaws `{P256Keys} : Prop := {
  pem_roundtrip k : ∃ pem, sk_to_pkcs8_pem k = Ok pem ∧ sk_from_pkcs8_pem pem = Ok k;
  scalar_roundtrip k : sk_from_slice (sk_to_bytes k) = Ok k;
  scalar_len k : length (sk_to_bytes k) = 32%nat;
  scalar_bytes k : Forall u8_valid (sk_to_bytes k)
}.

(** ** k256: ECDSA over secp256k1 *)
Class K256 := {
  Secp256k1VerifyingKey : Type;
  Secp256k1Signature : Type;
  k256_from_sec1_bytes : list Z → result string Secp256k1VerifyingKey;
  k256_to_sec1_compressed : Secp256k1VerifyingKey → list Z;
  k256_sig_from_slice : list Z → result string Secp256k1Signature;
  k256_verify : Secp256k1VerifyingKey → list Z → Secp256k1Signature → result string unit
}.
Class K256Laws `{K256} : Prop := {
  k256_compressed_shape v : compressed_point (k256_to_sec1_compressed v);
  k256_compressed_roundtrip v : k256_from_sec1_bytes (k256_to_sec1_compressed v) = Ok v
}.

(** ** url *)
Class UrlCrate := {
  Url : Type;
  url_parse : string → result string Url;
  url_scheme : Url → string;
  url_host_str : Url → option string;
  url_port : Url → option Z;
  url_path : Url → string;
  (** [as_str] (and [Display]), [port_or_known_default], [join]. *)
  url_as_str : Url → string;
  url_port_or_known_default : Url → option Z;
  url_join : Url → string → result string Url
}.

(** The parts of a URL that metadata validation looks at; [url_origin] is
    [origin().ascii_serialization()]. *)
Class UrlParts `{UrlCrate} := {
  url_username : Url → string;
  url_password : Url → option string;
  url_query : Url → option string;
  url_fragment : Url → option string;
  url_origin : Url → string
}.

(** Editing a URL: [query_pairs_mut().append_pair(..)...] and [set_path]. *)
Class UrlEdit `{UrlCrate} := {
  url_append_pairs : Url → list (string * string) → Url;
  url_set_path : Url → string → Url
}.

(** ** form_urlencoded and serde_urlencoded

    [form_serialize target pairs] is [Serializer::new(target)], one [append_pair] per pair, and
    [finish]; [form_to_string] is [serde_urlencoded::to_string]. *)
Class FormCrate := {
  form_serialize : string → list (string * string) → string;
  form_to_string : list (string * string) → result string string;
  form_parse : string → list (string * string)
}.
(** Parsing gives the pairs back, and appending to a serialised form appends its pairs. *)
Class FormLaws `{FormCrate} : Prop := {
  form_roundtrip ps : form_parse (form_serialize "" ps) = ps;
  form_append ps qs : form_parse (form_serialize (form_serialize "" ps) qs) = ps ++ qs;
  form_to_string_ok ps : form_to_string ps = Ok (form_serialize "" ps)
}.

(** ** aes-gcm: AES-256-GCM and the [STANDARD] Base64 engine, as sealed storage uses them *)
Class AesGcm := {
  AesKey : Type;
  aes_new_from_slice : list Z → result string AesKey;
  aes_encrypt : AesKey → list Z → list Z → list Z → result string (list Z);
  aes_decrypt : AesKey → list Z → list Z → list Z → result string (list Z);
  std_encode : list Z → string;
  std_decode : string → result string (list Z)
}.
(** Arguments of [aes_encrypt] and [aes_decrypt]: nonce, associated data, message.  A 32-byte key is
    accepted; messages and associated data below 2^36 bytes encrypt to 16 bytes more; decryption
    inverts encryption and succeeds on nothing else (it recomputes the tag). *)
Class AesGcmLaws `{AesGcm} : Prop := {
  aes_key_ok k : length k = 32%nat → ∃ key, aes_new_from_slice k = Ok key;
  aes_encrypt_ok key n aad m : zlen m ≤ 2^36 → zlen aad ≤ 2^36 → Forall u8_valid m →
    ∃ c, aes_encrypt key n aad m = Ok c ∧ length c = (length m + 16)%nat ∧ Forall u8_valid c;
  aes_decrypt_iff key n aad c m : aes_decrypt key n aad c = Ok m ↔ aes_encrypt key n aad m = Ok c;
  std_roundtrip b : Forall u8_valid b → std_decode (std_encode b) = Ok b;
  std_alphabet b : str_forall (λ c, is_ascii_alphanumeric c || Ascii.eqb c "+" || Ascii.eqb c "/"
                                    || Ascii.eqb c "=") (std_encode b) = true
}.

(** ** Unicode upper case: [str::to_uppercase] of the standard library, whose tables are not
    reproduced; on ASCII text it is the ASCII mapping. *)
Class UnicodeUpper := { to_uppercase : string → string }.
Definition is_ascii_str (s : string) : bool := str_forall (λ c, byte_of c <? 128) s.
Class UnicodeUpperLaws `{UnicodeUpper} : Prop := {
  to_uppercase_ascii s : is_ascii_str s = true → to_uppercase s = to_ascii_uppercase s
}.
