(* ===== verification/Instances.v ===== *)
(** * Instances: concrete crates that satisfy the laws of [Externals]

    Simple functions with the documented behaviour the laws state, used by the concrete runs of the
    other files; none of them is a model of the crate it stands in for.  They are ordinary
    definitions: a file that wants one declares it as an instance locally. *)
From S2P Require Import Prelude Strs Externals.
Open Scope Z_scope.

(** ** base64: two letters per byte *)
Definition nibble_char (n : Z) : ascii := ascii_of_N (Z.to_N (65 + n)).
Fixpoint nibble_encode (b : list Z) : string :=
  match b with
  | [] => ""
  | x :: b' => String (nibble_char (x / 16 mod 16)) (String (nibble_char (x mod 16)) (nibble_encode b'))
  end.
Fixpoint nibble_decode (s : string) : result string (list Z) :=
  match s with
  | EmptyString => Ok []
  | String h (String l s') =>
      r ← nibble_decode s'; Ok ((byte_of h - 65) * 16 + (byte_of l - 65) :: r)
  | String _ EmptyString => Err "Invalid input length"
  end.
Definition nibble_base64 : Base64 :=
  {| b64_no_pad_encode := nibble_encode; b64_no_pad_decode := nibble_decode;
     b64_padded_decode := nibble_decode |}.

Lemma nibble_byte n : 0 ≤ n < 16 → byte_of (nibble_char n) = 65 + n.
Proof. intros. unfold byte_of, nibble_char. rewrite N_ascii_embedding by lia. lia. Qed.

Lemma nibble_laws : @Base64Laws nibble_base64.
Proof.
  constructor. intros b Hb. cbn. induction Hb as [|x b Hx Hb IH]; [done|]. cbn [nibble_encode nibble_decode].
  rewrite IH. simpl. unfold u8_valid, u8_max in Hx.
  rewrite !nibble_byte by (apply Z.mod_pos_bound; lia). do 2 f_equal.
  Z.to_euclidean_division_equations. lia.
Qed.

Lemma nibble_alphanumeric b : str_forall is_ascii_alphanumeric (nibble_encode b) = true.
Proof.
  induction b as [|x b IH]; [done|]. cbn [nibble_encode str_forall]. rewrite IH, andb_true_r.
  assert (∀ n, 0 ≤ n < 16 → is_ascii_alphanumeric (nibble_char n) = true) as Hn.
  { intros n Hn. unfold is_ascii_alphanumeric, is_ascii_alphabetic, is_ascii_uppercase,
      in_range. rewrite nibble_byte by done. b2p. lia. }
  rewrite !Hn by (apply Z.mod_pos_bound; lia). done.
Qed.

Lemma nibble_alphabet : @Base64Alphabet nibble_base64.
Proof.
  constructor. intros b. eapply str_forall_impl; [|apply nibble_alphanumeric].
  intros c Hc. unfold base64url_char. by rewrite Hc.
Qed.

(** ** sha2: a digest of zeros;  subtle: decidable equality *)
Definition zero_sha2 : Sha2 := {| sha256 := λ _, replicate 32 0 |}.
Lemma zero_sha2_laws : @Sha2Laws zero_sha2.
Proof. constructor; intros d; [done|]. apply Forall_replicate. unfold u8_valid, u8_max. lia. Qed.

Definition plain_subtle : Subtle := {| ct_eq a b := bool_decide (a = b) |}.
Lemma plain_subtle_laws : @SubtleLaws plain_subtle.
Proof. constructor. intros a b _. apply bool_decide_eq_true. Qed.

(** ** p256: a single key that accepts every signature *)
Definition unit_p256 : P256 :=
  {| SigningKey := unit; VerifyingKey := unit; Signature := unit;
     sk_sign := λ _ _, tt; sk_verifying_key := λ _, tt;
     sig_to_bytes := λ _, replicate 64 0; sig_from_slice := λ _, Ok tt;
     vk_verify := λ _ _ _, Ok tt; vk_from_sec1_bytes := λ _, Ok tt;
     vk_sec1_x := λ _, Some (replicate 32 0); vk_sec1_y := λ _, Some (replicate 32 0) |}.
Lemma unit_p256_laws : @P256Laws unit_p256.
Proof.
  assert (∀ n, Forall u8_valid (replicate n 0)) as Hz.
  { intros n. apply Forall_replicate. unfold u8_valid, u8_max. lia. }
  constructor; cbn; try done.
  - intros s. exact (Hz 64%nat).
  - by intros [].
  - intros []. exists (replicate 32 0), (replicate 32 0). repeat split; apply Hz.
Qed.

(** ** to_uppercase: the ASCII mapping *)
Definition ascii_upper_case : UnicodeUpper := {| to_uppercase := to_ascii_uppercase |}.
Lemma ascii_upper_laws : @UnicodeUpperLaws ascii_upper_case.
Proof. by constructor. Qed.

(** ** serde_json: the binary expansion of a numbering of the values *)
Fixpoint json_tree (v : json) : gen_tree (bool + Z + string) :=
  match v with
  | JNull => GenNode 0 []
  | JBool b => GenLeaf (inl (inl b))
  | JInt n => GenLeaf (inl (inr n))
  | JString s => GenLeaf (inr s)
  | JFloat r => GenNode 1 [GenLeaf (inr r)]
  | JArray l => GenNode 2 (json_tree <$> l)
  | JObject m => GenNode 3 ((λ kv, GenNode 4 [GenLeaf (inr (fst kv)); json_tree (snd kv)]) <$> m)
  end.
Fixpoint tree_json (t : gen_tree (bool + Z + string)) : json :=
  match t with
  | GenLeaf (inl (inl b)) => JBool b
  | GenLeaf (inl (inr n)) => JInt n
  | GenLeaf (inr s) => JString s
  | GenNode 0 _ => JNull
  | GenNode 1 [GenLeaf (inr r)] => JFloat r
  | GenNode 2 l => JArray (tree_json <$> l)
  | GenNode 3 m =>
      JObject ((λ t, match t with
                     | GenNode _ [GenLeaf (inr k); v] => (k, tree_json v)
                     | _ => ("", JNull)
                     end) <$> m)
  | _ => JNull
  end.

(** Induction on values through arrays and objects. *)
Lemma json_nested_ind (P : json → Prop) :
  P JNull → (∀ b, P (JBool b)) → (∀ n, P (JInt n)) → (∀ r, P (JFloat r)) → (∀ s, P (JString s)) →
  (∀ l, Forall P l → P (JArray l)) → (∀ m, Forall (λ kv, P (snd kv)) m → P (JObject m)) →
  ∀ v, P v.
Proof.
  intros Hnull Hbool Hint Hfloat Hstr Harr Hobj. fix IH 1. intros [].
  - exact Hnull.
  - apply Hbool.
  - apply Hint.
  - apply Hfloat.
  - apply Hstr.
  - apply Harr. induction l as [|v l IHl]; constructor; [apply IH|exact IHl].
  - apply Hobj. induction m as [|[k v] m IHm]; constructor; [apply IH|exact IHm].
Qed.

Lemma tree_json_tree v : tree_json (json_tree v) = v.
Proof.
  induction v as [| | | | |l Hl|m Hm] using json_nested_ind; try done; cbn; f_equal.
  - induction Hl as [|v l Hv Hl IH]; [done|]. cbn. by f_equal.
  - induction Hm as [|[k v] m Hv Hm IH]; [done|]. cbn in *. rewrite Hv. by f_equal.
Qed.

Fixpoint pos_string (p : positive) : string :=
  match p with
  | xH => ""
  | xO p' => String "0" (pos_string p')
  | xI p' => String "1" (pos_string p')
  end.
Fixpoint bytes_pos (b : list Z) : positive :=
  match b with [] => xH | x :: b' => if x =? 48 then xO (bytes_pos b') else xI (bytes_pos b') end.

Lemma bytes_pos_string p : bytes_pos (as_bytes (pos_string p)) = p.
Proof. unfold as_bytes. induction p as [p IH|p IH|]; [..|done]; cbn in *; by rewrite IH. Qed.

Definition numbered_json : SerdeJson :=
  {| json_to_string v := Ok (pos_string (encode (json_tree v)));
     json_from_slice b := match decode (bytes_pos b) with
                          | Some t => Ok (tree_json t)
                          | None => Err "expected value"
                          end |}.
Lemma numbered_json_laws : @SerdeJsonLaws numbered_json.
Proof.
  constructor. intros v _ _. eexists. split; [done|]. cbn.
  by rewrite bytes_pos_string, decode_encode, tree_json_tree.
Qed.

(** ** form_urlencoded: a tagged numbering of the pairs *)
Definition numbered_form_parse (t : string) : list (string * string) :=
  match t with String "f" t' => default [] (decode (bytes_pos (as_bytes t'))) | _ => [] end.
Definition numbered_form : FormCrate :=
  {| form_parse := numbered_form_parse;
     form_serialize t qs := String "f" (pos_string (encode (numbered_form_parse t ++ qs)));
     form_to_string qs := Ok (String "f" (pos_string (encode qs))) |}.
Lemma numbered_form_laws : @FormLaws numbered_form.
Proof.
  assert (∀ l, numbered_form_parse (String "f" (pos_string (encode l))) = l) as Hp.
  { intros l. cbn. by rewrite bytes_pos_string, decode_encode. }
  split; cbn -[numbered_form_parse]; intros; by rewrite ?Hp.
Qed.
