(* ===== verification/Crypto.v ===== *)
(** * Crypto: src/src/crypto.rs and the constant-time comparison kernel

    The wrappers of crypto.rs over the crates of [Externals], and
    src/src/kernels/ct_eq.rs with the two reference definitions of [ConstantTimeEqSpec]
    (src/src/verification/formal_models.rs). *)
From S2P Require Import Prelude Errors Strs Externals.
Open Scope Z_scope.

(** [Display] for [CryptoError]. *)
Definition CryptoError_display (e : CryptoError) : string :=
  match e with
  | CryptoError_EcdsaSign m => "ECDSA P-256 signature generation error: " +:+ m
  | CryptoError_EcdsaVerify m => "ECDSA P-256 signature verification failed: " +:+ m
  | CryptoError_InvalidKey m => "Invalid cryptographic key: " +:+ m
  | CryptoError_InvalidPoint m => "Invalid elliptic curve point: " +:+ m
  | CryptoError_Base64Decode m => "Base64 decode error: " +:+ m
  | CryptoError_Json m => "JSON serialization/deserialization error: " +:+ m
  | CryptoError_Rng m => "Random number generator error: " +:+ m
  | CryptoError_Hmac m => "HMAC error: " +:+ m
  | CryptoError_Pem m => "PEM decoding error: " +:+ m
  | CryptoError_Seal m => "Authenticated encryption failed: " +:+ m
  | CryptoError_Open m => "Authenticated decryption failed: " +:+ m
  | CryptoError_InvalidEnvelope m => "Invalid sealed envelope: " +:+ m
  | CryptoError_Utf8 m => "Decrypted payload is not valid UTF-8: " +:+ m
  end.

(** ** Constant-time equality *)
Section ct.
Context `{Subtle}.

Definition constant_time_eq (a b : list Z) : bool :=
  if negb (zlen a =? zlen b) then false else ct_eq a b.

Lemma constant_time_eq_spec `{!SubtleLaws} a b : constant_time_eq a b = true ↔ a = b.
Proof.
  unfold constant_time_eq, zlen. case_if; b2p.
  - split; [done|]. intros ->. lia.
  - apply ct_eq_spec. lia.
Qed.

Lemma constant_time_eq_false `{!SubtleLaws} a b : constant_time_eq a b = false ↔ a ≠ b.
Proof. by rewrite <-not_true_iff_false, constant_time_eq_spec. Qed.
End ct.

(** [ConstantTimeEqSpec]: element-wise comparison and the XOR accumulator. *)
Fixpoint slice_eq_loop (a b : list Z) : bool :=
  match a, b with
  | x :: a', y :: b' => if negb (x =? y) then false else slice_eq_loop a' b'
  | _, _ => true
  end.
Definition spec_slice_eq (a b : list Z) : bool :=
  if negb (zlen a =? zlen b) then false else slice_eq_loop a b.

Fixpoint xor_accumulate (diff : Z) (a b : list Z) : Z :=
  match a, b with
  | x :: a', y :: b' => xor_accumulate (Z.lor diff (Z.lxor x y)) a' b'
  | _, _ => diff
  end.
Definition spec_constant_time_eq_model (a b : list Z) : bool :=
  if negb (zlen a =? zlen b) then false else xor_accumulate 0 a b =? 0.

Definition verify_soundness (a b : list Z) : bool :=
  Bool.eqb (spec_constant_time_eq_model a b) (spec_slice_eq a b).

Lemma slice_eq_loop_spec a b : length a = length b → slice_eq_loop a b = true ↔ a = b.
Proof.
  revert b. induction a as [|x a IH]; intros [|y b] Hl; simplify_eq/=; [done|].
  case_if; b2p; [naive_solver|]. subst. rewrite IH by done. naive_solver.
Qed.

Lemma spec_slice_eq_spec a b : spec_slice_eq a b = true ↔ a = b.
Proof.
  unfold spec_slice_eq, zlen. case_if; b2p.
  - split; [done|]. intros ->. lia.
  - apply slice_eq_loop_spec. lia.
Qed.

(** The accumulator is zero iff it started at zero and every pair of bytes agreed. *)
Lemma xor_accumulate_zero diff a b :
  length a = length b → xor_accumulate diff a b = 0 ↔ diff = 0 ∧ a = b.
Proof.
  revert diff b. induction a as [|x a IH]; intros diff [|y b] Hl; simplify_eq/=; [naive_solver|].
  rewrite IH by done. rewrite Z.lor_eq_0_iff, Z.lxor_eq_0_iff. naive_solver.
Qed.

Lemma xor_model_spec a b : spec_constant_time_eq_model a b = true ↔ a = b.
Proof.
  unfold spec_constant_time_eq_model, zlen. case_if; b2p.
  - split; [done|]. intros ->. lia.
  - rewrite xor_accumulate_zero by lia. naive_solver.
Qed.

(** ** HMAC-SHA-256 *)
Section hmac.
Context `{HmacSha256}.

Definition hmac_sha256 (key message : list Z) : result CryptoError (list Z) :=
  mac ← map_err (λ e, CryptoError_Hmac ("Failed to initialize HMAC: " +:+ e)) (hmac_new_from_slice key);
  Ok (hmac_finalize (hmac_update mac message)).

(** Every key yields a code of 32 bytes. *)
Lemma hmac_sha256_total `{!HmacLaws} key message :
  ∃ out, hmac_sha256 key message = Ok out ∧ length out = 32%nat.
Proof.
  unfold hmac_sha256. pose proof (hmac_any_key key) as Hk.
  destruct (hmac_new_from_slice key); [|done]. eexists. split; [reflexivity|apply hmac_len].
Qed.
End hmac.

(** ** Wrappers *)
Section wrappers.
Context `{Base64} `{Sha2} `{P256}.

Definition sha256_digest (data : list Z) : list Z := sha256 data.

Definition base64url_encode (data : list Z) : string := b64_no_pad_encode data.

Definition base64url_decode (input : string) : result CryptoError (list Z) :=
  map_err (λ e, CryptoError_Base64Decode ("Invalid base64url data: " +:+ e))
    (match b64_no_pad_decode (trim input) with
     | Ok b => Ok b
     | Err _ => b64_padded_decode (trim input)
     end).

Definition base64url_decode_fixed (N : Z) (input : string) : result CryptoError (list Z) :=
  bytes ← base64url_decode input;
  if negb (zlen bytes =? N)
  then Err (CryptoError_Base64Decode
         ("Expected " +:+ pretty N +:+ " bytes after base64url decode, got " +:+ pretty (zlen bytes)))
  else Ok bytes.

Definition sign_p256_raw (signing_key : SigningKey) (message : list Z)
    : result CryptoError (list Z) :=
  let bytes := sig_to_bytes (sk_sign signing_key message) in
  if negb (zlen bytes =? 64)
  then Err (CryptoError_EcdsaSign
         ("Signature generated unexpected length " +:+ pretty (zlen bytes) +:+ ", expected 64"))
  else Ok bytes.

Definition verify_p256_raw (verifying_key : VerifyingKey) (message signature_bytes : list Z)
    : result CryptoError unit :=
  if negb (zlen signature_bytes =? 64)
  then Err (CryptoError_EcdsaVerify
         ("Invalid IEEE P1363 signature length: expected 64 bytes, got "
          +:+ pretty (zlen signature_bytes)))
  else
    sig ← map_err (λ e, CryptoError_EcdsaVerify ("Failed to parse signature: " +:+ e))
            (sig_from_slice signature_bytes);
    map_err (λ e, CryptoError_EcdsaVerify ("Signature verification failed: " +:+ e))
      (vk_verify verifying_key message sig).

Definition verifying_key_from_coordinates (x_bytes y_bytes : list Z)
    : result CryptoError VerifyingKey :=
  map_err (λ e, CryptoError_InvalidPoint ("Invalid P-256 public key point: " +:+ e))
    (vk_from_sec1_bytes (0x04 :: x_bytes ++ y_bytes)).

(** [out[32 - len..].copy_from_slice(&c[..len])] on a zeroed array, [len = min(32, c.len())]. *)
Definition pad_coordinate (c : option (list Z)) : list Z :=
  match c with
  | Some c => replicate (32 - Nat.min (length c) 32) 0 ++ take (Nat.min (length c) 32) c
  | None => replicate 32 0
  end.

Definition verifying_key_to_coordinates (verifying_key : VerifyingKey) : list Z * list Z :=
  (pad_coordinate (vk_sec1_x verifying_key), pad_coordinate (vk_sec1_y verifying_key)).

Definition dquote : string := String (ascii_of_N 34) "".
Definition quoted (s : string) : string := dquote +:+ s +:+ dquote.

Definition jwk_thumbprint_ec_p256 (x y : string) : string :=
  let canonical_json :=
    "{" +:+ quoted "crv" +:+ ":" +:+ quoted "P-256" +:+ "," +:+ quoted "kty" +:+ ":" +:+ quoted "EC"
    +:+ "," +:+ quoted "x" +:+ ":" +:+ quoted x +:+ "," +:+ quoted "y" +:+ ":" +:+ quoted y +:+ "}" in
  base64url_encode (sha256_digest (as_bytes canonical_json)).

Definition jwk_thumbprint_rsa (e n : string) : string :=
  let canonical_json :=
    "{" +:+ quoted "e" +:+ ":" +:+ quoted e +:+ "," +:+ quoted "kty" +:+ ":" +:+ quoted "RSA"
    +:+ "," +:+ quoted "n" +:+ ":" +:+ quoted n +:+ "}" in
  base64url_encode (sha256_digest (as_bytes canonical_json)).

(** ** Facts *)
Lemma base64url_char_ws_free c : base64url_char c = true → ws_free_byte c = true.
Proof. destruct c as [[] [] [] [] [] [] [] []]; done. Qed.

Lemma base64url_encode_trim `{!Base64Alphabet} b : trim (base64url_encode b) = base64url_encode b.
Proof.
  apply trim_ws_free. eapply str_forall_impl; [apply base64url_char_ws_free|apply b64_alphabet].
Qed.

Lemma base64url_roundtrip `{!Base64Laws} `{!Base64Alphabet} b :
  Forall u8_valid b → base64url_decode (base64url_encode b) = Ok b.
Proof.
  intros Hb. unfold base64url_decode. rewrite base64url_encode_trim.
  unfold base64url_encode. by rewrite b64_roundtrip.
Qed.

Lemma base64url_no_char `{!Base64Alphabet} c b :
  base64url_char c = false → str_contains_char c (base64url_encode b) = false.
Proof. intros Hc. eapply str_forall_no_char; [exact Hc|apply b64_alphabet]. Qed.

Lemma as_bytes_valid s : Forall u8_valid (as_bytes s).
Proof.
  unfold as_bytes. apply Forall_fmap, Forall_true. intros c. unfold compose, byte_of.
  pose proof (N_ascii_bounded c). unfold u8_valid, u8_max. lia.
Qed.

Lemma pad_coordinate_32 c : length c = 32%nat → pad_coordinate (Some c) = c.
Proof.
  intros Hc. unfold pad_coordinate. rewrite Hc. simpl. rewrite take_ge by lia. done.
Qed.

(** A key survives the trip through its coordinates. *)
Lemma coordinates_roundtrip `{!P256Laws} v :
  verifying_key_from_coordinates (verifying_key_to_coordinates v).1
    (verifying_key_to_coordinates v).2 = Ok v.
Proof.
  destruct (sec1_coords v) as (x & y & Hx & Hy & Lx & Ly & _ & _ & Hv).
  unfold verifying_key_from_coordinates, verifying_key_to_coordinates; simpl.
  rewrite Hx, Hy, !pad_coordinate_32 by done. by rewrite Hv.
Qed.

Lemma sign_verify_raw `{!P256Laws} k m :
  ∃ s, sign_p256_raw k m = Ok s ∧ length s = 64%nat ∧ Forall u8_valid s ∧
       verify_p256_raw (sk_verifying_key k) m s = Ok tt.
Proof.
  exists (sig_to_bytes (sk_sign k m)).
  unfold sign_p256_raw, verify_p256_raw, zlen. rewrite sig_len; simpl.
  repeat split; [apply sig_bytes|]. rewrite sig_roundtrip; simpl. by rewrite sign_verifies.
Qed.
End wrappers.

(** ** Property *)

(** Constant-time comparison is comparison: the production function, the XOR-accumulator model
    and the element-wise specification return [true] exactly on equal byte strings, so the
    repository's soundness check [verify_soundness] holds of all inputs. *)
Theorem constant_time_eq_sound `{SubtleLaws} (a b : list Z) :
  (constant_time_eq a b = true ↔ a = b) ∧
  (spec_constant_time_eq_model a b = true ↔ a = b) ∧
  (spec_slice_eq a b = true ↔ a = b) ∧ verify_soundness a b = true.
Proof.
  repeat split; try apply constant_time_eq_spec; try apply xor_model_spec;
    try apply spec_slice_eq_spec.
  unfold verify_soundness. apply eqb_true_iff, eq_iff_eq_true.
  by rewrite xor_model_spec, spec_slice_eq_spec.
Qed.

(** ** A concrete instance *)
Module CryptoExamples.
(** A comparison that satisfies the law of the crate. *)
#[local] Instance subtle_example : Subtle := {| ct_eq a b := bool_decide (a = b) |}.
#[local] Instance subtle_example_laws : SubtleLaws.
Proof. split. intros a b _. apply bool_decide_eq_true. Qed.

Lemma constant_time_eq_sound_witness :
  constant_time_eq (as_bytes "abc") (as_bytes "abc") = true ∧
  constant_time_eq (as_bytes "abc") (as_bytes "abd") = false.
Proof.
  split; [by apply constant_time_eq_sound|].
  apply not_true_iff_false. intros E%constant_time_eq_sound. discriminate E.
Defined.
End CryptoExamples.
