(* ===== verification/IpFilter.v ===== *)
(** * IpFilter: the IP restriction kernel of the SSRF filter

    Models src/src/kernels/ip_filter.rs (the plain-rustc kernels and the adapters over
    [std::net]) and the executable specification [SsrfFormalSpec] of
    src/src/verification/formal_models.rs.  The kernels are proved equal to membership in the
    documented CIDR blocks, stated on the 32-bit and 128-bit address values. *)
From S2P Require Import Prelude.
Open Scope Z_scope.

(** ** [std::net] addresses *)

(** [Ipv4Addr]: four octets.  [Ipv6Addr]: eight 16-bit segments. *)
Record Ipv4Addr := mkV4 { v4_a : Z; v4_b : Z; v4_c : Z; v4_d : Z }.
Record Ipv6Addr := mkV6 { v6_0 : Z; v6_1 : Z; v6_2 : Z; v6_3 : Z;
                          v6_4 : Z; v6_5 : Z; v6_6 : Z; v6_7 : Z }.
Inductive IpAddr := V4 (ip : Ipv4Addr) | V6 (ip : Ipv6Addr).

#[export] Instance Ipv4Addr_eq_dec : EqDecision Ipv4Addr.
Proof. solve_decision. Defined.
#[export] Instance Ipv6Addr_eq_dec : EqDecision Ipv6Addr.
Proof. solve_decision. Defined.
#[export] Instance IpAddr_eq_dec : EqDecision IpAddr.
Proof. solve_decision. Defined.

Definition v4_valid (ip : Ipv4Addr) : Prop :=
  u8_valid (v4_a ip) ∧ u8_valid (v4_b ip) ∧ u8_valid (v4_c ip) ∧ u8_valid (v4_d ip).
Definition v6_valid (ip : Ipv6Addr) : Prop :=
  u16_valid (v6_0 ip) ∧ u16_valid (v6_1 ip) ∧ u16_valid (v6_2 ip) ∧ u16_valid (v6_3 ip) ∧
  u16_valid (v6_4 ip) ∧ u16_valid (v6_5 ip) ∧ u16_valid (v6_6 ip) ∧ u16_valid (v6_7 ip).
Definition ip_valid (ip : IpAddr) : Prop :=
  match ip with V4 v4 => v4_valid v4 | V6 v6 => v6_valid v6 end.

(** [Ipv6Addr::is_unspecified], [is_loopback] and [to_ipv4_mapped] of the standard library. *)
Definition v6_is_unspecified (ip : Ipv6Addr) : bool := bool_decide (ip = mkV6 0 0 0 0 0 0 0 0).
Definition v6_is_loopback (ip : Ipv6Addr) : bool := bool_decide (ip = mkV6 0 0 0 0 0 0 0 1).
Definition v6_to_ipv4_mapped (ip : Ipv6Addr) : option Ipv4Addr :=
  let '(mkV6 s0 s1 s2 s3 s4 s5 s6 s7) := ip in
  if (s0 =? 0) && (s1 =? 0) && (s2 =? 0) && (s3 =? 0) && (s4 =? 0) && (s5 =? 0xffff)
  then Some (mkV4 (Z.shiftr s6 8) (Z.land s6 0xff) (Z.shiftr s7 8) (Z.land s7 0xff))
  else None.

(** ** The kernels *)

Definition is_restricted_ipv4_octets (o0 o1 o2 o3 : Z) : bool :=
  (o0 =? 0)
  || (o0 =? 10)
  || ((o0 =? 100) && (Z.land o1 0xC0 =? 64))
  || (o0 =? 127)
  || ((o0 =? 169) && (o1 =? 254))
  || ((o0 =? 172) && (o1 >=? 16) && (o1 <=? 31))
  || ((o0 =? 192) && (o1 =? 0) && (o2 =? 0))
  || ((o0 =? 192) && (o1 =? 0) && (o2 =? 2))
  || ((o0 =? 192) && (o1 =? 88) && (o2 =? 99))
  || ((o0 =? 192) && (o1 =? 168))
  || ((o0 =? 198) && ((o1 =? 18) || (o1 =? 19)))
  || ((o0 =? 198) && (o1 =? 51) && (o2 =? 100))
  || ((o0 =? 203) && (o1 =? 0) && (o2 =? 113))
  || ((o0 >=? 224) && (o0 <=? 239))
  || (o0 >=? 240).

Definition is_restricted_ipv6_segments (s0 s1 s2 s3 s4 s5 s6 s7 : Z) : bool :=
  ((s0 =? 0) && (s1 =? 0) && (s2 =? 0) && (s3 =? 0) && (s4 =? 0) && (s5 =? 0) && (s6 =? 0)
   && (s7 =? 0))
  || ((s0 =? 0) && (s1 =? 0) && (s2 =? 0) && (s3 =? 0) && (s4 =? 0) && (s5 =? 0) && (s6 =? 0)
      && (s7 =? 1))
  || ((s0 =? 0) && (s1 =? 0) && (s2 =? 0) && (s3 =? 0) && (s4 =? 0) && (s5 =? 0xffff)
      && is_restricted_ipv4_octets (Z.land (Z.shiftr s6 8) 0xff) (Z.land s6 0xff)
           (Z.land (Z.shiftr s7 8) 0xff) (Z.land s7 0xff))
  || ((s0 =? 0) && (s1 =? 0) && (s2 =? 0) && (s3 =? 0) && (s4 =? 0xffff) && (s5 =? 0))
  || ((s0 =? 0x0064) && (s1 =? 0xff9b) && (s2 =? 0) && (s3 =? 0) && (s4 =? 0) && (s5 =? 0))
  || ((s0 =? 0x2001) && (s1 =? 0x0db8))
  || ((s0 =? 0x2001) && (s1 =? 0))
  || ((s0 =? 0x2002)
      && is_restricted_ipv4_octets (Z.land (Z.shiftr s1 8) 0xff) (Z.land s1 0xff)
           (Z.land (Z.shiftr s2 8) 0xff) (Z.land s2 0xff))
  || (Z.land s0 0xfe00 =? 0xfc00)
  || (Z.land s0 0xffc0 =? 0xfe80)
  || (Z.land s0 0xffc0 =? 0xfec0)
  || (Z.land s0 0xff00 =? 0xff00).

Definition is_restricted_ipv4 (ip : Ipv4Addr) : bool :=
  is_restricted_ipv4_octets (v4_a ip) (v4_b ip) (v4_c ip) (v4_d ip).
Definition is_restricted_ipv6 (ip : Ipv6Addr) : bool :=
  is_restricted_ipv6_segments (v6_0 ip) (v6_1 ip) (v6_2 ip) (v6_3 ip)
    (v6_4 ip) (v6_5 ip) (v6_6 ip) (v6_7 ip).
Definition is_restricted_ip (ip : IpAddr) : bool :=
  match ip with V4 v4 => is_restricted_ipv4 v4 | V6 v6 => is_restricted_ipv6 v6 end.

(** ** [SsrfFormalSpec]: the repository's own executable specification *)

Definition spec_is_restricted_ipv4 (ip : Ipv4Addr) : bool :=
  let '(mkV4 o0 o1 o2 _) := ip in
  (o0 =? 0)
  || (o0 =? 10)
  || ((o0 =? 100) && (Z.land o1 0xC0 =? 64))
  || (o0 =? 127)
  || ((o0 =? 169) && (o1 =? 254))
  || ((o0 =? 172) && bool_decide (16 ≤ o1 ≤ 31))
  || ((o0 =? 192) && (o1 =? 0) && (o2 =? 0))
  || ((o0 =? 192) && (o1 =? 0) && (o2 =? 2))
  || ((o0 =? 192) && (o1 =? 88) && (o2 =? 99))
  || ((o0 =? 192) && (o1 =? 168))
  || ((o0 =? 198) && ((o1 =? 18) || (o1 =? 19)))
  || ((o0 =? 198) && (o1 =? 51) && (o2 =? 100))
  || ((o0 =? 203) && (o1 =? 0) && (o2 =? 113))
  || bool_decide (224 ≤ o0 ≤ 239)
  || (o0 >=? 240).

Definition spec_is_restricted_ipv6 (ip : Ipv6Addr) : bool :=
  let '(mkV6 s0 s1 s2 s3 s4 s5 s6 s7) := ip in
  v6_is_unspecified ip
  || v6_is_loopback ip
  || (match v6_to_ipv4_mapped ip with
      | Some mapped => spec_is_restricted_ipv4 mapped
      | None => false
      end)
  || ((s0 =? 0) && (s1 =? 0) && (s2 =? 0) && (s3 =? 0) && (s4 =? 0xffff) && (s5 =? 0))
  || ((s0 =? 0x0064) && (s1 =? 0xff9b) && (s2 =? 0) && (s3 =? 0) && (s4 =? 0) && (s5 =? 0))
  || ((s0 =? 0x2001) && (s1 =? 0x0db8))
  || ((s0 =? 0x2001) && (s1 =? 0))
  || ((s0 =? 0x2002)
      && spec_is_restricted_ipv4 (mkV4 (Z.land (Z.shiftr s1 8) 0xff) (Z.land s1 0xff)
           (Z.land (Z.shiftr s2 8) 0xff) (Z.land s2 0xff)))
  || (Z.land s0 0xfe00 =? 0xfc00)
  || (Z.land s0 0xffc0 =? 0xfe80)
  || (Z.land s0 0xffc0 =? 0xfec0)
  || (Z.land s0 0xff00 =? 0xff00).

Definition spec_is_restricted_ip (ip : IpAddr) : bool :=
  match ip with V4 v4 => spec_is_restricted_ipv4 v4 | V6 v6 => spec_is_restricted_ipv6 v6 end.

(** ** The documented blocks, on address values

    A block [base/len] of a [w]-bit address space contains the addresses that agree with [base]
    on the [len] leading bits. *)
Definition in_cidr (w addr : Z) (block : Z * Z) : Prop :=
  Z.shiftr addr (w - snd block) = Z.shiftr (fst block) (w - snd block).

Definition v4_value (ip : Ipv4Addr) : Z :=
  v4_a ip * 2^24 + v4_b ip * 2^16 + v4_c ip * 2^8 + v4_d ip.
Definition v6_value (ip : Ipv6Addr) : Z :=
  v6_0 ip * 2^112 + v6_1 ip * 2^96 + v6_2 ip * 2^80 + v6_3 ip * 2^64 +
  v6_4 ip * 2^48 + v6_5 ip * 2^32 + v6_6 ip * 2^16 + v6_7 ip.

(** The ranges the doc comment of [is_restricted_ipv4_octets] lists (ip_filter.rs 248-262). *)
Definition restricted_v4_blocks : list (Z * Z) :=
  [ (v4_value (mkV4 0 0 0 0), 8);       (v4_value (mkV4 10 0 0 0), 8);
    (v4_value (mkV4 100 64 0 0), 10);   (v4_value (mkV4 127 0 0 0), 8);
    (v4_value (mkV4 169 254 0 0), 16);  (v4_value (mkV4 172 16 0 0), 12);
    (v4_value (mkV4 192 0 0 0), 24);    (v4_value (mkV4 192 0 2 0), 24);
    (v4_value (mkV4 192 88 99 0), 24);  (v4_value (mkV4 192 168 0 0), 16);
    (v4_value (mkV4 198 18 0 0), 15);   (v4_value (mkV4 198 51 100 0), 24);
    (v4_value (mkV4 203 0 113 0), 24);  (v4_value (mkV4 224 0 0 0), 4);
    (v4_value (mkV4 240 0 0 0), 4) ].

(** The ranges of the doc comment of [is_restricted_ipv6_segments] (ip_filter.rs 293-307) that
    are blocked wholesale; [::ffff:0:0/96] and [2002::/16] are blocked through the IPv4 address
    they embed. *)
Definition restricted_v6_blocks : list (Z * Z) :=
  [ (v6_value (mkV6 0 0 0 0 0 0 0 0), 128);      (v6_value (mkV6 0 0 0 0 0 0 0 1), 128);
    (v6_value (mkV6 0 0 0 0 0xffff 0 0 0), 96);
    (v6_value (mkV6 0x64 0xff9b 0 0 0 0 0 0), 96);
    (v6_value (mkV6 0x2001 0xdb8 0 0 0 0 0 0), 32);
    (v6_value (mkV6 0x2001 0 0 0 0 0 0 0), 32);
    (v6_value (mkV6 0xfc00 0 0 0 0 0 0 0), 7);
    (v6_value (mkV6 0xfe80 0 0 0 0 0 0 0), 10);
    (v6_value (mkV6 0xfec0 0 0 0 0 0 0 0), 10);
    (v6_value (mkV6 0xff00 0 0 0 0 0 0 0), 8) ].

Definition v4_blocked (addr : Z) : Prop := Exists (in_cidr 32 addr) restricted_v4_blocks.

Definition v6_blocked (addr : Z) : Prop :=
  Exists (in_cidr 128 addr) restricted_v6_blocks
  ∨ (in_cidr 128 addr (v6_value (mkV6 0 0 0 0 0 0xffff 0 0), 96) ∧ v4_blocked (addr mod 2^32))
  ∨ (in_cidr 128 addr (v6_value (mkV6 0x2002 0 0 0 0 0 0 0), 16)
     ∧ v4_blocked (Z.shiftr addr 80 mod 2^32)).

Arguments spec_is_restricted_ipv4 : simpl never.
Arguments is_restricted_ipv4_octets : simpl never.

(** ** Bit-level facts used by the proofs *)

(** Masking a [w]-bit value with its [w - k] high bits clears the [k] low bits. *)
Lemma land_high_mask w k m x :
  0 ≤ k → 0 ≤ w → 0 ≤ x < 2 ^ w → m = Z.land (Z.lnot (Z.ones k)) (Z.ones w) →
  Z.land x m = x / 2 ^ k * 2 ^ k.
Proof.
  intros Hk Hw Hx ->. rewrite Z.land_assoc, <-Z.ldiff_land, Z.ldiff_ones_r by lia.
  rewrite Z.land_ones, Z.shiftl_mul_pow2, Z.shiftr_div_pow2 by lia.
  apply Z.mod_small. pose proof (Z.pow_pos_nonneg 2 k).
  pose proof (Z.mul_div_le x (2 ^ k)). pose proof (Z.div_pos x (2 ^ k)). nia.
Qed.

Lemma land_c0 x : u8_valid x → Z.land x 0xC0 = 64 ↔ x / 64 = 1.
Proof.
  intros Hx. unfold u8_valid, u8_max in *. rewrite (land_high_mask 8 6) by (done || lia).
  change (2 ^ 6) with 64. lia.
Qed.

Lemma land_fe00 x : u16_valid x → Z.land x 0xfe00 = 0xfc00 ↔ x / 512 = 126.
Proof.
  intros Hx. unfold u16_valid, u16_max in *. rewrite (land_high_mask 16 9) by (done || lia).
  change (2 ^ 9) with 512. lia.
Qed.

Lemma land_ffc0 x b : u16_valid x → Z.land x 0xffc0 = b * 64 ↔ x / 64 = b.
Proof.
  intros Hx. unfold u16_valid, u16_max in *. rewrite (land_high_mask 16 6) by (done || lia).
  change (2 ^ 6) with 64. lia.
Qed.

Lemma land_ff00 x : u16_valid x → Z.land x 0xff00 = 0xff00 ↔ x / 256 = 255.
Proof.
  intros Hx. unfold u16_valid, u16_max in *. rewrite (land_high_mask 16 8) by (done || lia).
  change (2 ^ 8) with 256. lia.
Qed.

(** The two octets of a segment. *)
Lemma seg_lo s : Z.land s 0xff = s mod 256.
Proof. change 0xff with (Z.ones 8). by rewrite Z.land_ones. Qed.

Lemma seg_hi s : u16_valid s → Z.land (Z.shiftr s 8) 0xff = s / 256.
Proof.
  intros Hs. unfold u16_valid, u16_max in Hs. rewrite seg_lo, Z.shiftr_div_pow2 by lia.
  change (2 ^ 8) with 256. apply Z.mod_small. split; [apply Z.div_pos; lia|].
  apply Z.div_lt_upper_bound; lia.
Qed.

Lemma seg_hi_nomask s : Z.shiftr s 8 = s / 256.
Proof. by rewrite Z.shiftr_div_pow2. Qed.

(** Membership of one IPv4 address in a block of each prefix length that occurs. *)
Section v4_prefixes.
Context (o0 o1 o2 o3 : Z).
Context (H0 : u8_valid o0) (H1 : u8_valid o1) (H2 : u8_valid o2) (H3 : u8_valid o3).
Let addr := v4_value (mkV4 o0 o1 o2 o3).

Ltac prefix := unfold addr, v4_value, u8_valid, u8_max in *; simpl;
    rewrite Z.shiftr_div_pow2 by lia; simpl; Z.to_euclidean_division_equations; lia.

Lemma v4_shift_28 : Z.shiftr addr 28 = o0 / 16.
Proof using H0 H1 H2 H3. prefix. Qed.
Lemma v4_shift_24 : Z.shiftr addr 24 = o0.
Proof using H0 H1 H2 H3. prefix. Qed.
Lemma v4_shift_22 : Z.shiftr addr 22 = o0 * 4 + o1 / 64.
Proof using H0 H1 H2 H3. prefix. Qed.
Lemma v4_shift_20 : Z.shiftr addr 20 = o0 * 16 + o1 / 16.
Proof using H0 H1 H2 H3. prefix. Qed.
Lemma v4_shift_17 : Z.shiftr addr 17 = o0 * 128 + o1 / 2.
Proof using H0 H1 H2 H3. prefix. Qed.
Lemma v4_shift_16 : Z.shiftr addr 16 = o0 * 256 + o1.
Proof using H0 H1 H2 H3. prefix. Qed.
Lemma v4_shift_8 : Z.shiftr addr 8 = o0 * 65536 + o1 * 256 + o2.
Proof using H0 H1 H2 H3. prefix. Qed.
End v4_prefixes.

(** Compare two disjunctions disjunct by disjunct. *)
Ltac disjuncts :=
  rewrite !Logic.or_assoc;
  repeat (apply Morphisms_Prop.or_iff_morphism;
    [solve [vm_compute Z.shiftr; Z.to_euclidean_division_equations; lia]|]);
  Z.to_euclidean_division_equations; lia.

Lemma is_restricted_ipv4_octets_blocks o0 o1 o2 o3 :
  u8_valid o0 → u8_valid o1 → u8_valid o2 → u8_valid o3 →
  is_restricted_ipv4_octets o0 o1 o2 o3 = true ↔ v4_blocked (v4_value (mkV4 o0 o1 o2 o3)).
Proof.
  intros H0 H1 H2 H3.
  unfold v4_blocked, restricted_v4_blocks, in_cidr, is_restricted_ipv4_octets.
  rewrite !Exists_cons, Exists_nil. simpl fst; simpl snd.
  change (32 - 8) with 24; change (32 - 10) with 22; change (32 - 16) with 16;
  change (32 - 12) with 20; change (32 - 24) with 8; change (32 - 15) with 17;
  change (32 - 4) with 28.
  rewrite !v4_shift_28, !v4_shift_24, !v4_shift_22, !v4_shift_20, !v4_shift_17, !v4_shift_16,
    !v4_shift_8 by (unfold u8_valid, u8_max in *; lia).
  b2p. rewrite land_c0 by done. unfold u8_valid, u8_max in *. disjuncts.
Qed.

(** The leading bits of an IPv6 address value, one lemma per prefix length that occurs. *)
Section v6_prefixes.
Context (ip : Ipv6Addr) (Hip : v6_valid ip).

Ltac prefix6 := unfold v6_value, v6_valid, u16_valid, u16_max in *;
    rewrite Z.shiftr_div_pow2 by lia; simpl; Z.to_euclidean_division_equations; lia.

Lemma v6_shift_112 : Z.shiftr (v6_value ip) 112 = v6_0 ip.
Proof using Hip. prefix6. Qed.
Lemma v6_shift_121 : Z.shiftr (v6_value ip) 121 = v6_0 ip / 512.
Proof using Hip. prefix6. Qed.
Lemma v6_shift_118 : Z.shiftr (v6_value ip) 118 = v6_0 ip / 64.
Proof using Hip. prefix6. Qed.
Lemma v6_shift_120 : Z.shiftr (v6_value ip) 120 = v6_0 ip / 256.
Proof using Hip. prefix6. Qed.
Lemma v6_shift_96 : Z.shiftr (v6_value ip) 96 = v6_0 ip * 65536 + v6_1 ip.
Proof using Hip. prefix6. Qed.
Lemma v6_shift_32 : Z.shiftr (v6_value ip) 32 =
    v6_0 ip * 2^80 + v6_1 ip * 2^64 + v6_2 ip * 2^48 + v6_3 ip * 2^32 + v6_4 ip * 2^16 + v6_5 ip.
Proof using Hip. prefix6. Qed.
Lemma v6_low_32 : v6_value ip mod 2^32 = v6_6 ip * 65536 + v6_7 ip.
Proof using Hip.
    unfold v6_value, v6_valid, u16_valid, u16_max in *. simpl. Z.to_euclidean_division_equations. lia.
  Qed.
Lemma v6_sixtofour : Z.shiftr (v6_value ip) 80 mod 2^32 = v6_1 ip * 65536 + v6_2 ip.
Proof using Hip.
    rewrite Z.shiftr_div_pow2 by lia. unfold v6_value, v6_valid, u16_valid, u16_max in *.
    simpl. Z.to_euclidean_division_equations. lia.
  Qed.
End v6_prefixes.

(** The IPv4 address two adjacent segments spell. *)
Lemma embedded_v4_blocks hi lo :
  u16_valid hi → u16_valid lo →
  is_restricted_ipv4_octets (Z.land (Z.shiftr hi 8) 0xff) (Z.land hi 0xff)
    (Z.land (Z.shiftr lo 8) 0xff) (Z.land lo 0xff) = true ↔ v4_blocked (hi * 65536 + lo).
Proof.
  intros Hh Hl. rewrite !seg_hi, !seg_lo by done. unfold u16_valid, u16_max in *.
  rewrite is_restricted_ipv4_octets_blocks by
    (unfold u8_valid, u8_max; Z.to_euclidean_division_equations; lia).
  assert (v4_value (mkV4 (hi / 256) (hi mod 256) (lo / 256) (lo mod 256)) = hi * 65536 + lo) as ->;
    [|done].
  unfold v4_value; simpl. Z.to_euclidean_division_equations; lia.
Qed.

(** Segment-wise comparison of the 128-bit value and of its leading bits. *)
Lemma digit_eq a b x y :
  u16_valid x → u16_valid y → a * 65536 + x = b * 65536 + y ↔ a = b ∧ x = y.
Proof. unfold u16_valid, u16_max. lia. Qed.

Lemma v6_horner96 a b c d e f :
  a * 2^80 + b * 2^64 + c * 2^48 + d * 2^32 + e * 2^16 + f =
  ((((a * 65536 + b) * 65536 + c) * 65536 + d) * 65536 + e) * 65536 + f.
Proof. simpl. lia. Qed.

Lemma v6_horner ip : v6_value ip =
  (((((((v6_0 ip * 65536 + v6_1 ip) * 65536 + v6_2 ip) * 65536 + v6_3 ip) * 65536 + v6_4 ip)
     * 65536 + v6_5 ip) * 65536 + v6_6 ip) * 65536 + v6_7 ip).
Proof. unfold v6_value. simpl. lia. Qed.

Lemma v6_value_inj ip jp :
  v6_valid ip → v6_valid jp → v6_value ip = v6_value jp ↔ ip = jp.
Proof.
  intros Hi Hj. destruct ip, jp. rewrite !v6_horner. unfold v6_valid in *; simpl in *.
  rewrite !digit_eq by tauto. split; [intros; f_equal; tauto|intros [=]; tauto].
Qed.

Lemma v6_prefix96 ip s0 s1 s2 s3 s4 s5 :
  v6_valid ip → v6_valid (mkV6 s0 s1 s2 s3 s4 s5 0 0) →
  Z.shiftr (v6_value ip) 32 = Z.shiftr (v6_value (mkV6 s0 s1 s2 s3 s4 s5 0 0)) 32
  ↔ v6_0 ip = s0 ∧ v6_1 ip = s1 ∧ v6_2 ip = s2 ∧ v6_3 ip = s3 ∧ v6_4 ip = s4 ∧ v6_5 ip = s5.
Proof.
  intros Hi Hj. rewrite !v6_shift_32, !v6_horner96 by done. unfold v6_valid in *; simpl in *.
  rewrite !digit_eq by tauto. tauto.
Qed.

Lemma v6_prefix32 ip s0 s1 :
  v6_valid ip → v6_valid (mkV6 s0 s1 0 0 0 0 0 0) →
  Z.shiftr (v6_value ip) 96 = Z.shiftr (v6_value (mkV6 s0 s1 0 0 0 0 0 0)) 96
  ↔ v6_0 ip = s0 ∧ v6_1 ip = s1.
Proof.
  intros Hi Hj. rewrite !v6_shift_96 by done. unfold v6_valid in *; simpl in *.
  apply digit_eq; tauto.
Qed.

Lemma mkV6_eq s0 s1 s2 s3 s4 s5 s6 s7 a b c d e f g h :
  mkV6 s0 s1 s2 s3 s4 s5 s6 s7 = mkV6 a b c d e f g h ↔
  s0 = a ∧ s1 = b ∧ s2 = c ∧ s3 = d ∧ s4 = e ∧ s5 = f ∧ s6 = g ∧ s7 = h.
Proof. split; [by intros [=]|intuition congruence]. Qed.

Lemma is_restricted_ipv6_blocks ip :
  v6_valid ip → is_restricted_ipv6 ip = true ↔ v6_blocked (v6_value ip).
Proof.
  intros Hip. unfold v6_blocked, restricted_v6_blocks, in_cidr, is_restricted_ipv6,
    is_restricted_ipv6_segments.
  rewrite !Exists_cons, Exists_nil. simpl fst; simpl snd.
  change (128 - 8) with 120; change (128 - 10) with 118; change (128 - 16) with 112;
  change (128 - 32) with 96; change (128 - 96) with 32; change (128 - 7) with 121;
  change (128 - 128) with 0.
  assert (∀ s0 s1 s2 s3 s4 s5 s6 s7, v6_valid (mkV6 s0 s1 s2 s3 s4 s5 s6 s7) ↔
    u16_valid s0 ∧ u16_valid s1 ∧ u16_valid s2 ∧ u16_valid s3 ∧ u16_valid s4 ∧ u16_valid s5 ∧
    u16_valid s6 ∧ u16_valid s7) as Hv by done.
  rewrite !Z.shiftr_0_r, !v6_prefix96, !v6_value_inj, !v6_shift_112, !v6_shift_121, !v6_shift_118,
    !v6_shift_120, !v6_prefix32, !v6_low_32, !v6_sixtofour
    by (done || (rewrite Hv; unfold u16_valid, u16_max; lia)).
  destruct ip as [s0 s1 s2 s3 s4 s5 s6 s7]. apply Hv in Hip as (?&?&?&?&?&?&?&?).
  simpl v6_0; simpl v6_1; simpl v6_2; simpl v6_3; simpl v6_4; simpl v6_5; simpl v6_6; simpl v6_7.
  b2p. rewrite !embedded_v4_blocks, land_fe00, land_ff00 by done.
  change 0xfe80 with (1018 * 64) at 1. change 0xfec0 with (1019 * 64) at 1.
  rewrite !land_ffc0 by done.
  generalize (v4_blocked (s6 * 65536 + s7)), (v4_blocked (s1 * 65536 + s2)); intros P Q.
  rewrite !mkV6_eq. simpl.
  change (64512 / 512) with 126; change (65152 / 64) with 1018; change (65216 / 64) with 1019;
  change (65280 / 256) with 255. clear. tauto.
Qed.

(** The repository's specification and the kernel agree disjunct by disjunct: ranges against
    comparisons, [std::net] predicates against segment tests. *)
Lemma spec_is_restricted_ipv4_kernel ip : spec_is_restricted_ipv4 ip = is_restricted_ipv4 ip.
Proof.
  destruct ip as [o0 o1 o2 o3]. unfold spec_is_restricted_ipv4, is_restricted_ipv4,
    is_restricted_ipv4_octets; simpl.
  assert (∀ a b x, bool_decide (a ≤ x ≤ b) = (x >=? a) && (x <=? b)) as Hr.
  { intros. apply eq_iff_eq_true. b2p. lia. }
  by rewrite !Hr, andb_assoc.
Qed.

Lemma mapped_kernel ip : v6_valid ip →
  match v6_to_ipv4_mapped ip with Some v4 => spec_is_restricted_ipv4 v4 | None => false end =
  (v6_0 ip =? 0) && (v6_1 ip =? 0) && (v6_2 ip =? 0) && (v6_3 ip =? 0) && (v6_4 ip =? 0)
  && (v6_5 ip =? 0xffff)
  && is_restricted_ipv4_octets (Z.land (Z.shiftr (v6_6 ip) 8) 0xff) (Z.land (v6_6 ip) 0xff)
       (Z.land (Z.shiftr (v6_7 ip) 8) 0xff) (Z.land (v6_7 ip) 0xff).
Proof.
  destruct ip as [s0 s1 s2 s3 s4 s5 s6 s7]; unfold v6_valid; simpl. intros Hv.
  case_if; simpl; [|done].
  rewrite spec_is_restricted_ipv4_kernel. unfold is_restricted_ipv4; simpl.
  by rewrite !seg_hi, !seg_hi_nomask by tauto.
Qed.

Lemma v6_is_const ip s7 : bool_decide (ip = mkV6 0 0 0 0 0 0 0 s7) =
  (v6_0 ip =? 0) && (v6_1 ip =? 0) && (v6_2 ip =? 0) && (v6_3 ip =? 0) && (v6_4 ip =? 0)
  && (v6_5 ip =? 0) && (v6_6 ip =? 0) && (v6_7 ip =? s7).
Proof. apply eq_iff_eq_true. destruct ip. b2p. rewrite mkV6_eq. simpl. tauto. Qed.

(** ** Properties *)

(** C13.  The SSRF address kernel refuses exactly the documented address blocks: for every IPv4
    or IPv6 address, [is_restricted_ip] returns [true] iff the 32-bit or 128-bit address value
    lies in one of the CIDR blocks the documentation lists, where an IPv4-mapped
    ([::ffff:0:0/96]) or 6to4 ([2002::/16]) address counts as restricted iff the IPv4 address it
    embeds does. *)
Theorem is_restricted_ip_blocks (ip : IpAddr) :
  ip_valid ip →
  is_restricted_ip ip = true ↔
  match ip with V4 v4 => v4_blocked (v4_value v4) | V6 v6 => v6_blocked (v6_value v6) end.
Proof.
  destruct ip as [[o0 o1 o2 o3]|v6]; simpl; intros Hv; [|by apply is_restricted_ipv6_blocks].
  destruct Hv as (?&?&?&?). by apply is_restricted_ipv4_octets_blocks.
Qed.

(** The cloud metadata address behind a 6to4 prefix is refused; a public address is not. *)
Lemma is_restricted_ip_blocks_witness :
  v6_blocked (v6_value (mkV6 0x2002 0xa9fe 0xa9fe 0 0 0 0 1)) ∧
  ¬ v4_blocked (v4_value (mkV4 8 8 8 8)).
Proof.
  split.
  - apply (is_restricted_ip_blocks (V6 (mkV6 0x2002 0xa9fe 0xa9fe 0 0 0 0 1)));
      [unfold ip_valid, v6_valid, u16_valid, u16_max; simpl; lia|reflexivity].
  - intros H. apply (is_restricted_ip_blocks (V4 (mkV4 8 8 8 8))) in H; [discriminate H|].
    unfold ip_valid, v4_valid, u8_valid, u8_max; simpl; lia.
Defined.

(**  The production kernel and the repository's executable specification [SsrfFormalSpec]
    classify every address alike. *)
Theorem is_restricted_ip_spec (ip : IpAddr) :
  ip_valid ip → is_restricted_ip ip = spec_is_restricted_ip ip.
Proof.
  destruct ip as [v4|v6]; simpl; intros Hv; [by rewrite spec_is_restricted_ipv4_kernel|].
  unfold spec_is_restricted_ipv6. rewrite mapped_kernel by done.
  unfold v6_is_unspecified, v6_is_loopback. rewrite !v6_is_const.
  destruct v6. by rewrite spec_is_restricted_ipv4_kernel.
Qed.

Lemma is_restricted_ip_spec_witness :
  spec_is_restricted_ip (V6 (mkV6 0 0 0 0 0 0xffff 0x7f00 1)) = true.
Proof.
  rewrite <-(is_restricted_ip_spec (V6 (mkV6 0 0 0 0 0 0xffff 0x7f00 1))); [reflexivity|].
  unfold ip_valid, v6_valid, u16_valid, u16_max; simpl; lia.
Defined.
