(* ===== verification/Net.v ===== *)
(** * Net: text of IP addresses in the Rust standard library

    [IpAddr::from_str] (the recursive-descent parser of [core::net]) and [Display] for [IpAddr],
    which the SSRF filter calls. *)
From S2P Require Import Prelude Strs IpFilter.
Open Scope Z_scope.

(** ** Parsing *)
Definition digit_value (radix : Z) (c : ascii) : option Z :=
  let b := byte_of c in
  let v := if is_ascii_digit c then b - 48
           else if (97 <=? b) && (b <=? 102) then b - 87
           else if (65 <=? b) && (b <=? 70) then b - 55 else 16 in
  if v <? radix then Some v else None.

(** The digit loop of [read_number]: stops at the first non-digit, fails on overflow of the result
    type (bound [max]) or on more than [max_digits] digits. *)
Fixpoint read_digits (radix max max_digits acc count : Z) (s : string)
    : option (Z * Z * string) :=
  match s with
  | String c s' =>
      match digit_value radix c with
      | Some d =>
          let acc' := acc * radix + d in
          if (acc' >? max) || (count + 1 >? max_digits) then None
          else read_digits radix max max_digits acc' (count + 1) s'
      | None => Some (acc, count, s)
      end
  | EmptyString => Some (acc, count, s)
  end.

Definition read_number (radix max max_digits : Z) (allow_zero_prefix : bool) (s : string)
    : option (Z * string) :=
  '(n, count, rest) ← read_digits radix max max_digits 0 0 s;
  let has_leading_zero := match s with String c _ => Ascii.eqb c "0" | EmptyString => false end in
  if count =? 0 then None
  else if negb allow_zero_prefix && has_leading_zero && (count >? 1) then None
  else Some (n, rest).

Definition read_char (c : ascii) (s : string) : option string :=
  match s with String a s' => if Ascii.eqb a c then Some s' else None | EmptyString => None end.

Definition read_octet (s : string) : option (Z * string) := read_number 10 255 3 false s.
Definition read_group (s : string) : option (Z * string) := read_number 16 65535 4 true s.

Definition read_ipv4 (s : string) : option (Ipv4Addr * string) :=
  '(a, s) ← read_octet s; s ← read_char "." s;
  '(b, s) ← read_octet s; s ← read_char "." s;
  '(c, s) ← read_octet s; s ← read_char "." s;
  '(d, s) ← read_octet s; Some (mkV4 a b c d, s).

(** [read_separator(':', index, inner)]. *)
Definition after_sep {A} (first : bool) (inner : string → option (A * string)) (s : string)
    : option (A * string) :=
  if first then inner s else s' ← read_char ":" s; inner s'.

(** [read_groups] with room for [limit] groups: the groups, whether they end in an embedded IPv4
    address, and the rest. *)
Fixpoint read_groups (limit : nat) (first : bool) (s : string) : list Z * bool * string :=
  match limit with
  | O => ([], false, s)
  | S l =>
      match (if (0 <? l)%nat then after_sep first read_ipv4 s else None) with
      | Some (mkV4 a b c d, rest) => ([a * 256 + b; c * 256 + d], true, rest)
      | None =>
          match after_sep first read_group s with
          | Some (g, rest) =>
              let '(gs, v4, rest') := read_groups l false rest in (g :: gs, v4, rest')
          | None => ([], false, s)
          end
      end
  end.

Definition v6_of_groups (l : list Z) : option Ipv6Addr :=
  match l with
  | [a; b; c; d; e; f; g; h] => Some (mkV6 a b c d e f g h)
  | _ => None
  end.

Definition read_ipv6 (s : string) : option (Ipv6Addr * string) :=
  let '(head, head_ipv4, rest) := read_groups 8 true s in
  if (length head =? 8)%nat then ip ← v6_of_groups head; Some (ip, rest)
  else if head_ipv4 then None
  else
    rest ← read_char ":" rest; rest ← read_char ":" rest;
    let '(tail, _, rest) := read_groups (8 - (length head + 1)) true rest in
    ip ← v6_of_groups (head ++ replicate (8 - length head - length tail) 0 ++ tail);
    Some (ip, rest).

(** [s.parse::<IpAddr>()]: the whole string must be consumed. *)
Definition parse_ip (s : string) : option IpAddr :=
  match (match read_ipv4 s with
         | Some (ip, rest) => Some (V4 ip, rest)
         | None => '(ip, rest) ← read_ipv6 s; Some (V6 ip, rest)
         end) with
  | Some (ip, EmptyString) => Some ip
  | _ => None
  end.

(** ** Printing *)
Definition hex_char (d : Z) : ascii :=
  ascii_of_N (Z.to_N (if d <? 10 then 48 + d else 87 + d)).
Definition hex_u16 (n : Z) : string :=
  let d3 := n / 4096 mod 16 in let d2 := n / 256 mod 16 in
  let d1 := n / 16 mod 16 in let d0 := n mod 16 in
  let s := String (hex_char d0) "" in
  if n <? 16 then s
  else let s := String (hex_char d1) s in
       if n <? 256 then s
       else let s := String (hex_char d2) s in
            if n <? 4096 then s else String (hex_char d3) s.

Definition ipv4_to_string (ip : Ipv4Addr) : string :=
  join_str "." (pretty <$> [v4_a ip; v4_b ip; v4_c ip; v4_d ip]).

(** The first longest run of zero segments: its start and length. *)
Fixpoint zero_runs (i : nat) (cur best : nat * nat) (l : list Z) : nat * nat :=
  match l with
  | [] => best
  | s :: l' =>
      if s =? 0 then
        let cur' := (if (snd cur =? 0)%nat then i else fst cur, S (snd cur)) in
        zero_runs (S i) cur' (if (snd best <? snd cur')%nat then cur' else best) l'
      else zero_runs (S i) (0%nat, 0%nat) best l'
  end.

Definition v6_segments (ip : Ipv6Addr) : list Z :=
  [v6_0 ip; v6_1 ip; v6_2 ip; v6_3 ip; v6_4 ip; v6_5 ip; v6_6 ip; v6_7 ip].

Definition ipv6_to_string (ip : Ipv6Addr) : string :=
  match v6_to_ipv4_mapped ip with
  | Some v4 => "::ffff:" +:+ ipv4_to_string v4
  | None =>
      let segs := v6_segments ip in
      let '(start, len) := zero_runs 0 (0%nat, 0%nat) (0%nat, 0%nat) segs in
      if (1 <? len)%nat
      then join_str ":" (hex_u16 <$> take start segs) +:+ "::"
           +:+ join_str ":" (hex_u16 <$> drop (start + len) segs)
      else join_str ":" (hex_u16 <$> segs)
  end.

Definition ip_to_string (ip : IpAddr) : string :=
  match ip with V4 v4 => ipv4_to_string v4 | V6 v6 => ipv6_to_string v6 end.

(** [IpAddr::is_loopback]. *)
Definition ip_is_loopback (ip : IpAddr) : bool :=
  match ip with V4 v4 => v4_a v4 =? 127 | V6 v6 => v6_is_loopback v6 end.

(** ** What the parser yields is an address *)
Lemma digit_value_nonneg radix c d : digit_value radix c = Some d → 0 ≤ d.
Proof.
  unfold digit_value, is_ascii_digit, in_range. repeat case_if; intros [= <-]; b2p; lia.
Qed.

Lemma read_digits_bound radix max md acc count s n k rest :
  0 ≤ radix → 0 ≤ acc ≤ max → read_digits radix max md acc count s = Some (n, k, rest) → 0 ≤ n ≤ max.
Proof.
  intros Hr. revert acc count. induction s as [|c s IH]; intros acc count Ha; simpl.
  - intros [= <- _ _]. done.
  - destruct (digit_value radix c) as [d|] eqn:E; [|intros [= <- _ _]; done].
    case_if; [done|]. b2p. apply digit_value_nonneg in E. apply IH. nia.
Qed.

Lemma read_number_bound radix max md z s n rest :
  0 ≤ radix → 0 ≤ max → read_number radix max md z s = Some (n, rest) → 0 ≤ n ≤ max.
Proof.
  intros Hr Hm E. unfold read_number in E. apply bind_Some in E as ([[n' k] rest'] & E1 & E).
  repeat case_if; simplify_eq. eapply read_digits_bound; [exact Hr| |exact E1]. lia.
Qed.

Lemma read_ipv4_valid s ip rest : read_ipv4 s = Some (ip, rest) → v4_valid ip.
Proof.
  unfold read_ipv4. intros E.
  repeat (apply bind_Some in E as ([? ?] & ?%read_number_bound & E); [|done..];
          apply bind_Some in E as (? & _ & E)).
  apply bind_Some in E as ([? ?] & ?%read_number_bound & E); [|done..]. simplify_eq.
  unfold v4_valid, u8_valid, u8_max; simpl. auto.
Qed.

Lemma read_groups_valid limit first s gs v4 rest :
  read_groups limit first s = (gs, v4, rest) → Forall u16_valid gs.
Proof.
  revert first s gs v4 rest. induction limit as [|l IH]; intros first s gs v4 rest; simpl.
  { intros [= <- _ _]. constructor. }
  assert (∀ r, (if (0 <? l)%nat then after_sep first read_ipv4 s else None) = Some r → v4_valid r.1) as H4.
  { intros [ip r]. case_if; [|done]. unfold after_sep. case_if.
    - apply read_ipv4_valid.
    - intros (? & _ & E)%bind_Some. by eapply read_ipv4_valid. }
  destruct (if (0 <? l)%nat then _ else _) as [[ip r]|].
  - specialize (H4 _ eq_refl). destruct ip as [a b c d]. intros [= <- _ _].
    unfold v4_valid, u8_valid, u8_max, u16_valid, u16_max in *; simpl in *.
    repeat constructor; lia.
  - clear H4. destruct (after_sep first read_group s) as [[g r]|] eqn:Eg; [|intros [= <- _ _]; constructor].
    destruct (read_groups l false r) as [[gs' v4'] r'] eqn:Er. intros [= <- _ _].
    constructor; [|by eapply IH]. unfold after_sep in Eg. unfold u16_valid, u16_max.
    destruct first; [by eapply read_number_bound in Eg|].
    apply bind_Some in Eg as (? & _ & Eg). by eapply read_number_bound in Eg.
Qed.

Lemma v6_of_groups_valid l ip : Forall u16_valid l → v6_of_groups l = Some ip → v6_valid ip.
Proof.
  intros Hl E. do 9 (destruct l as [|? l]; try done). simpl in E. injection E as <-.
  repeat match goal with H : Forall _ (_ :: _) |- _ => apply Forall_cons in H as [? H] end.
  unfold v6_valid; simpl. tauto.
Qed.

Lemma read_ipv6_valid s ip rest : read_ipv6 s = Some (ip, rest) → v6_valid ip.
Proof.
  unfold read_ipv6. destruct (read_groups 8 true s) as [[head v4] r] eqn:Eh.
  apply read_groups_valid in Eh. case_if.
  - intros (ip' & E & [= <- _])%bind_Some. by eapply v6_of_groups_valid.
  - case_if; [done|]. intros E. apply bind_Some in E as (? & _ & E).
    apply bind_Some in E as (r2 & _ & E).
    destruct (read_groups (8 - (length head + 1)) true r2) as [[tail v4'] r'] eqn:Et.
    apply read_groups_valid in Et. apply bind_Some in E as (ip' & E & E'). simplify_eq.
    eapply v6_of_groups_valid; [|exact E]. rewrite !Forall_app. repeat split; try done.
    apply Forall_replicate. unfold u16_valid, u16_max. lia.
Qed.

Lemma parse_ip_valid s ip : parse_ip s = Some ip → ip_valid ip.
Proof.
  unfold parse_ip. destruct (read_ipv4 s) as [[v4 r]|] eqn:E4.
  - destruct r; [|done]. intros [= <-]. by eapply read_ipv4_valid.
  - destruct (read_ipv6 s) as [[v6 r]|] eqn:E6; simpl; [|done].
    destruct r; [|done]. intros [= <-]. by eapply read_ipv6_valid.
Qed.

(** Sanity checks of the translation. *)
Example parse_ip_examples :
  parse_ip <$> ["127.0.0.1"; "01.2.3.4"; "256.1.1.1"; "1.2.3"; "::1"; "2001:db8::8:800:200c:417a";
                "::ffff:10.0.0.1"; "[::1]"; "1:2:3:4:5:6:7:8"; "1::2::3"; "example.com"] =
  [Some (V4 (mkV4 127 0 0 1)); None; None; None; Some (V6 (mkV6 0 0 0 0 0 0 0 1));
   Some (V6 (mkV6 0x2001 0xdb8 0 0 8 0x800 0x200c 0x417a));
   Some (V6 (mkV6 0 0 0 0 0 0xffff 0x0a00 1)); None; Some (V6 (mkV6 1 2 3 4 5 6 7 8)); None; None].
Proof. vm_compute. reflexivity. Qed.

Example ip_to_string_examples :
  ip_to_string <$> [V4 (mkV4 10 0 0 255); V6 (mkV6 0 0 0 0 0 0 0 1); V6 (mkV6 0xfe80 0 0 0 0 0 0 0x1a);
                    V6 (mkV6 0 0 0 0 0 0xffff 0x7f00 1); V6 (mkV6 1 0 2 0 0 3 0 0)] =
  ["10.0.0.255"; "::1"; "fe80::1a"; "::ffff:127.0.0.1"; "1:0:2::3:0:0"].
Proof. vm_compute. reflexivity. Qed.
