(* ===== verification/Ssrf.v ===== *)
(** * Ssrf: the outbound request filter (src/src/ssrf.rs)

    [SsrfFilter] validates URLs and addresses, [SsrfDnsResolver] is the resolution hook of the
    pooled HTTP client, [safe_get] follows a bounded number of redirects.  DNS answers and HTTP
    responses are arguments, a fresh one per call the code makes, so an adversarial resolver or
    server may answer differently every time.  The pool of clients (one per runtime and mode) is
    the resolver state the functions thread. *)
From S2P Require Import Prelude Errors Strs Externals IpFilter Net.
Open Scope Z_scope.

Definition MAX_PINNED_HOSTS : Z := 1024.
Definition MAX_OAUTH_RESPONSE_BYTES : Z := 1048576.

(** ** Names and addresses *)

(** The names both modes refuse. *)
Definition metadata_or_internal (host : string) : bool :=
  (host =? "metadata.google.internal")%string || (host =? "instance-data")%string
  || (host =? "metadata.internal")%string || (host =? "169.254.169.254")%string
  || ends_with host ".internal" || ends_with host ".local" || ends_with host ".localhost".

Definition is_blocked_hostname (host : string) : bool :=
  let trimmed := trim_end_matches "." (to_ascii_lowercase host) in
  (trimmed =? "localhost")%string || metadata_or_internal trimmed.

Record SsrfFilter := mkFilter { allow_insecure_localhost : bool }.

Definition is_ip_restricted (f : SsrfFilter) (ip : IpAddr) : bool :=
  if allow_insecure_localhost f && ip_is_loopback ip then false else is_restricted_ip ip.

Definition validate_ip (f : SsrfFilter) (ip : IpAddr) : result SsrfError unit :=
  if is_ip_restricted f ip then Err (SsrfError_BlockedIp (ip_to_string ip)) else Ok tt.

(** [SocketAddr]: address and port. *)
Definition SocketAddr : Type := IpAddr * Z.

Inductive DnsOutcome :=
| DnsTimeout
| DnsError (e : string)
| DnsAddrs (addrs : list SocketAddr).

Fixpoint validate_all (f : SsrfFilter) (addrs : list SocketAddr) : result SsrfError unit :=
  match addrs with
  | [] => Ok tt
  | (ip, _) :: rest => _ ← validate_ip f ip; validate_all f rest
  end.

(** [sort_by_key(|a| if a.is_ipv4() { 0 } else { 1 })], a stable sort. *)
Definition is_v4 (a : SocketAddr) : bool := match fst a with V4 _ => true | V6 _ => false end.
Definition ipv4_first (addrs : list SocketAddr) : list SocketAddr :=
  List.filter is_v4 addrs ++ List.filter (λ a, negb (is_v4 a)) addrs.

(** The steps after the lookup, the same in the hook and in [resolve_and_pin]. *)
Definition validated_addrs (f : SsrfFilter) (host : string) (dns : DnsOutcome)
    : result SsrfError (list SocketAddr) :=
  match dns with
  | DnsTimeout =>
      Err (SsrfError_DnsResolutionFailed ("DNS resolution for " +:+ host +:+ " timed out after 5s"))
  | DnsError e => Err (SsrfError_DnsResolutionFailed (host +:+ ": " +:+ e))
  | DnsAddrs addrs =>
      match addrs with
      | [] => Err (SsrfError_DnsResolutionFailed ("No DNS records returned for " +:+ host))
      | _ =>
          _ ← validate_all f addrs;
          Ok (if allow_insecure_localhost f then ipv4_first addrs else addrs)
      end
  end.

(** ** The resolver hook *)
Section resolver.
(** [guard.keys().next()]: some key of the map, in its iteration order. *)
Context (first_key : gmap string IpAddr → option string).

Record SsrfDnsResolver := mkResolver { filter : SsrfFilter; pinned_ips : gmap string IpAddr }.

Definition resolver_new (allow : bool) : SsrfDnsResolver := mkResolver (mkFilter allow) ∅.

Definition host_key (host : string) : string := to_ascii_lowercase (trim_end_matches "." host).

Definition pin_host (r : SsrfDnsResolver) (host : string) (ip : IpAddr) : SsrfDnsResolver :=
  match validate_ip (filter r) ip with
  | Err _ => r
  | Ok _ =>
      let key := host_key host in
      let guard := pinned_ips r in
      let guard :=
        if negb (bool_decide (is_Some (guard !! key))) && (Z.of_nat (size guard) >=? MAX_PINNED_HOSTS)
        then match first_key guard with Some victim => delete victim guard | None => guard end
        else guard in
      mkResolver (filter r) (<[key := ip]> guard)
  end.

Definition get_pinned_ip (r : SsrfDnsResolver) (host : string) : option IpAddr :=
  pinned_ips r !! host_key host.

Definition resolve (r : SsrfDnsResolver) (name : string) (dns : string → DnsOutcome)
    : result SsrfError (list SocketAddr) :=
  let host := host_key name in
  let f := filter r in
  let pinned := get_pinned_ip r host in
  _ ← fail_if (negb (allow_insecure_localhost f) && is_blocked_hostname host)
        (SsrfError_BlockedHost host);
  _ ← fail_if (allow_insecure_localhost f && metadata_or_internal host) (SsrfError_BlockedHost host);
  match pinned with
  | Some ip => _ ← validate_ip f ip; Ok [(ip, 0)]
  | None => validated_addrs f host (dns host)
  end.

(** ** URLs *)
Section urls.
Context `{UrlCrate}.

Definition validate_url (f : SsrfFilter) (url : Url) : result SsrfError unit :=
  let scheme := url_scheme url in
  host ← ok_or (url_host_str url) (SsrfError_InvalidUrl "Missing hostname in URL");
  let insecure := Err (SsrfError_InsecureScheme (url_as_str url)) in
  _ ← (if negb (scheme =? "https")%string then
         if (scheme =? "http")%string then
           if negb (allow_insecure_localhost f) then insecure
           else
             let is_local := (host =? "localhost")%string || (host =? "127.0.0.1")%string
                             || (host =? "::1")%string || (host =? "[::1]")%string in
             if negb is_local then insecure else Ok tt
         else insecure
       else Ok tt);
  _ ← fail_if (negb (allow_insecure_localhost f) && is_blocked_hostname host)
        (SsrfError_BlockedHost host);
  _ ← fail_if (allow_insecure_localhost f
               && metadata_or_internal (trim_end_matches "." (to_ascii_lowercase host)))
        (SsrfError_BlockedHost host);
  match parse_ip host with
  | Some ip => validate_ip f ip
  | None => Ok tt
  end.

Definition resolve_and_pin (f : SsrfFilter) (url : Url) (dns : string → DnsOutcome)
    : result SsrfError (SocketAddr * string) :=
  _ ← validate_url f url;
  host ← ok_or (url_host_str url) (SsrfError_InvalidUrl "Missing host in URL");
  let port := default 443 (url_port_or_known_default url) in
  let host_header := match url_port url with
                     | Some p => host +:+ ":" +:+ pretty p
                     | None => host
                     end in
  match parse_ip host with
  | Some ip => _ ← validate_ip f ip; Ok ((ip, port), host_header)
  | None =>
      addrs ← validated_addrs f host (dns (host +:+ ":" +:+ pretty port));
      match addrs with
      | a :: _ => Ok (a, host_header)
      | [] => Err (SsrfError_DnsResolutionFailed ("No DNS records returned for " +:+ host))
      end
  end.

Definition validate_url_and_dns (f : SsrfFilter) (url : Url) (dns : string → DnsOutcome)
    : result SsrfError SocketAddr :=
  '(pinned_addr, _) ← resolve_and_pin f url dns; Ok pinned_addr.

Definition build_pinned_client (f : SsrfFilter) (r : SsrfDnsResolver) (url : Url)
    (dns : string → DnsOutcome) : SsrfDnsResolver * result SsrfError (SocketAddr * string) :=
  match resolve_and_pin f url dns with
  | Err e => (r, Err e)
  | Ok (pinned_addr, host_header) =>
      let host_only := default "localhost" (url_host_str url) in
      let r := match parse_ip host_only with
               | None => pin_host r host_only (fst pinned_addr)
               | Some _ => r
               end in
      (r, Ok (pinned_addr, host_header))
  end.

(** ** Responses *)

(** A body chunk, or a transport error; with it what [content_length] reports afterwards. *)
Definition BodyChunk : Type := result string (list Z) * option Z.
Record Response := mkResponse {
  status : Z;
  location : option (result string string);   (* the header, decoded with [to_str] *)
  content_length : option Z;
  body : list BodyChunk
}.

Fixpoint read_chunks (max_bytes : Z) (buffer : list Z) (chunks : list BodyChunk)
    : result SsrfError (list Z) :=
  match chunks with
  | [] => Ok buffer
  | (Err e, _) :: _ => Err (SsrfError_Http e)
  | (Ok chunk, cl) :: rest =>
      let total := u64_saturating_add (zlen buffer) (zlen chunk) in
      if total >? max_bytes
      then Err (SsrfError_ResponseTooLarge max_bytes (default total cl))
      else read_chunks max_bytes (buffer ++ chunk) rest
  end.

Definition read_bounded_body (resp : Response) (max_bytes : Z) : result SsrfError (list Z) :=
  match content_length resp with
  | Some cl =>
      if cl >? max_bytes then Err (SsrfError_ResponseTooLarge max_bytes cl)
      else read_chunks max_bytes [] (body resp)
  | None => read_chunks max_bytes [] (body resp)
  end.

(** ** [safe_get]

    [env i] answers the [i]-th round of the loop: its DNS lookup and its HTTP exchange.  The third
    result lists the requests that were sent, with the address each host was pinned to. *)
Context (status_display : Z → string).
Record Round := mkRound { dns_answer : string → DnsOutcome; http_answer : result string Response }.

Fixpoint safe_get_loop (redirects_remaining : nat) (f : SsrfFilter) (max_bytes : Z)
    (r : SsrfDnsResolver) (current_url : Url) (i : nat) (env : nat → Round)
    : SsrfDnsResolver * list (Url * SocketAddr) * result SsrfError (list Z) :=
  let '(r, built) := build_pinned_client f r current_url (dns_answer (env i)) in
  match built with
  | Err e => (r, [], Err e)
  | Ok (pinned_addr, _) =>
      let sent := [(current_url, pinned_addr)] in
      match http_answer (env i) with
      | Err e => (r, sent, Err (SsrfError_Http e))
      | Ok resp =>
          if bool_decide (300 ≤ status resp ≤ 399) then
            match redirects_remaining with
            | O => (r, sent, Err SsrfError_TooManyRedirects)
            | S remaining =>
                match location resp with
                | None => (r, sent, Err (SsrfError_Http "Redirect missing Location header"))
                | Some (Err e) => (r, sent, Err (SsrfError_Http ("Invalid Location header: " +:+ e)))
                | Some (Ok location) =>
                    match url_join current_url location with
                    | Err e =>
                        (r, sent, Err (SsrfError_InvalidUrl
                           ("Invalid redirect location '" +:+ location +:+ "': " +:+ e)))
                    | Ok next_url =>
                        let '(r, more, res) :=
                          safe_get_loop remaining f max_bytes r next_url (S i) env in
                        (r, sent ++ more, res)
                    end
                end
            end
          else if negb (bool_decide (200 ≤ status resp ≤ 299)) then
            (r, sent, Err (SsrfError_HttpStatus (status resp)
               ("HTTP status " +:+ status_display (status resp) +:+ " from " +:+ url_as_str current_url)))
          else (r, sent, read_bounded_body resp max_bytes)
      end
  end.

Definition safe_get (f : SsrfFilter) (r : SsrfDnsResolver) (url_str : string) (max_bytes : Z)
    (env : nat → Round) : SsrfDnsResolver * list (Url * SocketAddr) * result SsrfError (list Z) :=
  match url_parse url_str with
  | Err e => (r, [], Err (SsrfError_InvalidUrl ("Failed to parse URL '" +:+ url_str +:+ "': " +:+ e)))
  | Ok current_url => safe_get_loop 3 f max_bytes r current_url 0 env
  end.

(** [decode] is the [Deserialize] implementation of the requested type. *)
Definition safe_get_json {T} (decode : list Z → result string T) (f : SsrfFilter)
    (r : SsrfDnsResolver) (url_str : string) (max_bytes : Z) (env : nat → Round)
    : SsrfDnsResolver * list (Url * SocketAddr) * result SsrfError T :=
  let '(r, sent, res) := safe_get f r url_str max_bytes env in
  (r, sent, bytes ← res; map_err SsrfError_Json (decode bytes)).
End urls.
End resolver.

(** ** The pool of clients

    A client is named by its resolver, an index into the resolvers built so far ([Arc] sharing:
    evicting a pair from the map does not destroy it for those who hold it).  The lookup runs under
    the read lock and the installation under the write lock, with other threads possibly between. *)
Abbreviation PooledClientKey := (option Z * bool)%type.
Record Pool := mkPool { resolvers : list SsrfDnsResolver; POOLED_CLIENTS : gmap PooledClientKey nat }.

Definition build_pooled_client_pair (p : Pool) (allow : bool) : Pool * nat :=
  (mkPool (resolvers p ++ [resolver_new allow]) (POOLED_CLIENTS p), length (resolvers p)).

Section pool.
Context (first_pool_key : gmap PooledClientKey nat → option PooledClientKey).

Definition install_pooled (p : Pool) (key : PooledClientKey) (built : nat) : Pool * nat :=
  match POOLED_CLIENTS p !! key with
  | Some existing => (p, existing)
  | None =>
      let guard := POOLED_CLIENTS p in
      let guard := if Z.of_nat (size guard) >=? 64
                   then match first_pool_key guard with
                        | Some victim => delete victim guard
                        | None => guard
                        end
                   else guard in
      (mkPool (resolvers p) (<[key := built]> guard), built)
  end.

(** [runtime_scoped_client_and_resolver]; [between] is what other threads do to the pool between
    the two locks. *)
Definition runtime_scoped_client_and_resolver (between : Pool → Pool) (runtime_id : option Z)
    (allow : bool) (p : Pool) : Pool * nat :=
  let key := (runtime_id, allow) in
  match POOLED_CLIENTS p !! key with
  | Some pooled => (p, pooled)
  | None => let '(p, built) := build_pooled_client_pair p allow in install_pooled (between p) key built
  end.
End pool.

(** ** Facts *)
Definition admissible (f : SsrfFilter) (a : SocketAddr) : Prop := is_ip_restricted f (fst a) = false.

Lemma validate_ip_Ok f ip u : validate_ip f ip = Ok u ↔ is_ip_restricted f ip = false.
Proof. destruct u. unfold validate_ip. destruct (is_ip_restricted f ip); naive_solver. Qed.

Lemma validate_all_Ok f l u : validate_all f l = Ok u ↔ Forall (admissible f) l.
Proof.
  destruct u. induction l as [|[ip p] l IH]; simpl; [split; [constructor|done]|].
  rewrite bind_Ok, Forall_cons, <-IH. unfold admissible at 1; simpl.
  setoid_rewrite validate_ip_Ok. naive_solver.
Qed.

Lemma filter_split_perm {A} (P : A → bool) l :
  List.filter P l ++ List.filter (λ a, negb (P a)) l ≡ₚ l.
Proof.
  induction l as [|x l IH]; simpl; [done|]. destruct (P x); simpl; [by rewrite IH|].
  by rewrite <-Permutation_middle, IH.
Qed.

Lemma validated_addrs_Ok f host dns l :
  validated_addrs f host dns = Ok l →
  ∃ addrs, dns = DnsAddrs addrs ∧ l ≡ₚ addrs ∧ addrs ≠ [] ∧ Forall (admissible f) addrs.
Proof.
  destruct dns as [|e|addrs]; simpl; try done. destruct addrs as [|a addrs]; [done|].
  intros (u & Hv%validate_all_Ok & E)%bind_Ok. exists (a :: addrs).
  assert (l ≡ₚ a :: addrs).
  { injection E as <-. destruct (allow_insecure_localhost f); [|done]. apply filter_split_perm. }
  done.
Qed.

(** One restricted answer spoils the whole lookup. *)
Lemma validated_addrs_restricted f host addrs :
  ¬ Forall (admissible f) addrs →
  ∃ ip, validated_addrs f host (DnsAddrs addrs) = Err (SsrfError_BlockedIp (ip_to_string ip)) ∧
        is_ip_restricted f ip = true.
Proof.
  intros Hn. destruct addrs as [|a addrs]; [by destruct Hn|]. unfold validated_addrs.
  assert (∀ l, ¬ Forall (admissible f) l → ∃ ip,
    validate_all f l = Err (SsrfError_BlockedIp (ip_to_string ip)) ∧ is_ip_restricted f ip = true) as Hall.
  { clear. induction l as [|[ip p] l IH]; intros Hn; [by destruct Hn|]. simpl. unfold validate_ip.
    destruct (is_ip_restricted f ip) eqn:E; [by exists ip|]. simpl. apply IH. intros Hl. apply Hn.
    by constructor. }
  destruct (Hall _ Hn) as (ip & E & Hip). exists ip. by step_ok E.
Qed.

(** ** The resolver's pins *)
Class FirstKeyLaws (first_key : gmap string IpAddr → option string) : Prop := {
  first_key_in m k : first_key m = Some k → is_Some (m !! k);
  first_key_some m : m ≠ ∅ → is_Some (first_key m)
}.

Record resolver_wf (r : SsrfDnsResolver) : Prop := {
  pins_admissible : ∀ k ip, pinned_ips r !! k = Some ip → is_ip_restricted (filter r) ip = false;
  pins_bounded : Z.of_nat (size (pinned_ips r)) ≤ MAX_PINNED_HOSTS
}.

Lemma resolver_new_wf allow : resolver_wf (resolver_new allow).
Proof. split; simpl; [intros k ip; by rewrite lookup_empty|done]. Qed.

Lemma pin_host_filter fk r host ip : filter (pin_host fk r host ip) = filter r.
Proof. unfold pin_host. by destruct (validate_ip (filter r) ip). Qed.

Lemma pin_host_wf fk `{!FirstKeyLaws fk} r host ip : resolver_wf r → resolver_wf (pin_host fk r host ip).
Proof.
  intros [Hadm Hb]. unfold pin_host. destruct (validate_ip (filter r) ip) as [u|] eqn:Ev; [|done].
  apply validate_ip_Ok in Ev. set (guard := if _ && _ then _ else _).
  assert (guard ⊆ pinned_ips r) as Hsub.
  { unfold guard. case_if; [|done]. case_match; [apply delete_subseteq|done]. }
  split; simpl.
  - intros k ip'. rewrite lookup_insert_Some. intros [[_ <-]|[_ Hk]]; [done|].
    eapply Hadm. by eapply lookup_weaken.
  - destruct (guard !! host_key host) as [y|] eqn:Eg.
    { rewrite map_size_insert_Some by eauto. etrans; [|exact Hb]. apply size_subseteq in Hsub. lia. }
    rewrite map_size_insert_None by done. destruct (pinned_ips r !! host_key host) as [z|] eqn:Ep.
    { unfold guard in Eg. rewrite bool_decide_true in Eg by eauto. simpl in Eg. congruence. }
    unfold guard. rewrite bool_decide_false by (by intros [? ?]). simpl.
    destruct (Z.of_nat (size (pinned_ips r)) >=? MAX_PINNED_HOSTS) eqn:Efull; b2p; [|lia].
    unfold MAX_PINNED_HOSTS in *. destruct (first_key_some (pinned_ips r)) as [v Hv].
    { intros E. rewrite E, map_size_empty in Efull. lia. }
    destruct (first_key_in _ _ Hv) as [x Hx]. rewrite Hv, map_size_delete_Some by eauto.
    assert (size (pinned_ips r) ≠ 0%nat) by lia. lia.
Qed.

Section facts.
Context (fk : gmap string IpAddr → option string) `{UrlCrate} (status_display : Z → string).

(** A validated URL is https, or plain http to this host in test mode, and its host is not on the
    block list. *)
Lemma validate_url_Ok f url u :
  validate_url f url = Ok u →
  ∃ host, url_host_str url = Some host ∧
    (url_scheme url = "https" ∨
     allow_insecure_localhost f = true ∧ url_scheme url = "http" ∧
     host ∈ ["localhost"; "127.0.0.1"; "::1"; "[::1]"]) ∧
    (allow_insecure_localhost f = false → is_blocked_hostname host = false) ∧
    metadata_or_internal (trim_end_matches "." (to_ascii_lowercase host)) = false ∧
    (∀ ip, parse_ip host = Some ip → is_ip_restricted f ip = false).
Proof.
  unfold validate_url. intros E. apply bind_Ok in E as (host & Hh%ok_or_Ok & E).
  apply bind_Ok in E as (? & Hscheme & E). apply bind_Ok in E as (? & Hb%fail_if_Ok & E).
  apply bind_Ok in E as (? & Hm%fail_if_Ok & E). exists host. split; [done|]. split.
  { destruct (url_scheme url =? "https")%string eqn:E1; b2p; [by left|right].
    destruct (url_scheme url =? "http")%string eqn:E2; b2p; simpl in Hscheme; [|done].
    destruct (allow_insecure_localhost f); [|done]. simpl in Hscheme.
    match goal with H : context [negb ?b] |- _ => destruct b eqn:El end; [|done]. b2p. set_solver. }
  repeat split.
  - intros Ha. by rewrite Ha in Hb.
  - destruct (allow_insecure_localhost f); [done|]. simpl in Hb. unfold is_blocked_hostname in Hb.
    b2p. tauto.
  - intros ip Hip. rewrite Hip in E. by apply validate_ip_Ok in E.
Qed.

Lemma resolve_and_pin_Ok f url dns a hh :
  resolve_and_pin f url dns = Ok (a, hh) → validate_url f url = Ok tt ∧ admissible f a.
Proof.
  unfold resolve_and_pin. intros E. apply bind_Ok in E as ([] & Hv & E). split; [done|].
  apply bind_Ok in E as (host & _ & E). destruct (parse_ip host) as [ip|].
  - apply bind_Ok in E as (? & Hip%validate_ip_Ok & E). injection E as <- _. done.
  - apply bind_Ok in E as (addrs & Hl & E). destruct addrs as [|b addrs]; [done|].
    injection E as <- _. destruct (validated_addrs_Ok _ _ _ _ Hl) as (l & _ & Hp & _ & Hf).
    rewrite <-Hp in Hf. by apply Forall_cons in Hf as [? _].
Qed.

Lemma read_chunks_Ok max chunks buffer b :
  max < u64_max →
  read_chunks max buffer chunks = Ok b ↔
  ∃ parts, List.map fst chunks = List.map Ok parts ∧ b = buffer ++ concat parts ∧
    (chunks ≠ [] → zlen b ≤ max).
Proof.
  intros Hmax. revert buffer. induction chunks as [|[[c|e] cl] chunks IH]; intros buffer; simpl.
  - split.
    + intros [= <-]. exists []. simpl. rewrite app_nil_r. done.
    + intros (parts & Hp & -> & _). destruct parts; [|done]. simpl. by rewrite app_nil_r.
  - unfold u64_saturating_add. case_if; b2p.
    + split; [done|]. intros (parts & Hp & -> & Hlen). destruct parts as [|p parts]; [done|].
      simpl in Hp. injection Hp as -> _. specialize (Hlen ltac:(done)).
      unfold zlen in *. simpl in Hlen. rewrite !length_app in Hlen. lia.
    + rewrite IH. split.
      * intros (parts & Hp & -> & Hlen). exists (c :: parts). simpl. rewrite Hp, app_assoc.
        repeat split; try done. intros _. destruct chunks as [|x chunks].
        -- destruct parts; [|done]. simpl. rewrite app_nil_r. unfold zlen in *. rewrite length_app. lia.
        -- by apply Hlen.
      * intros (parts & Hp & -> & Hlen). destruct parts as [|p parts]; [done|].
        simpl in Hp. injection Hp as -> Hp. exists parts. simpl in *. rewrite app_assoc in *.
        repeat split; try done. intros _. by apply Hlen.
  - split; [done|]. intros (parts & Hp & _). by destruct parts.
Qed.

Lemma read_bounded_body_len resp max b :
  0 ≤ max → read_bounded_body resp max = Ok b → zlen b ≤ max ∨ u64_max ≤ max.
Proof.
  intros H0 E. destruct (Z.lt_ge_cases max u64_max) as [Hlt|]; [left|lia].
  assert (read_chunks max [] (body resp) = Ok b) as Hr.
  { unfold read_bounded_body in E. destruct (content_length resp); [destruct (_ >? _)|]; done. }
  apply read_chunks_Ok in Hr as (parts & Hp & -> & Hlen); [|done].
  destruct (body resp); [|by apply Hlen]. destruct parts; [|done]. done.
Qed.

(** What one round of [safe_get] may send, and what it leaves in the resolver. *)
Definition request_safe (f : SsrfFilter) (ua : Url * SocketAddr) : Prop :=
  validate_url f (fst ua) = Ok tt ∧ admissible f (snd ua).

Lemma build_pinned_client_safe `{!FirstKeyLaws fk} f r url dns r' built :
  resolver_wf r → build_pinned_client fk f r url dns = (r', built) →
  resolver_wf r' ∧ filter r' = filter r ∧
  (∀ a hh, built = Ok (a, hh) → request_safe f (url, a)).
Proof.
  intros Hr. unfold build_pinned_client. destruct (resolve_and_pin f url dns) as [[a hh]|e] eqn:E.
  - intros [= <- <-]. destruct (parse_ip _).
    + split; [done|]. split; [done|]. intros ? ? [= <- <-]. by eapply resolve_and_pin_Ok.
    + split; [by apply pin_host_wf|]. split; [apply pin_host_filter|].
      intros ? ? [= <- <-]. by eapply resolve_and_pin_Ok.
  - intros [= <- <-]. done.
Qed.

Definition get_safe (n : nat) (f : SsrfFilter) (max : Z) (r : SsrfDnsResolver)
    (out : SsrfDnsResolver * list (Url * SocketAddr) * result SsrfError (list Z)) : Prop :=
  let '(r', sent, res) := out in
  resolver_wf r' ∧ filter r' = filter r ∧ (length sent ≤ n)%nat ∧ Forall (request_safe f) sent ∧
  ∀ b, res = Ok b → ∃ resp, read_bounded_body resp max = Ok b.

Lemma get_safe_stop n f max r r' ua res :
  resolver_wf r' → filter r' = filter r → request_safe f ua →
  (∀ b, res = Ok b → ∃ resp, read_bounded_body resp max = Ok b) →
  get_safe (S n) f max r (r', [ua], res).
Proof. intros Hr Hf Hs Hb. split_and!; try done; simpl; [lia|by constructor]. Qed.

Lemma get_safe_more n f max r r1 ua out :
  filter r1 = filter r → request_safe f ua → get_safe n f max r1 out →
  get_safe (S n) f max r (let '(r', more, res) := out in (r', [ua] ++ more, res)).
Proof.
  intros Hf Hs. destruct out as [[r' more] res]. intros (H1 & H2 & H3 & H4 & H5).
  split_and!; try done; [congruence|simpl; lia|by constructor].
Qed.

Lemma safe_get_loop_safe `{!FirstKeyLaws fk} n f max env : ∀ r url i,
  resolver_wf r → get_safe (S n) f max r (safe_get_loop fk status_display n f max r url i env).
Proof.
  induction n as [|n IH]; intros r url i Hr; simpl;
    destruct (build_pinned_client fk f r url (dns_answer (env i))) as [r1 built] eqn:Eb;
    destruct (build_pinned_client_safe _ _ _ _ _ _ Hr Eb) as (Hr1 & Hf1 & Hsafe);
    (destruct built as [[a hh]|e]; [specialize (Hsafe a hh eq_refl)|]).
  all: try (split_and!; try done; simpl; lia).
  all: destruct (http_answer (env i)) as [resp|e]; [|by apply get_safe_stop].
  all: destruct (bool_decide (300 ≤ _ ≤ _)).
  all: try (destruct (negb _); apply get_safe_stop; [done..|]; try done; intros b E; by exists resp).
  - by apply get_safe_stop.
  - destruct (location resp) as [[loc|e]|]; [|by apply get_safe_stop..].
    destruct (url_join url loc) as [next|e]; [|by apply get_safe_stop].
    apply (get_safe_more _ _ _ _ r1); [done..|]. by apply IH.
Qed.
Lemma safe_get_safe `{!FirstKeyLaws fk} f r url max env : resolver_wf r →
  get_safe 4 f max r (safe_get fk status_display f r url max env).
Proof.
  intros Hr. unfold safe_get. destruct (url_parse url).
  - by apply safe_get_loop_safe.
  - split_and!; try done. simpl. lia.
Qed.
End facts.

(** ** What the resolver hands to the connector *)

(** The resolution hook of the pooled client never yields an address the filter refuses: a
    successful resolution is non-empty, all its addresses are admissible for the filter's mode, the
    name is neither blocked nor internal; and an unpinned name of which one DNS answer is restricted
    is refused as a whole, whatever the other answers are. *)
Theorem resolve_sound r name dns :
  (∀ l, resolve r name dns = Ok l →
     l ≠ [] ∧ Forall (admissible (filter r)) l ∧
     (allow_insecure_localhost (filter r) = false → is_blocked_hostname (host_key name) = false) ∧
     metadata_or_internal (host_key name) = false) ∧
  (∀ addrs, get_pinned_ip r (host_key name) = None → dns (host_key name) = DnsAddrs addrs →
     ¬ Forall (admissible (filter r)) addrs →
     (∃ ip, resolve r name dns = Err (SsrfError_BlockedIp (ip_to_string ip)) ∧
            is_ip_restricted (filter r) ip = true) ∨
     resolve r name dns = Err (SsrfError_BlockedHost (host_key name))).
Proof.
  split.
  - intros l E. unfold resolve in E. apply bind_Ok in E as (? & Hb%fail_if_Ok & E).
    apply bind_Ok in E as (? & Hm%fail_if_Ok & E).
    assert (l ≠ [] ∧ Forall (admissible (filter r)) l) as [Hne Hall].
    { destruct (get_pinned_ip r (host_key name)) as [ip|].
      - apply bind_Ok in E as (? & Hip%validate_ip_Ok & E). injection E as <-.
        split; [done|]. by constructor.
      - destruct (validated_addrs_Ok _ _ _ _ E) as (addrs & _ & Hp & Hne & Hf).
        split; [|by rewrite Hp]. intros ->. by apply Permutation_nil_l in Hp. }
    split_and!; [done..| |].
    + intros Ha. by rewrite Ha in Hb.
    + destruct (allow_insecure_localhost (filter r)); [done|]. simpl in Hb.
      unfold is_blocked_hostname, host_key in *. rewrite !trim_dots_lower, to_ascii_lowercase_idem,
        trim_end_matches_idem in Hb. b2p. tauto.
  - intros addrs Hpin Hdns Hbad. unfold resolve, fail_if. rewrite Hpin, Hdns.
    destruct (negb _ && _); [by right|]. destruct (_ && _); [by right|]. simpl. left.
    by apply validated_addrs_restricted.
Qed.

Section properties.
Context (fk : gmap string IpAddr → option string) `{!FirstKeyLaws fk} `{UrlCrate}
  (status_display : Z → string).

(** C15. No window for DNS rebinding: once [build_pinned_client] has validated a URL and returned
    its address, the client's resolver answers that URL's host with exactly this address, whatever
    the DNS would answer at connection time. *)
Theorem pinned_client_resolves_pin f r url dns r' a hh host dns' :
  filter r = f → url_host_str url = Some host → parse_ip host = None →
  build_pinned_client fk f r url dns = (r', Ok (a, hh)) → resolve r' host dns' = Ok [(fst a, 0)].
Proof.
  intros Hf Hh Hp E. unfold build_pinned_client in E.
  destruct (resolve_and_pin f url dns) as [[a' hh']|e] eqn:Er; [|done].
  rewrite Hh in E. simpl in E. rewrite Hp in E. injection E as <- <- _.
  destruct (resolve_and_pin_Ok _ _ _ _ _ Er) as [Hv Ha]. subst f.
  destruct (validate_url_Ok _ _ _ Hv) as (h & Hh' & _ & Hblk & Hmeta & _).
  rewrite Hh in Hh'. injection Hh' as <-. rewrite trim_dots_lower in Hmeta.
  unfold resolve, get_pinned_ip. rewrite pin_host_filter.
  assert (host_key (host_key host) = host_key host) as Hidem.
  { unfold host_key. by rewrite trim_dots_lower, trim_end_matches_idem, to_ascii_lowercase_idem. }
  assert (pinned_ips (pin_host fk r host a'.1) !! host_key (host_key host) = Some a'.1) as Hpin.
  { rewrite Hidem. unfold pin_host. apply (validate_ip_Ok _ _ tt) in Ha. rewrite Ha. simpl.
    apply lookup_insert_eq. }
  assert (is_blocked_hostname (host_key host) = is_blocked_hostname host) as Hb.
  { unfold is_blocked_hostname, host_key.
    by rewrite !trim_dots_lower, to_ascii_lowercase_idem, trim_end_matches_idem. }
  rewrite Hpin, Hb. apply (validate_ip_Ok _ _ tt) in Ha.
  assert (negb (allow_insecure_localhost (filter r)) && is_blocked_hostname host = false) as ->.
  { destruct (allow_insecure_localhost (filter r)); [done|]. by rewrite Hblk. }
  unfold host_key at 1. rewrite Hmeta, andb_false_r. simpl. by rewrite Ha.
Qed.

(** C14. [safe_get] against an adversarial DNS and an adversarial server: it sends at most four
    requests (three redirects), each to a URL that passed validation and pinned to an address the
    filter admits; in production mode that means https and an address outside every restricted
    range.  A body it returns is within the limit, and the shared resolver keeps only admissible
    pins, at most 1024 of them. *)
Theorem safe_get_confined f r url max env r' sent res :
  resolver_wf r → 0 ≤ max < u64_max →
  safe_get fk status_display f r url max env = (r', sent, res) →
  (length sent ≤ 4)%nat ∧
  Forall (λ '(u, a), validate_url f u = Ok tt ∧ is_ip_restricted f (fst a) = false) sent ∧
  (allow_insecure_localhost f = false →
     Forall (λ '(u, a), url_scheme u = "https" ∧ is_restricted_ip (fst a) = false) sent) ∧
  (∀ b, res = Ok b → zlen b ≤ max) ∧
  resolver_wf r'.
Proof.
  intros Hr Hmax E. assert (get_safe 4 f max r (r', sent, res)) as (H1 & _ & H3 & H4 & H5).
  { rewrite <-E. by apply safe_get_safe. }
  split_and!; try done.
  - eapply Forall_impl; [exact H4|]. by intros [u a] [??].
  - intros Hf. eapply Forall_impl; [exact H4|]. intros [u a] [Hv Ha].
    destruct (validate_url_Ok _ _ _ Hv) as (h & _ & Hs & _). rewrite Hf in Hs.
    unfold admissible, is_ip_restricted in Ha. rewrite Hf in Ha. naive_solver.
  - intros b (resp & Hb%read_bounded_body_len)%H5; [|lia]. lia.
Qed.

End properties.

(** [read_bounded_body] returns a body exactly when the announced length (if any) and the sum of
    the chunks are within the limit and no chunk failed; the body is then the concatenation of the
    chunks, nothing dropped. *)
Theorem read_bounded_body_exact resp max b :
  0 ≤ max < u64_max →
  read_bounded_body resp max = Ok b ↔
  (∀ cl, content_length resp = Some cl → cl ≤ max) ∧
  (∃ parts, List.map fst (body resp) = List.map Ok parts ∧ b = concat parts) ∧ zlen b ≤ max.
Proof.
  intros Hmax. assert (read_chunks max [] (body resp) = Ok b ↔
    (∃ parts, List.map fst (body resp) = List.map Ok parts ∧ b = concat parts) ∧ zlen b ≤ max) as Hc.
  { rewrite read_chunks_Ok by lia. split.
    - intros (parts & Hp & -> & Hl). split; [by exists parts|]. destruct (body resp); [|by apply Hl].
      destruct parts; [|done]. unfold zlen; simpl. lia.
    - intros [(parts & Hp & ->) Hl]. by exists parts. }
  unfold read_bounded_body. destruct (content_length resp) as [cl|]; [|rewrite Hc; naive_solver].
  destruct (cl >? max) eqn:Ecl; b2p.
  - split; [done|]. intros [Hcl _]. specialize (Hcl _ eq_refl). lia.
  - rewrite Hc. split; [|tauto]. intros ?. split; [|done]. by intros ? [= <-].
Qed.

(** ** IPv6 literals

    [Url::host_str] keeps the brackets of an IPv6 literal and [IpAddr::from_str] refuses them, so
    the literal check of [validate_url] never sees one; the lookup in [resolve_and_pin] does, and
    refuses the address there. *)
Lemma validate_url_misses_ipv6_literal `{UrlCrate} url :
  url_scheme url = "https" → url_host_str url = Some "[fe80::1]" →
  parse_ip "fe80::1" = Some (V6 (mkV6 0xfe80 0 0 0 0 0 0 1)) ∧
  is_ip_restricted (mkFilter false) (V6 (mkV6 0xfe80 0 0 0 0 0 0 1)) = true ∧
  validate_url (mkFilter false) url = Ok tt ∧
  (∀ dns port, (∀ t, dns t = DnsAddrs [(V6 (mkV6 0xfe80 0 0 0 0 0 0 1), port)]) →
     resolve_and_pin (mkFilter false) url dns = Err (SsrfError_BlockedIp "fe80::1")).
Proof.
  intros Hs Hh. assert (validate_url (mkFilter false) url = Ok tt) as Hv.
  { unfold validate_url. rewrite Hh, Hs. reflexivity. }
  split; [reflexivity|]. split; [reflexivity|]. split; [done|]. intros dns port Hd.
  unfold resolve_and_pin. rewrite Hv, Hh. cbn [mbind result_bind ok_or].
  assert (parse_ip "[fe80::1]" = None) as -> by reflexivity. rewrite Hd. reflexivity.
Qed.

(** ** The pool keeps the modes apart *)
Definition resolver_mode (p : Pool) (i : nat) : option bool :=
  (λ r, allow_insecure_localhost (filter r)) <$> resolvers p !! i.

Record pool_wf (p : Pool) : Prop := {
  pool_bounded : (size (POOLED_CLIENTS p) ≤ 64)%nat;
  pool_modes : ∀ key i, POOLED_CLIENTS p !! key = Some i → resolver_mode p i = Some (snd key)
}.

(** What other threads may do: any change of the pool that keeps it well formed and does not
    forget or retarget a resolver that was built. *)
Definition pool_grows (between : Pool → Pool) : Prop :=
  ∀ p, pool_wf p → pool_wf (between p) ∧
    ∀ i m, resolver_mode p i = Some m → resolver_mode (between p) i = Some m.

Class FirstPoolKeyLaws (fpk : gmap PooledClientKey nat → option PooledClientKey) : Prop := {
  first_pool_key_in m k : fpk m = Some k → is_Some (m !! k);
  first_pool_key_some m : m ≠ ∅ → is_Some (fpk m)
}.

Lemma install_pooled_wf fpk `{!FirstPoolKeyLaws fpk} p key built p' i :
  pool_wf p → resolver_mode p built = Some (snd key) → install_pooled fpk p key built = (p', i) →
  pool_wf p' ∧ resolver_mode p' i = Some (snd key) ∧ resolvers p' = resolvers p.
Proof.
  intros [Hb Hm] Hmode. unfold install_pooled. destruct (POOLED_CLIENTS p !! key) as [j|] eqn:Ek.
  { intros E. simplify_eq/=. split_and!; [done|by apply Hm|done]. }
  intros E. injection E as <- <-. split_and!; [|done|done]. set (guard := if _ >=? _ then _ else _).
  assert (guard ⊆ POOLED_CLIENTS p) as Hsub.
  { unfold guard. destruct (_ >=? _); [|done]. destruct (fpk _); [apply delete_subseteq|done]. }
  split; simpl.
  - rewrite map_size_insert_None by (by eapply lookup_weaken_None).
    unfold guard. destruct (_ >=? _) eqn:Efull; b2p; [|lia].
    destruct (first_pool_key_some (POOLED_CLIENTS p)) as [v Hv].
    { intros E. rewrite E, map_size_empty in Efull. lia. }
    rewrite Hv, map_size_delete_Some by (by apply first_pool_key_in). lia.
  - intros key' j. rewrite lookup_insert_Some. intros [[<- <-]|[_ Hj]]; [done|].
    apply Hm. by eapply lookup_weaken.
Qed.

(** The pool of HTTP clients hands out, for a filter's mode, a client whose resolver enforces
    that mode, and keeps at most 64 clients, also when another thread installs a client between the
    read lock and the write lock: a strict filter is never given the resolver of the test mode. *)
Theorem pooled_client_mode fpk `{!FirstPoolKeyLaws fpk} between runtime_id allow p p' i :
  pool_wf p → pool_grows between →
  runtime_scoped_client_and_resolver fpk between runtime_id allow p = (p', i) →
  pool_wf p' ∧ resolver_mode p' i = Some allow.
Proof.
  intros Hp Hbt. unfold runtime_scoped_client_and_resolver.
  destruct (POOLED_CLIENTS p !! (runtime_id, allow)) as [j|] eqn:Ek.
  { intros [= <- <-]. split; [done|]. by apply (pool_modes _ Hp) in Ek. }
  simpl. set (p1 := mkPool _ _). intros E.
  assert (pool_wf p1) as Hp1.
  { destruct Hp as [Hb Hm]. split; [done|]. intros key j Hj. apply Hm in Hj. unfold resolver_mode in *.
    simpl. apply fmap_Some in Hj as (r & Hr & ->). by rewrite lookup_app_l_Some with (x := r). }
  destruct (Hbt p1 Hp1) as [Hp2 Hgrow].
  assert (resolver_mode p1 (length (resolvers p)) = Some allow) as Hnew.
  { unfold resolver_mode, p1; simpl. by rewrite list_lookup_middle. }
  by destruct (install_pooled_wf fpk _ (runtime_id, allow) _ _ _ Hp2 (Hgrow _ _ Hnew) E) as (? & ? & _).
Qed.

Module SsrfExamples.
Definition fst_key {K V} `{Countable K} (m : gmap K V) : option K := fst <$> head (map_to_list m).
Lemma fst_key_in {K V} `{Countable K} (m : gmap K V) k : fst_key m = Some k → is_Some (m !! k).
Proof.
  unfold fst_key. destruct (map_to_list m) as [|[k' v] l] eqn:E; [done|]. intros [= <-]. exists v.
  apply elem_of_map_to_list. rewrite E. by left.
Qed.
Lemma fst_key_some {K V} `{Countable K} (m : gmap K V) : m ≠ ∅ → is_Some (fst_key m).
Proof.
  intros Hm. unfold fst_key. destruct (map_to_list m) as [|[k' v] l] eqn:E; [|by eexists].
  destruct Hm. by apply map_to_list_empty_iff.
Qed.
#[local] Instance fst_key_laws : FirstKeyLaws fst_key.
Proof. split; [apply fst_key_in|apply fst_key_some]. Qed.
#[local] Instance fst_pool_key_laws : FirstPoolKeyLaws fst_key.
Proof. split; [apply fst_key_in|apply fst_key_some]. Qed.

(** URLs of the shape [https://host/path] and nothing else. *)
#[local] Instance plain_urls : UrlCrate :=
  {| Url := string * string;
     url_parse := λ s, match strip_prefix "https://" s ≫= split_once_char "/" with
                       | Some u => Ok u | None => Err "relative URL without a base" end;
     url_scheme := λ _, "https"; url_host_str := λ u, Some (fst u); url_port := λ _, None;
     url_path := λ u, String "/" (snd u);
     url_as_str := λ u, "https://" +:+ fst u +:+ String "/" (snd u);
     url_port_or_known_default := λ _, Some 443;
     url_join := λ u s, Ok (fst u, s) |}.

Definition example_url : Url := ("pds.example.com", "x").
Definition public : IpAddr := V4 (mkV4 93 184 216 34).
Definition dns (_ : string) : DnsOutcome := DnsAddrs [(public, 443)].
Definition rebound (_ : string) : DnsOutcome := DnsAddrs [(V4 (mkV4 127 0 0 1), 443)].
Definition redirecting : Response := mkResponse 302 (Some (Ok "next")) None [].
Definition final : Response := mkResponse 200 None (Some 3) [(Ok [1; 2], Some 3); (Ok [3], Some 3)].
Definition env (i : nat) : Round := mkRound dns (Ok (if decide (i = 0%nat) then redirecting else final)).
Definition strict := mkFilter false.

Lemma pinned_client_resolves_pin_witness :
  let r' := fst (build_pinned_client fst_key strict (resolver_new false) example_url dns) in
  resolve r' "pds.example.com" rebound = Ok [(public, 0)].
Proof.
  apply (pinned_client_resolves_pin fst_key strict (resolver_new false) example_url dns
           _ (public, 443) "pds.example.com" "pds.example.com"); vm_compute; reflexivity.
Defined.

Lemma safe_get_confined_witness :
  let '(r', sent, res) :=
    safe_get fst_key pretty strict (resolver_new false) "https://pds.example.com/x" 1024 env in
  res = Ok [1; 2; 3] ∧ length sent = 2%nat ∧ (length sent ≤ 4)%nat ∧ resolver_wf r'.
Proof.
  destruct (safe_get _ _ _ _ _ _ _) as [[r' sent] res] eqn:E.
  pose proof (safe_get_confined fst_key pretty strict (resolver_new false) "https://pds.example.com/x"
    1024 env r' sent res (resolver_new_wf false) ltac:(done) E) as (H1 & _ & _ & _ & H5).
  split; [|split; [|done]]; vm_compute in E; injection E as <- <- <-; done.
Defined.

Lemma read_bounded_body_exact_witness : read_bounded_body final 1024 = Ok [1; 2; 3].
Proof.
  apply (read_bounded_body_exact final 1024 [1; 2; 3]); [done|]. split; [by intros ? [= <-]|].
  split; [by exists [[1; 2]; [3]]|done].
Defined.

Lemma pooled_client_mode_witness :
  let '(p', i) := runtime_scoped_client_and_resolver fst_key id (Some 1) false (mkPool [] ∅) in
  resolver_mode p' i = Some false.
Proof.
  destruct (runtime_scoped_client_and_resolver _ _ _ _ _) as [p' i] eqn:E.
  apply (pooled_client_mode fst_key id (Some 1) false (mkPool [] ∅) p' i); [| |exact E].
  - split; [simpl; rewrite map_size_empty; lia|]. intros key j. simpl. by rewrite lookup_empty.
  - by intros p Hp.
Defined.
End SsrfExamples.
