(* ===== verification/Fetch.v ===== *)
(** * Fetch: sequences of guarded requests

    The components that resolve identities and metadata call [SsrfFilter::safe_get] several times.
    [World] is what those calls share and leave behind: the pins of the client's resolver, the
    number of calls made (every call meets fresh answers of DNS and servers) and the requests sent:
    those that went through the filter ([w_sent]), and the URLs asked of the DNS-over-HTTPS service,
    whose client has no filter ([w_doh]).  The relation [guarded] is the interface the components rely
    on for the first kind, [asks] for the second. *)
From S2P Require Import Prelude Errors Strs Externals IpFilter Net Ssrf.
Open Scope Z_scope.

Section fetch.
Context (fk : gmap string IpAddr → option string) `{UrlCrate} (status_display : Z → string).
(** The answers the [k]-th call meets in its successive rounds. *)
Context (answers : nat → nat → Round).

Record World := mkWorld {
  w_resolver : SsrfDnsResolver;
  w_calls : nat;
  w_sent : list (Url * SocketAddr);
  w_doh : list string
}.

(** [safe_get] as a computation on the shared state. *)
Definition fetch (f : SsrfFilter) (url_str : string) (max_bytes : Z)
    : st World SsrfError (list Z) := λ w,
  let '(r, sent, res) :=
    safe_get fk status_display f (w_resolver w) url_str max_bytes (answers (w_calls w)) in
  (mkWorld r (S (w_calls w)) (w_sent w ++ sent) (w_doh w), res).

Definition fetch_json {T} (decode : list Z → result string T) (f : SsrfFilter) (url_str : string)
    (max_bytes : Z) : st World SsrfError T := λ w,
  let '(r, sent, res) :=
    safe_get_json fk status_display decode f (w_resolver w) url_str max_bytes (answers (w_calls w)) in
  (mkWorld r (S (w_calls w)) (w_sent w ++ sent) (w_doh w), res).

(** ** Confinement *)

(** At most [n] more guarded calls, each of at most four requests, every request safe for the filter, and
    the resolver still well formed. *)
Definition guarded (f : SsrfFilter) (n : nat) (w w' : World) : Prop :=
  resolver_wf (w_resolver w) →
  resolver_wf (w_resolver w') ∧
  ∃ more, w_sent w' = w_sent w ++ more ∧ Forall (request_safe f) more ∧ (length more ≤ 4 * n)%nat.

Lemma guarded_refl f w : guarded f 0 w w.
Proof. intros Hr. split; [done|]. exists []. rewrite app_nil_r. done. Qed.

Lemma guarded_trans f n m w1 w2 w3 :
  guarded f n w1 w2 → guarded f m w2 w3 → guarded f (n + m) w1 w3.
Proof.
  intros H1 H2 Hr. destruct (H1 Hr) as (Hr2 & more & E & Hs & Hl).
  destruct (H2 Hr2) as (Hr3 & more' & E' & Hs' & Hl'). split; [done|]. exists (more ++ more').
  rewrite E', E, app_assoc, length_app, Forall_app. split_and!; [done..|lia].
Qed.

Lemma guarded_weaken f n m w w' : (n ≤ m)%nat → guarded f n w w' → guarded f m w w'.
Proof.
  intros Hnm H0 Hr. destruct (H0 Hr) as (Hr' & more & E & Hs & Hl). split; [done|].
  exists more. split_and!; [done..|lia].
Qed.

(** A computation that makes at most [n] guarded calls. *)
Definition confined {E A} (f : SsrfFilter) (n : nat) (m : st World E A) : Prop :=
  ∀ w, guarded f n w (m w).1.

Lemma confined_bind {E A B} f n k (m : st World E A) (g : A → st World E B) :
  confined f n m → (∀ a, confined f k (g a)) → confined f (n + k) (m ≫= g).
Proof.
  intros Hm Hg w. unfold mbind, st_bind. specialize (Hm w). destruct (m w) as [w1 [a|e]]; simpl in *.
  - eapply guarded_trans; [exact Hm|apply Hg].
  - eapply guarded_weaken; [|exact Hm]. lia.
Qed.

Lemma confined_lift {E A} f (r : result E A) : confined f 0 (lift r).
Proof. intros w. apply guarded_refl. Qed.

Lemma confined_ret {E A} f (a : A) : confined f 0 (mret a : st World E A).
Proof. intros w. apply guarded_refl. Qed.

Lemma confined_map_err {E F A} f n (g : E → F) (m : st World E A) :
  confined f n m → confined f n (st_map_err g m).
Proof. intros Hm w. unfold st_map_err. specialize (Hm w). by destruct (m w). Qed.

Lemma confined_weaken {E A} f n k (m : st World E A) : (n ≤ k)%nat → confined f n m → confined f k m.
Proof. intros Hnk Hm w. eapply guarded_weaken; [exact Hnk|apply Hm]. Qed.

(** A computation that asks the DNS-over-HTTPS service for at most [n] URLs, all of them [P]. *)
Definition asks {E A} (n : nat) (P : string → Prop) (m : st World E A) : Prop :=
  ∀ w, ∃ l, w_doh (m w).1 = w_doh w ++ l ∧ (length l ≤ n)%nat ∧ Forall P l.

Lemma asks_quiet {E A} n P (m : st World E A) : (∀ w, w_doh (m w).1 = w_doh w) → asks n P m.
Proof. intros Hm w. exists []. rewrite Hm, app_nil_r. split_and!; [done|simpl; lia|done]. Qed.

Lemma asks_bind {E A B} n k P (m : st World E A) (g : A → st World E B) :
  asks n P m → (∀ a, asks k P (g a)) → asks (n + k) P (m ≫= g).
Proof.
  intros Hm Hg w. destruct (Hm w) as (l & Ew & Hl & Hf). unfold mbind, st_bind.
  destruct (m w) as [w1 [a|e]]; simpl in *; [|exists l; split_and!; [done|lia|done]].
  destruct (Hg a w1) as (l' & Ew' & Hl' & Hf'). exists (l ++ l').
  rewrite Ew', Ew, app_assoc, length_app, Forall_app. split_and!; [done|lia|done..].
Qed.

Lemma asks_map_err {E F A} n P (h : E → F) (m : st World E A) : asks n P m → asks n P (st_map_err h m).
Proof. intros Hm w. unfold st_map_err. specialize (Hm w). by destruct (m w). Qed.

Lemma asks_lift {E A} P (r : result E A) : asks 0 P (lift r).
Proof. by apply asks_quiet. Qed.

Lemma asks_lift_bind {E A B} k P (r : result E A) (g : A → st World E B) :
  (∀ a, r = Ok a → asks k P (g a)) → asks k P (lift r ≫= g).
Proof.
  intros Hg w. destruct r as [a|e]; [by apply (Hg a)|]. exists []. cbn. rewrite app_nil_r. split_and!; [done|lia|done].
Qed.

Lemma asks_ret {E A} P (a : A) : asks 0 P (mret a : st World E A).
Proof. by apply asks_quiet. Qed.

Lemma asks_fetch P f url max : asks 0 P (fetch f url max).
Proof. apply asks_quiet. intros w. unfold fetch. by destruct (safe_get _ _ _ _ _ _ _) as [[r sent] res]. Qed.

Lemma fetch_json_doh {T} (decode : list Z → result string T) f url max w :
  w_doh (fetch_json decode f url max w).1 = w_doh w.
Proof. unfold fetch_json. by destruct (safe_get_json _ _ _ _ _ _ _ _) as [[r sent] res]. Qed.

Lemma asks_fetch_json {T} P (decode : list Z → result string T) f url max : asks 0 P (fetch_json decode f url max).
Proof. apply asks_quiet. intros w. apply fetch_json_doh. Qed.

Context `{!FirstKeyLaws fk}.

Lemma confined_fetch f url max : confined f 1 (fetch f url max).
Proof.
  intros w Hr. pose proof (safe_get_safe fk status_display f _ url max (answers (w_calls w)) Hr) as Hs. unfold fetch.
  destruct (safe_get _ _ _ _ _ _ _) as [[r sent] res]. destruct Hs as (H1 & _ & H3 & H4 & _). simpl.
  split; [done|]. exists sent. split_and!; [done..|lia].
Qed.

Lemma confined_fetch_json {T} (decode : list Z → result string T) f url max :
  confined f 1 (fetch_json decode f url max).
Proof.
  intros w Hr. pose proof (safe_get_safe fk status_display f _ url max (answers (w_calls w)) Hr) as Hs.
  unfold fetch_json, safe_get_json.
  destruct (safe_get _ _ _ _ _ _ _) as [[r sent] res]. destruct Hs as (H1 & _ & H3 & H4 & _). simpl.
  split; [done|]. exists sent. split_and!; [done..|lia].
Qed.
End fetch.

Create HintDb confined.
#[export] Hint Resolve confined_bind confined_lift confined_ret confined_map_err confined_fetch
  confined_fetch_json : confined.

(** Computations that ask the DNS-over-HTTPS service for nothing. *)
Create HintDb asks.
#[export] Hint Resolve asks_bind asks_lift asks_ret asks_map_err asks_fetch asks_fetch_json : asks.
Ltac asks_none := repeat first [apply (asks_bind 0 0); [|intros] | progress auto 1 with asks | apply asks_map_err].
