(* ===== verification/Identity.v ===== *)
(** * Identity: handles, DIDs and DID documents (src/src/identity.rs)

    Syntax checks of handles and DIDs, DID documents, and the resolver that goes from a handle or a
    DID to a verified identity bundle.  Decoding JSON into the derived structs is serde's
    (parameters of [IdentitySerde]); the TXT lookup goes either to the installed [DnsTxtResolver] or
    to the DNS-over-HTTPS service, both answering afresh at every call. *)
From S2P Require Import Prelude Errors Strs Externals IpFilter Net Ssrf Fetch.
Open Scope Z_scope.

Definition DEFAULT_PLC_DIRECTORY : string := "https://plc.directory".
Definition DEFAULT_HANDLE_DOMAIN : string := "bsky.social".

Inductive DidMethod := Plc | Web.
#[export] Instance DidMethod_eq_dec : EqDecision DidMethod.
Proof. solve_decision. Defined.

Record VerificationMethod := mkVerificationMethod {
  vm_id : string; key_type : string; controller : string; public_key_multibase : option string
}.
Record DidService := mkDidService {
  svc_id : string; service_type : string; service_endpoint : string
}.
Record DidDocument := mkDidDocument {
  doc_id : string;
  also_known_as : list string;
  verification_method : list VerificationMethod;
  service : list DidService
}.

(** ** Handles *)
Definition DISALLOWED_HANDLE_TLDS : list string :=
  ["alt"; "arpa"; "example"; "internal"; "invalid"; "local"; "localhost"; "onion"].
Definition str_mem (s : string) (l : list string) : bool := existsb (String.eqb s) l.

Definition InvalidHandle {A} (msg : string) : result IdentityError A :=
  Err (IdentityError_InvalidHandleSyntax msg).

(** One iteration of the loop over the labels. *)
Definition check_label (label : string) : result IdentityError unit :=
  if str_is_empty label || (str_len label >? 63) then
    InvalidHandle ("Domain label '" +:+ label +:+ "' length " +:+ pretty (str_len label)
                   +:+ " is outside valid range (1..=63)")
  else if starts_with label "-" || ends_with label "-" then
    InvalidHandle ("Domain label '" +:+ label +:+ "' must not start or end with a hyphen")
  else if negb (match label with String c _ => is_ascii_alphanumeric c | EmptyString => false end) then
    InvalidHandle ("Domain label '" +:+ label +:+ "' must start with an alphanumeric character")
  else if negb (str_forall (λ c, is_ascii_alphanumeric c || Ascii.eqb c "-") label) then
    InvalidHandle ("Domain label '" +:+ label
                   +:+ "' contains illegal characters (only [a-z0-9-] allowed)")
  else Ok tt.

Fixpoint check_labels (labels : list string) : result IdentityError unit :=
  match labels with
  | [] => Ok tt
  | l :: rest => _ ← check_label l; check_labels rest
  end.

Definition is_digit_or_dot (c : ascii) : bool := is_ascii_digit c || Ascii.eqb c ".".

Definition normalize_handle (raw_handle : string) : result IdentityError string :=
  let trimmed := trim_start_matches "@" (trim raw_handle) in
  let normalized := to_ascii_lowercase trimmed in
  if str_is_empty normalized then InvalidHandle "Handle cannot be empty"
  else if str_len normalized >? 244 then
    InvalidHandle ("Handle length " +:+ pretty (str_len normalized)
                   +:+ " exceeds maximum allowed length of 244 characters")
  else if bool_decide (is_Some (parse_ip normalized)) || starts_with normalized "["
          || str_forall is_digit_or_dot normalized then
    InvalidHandle "Handle cannot be an IP address"
  else
    let labels := split_char "." normalized in
    if zlen labels <? 2 then InvalidHandle "Handle must contain at least two domain labels"
    else
      _ ← check_labels labels;
      let tld := default "" (last labels) in
      if str_mem tld DISALLOWED_HANDLE_TLDS then Err (IdentityError_DisallowedHandleTld tld)
      else if (normalized =? "handle.invalid")%string
      then Err (IdentityError_DisallowedHandleTld "handle.invalid")
      else Ok normalized.

Definition normalize_handle_with_default_domain (raw_handle default_domain : string)
    : result IdentityError string :=
  let trimmed := trim (trim_start_matches "@" (trim raw_handle)) in
  let normalized := to_ascii_lowercase trimmed in
  if str_is_empty normalized then InvalidHandle "Handle cannot be empty"
  else if negb (str_contains_char "." normalized) then
    if str_mem normalized DISALLOWED_HANDLE_TLDS then
      InvalidHandle ("Reserved single-label name '" +:+ normalized
                     +:+ "' cannot be expanded to a handle")
    else if str_forall is_ascii_digit normalized then
      InvalidHandle "Handle cannot be a numeric literal"
    else
      let suffix := trim_start_matches "." (trim default_domain) in
      normalize_handle (normalized +:+ "." +:+ suffix)
  else normalize_handle raw_handle.

Definition normalize_user_handle (raw_handle : string) : result IdentityError string :=
  normalize_handle_with_default_domain raw_handle DEFAULT_HANDLE_DOMAIN.

(** ** DIDs *)
Definition did_web_char (c : ascii) : bool :=
  is_ascii_alphanumeric c || Ascii.eqb c "." || Ascii.eqb c "-" || Ascii.eqb c "%".
Definition did_web_segment (seg : string) : bool :=
  negb (str_is_empty seg) && negb (str_contains_char "@" seg) && str_forall did_web_char seg.
Definition plc_char (c : ascii) : bool := is_ascii_lowercase c || is_ascii_digit c.

Definition validate_did_syntax (did : string) : result IdentityError DidMethod :=
  let trimmed := trim did in
  if negb (starts_with trimmed "did:") then
    Err (IdentityError_InvalidDidSyntax "DID must start with 'did:'")
  else
    match split_char ":" trimmed with
    | _ :: method :: ident :: _ =>
        if (method =? "plc")%string then
          let valid := (str_len ident =? 24) && str_forall plc_char ident in
          if negb valid then
            Err (IdentityError_InvalidDidSyntax
              ("did:plc identifier must be exactly 24 lowercase alphanumeric characters, got '"
               +:+ ident +:+ "'"))
          else Ok Plc
        else if (method =? "web")%string then
          let segments := split_char ":" (default ident (strip_prefix "did:web:" trimmed)) in
          let valid := negb (str_is_empty ident) && negb (str_contains_char "@" ident)
                       && forallb did_web_segment segments in
          if negb valid then
            Err (IdentityError_InvalidDidSyntax
              ("did:web identifier '" +:+ ident
               +:+ "' is not a valid domain (no userinfo, ports, empty segments, or non-domain characters)"))
          else Ok Web
        else Err (IdentityError_UnsupportedDidMethod method)
    | _ => Err (IdentityError_InvalidDidSyntax ("Malformed DID structure '" +:+ trimmed +:+ "'"))
    end.

(** ** DID documents *)
Definition validate_id (d : DidDocument) (expected_did : string) : result IdentityError unit :=
  if (doc_id d =? expected_did)%string then Ok tt
  else Err (IdentityError_DidDocumentIdMismatch expected_did (doc_id d)).

Definition matches_handle (d : DidDocument) (handle : string) : bool :=
  let normalized := to_ascii_lowercase (trim_start_matches "@" (trim handle)) in
  let expected_uri := "at://" +:+ normalized in
  existsb (λ aka, to_ascii_lowercase aka =? expected_uri)%string (also_known_as d).

Fixpoint find_map {A B} (f : A → option B) (l : list A) : option B :=
  match l with
  | [] => None
  | x :: l' => match f x with Some y => Some y | None => find_map f l' end
  end.

Definition extract_primary_handle (d : DidDocument) : option string :=
  find_map (λ aka, candidate ← strip_prefix "at://" aka; result_ok (normalize_handle candidate))
    (also_known_as d).

Definition verify_handle_bidirectional (d : DidDocument) (handle : string) : result IdentityError unit :=
  if matches_handle d handle then Ok tt else Err (IdentityError_HandleDidMismatch handle).

Definition is_pds_service (s : DidService) : bool :=
  ((svc_id s =? "#atproto_pds")%string || ends_with (svc_id s) "#atproto_pds")
  && (service_type s =? "AtprotoPersonalDataServer")%string.

Definition extract_signing_key (d : DidDocument) : option VerificationMethod :=
  find (λ vm, (vm_id vm =? "#atproto")%string || ends_with (vm_id vm) "#atproto")
    (verification_method d).

Section pds.
Context `{UrlCrate}.

Definition extract_pds_endpoint (d : DidDocument) : result IdentityError string :=
  match find is_pds_service (service d) with
  | Some svc =>
      let trimmed := trim_end_matches "/" (trim (service_endpoint svc)) in
      match url_parse trimmed with
      | Err e => Err (IdentityError_InvalidPdsEndpoint (trimmed +:+ ": " +:+ e))
      | Ok parsed =>
          if negb (url_scheme parsed =? "https")%string && negb (url_scheme parsed =? "http")%string
          then Err (IdentityError_InvalidPdsEndpoint
                      ("Invalid scheme in PDS endpoint '" +:+ trimmed +:+ "'"))
          else Ok trimmed
      end
  | None => Err (IdentityError_MissingPdsEndpoint (doc_id d))
  end.
End pds.

(** ** DNS-over-HTTPS *)
Definition DOH_MAX_RESPONSE_BYTES : Z := 65536.

(** [Display] for [SsrfError], which the DoH resolver embeds in its own error. *)
Definition SsrfError_display (e : SsrfError) : string :=
  match e with
  | SsrfError_BlockedIp m => "SSRF violation: blocked attempt to connect to restricted IP " +:+ m
  | SsrfError_BlockedHost m => "SSRF violation: blocked attempt to connect to restricted host '" +:+ m +:+ "'"
  | SsrfError_InsecureScheme m => "SSRF violation: insecure URL scheme in '" +:+ m +:+ "' (HTTPS required)"
  | SsrfError_DnsResolutionFailed m => "DNS resolution failed: " +:+ m
  | SsrfError_InvalidUrl m => "Invalid URL: " +:+ m
  | SsrfError_TooManyRedirects => "Too many redirects: exceeded maximum permitted redirect limit"
  | SsrfError_ResponseTooLarge mx actual =>
      "Response body too large: max " +:+ pretty mx +:+ " bytes allowed, received "
      +:+ pretty actual +:+ " bytes"
  | SsrfError_HttpStatus code m => "HTTP status " +:+ pretty code +:+ ": " +:+ m
  | SsrfError_Http m => "HTTP transport error: " +:+ m
  | SsrfError_Io m => "I/O error: " +:+ m
  | SsrfError_Json m => "JSON error: " +:+ m
  end.

(** The derived [Deserialize] implementations: [DidDocument], and [DohResponse] as its answers
    (record type and data). *)
Class IdentitySerde := {
  did_document_from_slice : list Z → result string DidDocument;
  doh_response_from_slice : list Z → result string (list (Z * string))
}.

(** A TXT lookup at the [k]-th call. *)
Definition TxtResolver : Type := string → nat → result IdentityError (list string).

Section resolver.
Context (fk : gmap string IpAddr → option string) `{UrlCrate} (status_display : Z → string).
Context (answers : nat → nat → Round).
Context `{IdentitySerde}.
(** The exchange with the DoH service for a URL, at the [k]-th call; [doh_client] is the outcome of
    building its HTTP client. *)
Context (doh_client : result string unit) (doh : string → nat → result string Response).
Local Abbreviation World := (@World _).
Local Abbreviation fetch := (fetch fk status_display answers).
Local Abbreviation fetch_json := (fetch_json fk status_display answers).

(** [StandardDnsResolver::resolve_txt].  Its client has no SSRF filter, and what a [send] of it does
    on the way (redirects that reqwest follows) is the library's. *)
Definition doh_url (query_name : string) : string :=
  "https://cloudflare-dns.com/dns-query?name=" +:+ query_name +:+ "&type=TXT".
Definition standard_resolve_txt : TxtResolver := λ query_name k,
  _ ← map_err IdentityError_Dns doh_client;
  resp ← map_err IdentityError_Dns (doh (doh_url query_name) k);
  _ ← fail_if (negb (bool_decide (200 ≤ status resp ≤ 299)))
        (IdentityError_Dns ("DoH resolver returned HTTP " +:+ status_display (status resp)
                            +:+ " for query '" +:+ query_name +:+ "'"));
  bytes ← map_err (λ e, IdentityError_Dns (SsrfError_display e))
            (read_bounded_body resp DOH_MAX_RESPONSE_BYTES);
  answer ← map_err IdentityError_Dns (doh_response_from_slice bytes);
  Ok (trim_matches "034" <$> (snd <$> List.filter (λ a, fst a =? 16) answer)).

(** ** The resolver *)
Record IdentityResolver := mkIdentityResolver {
  ssrf_filter : SsrfFilter;
  plc_directory_url : string;
  dns_resolver : option TxtResolver
}.

Definition identity_resolver_new (f : SsrfFilter) : IdentityResolver :=
  mkIdentityResolver f DEFAULT_PLC_DIRECTORY None.

(** The builder has the fields of the resolver; [build] returns them. *)
Definition builder_default : IdentityResolver := mkIdentityResolver (mkFilter false) DEFAULT_PLC_DIRECTORY None.
Definition builder_ssrf_filter (b : IdentityResolver) (f : SsrfFilter) : IdentityResolver :=
  mkIdentityResolver f (plc_directory_url b) (dns_resolver b).
Definition builder_allow_insecure_localhost (b : IdentityResolver) (allow : bool) : IdentityResolver :=
  mkIdentityResolver (mkFilter allow) (plc_directory_url b) (dns_resolver b).
Definition builder_plc_directory_url (b : IdentityResolver) (url : string) : IdentityResolver :=
  mkIdentityResolver (ssrf_filter b) url (dns_resolver b).
Definition builder_dns_resolver (b : IdentityResolver) (r : TxtResolver) : IdentityResolver :=
  mkIdentityResolver (ssrf_filter b) (plc_directory_url b) (Some r).

(** The records that name a DID. *)
Definition did_records (records : list string) : list string :=
  List.filter (λ d, negb (str_is_empty d))
    ((λ r, default "" (strip_prefix "did=" r)) <$> List.filter (λ r, starts_with r "did=") records).

(** The resolver a lookup uses: the installed one, or the standard one; and what the standard one asks
    of the DNS-over-HTTPS service: one GET, once its client could be built. *)
Definition txt_resolver (ir : IdentityResolver) : TxtResolver := default standard_resolve_txt (dns_resolver ir).
Definition doh_requests (ir : IdentityResolver) (query_name : string) : list string :=
  match dns_resolver ir, doh_client with None, Ok _ => [doh_url query_name] | _, _ => [] end.

(** A TXT lookup is one call. *)
Definition txt_lookup (ir : IdentityResolver) (query_name : string)
    : st World IdentityError (list string) := λ w,
  (mkWorld (w_resolver w) (S (w_calls w)) (w_sent w) (w_doh w ++ doh_requests ir query_name),
   txt_resolver ir query_name (w_calls w)).

Definition resolve_handle_dns (ir : IdentityResolver) (handle : string)
    : st World IdentityError (option string) :=
  normalized ← lift (normalize_handle handle);
  records ← txt_lookup ir ("_atproto." +:+ normalized);
  lift (match did_records records with
        | [] => Ok None
        | first_did :: rest =>
            _ ← validate_did_syntax first_did;
            if existsb (λ did, negb (did =? first_did)%string) rest
            then Err (IdentityError_AmbiguousHandleResolution normalized)
            else Ok (Some first_did)
        end).

Definition well_known_did_url (ir : IdentityResolver) (normalized : string) : string :=
  let scheme := if allow_insecure_localhost (ssrf_filter ir)
                   && ((normalized =? "localhost")%string || starts_with normalized "localhost:")
                then "http" else "https" in
  scheme +:+ "://" +:+ normalized +:+ "/.well-known/atproto-did".

Definition resolve_handle_https (ir : IdentityResolver) (handle : string)
    : st World IdentityError string :=
  normalized ← lift (normalize_handle handle);
  bytes ← st_map_err (λ _, IdentityError_HandleResolutionFailed normalized)
            (fetch (ssrf_filter ir) (well_known_did_url ir normalized) 2048);
  lift (text ← ok_or (from_utf8 bytes) (IdentityError_HandleResolutionFailed normalized);
        let text := trim text in
        _ ← validate_did_syntax text; Ok text).

(** The precedence of the two lookups: no record, or a failed DNS resolution, falls back. *)
Definition dns_then_https (ir : IdentityResolver) (normalized : string)
    : st World IdentityError string := λ w,
  match resolve_handle_dns ir normalized w with
  | (w', Ok (Some did)) => (w', Ok did)
  | (w', Ok None) | (w', Err (IdentityError_Dns _)) => resolve_handle_https ir normalized w'
  | (w', Err e) => (w', Err e)
  end.

Definition resolve_handle (ir : IdentityResolver) (handle : string) : st World IdentityError string :=
  normalized ← lift (normalize_handle handle); dns_then_https ir normalized.

(** How both DID methods read the errors of the request. *)
Definition did_fetch_error (did : string) (e : SsrfError) : IdentityError :=
  match e with
  | SsrfError_HttpStatus code m =>
      if code =? 404 then IdentityError_DidNotFound did else IdentityError_Ssrf e
  | SsrfError_Json err => IdentityError_MalformedDidDocument err
  | other => IdentityError_Ssrf other
  end.

Definition resolve_did_plc (ir : IdentityResolver) (did : string) : st World IdentityError DidDocument :=
  _ ← lift (validate_did_syntax did);
  let url := trim_end_matches "/" (plc_directory_url ir) +:+ "/" +:+ did in
  doc ← st_map_err (did_fetch_error did)
          (fetch_json did_document_from_slice (ssrf_filter ir) url MAX_OAUTH_RESPONSE_BYTES);
  _ ← lift (validate_id doc did);
  mret doc.

(** The URL a [did:web] stands for. *)
Definition did_web_url (ir : IdentityResolver) (stripped : string) : string :=
  let parts := split_char ":" stripped in
  let domain := str_replace "%3a" ":" (str_replace "%3A" ":" (default "" (head parts))) in
  let scheme := if allow_insecure_localhost (ssrf_filter ir)
                   && (starts_with domain "localhost" || starts_with domain "127.0.0.1")
                then "http" else "https" in
  if zlen parts =? 1 then scheme +:+ "://" +:+ domain +:+ "/.well-known/did.json"
  else scheme +:+ "://" +:+ domain +:+ "/" +:+ join_str "/" (tail parts) +:+ "/did.json".

Definition resolve_did_web (ir : IdentityResolver) (did : string) : st World IdentityError DidDocument :=
  _ ← lift (validate_did_syntax did);
  stripped ← lift (ok_or (strip_prefix "did:web:" did) (IdentityError_InvalidDidSyntax did));
  doc ← st_map_err (did_fetch_error did)
          (fetch_json did_document_from_slice (ssrf_filter ir) (did_web_url ir stripped)
             MAX_OAUTH_RESPONSE_BYTES);
  _ ← lift (validate_id doc did);
  mret doc.

Definition resolve_did (ir : IdentityResolver) (did : string) : st World IdentityError DidDocument :=
  m ← lift (validate_did_syntax did);
  match m with Plc => resolve_did_plc ir did | Web => resolve_did_web ir did end.

Record ResolvedIdentity := mkResolvedIdentity {
  ri_did : string; ri_handle : option string; did_doc : DidDocument; pds_endpoint : string
}.

Definition resolve_ident (ir : IdentityResolver) (handle_or_did : string)
    : st World IdentityError ResolvedIdentity :=
  let trimmed := trim handle_or_did in
  if starts_with trimmed "did:" then
    doc ← resolve_did ir trimmed;
    pds ← lift (extract_pds_endpoint doc);
    mret (mkResolvedIdentity trimmed (extract_primary_handle doc) doc pds)
  else
    handle ← lift (normalize_user_handle trimmed);
    did ← resolve_handle ir handle;
    doc ← resolve_did ir did;
    _ ← lift (verify_handle_bidirectional doc handle);
    pds ← lift (extract_pds_endpoint doc);
    mret (mkResolvedIdentity did (Some handle) doc pds).
End resolver.

(** ** The handle grammar *)
Definition label_char (c : ascii) : bool := is_ascii_lowercase c || is_ascii_digit c || Ascii.eqb c "-".

Record label_wf (l : string) : Prop := {
  label_len : 1 ≤ str_len l ≤ 63;
  label_chars : str_forall label_char l = true;
  label_no_leading_hyphen : starts_with l "-" = false;
  label_no_trailing_hyphen : ends_with l "-" = false
}.

(** A handle: at least two DNS labels, an admissible top-level domain, not an address. *)
Definition handle_grammar (h : string) : Prop :=
  str_len h ≤ 244 ∧ parse_ip h = None ∧ str_forall is_digit_or_dot h = false ∧
  ∃ labels, h = join_str "." labels ∧ (2 ≤ length labels)%nat ∧ Forall label_wf labels ∧
    ∀ tld, last labels = Some tld → tld ∉ DISALLOWED_HANDLE_TLDS.

Lemma str_mem_spec s l : str_mem s l = true ↔ s ∈ l.
Proof.
  unfold str_mem. rewrite existsb_exists. split.
  - intros (x & Hx%list_elem_of_In & E%String.eqb_eq). by subst.
  - intros Hs. exists s. split; [by apply list_elem_of_In|apply String.eqb_refl].
Qed.

Lemma check_label_Ok l u :
  str_forall (λ c, negb (is_ascii_uppercase c)) l = true → check_label l = Ok u ↔ label_wf l.
Proof.
  intros Hup. destruct u. unfold check_label, InvalidHandle.
  assert (str_is_empty l = false ↔ 1 ≤ str_len l) as He.
  { unfold str_is_empty, str_len. destruct l; simpl; split; (done || lia). }
  destruct (str_is_empty l || (str_len l >? 63)) eqn:E1; b2p.
  { split; [done|]. intros [Hl _ _ _]. destruct E1; [|lia]. destruct He as [_ He]. rewrite He in H by lia. done. }
  destruct E1 as [E1 E1']. apply He in E1.
  destruct (starts_with l "-" || ends_with l "-") eqn:E2; b2p.
  { split; [done|]. intros [_ _ H1 H2]. destruct E2; congruence. }
  assert (str_forall (λ c, is_ascii_alphanumeric c || Ascii.eqb c "-") l = true ↔
          str_forall label_char l = true) as Hc.
  { split; intros Hc; [pose proof (str_forall_and _ _ _ Hc Hup) as Hc'; revert Hc'|revert Hc];
      apply str_forall_impl; intros [[] [] [] [] [] [] [] []]; done. }
  destruct (match l with String c _ => is_ascii_alphanumeric c | EmptyString => false end) eqn:E3; simpl.
  - destruct (str_forall (λ c, is_ascii_alphanumeric c || Ascii.eqb c "-") l) eqn:E4; simpl.
    + split; [|done]. intros _. destruct E2. split; [lia|by apply Hc|done..].
    + split; [done|]. intros [_ Hl _ _]. apply Hc in Hl. congruence.
  - split; [done|]. intros [_ Hl Hs _]. destruct l as [|c l]; [by simpl in E1|].
    simpl in Hl. apply andb_true_iff in Hl as [Hcl _]. exfalso. revert E3 Hcl Hs. clear.
    destruct c as [[] [] [] [] [] [] [] []]; done.
Qed.

Lemma check_labels_Ok ls u :
  Forall (λ l, str_forall (λ c, negb (is_ascii_uppercase c)) l = true) ls →
  check_labels ls = Ok u ↔ Forall label_wf ls.
Proof.
  destruct u. induction ls as [|l ls IH]; intros Hup; simpl; [split; [constructor|done]|].
  apply Forall_cons in Hup as [Hl Hup]. rewrite bind_Ok, Forall_cons, <-IH by done.
  setoid_rewrite check_label_Ok; [|done]. split; [by intros (u & ? & ?)|]. intros [? ?]. by exists tt.
Qed.

Lemma label_no_dot l : label_wf l → str_contains_char "." l = false.
Proof. intros [_ Hc _ _]. by eapply str_forall_no_char, Hc. Qed.

(** What the handle checks decide on a string in lower case. *)
Definition handle_checks (normalized : string) : Prop :=
  str_is_empty normalized = false ∧ str_len normalized ≤ 244 ∧ parse_ip normalized = None ∧
  starts_with normalized "[" = false ∧ str_forall is_digit_or_dot normalized = false ∧
  2 ≤ zlen (split_char "." normalized) ∧ Forall label_wf (split_char "." normalized) ∧
  (default "" (last (split_char "." normalized)) ∉ DISALLOWED_HANDLE_TLDS) ∧
  normalized ≠ "handle.invalid".

Lemma handle_checks_grammar h : handle_checks h ↔ handle_grammar h.
Proof.
  split.
  - intros (_ & Hl & Hip & _ & Hd & H2 & Hw & Ht & _). split_and!; [done..|].
    exists (split_char "." h). split_and!; [by rewrite join_split|unfold zlen in H2; lia|done|].
    intros tld E. by rewrite E in Ht.
  - intros (Hl & Hip & Hd & labels & -> & H2 & Hw & Ht).
    assert (labels ≠ []) as Hne by (by intros ->; simpl in H2; lia).
    assert (split_char "." (join_str "." labels) = labels) as Hs.
    { apply split_join; [done|]. eapply Forall_impl; [exact Hw|apply label_no_dot]. }
    unfold handle_checks. rewrite Hs. destruct labels as [|[|c x] [|y ls]]; try done; try (simpl in H2; lia).
    { apply Forall_cons in Hw as [[Hx _ _ _] _]. unfold str_len in Hx. simpl in Hx. lia. }
    split_and!; try done.
    + apply Forall_cons in Hw as [[_ Hx _ _] _]. simpl in Hx. apply andb_true_iff in Hx as [Hx _].
      revert Hx. destruct c as [[] [] [] [] [] [] [] []]; done.
    + unfold zlen. lia.
    + destruct (last (String c x :: y :: ls)) as [tld|] eqn:E; [by apply Ht|by apply last_None in E].
    + intros E. rewrite E in Hs. rewrite <-Hs in Ht. specialize (Ht "invalid" eq_refl). apply Ht.
      unfold DISALLOWED_HANDLE_TLDS. set_solver.
Qed.

(** The normal form of a user's input, before it is checked. *)
Definition handle_form (raw : string) : string :=
  to_ascii_lowercase (trim_start_matches "@" (trim raw)).

Lemma normalize_handle_checks raw h :
  normalize_handle raw = Ok h ↔ h = handle_form raw ∧ handle_checks h.
Proof.
  unfold normalize_handle, handle_checks, InvalidHandle. fold (handle_form raw).
  pose proof (lower_not_upper (trim_start_matches "@" (trim raw))) as Hup. fold (handle_form raw) in Hup.
  generalize dependent (handle_form raw). intros n Hup. apply (split_forall _ ".") in Hup.
  destruct (str_is_empty n) eqn:E1; [split; [done|intros (-> & H1 & _); congruence]|].
  destruct (str_len n >? 244) eqn:E2; b2p; [split; [done|intros (-> & _ & H1 & _); lia]|].
  destruct (_ || _ || _) eqn:E3; b2p.
  { split; [done|]. intros (-> & _ & _ & H1 & H2 & H3 & _). destruct E3 as [[[? E3]|E3]|E3]; congruence. }
  destruct E3 as [[E3 E4] E5]. apply eq_None_not_Some in E3.
  destruct (zlen (split_char "." n) <? 2) eqn:E6; b2p.
  { split; [done|]. intros (-> & _ & _ & _ & _ & _ & H1 & _). lia. }
  rewrite bind_Ok. setoid_rewrite check_labels_Ok; [|done].
  destruct (str_mem _ _) eqn:E7.
  { apply str_mem_spec in E7. split; [by intros (? & _ & ?)|]. intros (-> & ?). tauto. }
  assert (default "" (last (split_char "." n)) ∉ DISALLOWED_HANDLE_TLDS) as Ht.
  { rewrite <-str_mem_spec. congruence. }
  destruct (n =? "handle.invalid")%string eqn:E8; b2p.
  { split; [by intros (? & _ & ?)|]. intros (-> & ?). tauto. }
  split.
  - intros ([] & Hw & [= <-]). tauto.
  - intros (-> & ?). exists tt. tauto.
Qed.

Lemma handle_chars h : handle_grammar h → str_forall (λ c, label_char c || Ascii.eqb c ".") h = true.
Proof.
  intros (_ & _ & _ & labels & -> & _ & Hw & _). apply join_forall; [done|].
  eapply Forall_impl; [exact Hw|]. intros l [_ Hc _ _]. revert Hc. apply str_forall_impl.
  intros c ->. done.
Qed.

(** A handle is its own normal form. *)
Lemma handle_form_id h : handle_grammar h → handle_form h = h.
Proof.
  intros Hg. pose proof (handle_chars h Hg) as Hc. unfold handle_form. rewrite trim_ws_free.
  - destruct h as [|c h]; [done|]. assert (trim_start_matches "@" (String c h) = String c h) as ->.
    { simpl. simpl in Hc. apply andb_true_iff in Hc as [Hc _]. revert Hc.
      destruct c as [[] [] [] [] [] [] [] []]; done. }
    apply lower_id. revert Hc. apply str_forall_impl. intros [[] [] [] [] [] [] [] []]; done.
  - revert Hc. apply str_forall_impl. intros [[] [] [] [] [] [] [] []]; done.
Qed.

Lemma normalize_user_handle_grammar raw h : normalize_user_handle raw = Ok h → handle_grammar h.
Proof.
  unfold normalize_user_handle, normalize_handle_with_default_domain, InvalidHandle.
  repeat match goal with |- context [if ?b then _ else _] => destruct b end; try done;
    intros (_ & Hc)%normalize_handle_checks; by apply handle_checks_grammar.
Qed.

Lemma grammar_normalizes h : handle_grammar h → normalize_handle h = Ok h.
Proof. intros Hg. apply normalize_handle_checks. by rewrite handle_form_id, handle_checks_grammar. Qed.

(** [normalize_handle] accepts exactly the inputs whose trimmed, lower-cased form is a handle of
    the AT Protocol grammar (at most 244 characters, two or more DNS labels, an admissible top-level
    domain, not an IP literal) and returns that form, which is a fixed point: normalising it again
    changes nothing. *)
Theorem normalize_handle_correct raw h :
  (normalize_handle raw = Ok h ↔ h = handle_form raw ∧ handle_grammar h) ∧
  (normalize_handle raw = Ok h → normalize_handle h = Ok h).
Proof.
  assert (∀ r, normalize_handle r = Ok h ↔ h = handle_form r ∧ handle_grammar h) as Hn.
  { intros r. rewrite normalize_handle_checks. by rewrite handle_checks_grammar. }
  split; [apply Hn|]. rewrite !Hn. intros [_ Hg]. split; [|done]. by rewrite handle_form_id.
Qed.

(** ** The DID grammar *)
Lemma split_head_tail c s a b rest :
  split_char c s = a :: b :: rest →
  s = a +:+ String c (join_str (String c "") (b :: rest)) ∧ split_char c (join_str (String c "") (b :: rest)) = b :: rest.
Proof.
  intros E. pose proof (join_split c s) as Hj. rewrite E in Hj. split; [by rewrite <-Hj|].
  assert (Forall (λ x, str_contains_char c x = false) (split_char c s)) as Hf.
  { clear. induction s as [|x s IH]; simpl; [by repeat constructor|].
    destruct (Ascii.eqb x c) eqn:Ex; [by constructor|]. destruct (split_char c s) as [|h t].
    - constructor; [|done]. simpl. by rewrite Ex.
    - apply Forall_cons in IH as [? ?]. constructor; [|done]. simpl. by rewrite Ex. }
  rewrite E in Hf. apply split_join; [done|]. by apply Forall_cons in Hf as [_ ?].
Qed.

Lemma did_web_segment_spec seg :
  did_web_segment seg = true ↔ seg ≠ "" ∧ str_forall did_web_char seg = true.
Proof.
  unfold did_web_segment, str_is_empty. b2p. split; [tauto|]. intros [Hn Hc]. split_and!; [done| |done].
  by eapply str_forall_no_char, Hc.
Qed.

Definition did_grammar (m : DidMethod) (did : string) : Prop :=
  match m with
  | Plc => ∃ hash rest, did = "did:plc:" +:+ hash +:+ rest ∧ str_len hash = 24 ∧
             str_forall plc_char hash = true ∧ (rest = "" ∨ ∃ r, rest = String ":" r)
  | Web => ∃ segments, segments ≠ [] ∧ did = "did:web:" +:+ join_str ":" segments ∧
             Forall (λ seg, seg ≠ "" ∧ str_forall did_web_char seg = true) segments
  end.

(** The two methods on the split string: what remains is a matter of the identifier. *)
Lemma validate_did_syntax_parts did m :
  validate_did_syntax did = Ok m ↔
  ∃ ident rest, trim did = "did:" +:+ (match m with Plc => "plc" | Web => "web" end)
                          +:+ ":" +:+ join_str ":" (ident :: rest) ∧
    split_char ":" (join_str ":" (ident :: rest)) = ident :: rest ∧
    match m with
    | Plc => str_len ident = 24 ∧ str_forall plc_char ident = true
    | Web => Forall (λ seg, seg ≠ "" ∧ str_forall did_web_char seg = true) (ident :: rest)
    end.
Proof.
  unfold validate_did_syntax. generalize (trim did). intros t. split.
  - destruct (starts_with t "did:") eqn:Es; cbn [negb]; [|done]. apply starts_with_spec in Es as [r ->].
    change ("did:" +:+ r) with ("did" +:+ String ":" r). rewrite split_char_cons by done.
    destruct (split_char ":" r) as [|method [|ident rest]] eqn:Er; [done..|].
    destruct (split_head_tail _ _ _ _ _ Er) as [-> Hs].
    destruct (method =? "plc")%string eqn:E1; b2p; [subst|destruct (method =? "web")%string eqn:E2; b2p; [subst|done]].
    + destruct (_ && _) eqn:E2; simpl; [|done]. intros [= <-]. b2p. by exists ident, rest.
    + assert (default ident (strip_prefix "did:web:"
          ("did" +:+ String ":" ("web" +:+ String ":" (join_str ":" (ident :: rest)))))
        = join_str ":" (ident :: rest)) as ->.
      { by rewrite (proj2 (strip_prefix_spec _ _ (join_str ":" (ident :: rest)))). }
      rewrite Hs. destruct (_ && _ && _) eqn:E2; [|done]. intros [= <-]. b2p.
      exists ident, rest. split_and!; [done..|]. apply Forall_forall. intros seg Hseg%list_elem_of_In.
      apply did_web_segment_spec. by eapply forallb_forall; [apply E2|].
  - intros (ident & rest & -> & Hs & Hm).
    assert (split_char ":" ("did:" +:+ (match m with Plc => "plc" | Web => "web" end) +:+ ":" +:+ join_str ":" (ident :: rest))
      = "did" :: (match m with Plc => "plc" | Web => "web" end) :: ident :: rest) as Hsp.
    { revert Hs. generalize (join_str ":" (ident :: rest)). intros J Hs. rewrite <-Hs.
      destruct m; [change (_ +:+ _) with ("did" +:+ String ":" ("plc" +:+ String ":" J))
                  |change (_ +:+ _) with ("did" +:+ String ":" ("web" +:+ String ":" J))];
        by rewrite !split_char_cons. }
    rewrite Hsp. assert (starts_with ("did:" +:+ (match m with Plc => "plc" | Web => "web" end) +:+ ":" +:+
      join_str ":" (ident :: rest)) "did:" = true) as -> by (apply starts_with_spec; by eexists).
    destruct m; cbn [negb String.eqb Ascii.eqb Bool.eqb].
    + destruct Hm as [H1 H2]. rewrite H2, (proj2 (Z.eqb_eq _ _) H1). done.
    + assert (default ident (strip_prefix "did:web:" ("did:" +:+ "web" +:+ ":" +:+ join_str ":" (ident :: rest)))
        = join_str ":" (ident :: rest)) as ->.
      { by rewrite (proj2 (strip_prefix_spec _ _ (join_str ":" (ident :: rest)))). }
      rewrite Hs.
      assert (forallb did_web_segment (ident :: rest) = true) as Hall.
      { apply forallb_forall. intros seg Hseg%list_elem_of_In. apply did_web_segment_spec.
        by eapply Forall_forall in Hm. }
      pose proof Hall as Hi. simpl in Hi. apply andb_true_iff in Hi as [Hi _]. unfold did_web_segment in Hi.
      rewrite Hall. b2p. destruct Hi as [[-> ->] _]. done.
Qed.

(** [validate_did_syntax] accepts exactly two shapes of (trimmed) string: [did:web:] and
    [:]-separated non-empty segments of letters, digits, dots, hyphens and percent signs; and
    [did:plc:] with 24 lower-case letters or digits, after which the code lets any text follow a
    colon. *)
Theorem validate_did_syntax_exact did m : validate_did_syntax did = Ok m ↔ did_grammar m (trim did).
Proof.
  rewrite validate_did_syntax_parts. destruct m; simpl did_grammar; split.
  - intros (ident & rest & -> & _ & H1 & H2). destruct rest as [|r rest].
    + exists ident, "". rewrite str_app_nil. split_and!; [done..|by left].
    + exists ident, (String ":" (join_str ":" (r :: rest))). split_and!; [done..|right; by eexists].
  - intros (hash & rest & -> & H1 & H2 & Hrest).
    assert (str_contains_char ":" hash = false) as Hf by (by eapply str_forall_no_char, H2).
    exists hash. destruct Hrest as [->|[r ->]].
    + exists []. rewrite str_app_nil. split_and!; [done| |done..]. by apply split_char_free.
    + exists (split_char ":" r).
      assert (join_str ":" (hash :: split_char ":" r) = hash +:+ String ":" r) as ->.
      { pose proof (split_char_nonempty ":" r). pose proof (join_split ":" r) as Hj.
        destruct (split_char ":" r); [done|]. rewrite <-Hj. done. }
      split_and!; [done| |done..]. by apply split_char_cons.
  - intros (ident & rest & -> & _ & Hall). by exists (ident :: rest).
  - intros (segs & Hne & -> & Hall). destruct segs as [|ident rest]; [done|]. exists ident, rest.
    split_and!; [done| |done]. apply split_join; [done|]. eapply Forall_impl; [exact Hall|].
    intros seg [_ Hseg]. by eapply str_forall_no_char, Hseg.
Qed.

(** ** Resolution *)
Section resolution.
Context (fk : gmap string IpAddr → option string) `{!FirstKeyLaws fk} `{UrlCrate}
  (status_display : Z → string) (answers : nat → nat → Round) `{IdentitySerde}
  (doh_client : result string unit) (doh : string → nat → result string Response).
Local Abbreviation resolve_did := (resolve_did fk status_display answers).
Local Abbreviation resolve_handle := (resolve_handle fk status_display answers doh_client doh).
Local Abbreviation resolve_ident := (resolve_ident fk status_display answers doh_client doh).

Lemma validate_id_Ok doc did u : validate_id doc did = Ok u → doc_id doc = did.
Proof. unfold validate_id. destruct (_ =? _)%string eqn:E; [|done]. by b2p. Qed.

(** The interface the other components rely on: a resolved document is the document of the DID. *)
Lemma resolve_did_Ok ir did w w' doc :
  resolve_did ir did w = (w', Ok doc) → doc_id doc = did ∧ is_ok (validate_did_syntax did) = true.
Proof.
  intros E. unfold Identity.resolve_did in E. apply st_bind_Ok in E as (w1 & m & E1 & E).
  apply lift_Ok in E1 as [-> Hm]. rewrite Hm. split; [|done].
  destruct m; [unfold resolve_did_plc in E|unfold resolve_did_web in E]; st_inv;
    by eapply validate_id_Ok.
Qed.

(** Each DID costs one guarded call, each handle at most one more. *)
Lemma resolve_did_confined ir did : confined (ssrf_filter ir) 1 (resolve_did ir did).
Proof.
  apply (confined_bind _ 0 1); [apply confined_lift|].
  intros []; [unfold resolve_did_plc|unfold resolve_did_web].
  - apply (confined_bind _ 0 1); [apply confined_lift|]. intros _.
    apply (confined_bind _ 1 0); [by apply confined_map_err, confined_fetch_json|]. intros doc.
    apply (confined_bind _ 0 0); [apply confined_lift|]. intros _. apply confined_ret.
  - apply (confined_bind _ 0 1); [apply confined_lift|]. intros _.
    apply (confined_bind _ 0 1); [apply confined_lift|]. intros s.
    apply (confined_bind _ 1 0); [by apply confined_map_err, confined_fetch_json|]. intros doc.
    apply (confined_bind _ 0 0); [apply confined_lift|]. intros _. apply confined_ret.
Qed.

Lemma resolve_handle_confined ir h : confined (ssrf_filter ir) 1 (resolve_handle ir h).
Proof.
  apply (confined_bind _ 0 1); [apply confined_lift|]. intros n w. unfold dns_then_https.
  assert (guarded (ssrf_filter ir) 0 w (resolve_handle_dns status_display doh_client doh ir n w).1) as Hd.
  { revert w. change (confined (ssrf_filter ir) 0 (resolve_handle_dns status_display doh_client doh ir n)).
    apply (confined_bind _ 0 0); [apply confined_lift|]. intros m.
    apply (confined_bind _ 0 0); [|intros l; apply confined_lift].
    intros w. unfold txt_lookup. simpl. intros Hr. split; [done|]. exists []. simpl.
    by rewrite app_nil_r. }
  assert (confined (ssrf_filter ir) 1 (resolve_handle_https fk status_display answers ir n)) as Hh.
  { apply (confined_bind _ 0 1); [apply confined_lift|]. intros m.
    apply (confined_bind _ 1 0); [by apply confined_map_err, confined_fetch|]. intros b.
    apply confined_lift. }
  destruct (resolve_handle_dns _ _ _ ir n w) as [w1 [[did|]|e]]; simpl in *.
  - eapply guarded_weaken; [|exact Hd]. lia.
  - exact (guarded_trans _ 0 1 _ _ _ Hd (Hh w1)).
  - destruct e; try exact (guarded_trans _ 0 1 _ _ _ Hd (Hh w1));
      (eapply guarded_weaken; [|exact Hd]; lia).
Qed.

Lemma resolve_ident_confined ir x : confined (ssrf_filter ir) 2 (resolve_ident ir x).
Proof.
  unfold Identity.resolve_ident. destruct (starts_with _ _).
  - apply (confined_bind _ 1 1); [apply resolve_did_confined|]. intros doc.
    apply (confined_bind _ 0 1); [apply confined_lift|]. intros pds.
    eapply confined_weaken; [|apply confined_ret]. lia.
  - apply (confined_bind _ 0 2); [apply confined_lift|]. intros h.
    apply (confined_bind _ 1 1); [apply resolve_handle_confined|]. intros did.
    apply (confined_bind _ 1 0); [apply resolve_did_confined|]. intros doc.
    apply (confined_bind _ 0 0); [apply confined_lift|]. intros _.
    apply (confined_bind _ 0 0); [apply confined_lift|]. intros pds. apply confined_ret.
Qed.

Lemma extract_pds_endpoint_Ok doc pds :
  extract_pds_endpoint doc = Ok pds →
  ∃ svc u, List.find is_pds_service (service doc) = Some svc ∧
    pds = trim_end_matches "/" (trim (service_endpoint svc)) ∧
    url_parse pds = Ok u ∧ url_scheme u ∈ ["https"; "http"].
Proof.
  unfold extract_pds_endpoint. destruct (List.find _ _) as [svc|]; [|done].
  destruct (url_parse _) as [u|] eqn:Eu; [|done].
  destruct (url_scheme u =? "https")%string eqn:E1; destruct (url_scheme u =? "http")%string eqn:E2;
    simpl; try done; intros [= <-]; b2p; exists svc, u; (split_and!; [done..|set_solver]).
Qed.

Lemma verify_handle_bidirectional_Ok doc h u :
  handle_grammar h → verify_handle_bidirectional doc h = Ok u →
  ∃ aka, aka ∈ also_known_as doc ∧ to_ascii_lowercase aka = "at://" +:+ h.
Proof.
  intros Hg. unfold verify_handle_bidirectional, matches_handle. fold (handle_form h).
  rewrite handle_form_id by done. destruct (existsb _ _) eqn:E; [|done]. intros _.
  apply existsb_exists in E as (aka & Hin%list_elem_of_In & E). b2p. by exists aka.
Qed.

(** The handle [h] names the DID, by the answers the lookup met in [w]: its TXT records name this DID
    and no other; or they name none (or DNS failed) and the HTTPS document of [h] holds the DID. *)
Definition handle_points (ir : IdentityResolver) (w : World) (h did : string) : Prop :=
  let txt := txt_resolver status_display doh_client doh ir ("_atproto." +:+ h) (w_calls w) in
  (∃ records rest, txt = Ok records ∧ did_records records = did :: rest ∧ Forall (eq did) rest) ∨
  ((∃ records, txt = Ok records ∧ did_records records = []) ∨ (∃ m, txt = Err (IdentityError_Dns m))) ∧
  ∃ r sent bytes text,
    safe_get fk status_display (ssrf_filter ir) (w_resolver w) ("https://" +:+ h +:+ "/.well-known/atproto-did") 2048
      (answers (S (w_calls w))) = (r, sent, Ok bytes) ∧
    from_utf8 bytes = Some text ∧ did = trim text.

(** A handle has a dot and no colon, so test mode's plain http is out of its reach. *)
Lemma well_known_https ir h :
  handle_grammar h → well_known_did_url ir h = "https://" +:+ h +:+ "/.well-known/atproto-did".
Proof.
  intros Hg. unfold well_known_did_url.
  assert ((h =? "localhost")%string = false) as ->.
  { apply String.eqb_neq. intros ->. destruct Hg as (_ & _ & _ & labels & E & H2 & Hw & _).
    destruct labels as [|a [|b l]]; simpl in H2; try lia. apply (f_equal (str_contains_char ".")) in E.
    change (join_str "." (a :: b :: l)) with (a +:+ String "." (join_str "." (b :: l))) in E.
    rewrite str_contains_char_app in E. simpl in E. by rewrite orb_true_r in E. }
  assert (starts_with h "localhost:" = false) as ->.
  { apply not_true_iff_false. intros (r & ->)%starts_with_spec. apply handle_chars in Hg. by simpl in Hg. }
  by rewrite andb_false_r.
Qed.

Lemma validate_did_syntax_not_dns did m : validate_did_syntax did ≠ Err (IdentityError_Dns m).
Proof. unfold validate_did_syntax. by repeat case_match. Qed.

Lemma resolve_handle_points ir h w w' did :
  handle_grammar h → resolve_handle ir h w = (w', Ok did) → handle_points ir w h did.
Proof.
  intros Hg. unfold Identity.resolve_handle, handle_points, dns_then_https, resolve_handle_dns, resolve_handle_https.
  unfold mbind, st_bind, lift. rewrite (grammar_normalizes h Hg). cbv beta iota. rewrite (grammar_normalizes h Hg).
  cbv beta iota. unfold txt_lookup. rewrite (well_known_https ir h Hg).
  destruct (txt_resolver _ _ _ _ _ _) as [records|e].
  - destruct (did_records records) as [|d rest] eqn:Ed.
    + intros E. right. split; [left; by exists records|]. revert E. unfold st_map_err, fetch. cbn [w_resolver w_calls].
      destruct (safe_get _ _ _ _ _ _ _) as [[r sent] [bytes|e]]; [|done]. cbn [fst snd]. intros [= _ E].
      apply bind_Ok in E as (text & Et%ok_or_Ok & E). apply bind_Ok in E as (m & _ & [= <-]). by exists r, sent, bytes, text.
    + intros E. left. exists records, rest. revert E.
      destruct (validate_did_syntax d) as [m|e] eqn:Ev; cbn [mbind result_bind].
      2: { destruct e; try done. by apply validate_did_syntax_not_dns in Ev. }
      destruct (existsb _ rest) eqn:Ex; [done|]. intros [= _ <-]. split_and!; [done..|].
      apply Forall_forall. intros d' Hd'. apply not_true_iff_false in Ex. rewrite existsb_exists in Ex.
      destruct (d' =? d)%string eqn:E'; [by apply String.eqb_eq in E'|]. exfalso. apply Ex. exists d'.
      split; [by apply list_elem_of_In|]. by rewrite E'.
  - destruct e; try done. intros E. right. split; [right; by eexists|]. revert E. unfold st_map_err, fetch. cbn [w_resolver w_calls].
    destruct (safe_get _ _ _ _ _ _ _) as [[r sent] [bytes|e]]; [|done]. cbn [fst snd]. intros [= _ E].
    apply bind_Ok in E as (text & Et%ok_or_Ok & E). apply bind_Ok in E as (m' & _ & [= <-]). by exists r, sent, bytes, text.
Qed.

(** The URL of a DID's document, and that a document was read from it through the filter. *)
Definition document_url (ir : IdentityResolver) (did : string) : string :=
  match validate_did_syntax did with
  | Ok Web => did_web_url ir (default "" (strip_prefix "did:web:" did))
  | _ => trim_end_matches "/" (plc_directory_url ir) +:+ "/" +:+ did
  end.
Definition document_served (ir : IdentityResolver) (did : string) (doc : DidDocument) : Prop :=
  ∃ r r' sent bytes k,
    safe_get fk status_display (ssrf_filter ir) r (document_url ir did) MAX_OAUTH_RESPONSE_BYTES (answers k) = (r', sent, Ok bytes) ∧
    did_document_from_slice bytes = Ok doc.

Lemma fetch_document_served f url w w' doc :
  fetch_json fk status_display answers did_document_from_slice f url MAX_OAUTH_RESPONSE_BYTES w = (w', Ok doc) →
  ∃ r r' sent bytes k, safe_get fk status_display f r url MAX_OAUTH_RESPONSE_BYTES (answers k) = (r', sent, Ok bytes) ∧
    did_document_from_slice bytes = Ok doc.
Proof.
  unfold fetch_json, safe_get_json. destruct (safe_get _ _ _ _ _ _ _) as [[r sent] [bytes|e]] eqn:E; [|done].
  intros [= _ Hd%map_err_Ok]. by exists (w_resolver w), r, sent, bytes, (w_calls w).
Qed.

Lemma resolve_did_served ir did w w' doc : resolve_did ir did w = (w', Ok doc) → document_served ir did doc.
Proof.
  unfold Identity.resolve_did, document_served, document_url. intros E. apply st_bind_Ok in E as (w1 & m & [-> Hm]%lift_Ok & E).
  rewrite Hm. destruct m; [unfold resolve_did_plc in E|unfold resolve_did_web in E].
  - apply st_bind_Ok in E as (w2 & m & _ & E). apply st_bind_Ok in E as (w3 & d & Ef%st_map_err_Ok & E).
    apply st_bind_Ok in E as (w4 & u & _ & E). injection E as _ ->. by eapply fetch_document_served.
  - apply st_bind_Ok in E as (w2 & m & _ & E). apply st_bind_Ok in E as (w3 & stripped & [-> Hs%ok_or_Ok]%lift_Ok & E).
    apply st_bind_Ok in E as (w4 & d & Ef%st_map_err_Ok & E). apply st_bind_Ok in E as (w5 & u & _ & E).
    injection E as _ ->. rewrite Hs. by eapply fetch_document_served.
Qed.

(** What a resolved identity is, whatever DNS and the servers answered. *)
Definition identity_consistent (ir : IdentityResolver) (w : World) (x : string) (id : ResolvedIdentity) : Prop :=
  doc_id (did_doc id) = ri_did id ∧ is_ok (validate_did_syntax (ri_did id)) = true ∧
  document_served ir (ri_did id) (did_doc id) ∧
  (∃ svc u, List.find is_pds_service (service (did_doc id)) = Some svc ∧
     pds_endpoint id = trim_end_matches "/" (trim (service_endpoint svc)) ∧
     url_parse (pds_endpoint id) = Ok u ∧ url_scheme u ∈ ["https"; "http"]) ∧
  (if starts_with (trim x) "did:" then ri_did id = trim x
   else ∃ h aka, normalize_user_handle (trim x) = Ok h ∧ ri_handle id = Some h ∧
          handle_points ir w h (ri_did id) ∧
          aka ∈ also_known_as (did_doc id) ∧ to_ascii_lowercase aka = "at://" +:+ h).

Lemma resolve_ident_Ok ir x w w' id :
  resolve_ident ir x w = (w', Ok id) → identity_consistent ir w x id.
Proof.
  intros E. unfold Identity.resolve_ident in E. unfold identity_consistent.
  destruct (starts_with (trim x) "did:").
  - apply st_bind_Ok in E as (w1 & doc & E1 & E). st_inv. simpl. pose proof (resolve_did_served _ _ _ _ _ E1).
    destruct (resolve_did_Ok _ _ _ _ _ E1). split_and!; try done. by apply extract_pds_endpoint_Ok.
  - apply st_bind_Ok in E as (w1 & h & [-> Hh]%lift_Ok & E).
    apply st_bind_Ok in E as (w2 & did & E2 & E). apply st_bind_Ok in E as (w3 & doc & E3 & E).
    st_inv. simpl. pose proof (resolve_did_served _ _ _ _ _ E3). destruct (resolve_did_Ok _ _ _ _ _ E3).
    pose proof (normalize_user_handle_grammar _ _ Hh) as Hg. pose proof (resolve_handle_points _ _ _ _ _ Hg E2).
    split_and!; try done; [by apply extract_pds_endpoint_Ok|].
    match goal with Hb : verify_handle_bidirectional _ _ = _ |- _ =>
      destruct (verify_handle_bidirectional_Ok _ _ _ Hg Hb) as (aka & ? & ?) end.
    by exists h, aka.
Qed.

(** What the resolution of [x] may ask of the DNS-over-HTTPS service: the TXT records of its handle. *)
Definition doh_allowed (ir : IdentityResolver) (x url : string) : Prop :=
  dns_resolver ir = None ∧ starts_with (trim x) "did:" = false ∧
  ∃ h, normalize_user_handle (trim x) = Ok h ∧ url = doh_url ("_atproto." +:+ h).

Lemma resolve_did_asks P ir did : asks 0 P (resolve_did ir did).
Proof.
  apply (asks_bind 0 0); [apply asks_lift|]. intros []; [unfold resolve_did_plc|unfold resolve_did_web]; asks_none.
Qed.

Lemma resolve_handle_dns_asks ir h w :
  handle_grammar h →
  w_doh (resolve_handle_dns status_display doh_client doh ir h w).1 = w_doh w ++ doh_requests doh_client ir ("_atproto." +:+ h).
Proof.
  intros Hg. unfold resolve_handle_dns, mbind, st_bind, lift. rewrite (grammar_normalizes h Hg). cbv beta iota.
  unfold txt_lookup. by destruct (txt_resolver status_display doh_client doh ir ("_atproto." +:+ h) (w_calls w)).
Qed.

Lemma resolve_handle_asks ir h :
  handle_grammar h →
  asks 1 (λ u, dns_resolver ir = None ∧ u = doh_url ("_atproto." +:+ h)) (resolve_handle ir h).
Proof.
  intros Hg w. pose proof (resolve_handle_dns_asks ir h w Hg) as Hd.
  assert (∀ w1, w_doh (resolve_handle_https fk status_display answers ir h w1).1 = w_doh w1) as Hq.
  { intros w1. assert (asks 0 (λ _, False) (resolve_handle_https fk status_display answers ir h)) as Hn
      by (unfold resolve_handle_https; asks_none).
    destruct (Hn w1) as (l & -> & Hl & _). destruct l; [by rewrite app_nil_r|simpl in Hl; lia]. }
  exists (doh_requests doh_client ir ("_atproto." +:+ h)). split.
  - unfold Identity.resolve_handle, mbind, st_bind, lift. rewrite (grammar_normalizes h Hg). cbv beta iota.
    unfold dns_then_https. destruct (resolve_handle_dns _ _ _ ir h w) as [w1 [[did|]|e]]; cbn [fst] in Hd; rewrite <-Hd;
      [done|apply Hq|destruct e; first [apply Hq|done]].
  - unfold doh_requests. destruct (dns_resolver ir), doh_client; simpl; (split; [lia|]); try apply Forall_nil_2.
    by apply Forall_singleton.
Qed.

Lemma resolve_ident_asks ir x : asks 1 (doh_allowed ir x) (resolve_ident ir x).
Proof.
  unfold Identity.resolve_ident, doh_allowed. destruct (starts_with (trim x) "did:").
  - apply (asks_bind 0 1); [apply resolve_did_asks|]. intros doc. apply (asks_bind 0 1); [apply asks_lift|].
    intros pds. by apply asks_quiet.
  - apply asks_lift_bind. intros h Eh. pose proof (normalize_user_handle_grammar _ _ Eh) as Hg.
    apply (asks_bind 1 0).
    + intros w. destruct (resolve_handle_asks ir h Hg w) as (l & El & Hl & Hf). exists l. split_and!; [done..|].
      eapply Forall_impl; [exact Hf|]. intros u [Hn ->]. split_and!; [done..|]. by exists h.
    + intros did. apply (asks_bind 0 0); [apply resolve_did_asks|]. intros doc. asks_none.
Qed.

(** C17. A resolved identity is consistent, whatever DNS and the servers answered: the document was
    served at the DID's own URL (the PLC directory's, or the domain of the did:web) and names the
    returned DID, whose syntax is valid; the PDS endpoint is the one the document's first PDS service
    declares, an http(s) URL; an identity resolved from a handle is linked in both directions: the
    handle's TXT records name this DID and no other, or they name none (or DNS failed) and the
    handle's HTTPS document is this DID; and the document's [alsoKnownAs] has the handle, normalised.
    On the way, at most eight requests go through the SSRF filter, all admitted by it; apart from
    them, and only when no resolver is installed and the identifier is a handle, at most one request
    is made without the filter: the DNS-over-HTTPS query for that handle's TXT records (a redirect of
    which is followed by the library's rules). *)
Theorem resolve_ident_sound ir x w w' id :
  resolver_wf (w_resolver w) → resolve_ident ir x w = (w', Ok id) →
  identity_consistent ir w x id ∧
  resolver_wf (w_resolver w') ∧
  (∃ more, w_sent w' = w_sent w ++ more ∧ Forall (request_safe (ssrf_filter ir)) more ∧ (length more ≤ 8)%nat) ∧
  ∃ asked, w_doh w' = w_doh w ++ asked ∧ (length asked ≤ 1)%nat ∧ Forall (doh_allowed ir x) asked.
Proof.
  intros Hr E. destruct (resolve_ident_confined ir x w Hr) as [Hr' Hmore]. pose proof (resolve_ident_asks ir x w) as Ha.
  rewrite E in Hr', Hmore, Ha. split; [by eapply resolve_ident_Ok|]. by split.
Qed.
End resolution.

(** ** The URL of a did:web *)
Lemma str_replace_forall f p r s k :
  str_forall f r = true → str_forall f s = true → str_forall f (str_replace_from k p r s) = true.
Proof.
  intros Hr. revert k. induction s as [|a s IH]; intros k Hs; [done|].
  cbn [str_forall] in Hs. apply andb_true_iff in Hs as [Ha Hs]. cbn [str_replace_from].
  destruct k; [|by apply IH]. destruct (starts_with _ _).
  - by rewrite str_forall_app, Hr, IH.
  - cbn [str_forall]. by rewrite Ha, IH.
Qed.

Definition host_char (c : ascii) : bool := did_web_char c || Ascii.eqb c ":".
Definition path_char (c : ascii) : bool := did_web_char c || Ascii.eqb c "/".

(** The URL a syntactically valid did:web is resolved at has the DID's domain as its whole
    authority: the text between [://] and the next slash is the first segment with its percent-coded
    colons decoded, free of [@], slashes, question marks and fragments, and the rest of the URL is a
    path; plain http is used in test mode only. *)
Theorem did_web_url_authority ir did stripped :
  did_grammar Web did → strip_prefix "did:web:" did = Some stripped →
  ∃ scheme host path, did_web_url ir stripped = scheme +:+ "://" +:+ host +:+ "/" +:+ path ∧
    (scheme = "https" ∨ scheme = "http" ∧ allow_insecure_localhost (ssrf_filter ir) = true) ∧
    str_forall host_char host = true ∧ str_forall path_char path = true.
Proof.
  intros (segs & Hne & -> & Hall) Hs. apply strip_prefix_spec in Hs.
  assert (stripped = join_str ":" segs) as ->.
  { apply (f_equal (strip_prefix "did:web:")) in Hs. simpl in Hs. by injection Hs. }
  unfold did_web_url. rewrite split_join; [|done|].
  2: { eapply Forall_impl; [exact Hall|]. intros seg [_ Hseg]. by eapply str_forall_no_char, Hseg. }
  destruct segs as [|dom rest]; [done|]. cbn [head default tail].
  set (host := str_replace _ _ _). set (scheme := if (_ : bool) then "http" else "https").
  apply Forall_cons in Hall as [[_ Hd] Hrest].
  assert (scheme = "https" ∨ scheme = "http" ∧ allow_insecure_localhost (ssrf_filter ir) = true) as Hsch.
  { unfold scheme. destruct (allow_insecure_localhost _); simpl; [destruct (_ || _)|]; auto. }
  assert (str_forall host_char host = true) as Hhost.
  { apply str_replace_forall; [done|]. apply str_replace_forall; [done|]. revert Hd.
    apply str_forall_impl. intros c Hc. unfold host_char. by rewrite Hc. }
  destruct (_ =? 1); [by exists scheme, host, ".well-known/did.json"|].
  exists scheme, host, (join_str "/" rest +:+ "/did.json"). split_and!; [by rewrite <-?str_app_assoc|done..|].
  rewrite str_forall_app. apply andb_true_iff. split; [|done]. apply join_forall; [done|].
  eapply Forall_impl; [exact Hrest|]. intros seg [_ Hseg]. revert Hseg. apply str_forall_impl. intros c Hc. unfold path_char. by rewrite Hc.
Qed.

(** Text after the 24 characters of a did:plc is not checked, slashes and dots included. *)
Example did_plc_suffix_accepted :
  validate_did_syntax "did:plc:ewvi7nxzyoun6zhxrhs64oiz:/../../admin" = Ok Plc.
Proof. reflexivity. Qed.

(** All leading [@] are stripped, not one. *)
Example handle_many_ats : normalize_handle "@@@alice.bsky.social" = Ok "alice.bsky.social".
Proof. reflexivity. Qed.

Module IdentityExamples.
Import SsrfExamples.
Definition doc : DidDocument :=
  mkDidDocument "did:web:pds.example.com" ["at://Alice.bsky.social"] []
    [mkDidService "#atproto_pds" "AtprotoPersonalDataServer" "https://pds.example.com/"].
#[local] Instance fixed_serde : IdentitySerde :=
  {| did_document_from_slice := λ _, Ok doc; doh_response_from_slice := λ _, Err "eof" |}.
#[local] Existing Instance fst_key_laws.
(** Every host answers, a TXT record names the DID; parsed URLs need a slash after the host. *)
#[local] Instance bare_urls : UrlCrate :=
  {| Url := string * string;
     url_parse := λ s, match strip_prefix "https://" s with
                       | Some rest => Ok (default (rest, "") (split_once_char "/" rest))
                       | None => Err "relative URL without a base" end;
     url_scheme := λ _, "https"; url_host_str := λ u, Some (fst u); url_port := λ _, None;
     url_path := λ u, String "/" (snd u); url_as_str := λ u, "https://" +:+ fst u +:+ String "/" (snd u);
     url_port_or_known_default := λ _, Some 443; url_join := λ u s, Ok (fst u, s) |}.
Definition world : @World bare_urls := mkWorld (resolver_new false) 0 [] [].
Definition one_round (k i : nat) : Round :=
  mkRound (λ _, DnsAddrs [(V4 (mkV4 93 184 216 34), 443)]) (Ok (mkResponse 200 None None [])).
Definition ir : IdentityResolver :=
  mkIdentityResolver (mkFilter false) DEFAULT_PLC_DIRECTORY
    (Some (λ _ _, Ok ["v=spf1"; "did=did:web:pds.example.com"])).
Definition run := @resolve_ident fst_key bare_urls pretty one_round fixed_serde (Err "offline") (λ _ _, Err "offline") ir " @alice " world.

Lemma resolve_ident_sound_witness :
  ri_did <$> snd run = Ok "did:web:pds.example.com" ∧
  ∃ id, snd run = Ok id ∧ doc_id (did_doc id) = ri_did id.
Proof.
  split; [vm_compute; reflexivity|]. destruct run as [w' [id|e]] eqn:E; [|vm_compute in E; discriminate E].
  exists id. split; [done|].
  destruct (@resolve_ident_sound fst_key _ bare_urls pretty one_round fixed_serde (Err "offline") (λ _ _, Err "offline")
    ir " @alice " world w' id) as [[Hid _] _]; [apply resolver_new_wf|exact E|exact Hid].
Defined.

Lemma did_web_url_authority_witness :
  did_web_url ir "pds.example.com%3A8443:u:bob" = "https://pds.example.com:8443/u/bob/did.json" ∧
  ∃ scheme host path, did_web_url ir "pds.example.com%3A8443:u:bob" = scheme +:+ "://" +:+ host +:+ "/" +:+ path.
Proof.
  split; [reflexivity|].
  destruct (did_web_url_authority ir "did:web:pds.example.com%3A8443:u:bob" "pds.example.com%3A8443:u:bob")
    as (a & b & c & E & _); [|reflexivity|by exists a, b, c].
  exists ["pds.example.com%3A8443"; "u"; "bob"]. split_and!; [done|reflexivity|].
  repeat constructor; done.
Defined.
End IdentityExamples.
