(* ===== verification/Discovery.v ===== *)
(** * Discovery: protected-resource and authorization-server metadata (src/src/discovery.rs)

    The documents of RFC 9728 and RFC 8414, the checks of the AT Protocol profile on them, and the
    pipeline from a handle or DID to the validated endpoints.  The derived [Deserialize]
    implementations are parameters ([DiscoverySerde]); every request goes through [Fetch]. *)
From S2P Require Import Prelude Errors Strs Externals IpFilter Net Ssrf Fetch Identity.
Open Scope Z_scope.

Record ProtectedResourceMetadata := mkPRM {
  resource : string;
  authorization_servers : list string;
  prm_scopes_supported : list string;
  bearer_methods_supported : list string;
  resource_documentation : option string
}.

Record AuthorizationServerMetadata := mkASM {
  issuer : string;
  authorization_endpoint : string;
  token_endpoint : string;
  pushed_authorization_request_endpoint : string;
  require_pushed_authorization_requests : bool;
  dpop_signing_alg_values_supported : list string;
  code_challenge_methods_supported : list string;
  response_types_supported : list string;
  grant_types_supported : list string;
  token_endpoint_auth_methods_supported : list string;
  token_endpoint_auth_signing_alg_values_supported : list string;
  scopes_supported : list string;
  authorization_response_iss_parameter_supported : bool;
  client_id_metadata_document_supported : bool;
  require_request_uri_registration : bool
}.

Record DiscoveredAuthEndpoints := mkEndpoints {
  dae_did : string;
  dae_handle : option string;
  dae_pds_endpoint : string;
  auth_server_issuer : string;
  par_endpoint : string;
  dae_authorization_endpoint : string;
  dae_token_endpoint : string;
  dpop_algs : list string;
  scopes : list string;
  protected_resource_metadata : ProtectedResourceMetadata;
  auth_server_metadata : AuthorizationServerMetadata
}.

Class DiscoverySerde := {
  prm_from_slice : list Z → result string ProtectedResourceMetadata;
  asm_from_slice : list Z → result string AuthorizationServerMetadata
}.

(** ** Origins and endpoints *)
Section urls.
Context `{UrlParts}.

(** [host == "localhost" || ...], the hosts plain http is tolerated for. *)
Definition is_loopback_name (host : string) : bool :=
  (host =? "localhost")%string || (host =? "127.0.0.1")%string
  || (host =? "::1")%string || (host =? "[::1]")%string.

Definition pds_host (d : DiscoveredAuthEndpoints) : option string :=
  result_ok (url_parse (dae_pds_endpoint d)) ≫= url_host_str.
Definition auth_server_host (d : DiscoveredAuthEndpoints) : option string :=
  result_ok (url_parse (auth_server_issuer d)) ≫= url_host_str.

(** The raw authority of [url_str] after its user information. *)
Definition host_port_of (url_str : string) : string :=
  let after_scheme := match split_once_str "://" url_str with Some (_, rest) => rest | None => url_str end in
  let authority := before_first (λ c, Ascii.eqb c "/" || Ascii.eqb c "?" || Ascii.eqb c "#") after_scheme in
  after_last "@" authority.

Definition has_explicit_port (host_port : string) : bool :=
  match from_last "]" host_port with
  | Some rest => str_contains_char ":" rest
  | None => str_contains_char ":" host_port
  end.

Definition is_origin_only (url_str : string) : bool :=
  match url_parse url_str with
  | Ok parsed =>
      let scheme := url_scheme parsed in
      let host := default "" (url_host_str parsed) in
      let is_loopback := is_loopback_name host in
      if negb (scheme =? "https")%string && negb ((scheme =? "http")%string && is_loopback) then false
      else if negb (str_is_empty (url_username parsed)) || bool_decide (is_Some (url_password parsed))
      then false
      else
        let host_port := host_port_of url_str in
        let port_ok :=
          if has_explicit_port host_port then
            match parse_u16 (after_last ":" host_port) with
            | Some port =>
                negb ((port =? 443) && (scheme =? "https")%string)
                && negb ((port =? 80) && (scheme =? "http")%string)
            | None => false
            end
          else true in
        if negb port_ok then false
        else if str_contains_char "\" host_port then false
        else
          let path := url_path parsed in
          (str_is_empty path || (path =? "/")%string)
          && bool_decide (url_query parsed = None) && bool_decide (url_fragment parsed = None)
  | Err _ => false
  end.

Definition normalize_origin (url_str : string) : string :=
  match url_parse url_str with
  | Ok parsed => url_origin parsed
  | Err _ => trim_end_matches "/" (trim url_str)
  end.

Definition validate_https_endpoint (endpoint label issuer : string) : result DiscoveryError unit :=
  parsed ← map_err (λ e, DiscoveryError_InvalidEndpointUrl
                      ("Invalid " +:+ label +:+ " endpoint URL '" +:+ endpoint +:+ "': " +:+ e))
             (url_parse endpoint);
  _ ← (if negb (url_scheme parsed =? "https")%string then
         let host := default "" (url_host_str parsed) in
         let host_is_local := is_loopback_name host in
         let scheme_is_http := (url_scheme parsed =? "http")%string in
         fail_if (negb (scheme_is_http && host_is_local))
           (DiscoveryError_InvalidEndpointUrl
              (label +:+ " endpoint URL must be HTTPS (got '" +:+ url_scheme parsed
               +:+ "'; only loopback/localhost may use HTTP)"))
       else Ok tt);
  _ ← fail_if (negb (str_is_empty (url_username parsed)) || bool_decide (is_Some (url_password parsed)))
        (DiscoveryError_InvalidEndpointUrl
           (label +:+ " endpoint URL must not contain embedded credentials: '" +:+ endpoint +:+ "'"));
  fail_if (bool_decide (url_host_str parsed = None))
    (DiscoveryError_InvalidEndpointUrl (label +:+ " endpoint URL is missing a host: '" +:+ endpoint +:+ "'")).

(** ** The profile checks *)
Definition validate_auth_server_capabilities (meta : AuthorizationServerMetadata)
    (auth_server_url : string) : result DiscoveryError unit :=
  _ ← fail_if (negb (is_origin_only auth_server_url))
        (DiscoveryError_InvalidAuthorizationServerUrl auth_server_url);
  _ ← fail_if (negb (is_origin_only (issuer meta)))
        (DiscoveryError_InvalidAuthorizationServerUrl (issuer meta));
  let expected_origin := normalize_origin auth_server_url in
  let actual_origin := normalize_origin (issuer meta) in
  _ ← fail_if (negb (expected_origin =? actual_origin)%string)
        (DiscoveryError_IssuerMismatch auth_server_url (issuer meta));
  _ ← fail_if (str_is_empty (trim (pushed_authorization_request_endpoint meta)))
        (DiscoveryError_MissingParEndpoint auth_server_url);
  _ ← validate_https_endpoint (pushed_authorization_request_endpoint meta) "PAR" auth_server_url;
  _ ← fail_if (negb (require_pushed_authorization_requests meta))
        (DiscoveryError_ParNotRequired auth_server_url);
  _ ← fail_if (str_is_empty (trim (token_endpoint meta)))
        (DiscoveryError_MissingTokenEndpoint auth_server_url);
  _ ← validate_https_endpoint (token_endpoint meta) "token" auth_server_url;
  _ ← fail_if (str_is_empty (trim (authorization_endpoint meta)))
        (DiscoveryError_MissingAuthorizationEndpoint auth_server_url);
  _ ← validate_https_endpoint (authorization_endpoint meta) "authorization" auth_server_url;
  _ ← fail_if (negb (str_mem "code" (response_types_supported meta)))
        (DiscoveryError_MissingResponseType auth_server_url);
  _ ← fail_if (negb (str_mem "authorization_code" (grant_types_supported meta)))
        (DiscoveryError_MissingGrantType auth_server_url "authorization_code");
  _ ← fail_if (negb (str_mem "refresh_token" (grant_types_supported meta)))
        (DiscoveryError_MissingGrantType auth_server_url "refresh_token");
  let has_none := str_mem "none" (token_endpoint_auth_methods_supported meta) in
  let has_private_key_jwt := str_mem "private_key_jwt" (token_endpoint_auth_methods_supported meta) in
  _ ← fail_if (negb has_none || negb has_private_key_jwt)
        (DiscoveryError_MissingTokenAuthMethod auth_server_url);
  _ ← fail_if (negb (str_mem "ES256" (token_endpoint_auth_signing_alg_values_supported meta)))
        (DiscoveryError_MissingTokenAuthSigningAlg auth_server_url);
  _ ← fail_if (str_mem "none" (token_endpoint_auth_signing_alg_values_supported meta))
        (DiscoveryError_InvalidTokenAuthSigningAlg auth_server_url);
  _ ← fail_if (negb (str_mem "atproto" (scopes_supported meta)))
        (DiscoveryError_MissingAtprotoScope auth_server_url);
  _ ← fail_if (negb (authorization_response_iss_parameter_supported meta))
        (DiscoveryError_MissingIssParameterSupport auth_server_url);
  _ ← fail_if (negb (client_id_metadata_document_supported meta))
        (DiscoveryError_MissingClientMetadataSupport auth_server_url);
  _ ← fail_if (negb (require_request_uri_registration meta))
        (DiscoveryError_MissingRequestUriRegistration auth_server_url);
  _ ← fail_if (negb (str_mem "ES256" (dpop_signing_alg_values_supported meta)))
        (DiscoveryError_MissingDpopAlgorithm auth_server_url);
  fail_if (negb (str_mem "S256" (code_challenge_methods_supported meta)))
    (DiscoveryError_MissingPkceMethod auth_server_url).

(** The checks on a fetched protected-resource document. *)
Definition check_protected_resource (pds_endpoint : string) (meta : ProtectedResourceMetadata)
    : result DiscoveryError ProtectedResourceMetadata :=
  match authorization_servers meta with
  | [] => Err (DiscoveryError_MissingAuthorizationServers pds_endpoint)
  | as_url :: rest =>
      _ ← fail_if (zlen (as_url :: rest) >? 1)
            (DiscoveryError_MultipleAuthorizationServers (zlen (as_url :: rest)));
      _ ← fail_if (negb (is_origin_only as_url)) (DiscoveryError_InvalidAuthorizationServerUrl as_url);
      let expected_origin := normalize_origin pds_endpoint in
      let actual_origin := normalize_origin (resource meta) in
      _ ← fail_if (negb (expected_origin =? actual_origin)%string)
            (DiscoveryError_ResourceMismatch expected_origin (resource meta));
      _ ← fail_if (negb (is_origin_only (resource meta)))
            (DiscoveryError_ResourceMismatch expected_origin (resource meta));
      Ok meta
  end.
End urls.

(** ** The pipeline *)
Section pipeline.
Context (fk : gmap string IpAddr → option string) `{UrlParts} (status_display : Z → string).
Context (answers : nat → nat → Round) `{IdentitySerde} `{DiscoverySerde}.
Context (doh_client : result string unit) (doh : string → nat → result string Response).
Local Abbreviation World := (@World _).
Local Abbreviation fetch_json := (fetch_json fk status_display answers).

Definition fetch_protected_resource_metadata (f : SsrfFilter) (pds_endpoint : string)
    : st World DiscoveryError ProtectedResourceMetadata :=
  let url := trim_end_matches "/" pds_endpoint +:+ "/.well-known/oauth-protected-resource" in
  meta ← st_map_err (λ e, match e with
           | SsrfError_HttpStatus status msg =>
               DiscoveryError_ProtectedResourceDiscoveryFailed
                 ("HTTP " +:+ pretty status +:+ " fetching protected resource metadata from "
                  +:+ url +:+ ": " +:+ msg)
           | SsrfError_Json err =>
               DiscoveryError_ProtectedResourceDiscoveryFailed
                 ("Invalid JSON in protected resource metadata from " +:+ url +:+ ": " +:+ err)
           | other => DiscoveryError_Ssrf other
           end) (fetch_json prm_from_slice f url MAX_OAUTH_RESPONSE_BYTES);
  lift (check_protected_resource pds_endpoint meta).

(** How an error of one of the two metadata requests is reported; [what] names the request. *)
Definition as_fetch_error (what url : string) (e : SsrfError) : DiscoveryError :=
  match e with
  | SsrfError_HttpStatus status msg =>
      DiscoveryError_AuthServerDiscoveryFailed
        ("HTTP " +:+ pretty status +:+ " fetching " +:+ what +:+ " from " +:+ url +:+ ": " +:+ msg)
  | SsrfError_Json err =>
      DiscoveryError_AuthServerDiscoveryFailed
        ("Invalid JSON in " +:+ what +:+ " from " +:+ url +:+ ": " +:+ err)
  | other => DiscoveryError_Ssrf other
  end.

(** The OAuth document, or the OpenID document when the first is not found. *)
Definition fetch_as_document (f : SsrfFilter) (base : string)
    : st World DiscoveryError AuthorizationServerMetadata := λ w,
  let primary_url := base +:+ "/.well-known/oauth-authorization-server" in
  match fetch_json asm_from_slice f primary_url MAX_OAUTH_RESPONSE_BYTES w with
  | (w, Ok m) => (w, Ok m)
  | (w, Err e) =>
      if (match e with SsrfError_HttpStatus status _ => status =? 404 | _ => false end) then
        let fallback_url := base +:+ "/.well-known/openid-configuration" in
        st_map_err (as_fetch_error "fallback authorization server metadata" fallback_url)
          (fetch_json asm_from_slice f fallback_url MAX_OAUTH_RESPONSE_BYTES) w
      else (w, Err (as_fetch_error "authorization server metadata" primary_url e))
  end.

Definition fetch_auth_server_metadata (f : SsrfFilter) (auth_server_url : string)
    : st World DiscoveryError AuthorizationServerMetadata :=
  let base := trim_end_matches "/" auth_server_url in
  meta ← fetch_as_document f base;
  _ ← lift (validate_auth_server_capabilities meta auth_server_url);
  mret meta.

Definition discover_oauth_endpoints (ir : IdentityResolver) (did_or_handle : string)
    : st World DiscoveryError DiscoveredAuthEndpoints :=
  identity ← st_map_err DiscoveryError_Identity
               (resolve_ident fk status_display answers doh_client doh ir did_or_handle);
  pds_meta ← fetch_protected_resource_metadata (ssrf_filter ir) (pds_endpoint identity);
  let auth_server_url := default "" (head (authorization_servers pds_meta)) in
  as_meta ← fetch_auth_server_metadata (ssrf_filter ir) auth_server_url;
  mret (mkEndpoints (ri_did identity) (ri_handle identity) (pds_endpoint identity) (issuer as_meta)
          (pushed_authorization_request_endpoint as_meta) (authorization_endpoint as_meta)
          (token_endpoint as_meta) (dpop_signing_alg_values_supported as_meta)
          (match scopes_supported as_meta, prm_scopes_supported pds_meta with
           | (_ :: _) as l, _ => l
           | [], (_ :: _) as l => l
           | [], [] => ["atproto"]
           end)
          pds_meta as_meta).
End pipeline.

(** ** What is accepted *)
Section facts.
Context `{UrlParts}.

(** Secure transport without credentials: https, or plain http to this host. *)
Definition secure_url (u : Url) : Prop :=
  (url_scheme u = "https" ∨
   url_scheme u = "http" ∧ is_loopback_name (default "" (url_host_str u)) = true) ∧
  url_username u = "" ∧ url_password u = None.

Definition https_endpoint (endpoint : string) : Prop :=
  ∃ u host, url_parse endpoint = Ok u ∧ url_host_str u = Some host ∧ secure_url u.

Definition default_port (scheme : string) : Z := if (scheme =? "https")%string then 443 else 80.

(** A bare origin: nothing but scheme, host and a port that is not the scheme's default. *)
Definition origin_url (s : string) : Prop :=
  ∃ u, url_parse s = Ok u ∧ secure_url u ∧ url_path u ∈ [""; "/"] ∧
    url_query u = None ∧ url_fragment u = None ∧
    str_contains_char "\" (host_port_of s) = false ∧
    (has_explicit_port (host_port_of s) = true →
     ∃ p, parse_u16 (after_last ":" (host_port_of s)) = Some p ∧ p ≠ default_port (url_scheme u)).

Lemma no_credentials u :
  negb (str_is_empty (url_username u)) || bool_decide (is_Some (url_password u)) = false ↔
  url_username u = "" ∧ url_password u = None.
Proof. unfold str_is_empty. b2p. by rewrite <-eq_None_not_Some. Qed.

Lemma scheme_check u :
  negb (url_scheme u =? "https")%string
    && negb ((url_scheme u =? "http")%string && is_loopback_name (default "" (url_host_str u))) = false ↔
  url_scheme u = "https" ∨
  url_scheme u = "http" ∧ is_loopback_name (default "" (url_host_str u)) = true.
Proof. b2p. tauto. Qed.

Lemma port_check scheme p :
  scheme = "https" ∨ scheme = "http" →
  negb ((p =? 443) && (scheme =? "https")%string) && negb ((p =? 80) && (scheme =? "http")%string) = true ↔
  p ≠ default_port scheme.
Proof. unfold default_port. intros [-> | ->]; simpl; b2p; naive_solver. Qed.

Lemma is_origin_only_exact s : is_origin_only s = true ↔ origin_url s.
Proof.
  unfold is_origin_only, origin_url, secure_url. destruct (url_parse s) as [u|e]; [|naive_solver].
  destruct (_ && negb _) eqn:Es.
  { split; [done|]. intros (? & [= <-] & [Hs _] & _). apply scheme_check in Hs. congruence. }
  apply scheme_check in Es. destruct (_ || bool_decide _) eqn:Ec.
  { split; [done|]. intros (? & [= <-] & [_ Hs] & _). apply no_credentials in Hs. congruence. }
  apply no_credentials in Ec as [Hu Hp].
  assert (url_scheme u = "https" ∨ url_scheme u = "http") as Hsch by tauto.
  set (port_ok := if has_explicit_port _ then _ else _).
  assert (port_ok = true ↔ (has_explicit_port (host_port_of s) = true →
     ∃ p, parse_u16 (after_last ":" (host_port_of s)) = Some p ∧ p ≠ default_port (url_scheme u))) as Hport.
  { unfold port_ok. destruct (has_explicit_port _); [|done].
    destruct (parse_u16 _) as [p|]; [rewrite port_check by done|]; naive_solver. }
  destruct port_ok; simpl.
  2: { split; [done|]. intros (? & [= <-] & H1). destruct Hport as [_ Hport]. discriminate Hport. tauto. }
  destruct (str_contains_char "\" _) eqn:Eb.
  { split; [done|]. intros (? & _ & _ & _ & _ & _ & Hb & _). congruence. }
  unfold str_is_empty. b2p. split.
  - intros [[Hpath Hq] Hf]. exists u. split_and!; try done; [set_solver|by apply Hport].
  - intros (? & [= <-] & _ & Hpath & Hq & Hf & _). split_and!; try done. set_solver.
Qed.

Lemma validate_https_endpoint_Ok e label iss : validate_https_endpoint e label iss = Ok tt ↔ https_endpoint e.
Proof.
  unfold validate_https_endpoint, https_endpoint, secure_url.
  destruct (url_parse e) as [u|err]; [|naive_solver]. cbn [mbind result_bind map_err].
  rewrite bind_Ok. setoid_rewrite bind_Ok. setoid_rewrite fail_if_Ok. setoid_rewrite no_credentials.
  assert (∀ msg : DiscoveryError, (if negb (url_scheme u =? "https")%string
          then fail_if (negb ((url_scheme u =? "http")%string && is_loopback_name (default "" (url_host_str u)))) msg
          else Ok tt) = Ok tt ↔
          (url_scheme u = "https" ∨
           url_scheme u = "http" ∧ is_loopback_name (default "" (url_host_str u)) = true)) as Hsch.
  { intros msg. rewrite <-scheme_check. destruct (url_scheme u =? "https")%string; [done|]. cbn [negb andb].
    apply fail_if_Ok. }
  setoid_rewrite bool_decide_eq_false. split.
  - intros ([] & Hs%Hsch & [] & Hc & Hh). destruct (url_host_str u) as [h|] eqn:Eh; [|done].
    exists u, h. by rewrite Eh.
  - intros (? & h & [= <-] & Hh & Hs & Hc). exists tt. split; [by apply Hsch|]. exists tt. split; [done|].
    congruence.
Qed.

(** The AT Protocol profile of an authorization server that was asked for at [url]. *)
Record as_profile (meta : AuthorizationServerMetadata) (url : string) : Prop := {
  p_url : origin_url url;
  p_issuer : origin_url (issuer meta);
  p_origin : normalize_origin url = normalize_origin (issuer meta);
  p_par : trim (pushed_authorization_request_endpoint meta) ≠ "" ∧
          https_endpoint (pushed_authorization_request_endpoint meta);
  p_par_required : require_pushed_authorization_requests meta = true;
  p_token : trim (token_endpoint meta) ≠ "" ∧ https_endpoint (token_endpoint meta);
  p_authorization : trim (authorization_endpoint meta) ≠ "" ∧ https_endpoint (authorization_endpoint meta);
  p_code : "code" ∈ response_types_supported meta;
  p_grants : "authorization_code" ∈ grant_types_supported meta ∧
             "refresh_token" ∈ grant_types_supported meta;
  p_methods : "none" ∈ token_endpoint_auth_methods_supported meta ∧
              "private_key_jwt" ∈ token_endpoint_auth_methods_supported meta;
  p_algs : "ES256" ∈ token_endpoint_auth_signing_alg_values_supported meta ∧
           "none" ∉ token_endpoint_auth_signing_alg_values_supported meta;
  p_scope : "atproto" ∈ scopes_supported meta;
  p_iss : authorization_response_iss_parameter_supported meta = true;
  p_client_id : client_id_metadata_document_supported meta = true;
  p_request_uri : require_request_uri_registration meta = true;
  p_dpop : "ES256" ∈ dpop_signing_alg_values_supported meta;
  p_pkce : "S256" ∈ code_challenge_methods_supported meta
}.

Lemma str_mem_false s l : str_mem s l = false ↔ s ∉ l.
Proof. rewrite <-str_mem_spec. by destruct (str_mem s l). Qed.

Lemma validate_capabilities_profile meta url :
  validate_auth_server_capabilities meta url = Ok tt ↔ as_profile meta url.
Proof.
  unfold validate_auth_server_capabilities. rewrite !bind_unit, !fail_if_Ok, !validate_https_endpoint_Ok.
  unfold str_is_empty. rewrite orb_false_iff, !negb_false_iff, !String.eqb_neq, String.eqb_eq, !str_mem_spec,
    str_mem_false, !is_origin_only_exact.
  split; [intros Hall; constructor; tauto|intros []; tauto].
Qed.

(** C29. The profile checks accept exactly the authorization servers that satisfy the AT Protocol
    profile: the URL asked and the published issuer are bare origins and the same origin; PAR, token
    and authorization endpoints are present, https (or loopback) and free of credentials; PAR, the
    code and refresh grants, both client authentication methods, ES256 without [none], the atproto
    scope, the [iss] parameter, client metadata documents, request_uri registration, DPoP with ES256
    and PKCE with S256 are all announced. *)
Theorem validate_auth_server_capabilities_exact meta url :
  validate_auth_server_capabilities meta url = Ok tt ↔ as_profile meta url.
Proof. apply validate_capabilities_profile. Qed.

Lemma check_protected_resource_Ok pds meta meta' :
  check_protected_resource pds meta = Ok meta' →
  meta' = meta ∧ ∃ as_url, authorization_servers meta = [as_url] ∧ origin_url as_url ∧
    origin_url (resource meta) ∧ normalize_origin (resource meta) = normalize_origin pds.
Proof.
  unfold check_protected_resource. destruct (authorization_servers meta) as [|a l]; [done|].
  rewrite !bind_unit, !fail_if_Ok, !negb_false_iff, !is_origin_only_exact, String.eqb_eq.
  intros (Hl & Ha & Ho & Hr & [= <-]). split; [done|]. exists a. unfold zlen in Hl. b2p.
  destruct l; [done|]. simpl in Hl. lia.
Qed.
End facts.

(** ** The discovered bundle *)
Section discovery.
Context (fk : gmap string IpAddr → option string) `{!FirstKeyLaws fk} `{UrlParts}
  (status_display : Z → string) (answers : nat → nat → Round) `{IdentitySerde} `{DiscoverySerde}
  (doh_client : result string unit) (doh : string → nat → result string Response).
Local Abbreviation fetch_prm := (fetch_protected_resource_metadata fk status_display answers).
Local Abbreviation fetch_asm := (fetch_auth_server_metadata fk status_display answers).
Local Abbreviation discover := (discover_oauth_endpoints fk status_display answers doh_client doh).

Lemma fetch_prm_confined f pds : confined f 1 (fetch_prm f pds).
Proof.
  apply (confined_bind _ 1 0); [by apply confined_map_err, confined_fetch_json|]. intros m.
  apply confined_lift.
Qed.

Lemma fetch_as_document_confined f base : confined f 2 (fetch_as_document fk status_display answers f base).
Proof.
  intros w. unfold fetch_as_document.
  pose proof (confined_fetch_json fk status_display answers asm_from_slice f
    (base +:+ "/.well-known/oauth-authorization-server") MAX_OAUTH_RESPONSE_BYTES w) as G1.
  destruct (fetch_json _ _ _ _ _ _ _ w) as [w1 [m|e]]; cbn [fst] in G1;
    [eapply guarded_weaken; [|exact G1]; lia|].
  destruct (match e with SsrfError_HttpStatus s _ => s =? 404 | _ => false end).
  - eapply (guarded_trans _ 1 1); [exact G1|]. by apply confined_map_err, confined_fetch_json.
  - eapply guarded_weaken; [|exact G1]. lia.
Qed.

Lemma fetch_asm_confined f url : confined f 2 (fetch_asm f url).
Proof.
  apply (confined_bind _ 2 0); [apply fetch_as_document_confined|]. intros m.
  apply (confined_bind _ 0 0); [apply confined_lift|]. intros _. apply confined_ret.
Qed.

Lemma discover_confined ir x : confined (ssrf_filter ir) 5 (discover ir x).
Proof.
  apply (confined_bind _ 2 3); [by apply confined_map_err, resolve_ident_confined|]. intros id.
  apply (confined_bind _ 1 2); [apply fetch_prm_confined|]. intros pm.
  apply (confined_bind _ 2 0); [apply fetch_asm_confined|]. intros am. apply confined_ret.
Qed.

Lemma fetch_asm_Ok f url w w' m :
  fetch_asm f url w = (w', Ok m) → validate_auth_server_capabilities m url = Ok tt.
Proof.
  intros E. apply st_bind_Ok in E as (w1 & m' & _ & E). apply st_bind_Ok in E as (w2 & [] & Hv & E).
  apply lift_Ok in Hv as [-> Hv]. by injection E as -> ->.
Qed.

(** The parts of a discovered bundle are those of one consistent chain of documents. *)
Definition discovery_bound (ir : IdentityResolver) (w : World) (x : string) (d : DiscoveredAuthEndpoints) : Prop :=
  (∃ id, identity_consistent fk status_display answers doh_client doh ir w x id ∧ dae_did d = ri_did id ∧ dae_handle d = ri_handle id ∧
     dae_pds_endpoint d = pds_endpoint id) ∧
  (∃ as_url, authorization_servers (protected_resource_metadata d) = [as_url] ∧
     validate_auth_server_capabilities (auth_server_metadata d) as_url = Ok tt ∧
     normalize_origin (auth_server_issuer d) = normalize_origin as_url) ∧
  normalize_origin (resource (protected_resource_metadata d)) = normalize_origin (dae_pds_endpoint d) ∧
  par_endpoint d = pushed_authorization_request_endpoint (auth_server_metadata d) ∧
  dae_token_endpoint d = token_endpoint (auth_server_metadata d) ∧
  https_endpoint (par_endpoint d) ∧ https_endpoint (dae_token_endpoint d) ∧
  https_endpoint (dae_authorization_endpoint d) ∧ "atproto" ∈ scopes d.

Lemma discover_Ok ir x w w' d : discover ir x w = (w', Ok d) → discovery_bound ir w x d.
Proof.
  intros E.
  apply st_bind_Ok in E as (w1 & id & Eid & E). apply st_map_err_Ok in Eid.
  apply st_bind_Ok in E as (w2 & pm & Epm & E). apply st_bind_Ok in E as (w3 & am & Eam & E).
  injection E as <- <-. apply (resolve_ident_Ok fk) in Eid.
  apply st_bind_Ok in Epm as (w4 & pm' & _ & Epm). apply lift_Ok in Epm as [<- Epm].
  apply check_protected_resource_Ok in Epm as (<- & as_url & Has & _ & _ & Hres).
  rewrite Has in Eam. cbn [head default] in Eam. apply fetch_asm_Ok in Eam.
  pose proof (proj1 (validate_capabilities_profile am as_url) Eam) as P.
  unfold discovery_bound. cbn [dae_did dae_handle dae_pds_endpoint protected_resource_metadata auth_server_metadata
       auth_server_issuer par_endpoint dae_token_endpoint dae_authorization_endpoint scopes].
  destruct (p_par _ _ P), (p_token _ _ P), (p_authorization _ _ P).
  pose proof (p_scope _ _ P) as Hs. pose proof (p_origin _ _ P) as Ho.
  split_and!; try done; [by exists id|by exists as_url|]. by destruct (scopes_supported am); [set_solver|].
Qed.

Lemma fetch_as_document_doh f base w : w_doh (fetch_as_document fk status_display answers f base w).1 = w_doh w.
Proof.
  unfold fetch_as_document.
  pose proof (fetch_json_doh fk status_display answers asm_from_slice f
    (base +:+ "/.well-known/oauth-authorization-server") MAX_OAUTH_RESPONSE_BYTES w) as E1.
  destruct (fetch_json _ _ _ _ _ _ _ w) as [w1 [m|e]]; [done|]. cbn [fst] in E1.
  destruct (match e with SsrfError_HttpStatus s _ => s =? 404 | _ => false end); [|done]. rewrite <-E1.
  rewrite <-(fetch_json_doh fk status_display answers asm_from_slice f
    (base +:+ "/.well-known/openid-configuration") MAX_OAUTH_RESPONSE_BYTES w1).
  unfold st_map_err. by destruct (fetch_json _ _ _ _ _ _ _ w1).
Qed.

Lemma fetch_asm_asks P f url : asks 0 P (fetch_asm f url).
Proof.
  apply (asks_bind 0 0); [apply asks_quiet; intros w; apply fetch_as_document_doh|]. intros m. asks_none.
Qed.

Lemma discover_asks ir x : asks 1 (doh_allowed ir x) (discover ir x).
Proof.
  apply (asks_bind 1 0); [apply asks_map_err, resolve_ident_asks|]. intros id.
  apply (asks_bind 0 0); [unfold fetch_protected_resource_metadata; asks_none|]. intros pm.
  apply (asks_bind 0 0); [apply fetch_asm_asks|]. intros am. apply asks_ret.
Qed.

(** C18. What discovery returns is bound together, whatever DNS and the servers answered: the identity
    is the consistent one of C17 (its document served at the DID's URL, a handle linked to the DID in
    both directions); the protected-resource document names the origin of that identity's PDS and
    exactly one authorization server; the authorization server's document satisfies the profile at
    the URL the PDS named, so its issuer has the same origin; the bundle's endpoints are the
    document's and its scopes contain atproto.  At most twenty requests go through the SSRF filter, all
    admitted by it; at most one more is made without it, the DNS-over-HTTPS query for the TXT records of
    the handle asked for, where there is one and no resolver is installed. *)
Theorem discover_oauth_endpoints_sound ir x w w' d :
  resolver_wf (w_resolver w) → discover ir x w = (w', Ok d) →
  discovery_bound ir w x d ∧
  (∃ more, w_sent w' = w_sent w ++ more ∧ Forall (request_safe (ssrf_filter ir)) more ∧ (length more ≤ 20)%nat) ∧
  ∃ asked, w_doh w' = w_doh w ++ asked ∧ (length asked ≤ 1)%nat ∧ Forall (doh_allowed ir x) asked.
Proof.
  intros Hr E. destruct (discover_confined ir x w Hr) as [_ Hmore]. pose proof (discover_asks ir x w) as Ha.
  rewrite E in Hmore, Ha. by split; [eapply discover_Ok|].
Qed.
End discovery.

Module DiscoveryExamples.
Import SsrfExamples IdentityExamples.
#[local] Existing Instances fst_key_laws bare_urls fixed_serde.
#[local] Instance bare_parts : @UrlParts bare_urls :=
  {| url_username := λ _, ""; url_password := λ _, None; url_query := λ _, None;
     url_fragment := λ _, None; url_origin := λ u, "https://" +:+ fst u |}.
Definition prm : ProtectedResourceMetadata :=
  mkPRM "https://pds.example.com" ["https://auth.example.com"] [] ["header"] None.
Definition asm : AuthorizationServerMetadata :=
  mkASM "https://auth.example.com" "https://auth.example.com/authorize" "https://auth.example.com/token"
    "https://auth.example.com/par" true ["ES256"] ["S256"] ["code"] ["authorization_code"; "refresh_token"]
    ["none"; "private_key_jwt"] ["ES256"] ["atproto"; "transition:generic"] true true true.
#[local] Instance fixed_documents : DiscoverySerde :=
  {| prm_from_slice := λ _, Ok prm; asm_from_slice := λ _, Ok asm |}.
Definition discovered :=
  @discover_oauth_endpoints fst_key bare_urls bare_parts pretty one_round fixed_serde fixed_documents
    (Err "offline") (λ _ _, Err "offline") ir "alice" world.

Lemma discover_oauth_endpoints_sound_witness :
  par_endpoint <$> snd discovered = Ok "https://auth.example.com/par" ∧
  ∃ d, snd discovered = Ok d ∧ https_endpoint (par_endpoint d).
Proof.
  split; [vm_compute; reflexivity|].
  destruct discovered as [w' [d|e]] eqn:E; [|vm_compute in E; discriminate E].
  exists d. split; [done|].
  destruct (@discover_oauth_endpoints_sound fst_key _ bare_urls bare_parts pretty one_round fixed_serde
    fixed_documents (Err "offline") (λ _ _, Err "offline") ir "alice" world w' d)
    as [(_ & _ & _ & _ & _ & Hpar & _) _]; [apply resolver_new_wf|exact E|exact Hpar].
Defined.

(** A server that does not announce [iss] is refused. *)
Example missing_iss_refused :
  validate_auth_server_capabilities
    (mkASM (issuer asm) (authorization_endpoint asm) (token_endpoint asm)
       (pushed_authorization_request_endpoint asm) true ["ES256"] ["S256"] ["code"]
       ["authorization_code"; "refresh_token"] ["none"; "private_key_jwt"] ["ES256"] ["atproto"]
       false true true) "https://auth.example.com"
  = Err (DiscoveryError_MissingIssParameterSupport "https://auth.example.com").
Proof. reflexivity. Qed.

(** Spellings of the default port are refused, other ports are not. *)
Example default_port_spellings :
  is_origin_only "https://auth.example.com:443" = false ∧
  is_origin_only "https://auth.example.com:00443" = false ∧
  is_origin_only "https://auth.example.com:44371" = true ∧
  is_origin_only "https://auth.example.com" = true.
Proof. vm_compute. done. Qed.

(** The scan for the port looks between [://] and the next slash.  A URL parser skips further
    slashes there (RFC-compliant special URLs), so with them the port is not seen. *)
Example default_port_after_slashes :
  let skip : UrlCrate :=
    {| Url := string; url_parse := λ _, Ok "auth.example.com"; url_scheme := λ _, "https";
       url_host_str := λ u, Some u; url_port := λ _, None; url_path := λ _, "/";
       url_as_str := λ u, "https://" +:+ u +:+ "/"; url_port_or_known_default := λ _, Some 443;
       url_join := λ u _, Ok u |} in
  @is_origin_only skip
    {| url_username := λ _, ""; url_password := λ _, None; url_query := λ _, None;
       url_fragment := λ _, None; url_origin := λ u, "https://" +:+ u |}
    "https:///auth.example.com:443" = true.
Proof. reflexivity. Qed.
End DiscoveryExamples.
