(* ===== verification/Multikey.v ===== *)
(** * Multikey: base58, multibase keys and the service-auth kernel

    src/src/kernels/service_auth_bytes.rs (the plain kernels) and the key codecs of
    src/src/service_auth.rs: [bs58_encode], [bs58_decode], [decode_multikey] and the two encoders.
    Base58 works on a little-endian digit buffer; its inner [while] loops run at most as often as a
    [u32] has digits (four in base 256, six in base 58), which is the fuel they are given. *)
From S2P Require Import Prelude Errors Strs Externals.
Open Scope Z_scope.

(** ** The kernel *)
Definition CURVE_NONE : Z := 0.
Definition CURVE_SECP256K1 : Z := 1.
Definition CURVE_P256 : Z := 2.
Definition ALG_NONE : Z := 0.
Definition ALG_ES256K : Z := 1.
Definition ALG_ES256 : Z := 2.

Definition is_compressed_sec1_tag (tag : Z) : bool := (tag =? 2) || (tag =? 3).

Definition classify_multikey_header (len b0 b1 b2 : Z) : Z :=
  if ((len =? 35) && (b0 =? 0xe7) && (b1 =? 0x01) && ((b2 =? 2) || (b2 =? 3)))
     || ((len =? 34) && (b0 =? 0xe7) && ((b1 =? 2) || (b1 =? 3))) then 1
  else if (len =? 35) && (b0 =? 0x80) && (b1 =? 0x24) && ((b2 =? 2) || (b2 =? 3)) then 2
  else 0.

Definition multikey_sec1_offset (len b0 b1 b2 : Z) : Z :=
  if (len =? 35) && ((b2 =? 2) || (b2 =? 3))
     && (((b0 =? 0xe7) && (b1 =? 0x01)) || ((b0 =? 0x80) && (b1 =? 0x24))) then 2
  else if (len =? 34) && (b0 =? 0xe7) && ((b1 =? 2) || (b1 =? 3)) then 1
  else 0.

Definition is_alg_bound_to_curve (curve_id alg_id : Z) : bool :=
  ((curve_id =? 1) && (alg_id =? 1)) || ((curve_id =? 2) && (alg_id =? 2)).

Definition is_service_jwt_exp_valid (exp now_secs leeway_secs : Z) : bool :=
  if exp >? u64_max - leeway_secs then true else now_secs <=? exp + leeway_secs.

Definition classify_multikey_bytes (bytes : list Z) : option (Z * list Z) :=
  match bytes with
  | b0 :: b1 :: b2 :: _ =>
      let len := zlen bytes in
      let curve := classify_multikey_header len b0 b1 b2 in
      let offset := multikey_sec1_offset len b0 b1 b2 in
      if (curve =? CURVE_NONE) || (offset =? 0) then None
      else Some (curve, drop (Z.to_nat offset) bytes)
  | _ => None
  end.

Definition alg_id_from_str (alg : string) : Z :=
  if (alg =? "ES256K")%string then ALG_ES256K
  else if (alg =? "ES256")%string then ALG_ES256 else ALG_NONE.

(** ** Base58 *)
Definition ALPHABET : string := "123456789ABCDEFGHJKLMNPQRSTUVWXYZabcdefghijkmnopqrstuvwxyz".

Fixpoint position_from (i : Z) (c : ascii) (s : string) : option Z :=
  match s with
  | EmptyString => None
  | String a s' => if Ascii.eqb a c then Some i else position_from (i + 1) c s'
  end.
Definition position (c : ascii) : option Z := position_from 0 c ALPHABET.

(** [for b in &mut out { let acc = b * 58 + carry; *b = acc & 0xff; carry = acc >> 8 }]. *)
Fixpoint decode_pass (carry : Z) (out : list Z) : list Z * Z :=
  match out with
  | [] => ([], carry)
  | b :: out' =>
      let acc := b * 58 + carry in
      let '(out'', carry') := decode_pass (Z.shiftr acc 8) out' in
      (Z.land acc 0xff :: out'', carry')
  end.
Fixpoint decode_push (fuel : nat) (carry : Z) : list Z :=
  match fuel with
  | O => []
  | S n => if carry >? 0 then Z.land carry 0xff :: decode_push n (Z.shiftr carry 8) else []
  end.

(** [{byte:#04x}]. *)
Definition hex_digit (d : Z) : ascii := ascii_of_N (Z.to_N (if d <? 10 then 48 + d else 87 + d)).
Definition hex_byte (b : Z) : string :=
  "0x" +:+ String (hex_digit (b / 16)) (String (hex_digit (b mod 16)) "").

Definition invalid_key {A} (m : string) : result AtprotoOAuthError A :=
  Err (AtprotoOAuthError_Crypto (CryptoError_InvalidKey m)).

Fixpoint decode_chars (out : list Z) (input : string) : result AtprotoOAuthError (list Z) :=
  match input with
  | EmptyString => Ok out
  | String c rest =>
      match position c with
      | None => invalid_key ("Invalid base58 character " +:+ hex_byte (byte_of c))
      | Some digit =>
          let '(out, carry) := decode_pass digit out in
          decode_chars (out ++ decode_push 4 carry) rest
      end
  end.

Definition bs58_decode (input : string) : result AtprotoOAuthError (list Z) :=
  if str_is_empty input then Ok []
  else if starts_with input "1" then invalid_key "Malformed base58 key: leading zero byte"
  else out ← decode_chars [] input; Ok (reverse out).

Fixpoint encode_pass (carry : Z) (digits : list Z) : list Z * Z :=
  match digits with
  | [] => ([], carry)
  | d :: digits' =>
      let val := d * 256 + carry in
      let '(digits'', carry') := encode_pass (val / 58) digits' in
      (val mod 58 :: digits'', carry')
  end.
Fixpoint encode_push (fuel : nat) (carry : Z) : list Z :=
  match fuel with
  | O => []
  | S n => if carry >? 0 then carry mod 58 :: encode_push n (carry / 58) else []
  end.

Fixpoint encode_bytes (digits bytes : list Z) : list Z :=
  match bytes with
  | [] => digits
  | b :: rest =>
      let '(digits, carry) := encode_pass b digits in
      encode_bytes (digits ++ encode_push 6 carry) rest
  end.

Definition alphabet_char (d : Z) : ascii := default "000"%char (String.get (Z.to_nat d) ALPHABET).
Fixpoint leading_zeros (bytes : list Z) : nat :=
  match bytes with b :: rest => if b =? 0 then S (leading_zeros rest) else O | [] => O end.

Definition bs58_encode (bytes : list Z) : string :=
  let digits := encode_bytes [0] bytes in
  String.string_of_list_ascii
    (replicate (leading_zeros bytes) "1"%char ++ (alphabet_char <$> reverse digits)).

(** ** Multibase *)
Section multibase.
Context `{Base64}.

Definition decode_multikey (multibase : string) : result AtprotoOAuthError (list Z) :=
  if str_len multibase <? 2 then invalid_key "Malformed multibase key: too short"
  else
    match multibase with
    | EmptyString => invalid_key "Malformed multibase key: too short"
    | String c rest =>
        decoded ←
          (if Ascii.eqb c "z" then bs58_decode rest
           else if Ascii.eqb c "u" then
             map_err (λ e, AtprotoOAuthError_Crypto (CryptoError_Base64Decode
                             ("Malformed base64url multibase: " +:+ e)))
               (b64_no_pad_decode rest)
           else invalid_key ("Unsupported multibase prefix byte " +:+ hex_byte (byte_of c)));
        match decoded with
        | 0 :: d => Ok d
        | _ => Ok decoded
        end
    end.
End multibase.

Definition MULTIKEY_SECP256K1_VARINT : list Z := [0xe7; 0x01].
Definition MULTIKEY_SECP256K1_LEGACY_PREFIX : Z := 0xe7.
Definition MULTIKEY_P256_VARINT : list Z := [0x80; 0x24].
Definition COMPRESSED_EC_PUBLIC_KEY_LEN : Z := 33.

Definition encode_multikey_secp256k1 `{K256} (key : Secp256k1VerifyingKey) : string :=
  String "z" (bs58_encode (MULTIKEY_SECP256K1_VARINT ++ k256_to_sec1_compressed key)).
Definition encode_multikey_p256 `{P256Compressed} (key : VerifyingKey) : string :=
  String "z" (bs58_encode (MULTIKEY_P256_VARINT ++ vk_to_sec1_compressed key)).

(** ** Little-endian numbers *)
Fixpoint le_val (base : Z) (l : list Z) : Z :=
  match l with [] => 0 | d :: l' => d + base * le_val base l' end.

Definition digits (base : Z) (l : list Z) : Prop := Forall (λ d, 0 ≤ d < base) l.

(** No superfluous most significant digit. *)
Definition canonical (base : Z) (l : list Z) : Prop := base ^ (zlen l - 1) ≤ le_val base l.

Lemma zlen_cons {A} (x : A) l : zlen (x :: l) = zlen l + 1.
Proof. unfold zlen. simpl. lia. Qed.
Lemma zlen_app {A} (l k : list A) : zlen (l ++ k) = zlen l + zlen k.
Proof. unfold zlen. rewrite length_app. lia. Qed.
Lemma zlen_nonneg {A} (l : list A) : 0 ≤ zlen l.
Proof. unfold zlen. lia. Qed.

Lemma le_val_app base l k : le_val base (l ++ k) = le_val base l + base ^ zlen l * le_val base k.
Proof.
  induction l as [|d l IH]; simpl; [change (zlen []) with 0; lia|].
  rewrite IH, zlen_cons, Z.pow_add_r, Z.pow_1_r by (pose proof (zlen_nonneg l); lia). ring.
Qed.

Lemma le_val_bounds base l : 0 < base → digits base l → 0 ≤ le_val base l < base ^ zlen l.
Proof.
  intros Hb Hl. induction Hl as [|d l Hd Hl IH]; simpl; [change (zlen []) with 0; lia|].
  rewrite zlen_cons, Z.pow_add_r, Z.pow_1_r by (pose proof (zlen_nonneg l); lia). nia.
Qed.

Lemma le_val_inj_len base l k :
  0 < base → digits base l → digits base k → length l = length k → le_val base l = le_val base k → l = k.
Proof.
  intros Hb. revert k. induction l as [|d l IH]; intros [|e k] Hl Hk Hlen Hv; try done.
  apply Forall_cons in Hl as [Hd Hl]. apply Forall_cons in Hk as [He Hk]. simpl in Hv.
  assert (d = e ∧ le_val base l = le_val base k) as [-> Hv'].
  { assert (d = e); [|split; [done|nia]].
    apply (f_equal (λ x, x mod base)) in Hv. rewrite !(Z.mul_comm base), !Z.mod_add, !Z.mod_small in Hv by lia. done. }
  f_equal. apply IH; try done. simpl in Hlen. lia.
Qed.

(** A number has one canonical representation. *)
Lemma canonical_inj base l k :
  1 < base → digits base l → digits base k → canonical base l → canonical base k →
  le_val base l = le_val base k → l = k.
Proof.
  intros Hb Hl Hk Cl Ck Hv. apply (le_val_inj_len base); try done; [lia|].
  pose proof (le_val_bounds base l ltac:(lia) Hl). pose proof (le_val_bounds base k ltac:(lia) Hk).
  unfold canonical in *. assert (zlen l - 1 < zlen k) by (apply (Z.pow_lt_mono_r_iff base); [lia|apply zlen_nonneg|lia]).
  assert (zlen k - 1 < zlen l) by (apply (Z.pow_lt_mono_r_iff base); [lia|apply zlen_nonneg|lia]).
  unfold zlen in *. lia.
Qed.

(** ** Both loops are one: multiply by [m] and add, in base [base] *)
Section radix.
Context (m base : Z) (Hm : 1 < m) (Hbase : 1 < base).

Fixpoint mul_add (carry : Z) (l : list Z) : list Z * Z :=
  match l with
  | [] => ([], carry)
  | d :: l' =>
      let acc := d * m + carry in
      let '(l'', carry') := mul_add (acc / base) l' in (acc mod base :: l'', carry')
  end.
Fixpoint push (fuel : nat) (carry : Z) : list Z :=
  match fuel with
  | O => []
  | S n => if carry >? 0 then carry mod base :: push n (carry / base) else []
  end.

Lemma mul_add_spec carry l l' carry' :
  digits base l → 0 ≤ carry < m → mul_add carry l = (l', carry') →
  digits base l' ∧ 0 ≤ carry' < m ∧ length l' = length l ∧
  le_val base l' + base ^ zlen l * carry' = m * le_val base l + carry.
Proof.
  revert carry l' carry'. induction l as [|d l IH]; intros carry l' carry' Hl Hc; simpl.
  { intros [= <- <-]. change (zlen []) with 0. simpl. split_and!; [constructor|lia..]. }
  apply Forall_cons in Hl as [Hd Hl]. destruct (mul_add _ l) as [l1 c1] eqn:E. intros [= <- <-].
  pose proof (Z.mod_pos_bound (d * m + carry) base ltac:(lia)) as Hmod.
  pose proof (Z.div_mod (d * m + carry) base ltac:(lia)) as Hdm.
  apply IH in E as (H1 & H2 & H3 & H4); [|done|].
  - split_and!; [by constructor|lia..|simpl; lia|]. simpl.
    rewrite zlen_cons, Z.pow_add_r, Z.pow_1_r by (pose proof (zlen_nonneg l); lia). nia.
  - split; [apply Z.div_pos; nia|apply Z.div_lt_upper_bound; nia].
Qed.

Lemma push_spec fuel carry :
  0 ≤ carry < base ^ Z.of_nat fuel →
  digits base (push fuel carry) ∧ le_val base (push fuel carry) = carry ∧
  canonical base (push fuel carry).
Proof.
  revert carry. induction fuel as [|n IH]; intros carry Hc; simpl.
  { split_and!; [constructor|simpl in Hc; lia|done]. }
  rewrite Nat2Z.inj_succ, Z.pow_succ_r in Hc by lia.
  destruct (carry >? 0) eqn:E; b2p; [|split_and!; [constructor|simpl; lia|done]].
  pose proof (Z.mod_pos_bound carry base ltac:(lia)). pose proof (Z.div_mod carry base ltac:(lia)).
  destruct (IH (carry / base)) as (H1 & H2 & H3).
  { split; [apply Z.div_pos; lia|apply Z.div_lt_upper_bound; lia]. }
  split_and!; [by constructor|simpl; lia|]. unfold canonical in *. simpl. rewrite H2 in *. rewrite zlen_cons.
  destruct (push n (carry / base)) as [|x l]; [change (zlen []) with 0; simpl; lia|].
  rewrite zlen_cons in *. pose proof (zlen_nonneg l).
  replace (zlen l + 1 + 1 - 1) with (Z.succ (zlen l + 1 - 1)) by lia. rewrite Z.pow_succ_r by lia. nia.
Qed.

(** One digit consumed: the value is multiplied and added, and stays canonical. *)
Lemma radix_step fuel carry l l' carry' :
  digits base l → 0 ≤ carry < m → m ≤ base ^ Z.of_nat fuel → mul_add carry l = (l', carry') →
  digits base (l' ++ push fuel carry') ∧
  le_val base (l' ++ push fuel carry') = m * le_val base l + carry ∧
  (l = [] ∨ base ^ (zlen l - 1) ≤ m * le_val base l + carry → canonical base (l' ++ push fuel carry')).
Proof.
  intros Hl Hc Hf E. destruct (mul_add_spec _ _ _ _ Hl Hc E) as (H1 & H2 & H3 & H4).
  destruct (push_spec fuel carry') as (P1 & P2 & P3); [lia|].
  assert (zlen l' = zlen l) as Hlen by (unfold zlen; lia).
  assert (le_val base (l' ++ push fuel carry') = m * le_val base l + carry) as Hv.
  { rewrite le_val_app, P2, Hlen. done. }
  split_and!; [by apply Forall_app|done|]. intros Hcan.
  destruct l as [|d l].
  { destruct l'; [|done]. by rewrite app_nil_l. }
  destruct Hcan as [|Hcan]; [done|]. unfold canonical. rewrite Hv, zlen_app, Hlen.
  destruct (push fuel carry') as [|x k] eqn:Ep; [rewrite Z.add_0_r; done|].
  unfold canonical in P3. rewrite P2 in P3. rewrite <-Ep in *. rewrite <-H4.
  assert (0 < zlen (push fuel carry')) by (rewrite Ep, zlen_cons; pose proof (zlen_nonneg k); lia).
  replace (zlen (d :: l) + zlen (push fuel carry') - 1)
    with (zlen (d :: l) + (zlen (push fuel carry') - 1)) by lia.
  rewrite Z.pow_add_r by (pose proof (zlen_nonneg (d :: l)); lia).
  pose proof (le_val_bounds base l' ltac:(lia) H1). pose proof (Z.pow_nonneg base (zlen (d :: l))). nia.
Qed.
End radix.

Lemma decode_pass_mul_add carry out : decode_pass carry out = mul_add 58 256 carry out.
Proof.
  revert carry. induction out as [|b out IH]; intros carry; simpl; [done|].
  rewrite Z.shiftr_div_pow2, IH by lia. change (2 ^ 8) with 256.
  assert (Z.land (b * 58 + carry) 255 = (b * 58 + carry) mod 256) as ->; [|done].
  change 255 with (Z.ones 8). by rewrite Z.land_ones.
Qed.

Lemma decode_push_push fuel carry : decode_push fuel carry = push 256 fuel carry.
Proof.
  revert carry. induction fuel as [|n IH]; intros carry; simpl; [done|].
  rewrite Z.shiftr_div_pow2, IH by lia. change (2 ^ 8) with 256.
  change 255 with (Z.ones 8). by rewrite Z.land_ones.
Qed.

Lemma encode_pass_mul_add carry l : encode_pass carry l = mul_add 256 58 carry l.
Proof. revert carry. induction l as [|d l IH]; intros carry; simpl; [done|]. by rewrite IH. Qed.

Lemma encode_push_push fuel carry : encode_push fuel carry = push 58 fuel carry.
Proof. revert carry. induction fuel as [|n IH]; intros carry; simpl; [done|]. by rewrite IH. Qed.

(** ** Reading digits from the most significant one *)
Definition horner (base v : Z) (l : list Z) : Z := foldl (λ v d, base * v + d) v l.

Lemma horner_reverse base l : horner base 0 (reverse l) = le_val base l.
Proof.
  unfold horner. induction l as [|d l IH]; [done|]. rewrite reverse_cons, foldl_app, IH. simpl. lia.
Qed.

Lemma encode_bytes_spec bytes : ∀ l,
  Forall u8_valid bytes → digits 58 l → l ≠ [] → canonical 58 l →
  digits 58 (encode_bytes l bytes) ∧ le_val 58 (encode_bytes l bytes) = horner 256 (le_val 58 l) bytes ∧
  canonical 58 (encode_bytes l bytes).
Proof.
  induction bytes as [|b bytes IH]; intros l Hb Hl Hne Hc; [done|].
  apply Forall_cons in Hb as [Hb Hbs]. unfold u8_valid, u8_max in Hb. cbn [encode_bytes].
  rewrite encode_pass_mul_add. destruct (mul_add 256 58 b l) as [l' carry] eqn:E. rewrite encode_push_push.
  destruct (radix_step 256 58 ltac:(lia) ltac:(lia) 6 b l l' carry) as (H1 & H2 & H3); try done; [lia|].
  pose proof (le_val_bounds 58 l ltac:(lia) Hl).
  assert (l' ++ push 58 6 carry ≠ []) as Hne'.
  { destruct (mul_add_spec 256 58 ltac:(lia) ltac:(lia) b l l' carry Hl ltac:(lia) E) as (_ & _ & El & _).
    destruct l', l; done. }
  destruct (IH _ Hbs H1 Hne') as (I1 & I2 & I3); [apply H3; right; unfold canonical in Hc; lia|].
  split_and!; try done. rewrite I2, H2. done.
Qed.

Lemma position_alphabet d : 0 ≤ d < 58 → position (alphabet_char d) = Some d.
Proof.
  intros Hd. assert (forallb (λ n, bool_decide (position (alphabet_char (Z.of_nat n)) = Some (Z.of_nat n)))
    (seq 0 58) = true) as Hall by (vm_compute; reflexivity).
  rewrite forallb_forall in Hall. specialize (Hall (Z.to_nat d)). rewrite in_seq, Z2Nat.id in Hall by lia.
  specialize (Hall ltac:(lia)). by apply bool_decide_eq_true in Hall.
Qed.

Lemma decode_chars_spec ds : ∀ out,
  digits 58 ds → digits 256 out → (out = [] ∨ canonical 256 out) →
  ∃ out', decode_chars out (String.string_of_list_ascii (alphabet_char <$> ds)) = Ok out' ∧
    digits 256 out' ∧ le_val 256 out' = horner 58 (le_val 256 out) ds ∧
    (out' = [] ∨ canonical 256 out').
Proof.
  induction ds as [|d ds IH]; intros out Hds Hout Hc; [by exists out|].
  apply Forall_cons in Hds as [Hd Hds].
  change (String.string_of_list_ascii (alphabet_char <$> d :: ds))
    with (String (alphabet_char d) (String.string_of_list_ascii (alphabet_char <$> ds))).
  cbn [decode_chars]. rewrite position_alphabet, decode_pass_mul_add by done.
  destruct (mul_add 58 256 d out) as [l' carry] eqn:E. rewrite decode_push_push.
  destruct (radix_step 58 256 ltac:(lia) ltac:(lia) 4 d out l' carry) as (H1 & H2 & H3); try done.
  pose proof (le_val_bounds 256 out ltac:(lia) Hout).
  destruct (IH _ Hds H1) as (out' & E' & I1 & I2 & I3).
  { right. apply H3. destruct Hc as [->|Hc]; [by left|right]. unfold canonical in Hc. lia. }
  exists out'. split_and!; try done. rewrite I2, H2. done.
Qed.

(** The most significant digit of a canonical non-zero number is not zero. *)
Lemma canonical_last base l d :
  1 < base → digits base (l ++ [d]) → canonical base (l ++ [d]) → d ≠ 0.
Proof.
  intros Hb [Hl _]%Forall_app Hc ->. unfold canonical in Hc. rewrite le_val_app, zlen_app in Hc. simpl in Hc.
  pose proof (le_val_bounds base l ltac:(lia) Hl). change (zlen [0]) with 1 in Hc.
  replace (zlen l + 1 - 1) with (zlen l) in Hc by lia. lia.
Qed.

Lemma alphabet_char_one d : 0 ≤ d < 58 → alphabet_char d = "1"%char → d = 0.
Proof. intros Hd E. pose proof (position_alphabet d Hd) as Hp. rewrite E in Hp. vm_compute in Hp. congruence. Qed.

(** The digits of a byte string that does not begin with zero. *)
Lemma encode_digits_spec b bytes :
  Forall u8_valid (b :: bytes) → b ≠ 0 →
  ∃ ds d, encode_bytes [0] (b :: bytes) = ds ++ [d] ∧ digits 58 (ds ++ [d]) ∧ d ≠ 0 ∧
    le_val 58 (ds ++ [d]) = le_val 256 (reverse (b :: bytes)).
Proof.
  intros [Hb Hbs]%Forall_cons Hb0. unfold u8_valid, u8_max in Hb. cbn [encode_bytes].
  rewrite encode_pass_mul_add. destruct (mul_add 256 58 b [0]) as [l' carry] eqn:E. rewrite encode_push_push.
  assert (digits 58 [0]) as H0 by (constructor; [lia|constructor]).
  destruct (radix_step 256 58 ltac:(lia) ltac:(lia) 6 b [0] l' carry) as (H1 & H2 & H3); try done; [lia|].
  assert (l' ++ push 58 6 carry ≠ []) as Hne.
  { destruct (mul_add_spec 256 58 ltac:(lia) ltac:(lia) b [0] l' carry H0 ltac:(lia) E) as (_ & _ & El & _).
    by destruct l'. }
  assert (canonical 58 (l' ++ push 58 6 carry)) as Hc.
  { apply H3. right. change (zlen [0] - 1) with 0. simpl. lia. }
  destruct (encode_bytes_spec bytes _ Hbs H1 Hne Hc) as (I1 & I2 & I3). rewrite H2 in I2.
  assert (∀ l v, Forall u8_valid l → 0 < v → 0 < horner 256 v l) as Hpos.
  { clear. intros l v Hl. revert v. induction Hl as [|y l Hy Hl IH]; intros v Hv; simpl; [done|].
    apply IH. unfold u8_valid in Hy. lia. }
  specialize (Hpos bytes (256 * le_val 58 [0] + b) Hbs ltac:(simpl; lia)).
  destruct (encode_bytes _ bytes) as [|d ds _] using rev_ind; [rewrite <-I2 in Hpos; simpl in Hpos; lia|].
  exists ds, d. split_and!; try done; [by eapply canonical_last in I3|].
  rewrite I2, <-(horner_reverse 256 (reverse _)), reverse_involutive. done.
Qed.

(** Decoding undoes encoding on every byte string that does not begin with zero. *)
Lemma bs58_roundtrip b bytes :
  Forall u8_valid (b :: bytes) → b ≠ 0 → bs58_decode (bs58_encode (b :: bytes)) = Ok (b :: bytes).
Proof.
  intros Hbs Hb0. destruct (encode_digits_spec b bytes Hbs Hb0) as (ds' & d & Eds & D1 & Hd & D2).
  unfold bs58_encode. rewrite Eds. cbn [leading_zeros]. rewrite (proj2 (Z.eqb_neq _ _) Hb0). cbn [replicate app].
  destruct (decode_chars_spec (reverse (ds' ++ [d])) []) as (out & E & O1 & O2 & O3);
    [by apply Forall_reverse|constructor|by left|].
  rewrite horner_reverse, D2 in O2. unfold bs58_decode. rewrite reverse_snoc in *.
  change (String.string_of_list_ascii (alphabet_char <$> d :: reverse ds'))
    with (String (alphabet_char d) (String.string_of_list_ascii (alphabet_char <$> reverse ds'))) in *.
  assert (starts_with (String (alphabet_char d) (String.string_of_list_ascii (alphabet_char <$> reverse ds'))) "1"
    = false) as ->.
  { apply not_true_iff_false. rewrite starts_with_spec. intros [r [= Hr _]]. apply Hd.
    apply alphabet_char_one; [|done]. apply Forall_app in D1 as [_ D1]. by apply Forall_cons in D1 as [? _]. }
  unfold str_is_empty. simpl String.eqb. rewrite E. simpl. f_equal. apply (inj reverse).
  rewrite reverse_involutive. apply Forall_cons in Hbs as [Hb Hbs]. unfold u8_valid, u8_max in Hb.
  assert (digits 256 (reverse (b :: bytes))) as Hrb.
  { apply Forall_reverse. constructor; [lia|]. eapply Forall_impl; [exact Hbs|].
    unfold u8_valid, u8_max. lia. }
  assert (canonical 256 (reverse (b :: bytes))) as Hcb.
  { unfold canonical. rewrite reverse_cons, le_val_app, zlen_app. change (zlen [b]) with 1. simpl.
    rewrite reverse_cons in Hrb. apply Forall_app in Hrb as [Hrb _].
    pose proof (le_val_bounds 256 _ ltac:(lia) Hrb). replace (zlen (reverse bytes) + 1 - 1) with (zlen (reverse bytes)) by lia.
    nia. }
  apply (canonical_inj 256); try done. by destruct O3 as [->|?].
Qed.
