(* ===== verification/ServiceAuth.v ===== *)
(** * ServiceAuth: service-auth JWTs and the DID key cache (src/src/service_auth.rs)

    [ServiceAuthVerifier] checks a JWT against the [#atproto] key of its issuer's DID document; the
    keys are kept in a sharded cache with a time to live.  The verifier's state is the network world
    of the identity resolver and that shared cache; what other tasks do to the cache while a
    resolution awaits the network is an argument.  JSON decoding of the two structs is serde's. *)
From S2P Require Import Prelude Errors Strs Externals IpFilter Net Ssrf Fetch Identity Multikey.
Open Scope Z_scope.

Definition DID_KEY_CACHE_TTL_SECS : Z := 900.
Definition DID_KEY_CACHE_SHARDS : Z := 64.
Definition MAX_DID_KEY_CACHE_PER_SHARD : Z := 512.
Definition SERVICE_JWT_CLOCK_SKEW_LEEWAY_SECS : Z := 60.
Definition ES256K_SERVICE_AUTH_ALG : string := "ES256K".
Definition ES256_SERVICE_AUTH_ALG : string := "ES256".

Record ServiceJwtHeader := mkServiceJwtHeader { hdr_alg : string; hdr_typ : option string }.
Record ServiceJwtClaims := mkServiceJwtClaims {
  sj_iss : option string; sj_sub : option string; sj_aud : option string; sj_lxm : option string;
  sj_exp : option Z; sj_iat : option Z; sj_jti : option string
}.

Class ServiceAuthSerde := {
  service_header_from_slice : list Z → result string ServiceJwtHeader;
  service_claims_from_slice : list Z → result string ServiceJwtClaims
}.

(** ** Issuer DIDs *)
Definition service_plc_char (c : ascii) : bool :=
  is_ascii_lowercase c || is_ascii_digit c || Ascii.eqb c "_" || Ascii.eqb c "-".
Definition service_host_label (l : string) : bool :=
  negb (str_is_empty l) && (str_len l <=? 63) && negb (starts_with l "-") && negb (ends_with l "-")
  && str_forall (λ c, is_ascii_alphanumeric c || Ascii.eqb c "-") l.

Definition is_valid_service_did (did : string) : bool :=
  match strip_prefix "did:plc:" did with
  | Some id => negb (str_is_empty id) && (str_len id <=? 64) && str_forall service_plc_char id
  | None =>
      match strip_prefix "did:web:" did with
      | Some rest =>
          let host := default "" (head (split_char ":" rest)) in
          negb (str_is_empty host) && (str_len host <=? 253)
          && forallb service_host_label (split_char "." host)
      | None => false
      end
  end.

(** [claims.iss.or(claims.sub)]. *)
Definition issuer_or_subject (c : ServiceJwtClaims) : option string :=
  match sj_iss c with Some i => Some i | None => sj_sub c end.
Definition viewer_did (c : ServiceJwtClaims) : option string :=
  did ← issuer_or_subject c; if is_valid_service_did did then Some did else None.

(** ** Reading the header *)
Fixpoint split_once_ws (s : string) : option (string * string) :=
  match s with
  | EmptyString => None
  | String a s1 =>
      let skip := '(l, r) ← split_once_ws s1; Some (String a l, r) in
      if ws1 a then Some ("", s1)
      else match s1 with
           | String b s2 =>
               if ws2 a b then Some ("", s2)
               else match s2 with
                    | String c s3 => if ws3 a b c then Some ("", s3) else skip
                    | EmptyString => skip
                    end
           | EmptyString => skip
           end
  end.

Definition token_err {A} (e : TokenError) : result AtprotoOAuthError A := Err (AtprotoOAuthError_Token e).
Definition malformed {A} (m : string) : result AtprotoOAuthError A := token_err (TokenError_MalformedToken m).

Definition extract_bearer_token (auth_header_or_token : string) : result AtprotoOAuthError string :=
  let trimmed := trim auth_header_or_token in
  if str_is_empty trimmed then token_err TokenError_MissingHeader
  else if eq_ignore_ascii_case trimmed "Bearer" then malformed "Empty Bearer token"
  else
    match split_once_ws trimmed with
    | Some (scheme, rest) =>
        if negb (eq_ignore_ascii_case scheme "Bearer")
        then token_err (TokenError_InvalidScheme "Bearer" scheme)
        else
          let token := trim rest in
          if str_is_empty token then malformed "Empty Bearer token" else Ok token
    | None => Ok trimmed
    end.

Section service_auth.
Context `{Base64} `{K256} `{P256} `{ServiceAuthSerde}.

(** [URL_SAFE_NO_PAD.decode(s).or_else(|_| URL_SAFE.decode(s))]. *)
Definition decode_lenient (s : string) : result string (list Z) :=
  match b64_no_pad_decode s with Ok b => Ok b | Err _ => b64_padded_decode s end.

Definition parse_service_jwt_claims_unverified (token : string)
    : result AtprotoOAuthError ServiceJwtClaims :=
  match split_char "." (trim token) with
  | [] => malformed "Missing JWT header"
  | [_] => malformed "Missing JWT payload"
  | [_; _] => malformed "Missing JWT signature"
  | _ :: payload_b64 :: sig_b64 :: more =>
      if negb (bool_decide (more = [])) || str_is_empty sig_b64
      then malformed "Invalid JWT format: must have 3 non-empty segments"
      else
        decoded ← map_err (λ e, AtprotoOAuthError_Token (TokenError_MalformedToken
                     ("Base64 decode error: " +:+ e))) (decode_lenient payload_b64);
        map_err (λ e, AtprotoOAuthError_Token (TokenError_MalformedToken
                     ("JSON payload parse error: " +:+ e))) (service_claims_from_slice decoded)
  end.

(** ** Keys *)
Inductive AtprotoVerifyingKey :=
| KSecp256k1 (k : Secp256k1VerifyingKey)
| KP256 (k : VerifyingKey).

Definition curve_id (k : AtprotoVerifyingKey) : Z :=
  match k with KSecp256k1 _ => CURVE_SECP256K1 | KP256 _ => CURVE_P256 end.

Definition debug_bytes (l : list Z) : string := "[" +:+ join_str ", " (pretty <$> l) +:+ "]".
Fixpoint list_starts_with (p l : list Z) : bool :=
  match p, l with
  | [], _ => true
  | a :: p', b :: l' => (a =? b) && list_starts_with p' l'
  | _ :: _, [] => false
  end.

Definition malformed_doc {A} (m : string) : result AtprotoOAuthError A :=
  Err (AtprotoOAuthError_Identity (IdentityError_MalformedDidDocument m)).

(** The errors kept apart when the prefix and the length fit but the key does not classify. *)
Definition unclassified_key (method_id : string) (key_bytes : list Z)
    : result AtprotoOAuthError AtprotoVerifyingKey :=
  if (list_starts_with MULTIKEY_SECP256K1_VARINT key_bytes
      && (zlen key_bytes =? 2 + COMPRESSED_EC_PUBLIC_KEY_LEN))
     || (match head key_bytes with Some b => b =? MULTIKEY_SECP256K1_LEGACY_PREFIX | None => false end
         && (zlen key_bytes =? 1 + COMPRESSED_EC_PUBLIC_KEY_LEN)) then
    invalid_key ("Invalid secp256k1 public key in '" +:+ method_id
                 +:+ "': invalid compressed SEC1 tag byte")
  else if list_starts_with MULTIKEY_P256_VARINT key_bytes
          && (zlen key_bytes =? 2 + COMPRESSED_EC_PUBLIC_KEY_LEN) then
    invalid_key ("Invalid P-256 public key in '" +:+ method_id
                 +:+ "': invalid compressed SEC1 tag byte")
  else
    invalid_key ("Verification method '" +:+ method_id
                 +:+ "' is not a secp256k1 or P-256 Multikey (len " +:+ pretty (zlen key_bytes)
                 +:+ ", prefix " +:+ debug_bytes (take 2 key_bytes) +:+ ")").

Definition extract_atproto_key_from_document (doc : DidDocument)
    : result AtprotoOAuthError AtprotoVerifyingKey :=
  match extract_signing_key doc with
  | None => malformed_doc ("DID document '" +:+ doc_id doc +:+ "' has no #atproto verification method")
  | Some method =>
      match public_key_multibase method with
      | None => malformed_doc ("Verification method '" +:+ vm_id method +:+ "' carries no publicKeyMultibase")
      | Some raw =>
          key_bytes ← decode_multikey raw;
          match classify_multikey_bytes key_bytes with
          | Some (curve, sec1_bytes) =>
              if curve =? CURVE_SECP256K1 then
                key ← map_err (λ e, AtprotoOAuthError_Crypto (CryptoError_InvalidKey
                        ("Invalid secp256k1 public key in '" +:+ vm_id method +:+ "': " +:+ e)))
                        (k256_from_sec1_bytes sec1_bytes);
                Ok (KSecp256k1 key)
              else if curve =? CURVE_P256 then
                key ← map_err (λ e, AtprotoOAuthError_Crypto (CryptoError_InvalidKey
                        ("Invalid P-256 public key in '" +:+ vm_id method +:+ "': " +:+ e)))
                        (vk_from_sec1_bytes sec1_bytes);
                Ok (KP256 key)
              else unclassified_key (vm_id method) key_bytes
          | None => unclassified_key (vm_id method) key_bytes
          end
      end
  end.

Definition extract_signing_key_from_document (doc : DidDocument)
    : result AtprotoOAuthError Secp256k1VerifyingKey :=
  k ← extract_atproto_key_from_document doc;
  match k with
  | KSecp256k1 key => Ok key
  | KP256 _ => invalid_key ("Verification method in '" +:+ doc_id doc
                            +:+ "' is a P-256 Multikey, not a secp256k1 Multikey")
  end.

(** ** The key cache *)
Record CachedSigningKey := mkCachedSigningKey {
  verifying_key : option Secp256k1VerifyingKey;
  atproto_key : AtprotoVerifyingKey;
  resolved_at_secs : Z
}.
Record DidKeyCache := mkDidKeyCache { kc_shards : list (gmap string CachedSigningKey); ttl_secs : Z }.

Definition key_cache_new (ttl : Z) : DidKeyCache :=
  mkDidKeyCache (replicate (Z.to_nat DID_KEY_CACHE_SHARDS) ∅) ttl.

(** [AHasher::default()] on the DID, as a [usize]. *)
Context (ahash : string → Z).
(** [guard.iter().min_by_key(|v| v.resolved_at_secs)]: an entry of least age stamp. *)
Context (oldest : gmap string CachedSigningKey → option string).

Definition shard_idx (did : string) : nat := Z.to_nat (Z.land (ahash did) (DID_KEY_CACHE_SHARDS - 1)).
Definition kc_shard (c : DidKeyCache) (did : string) : gmap string CachedSigningKey :=
  shard_get (kc_shards c) (shard_idx did).
Definition kc_set (c : DidKeyCache) (did : string) (m : gmap string CachedSigningKey) : DidKeyCache :=
  mkDidKeyCache (<[shard_idx did := m]> (kc_shards c)) (ttl_secs c).

Definition key_fresh (ttl now_secs : Z) (e : CachedSigningKey) : bool :=
  u64_saturating_sub now_secs (resolved_at_secs e) <? ttl.

Definition key_cache_get (c : DidKeyCache) (did : string) (now_secs : Z) : option Secp256k1VerifyingKey :=
  entry ← kc_shard c did !! did;
  if u64_saturating_sub now_secs (resolved_at_secs entry) >=? ttl_secs c then None
  else verifying_key entry.

Definition get_atproto_key (c : DidKeyCache) (did : string) (now_secs : Z) : option AtprotoVerifyingKey :=
  entry ← kc_shard c did !! did;
  if u64_saturating_sub now_secs (resolved_at_secs entry) >=? ttl_secs c then None
  else Some (atproto_key entry).

Definition insert_atproto_key (c : DidKeyCache) (did : string) (key : AtprotoVerifyingKey)
    (now_secs : Z) : DidKeyCache :=
  let guard := kc_shard c did in
  let guard :=
    if (Z.of_nat (size guard) >=? MAX_DID_KEY_CACHE_PER_SHARD) && negb (bool_decide (is_Some (guard !! did)))
    then
      let guard := retain (key_fresh (ttl_secs c) now_secs) guard in
      if Z.of_nat (size guard) >=? MAX_DID_KEY_CACHE_PER_SHARD
      then match oldest guard with Some oldest_did => delete oldest_did guard | None => guard end
      else guard
    else guard in
  let vk := match key with KSecp256k1 k => Some k | KP256 _ => None end in
  kc_set c did (<[did := mkCachedSigningKey vk key now_secs]> guard).

Definition key_cache_insert (c : DidKeyCache) (did : string) (key : Secp256k1VerifyingKey) (now_secs : Z)
    : DidKeyCache := insert_atproto_key c did (KSecp256k1 key) now_secs.

Definition invalidate (c : DidKeyCache) (did : string) : DidKeyCache := kc_set c did (delete did (kc_shard c did)).
Definition key_cache_len (c : DidKeyCache) : Z := shards_total (kc_shards c).
Definition key_cache_clear (c : DidKeyCache) : DidKeyCache :=
  mkDidKeyCache ((λ _, ∅) <$> kc_shards c) (ttl_secs c).
Definition key_cache_default : DidKeyCache := key_cache_new DID_KEY_CACHE_TTL_SECS.
Definition key_cache_is_empty (c : DidKeyCache) : bool := key_cache_len c =? 0.

(** ** The verifier *)
Context (fk : gmap string IpAddr → option string) `{UrlCrate} (status_display : Z → string)
  (answers : nat → nat → Round) `{IdentitySerde} (resolver : IdentityResolver).
(** [ServiceAuthVerifier] and its constructors. *)
Record ServiceAuthVerifier := mkServiceAuthVerifier { sav_resolver : IdentityResolver; sav_key_cache : DidKeyCache }.
Definition with_resolver_and_cache (r : IdentityResolver) (c : DidKeyCache) : ServiceAuthVerifier :=
  mkServiceAuthVerifier r c.
Definition with_resolver (r : IdentityResolver) : ServiceAuthVerifier := mkServiceAuthVerifier r key_cache_default.
Definition service_verifier_new : ServiceAuthVerifier := with_resolver (identity_resolver_new (mkFilter false)).
Definition with_plc_url (plc_url : string) (allow_insecure_localhost : bool) : ServiceAuthVerifier :=
  with_resolver (builder_plc_directory_url
    (builder_allow_insecure_localhost builder_default allow_insecure_localhost) plc_url).

(** What other tasks do to the shared cache while the [k]-th network call is awaited. *)
Context (others : nat → DidKeyCache → DidKeyCache).

Record VerifierState := mkVerifierState { vs_world : World; key_cache : DidKeyCache }.

(** [cache_len] and [clear_cache]: the shared cache is reached through the verifier. *)
Definition cache_len (s : VerifierState) : Z := key_cache_len (key_cache s).
Definition clear_cache (s : VerifierState) : VerifierState :=
  mkVerifierState (vs_world s) (key_cache_clear (key_cache s)).

Definition invalid_issuer (did : string) : AtprotoOAuthError :=
  AtprotoOAuthError_Identity (IdentityError_InvalidDidSyntax ("Invalid issuer DID: '" +:+ did +:+ "'")).

Definition resolve_atproto_key (did : string) (now_secs : Z)
    : st VerifierState AtprotoOAuthError AtprotoVerifyingKey := λ s,
  if negb (is_valid_service_did did) then (s, Err (invalid_issuer did))
  else
    match get_atproto_key (key_cache s) did now_secs with
    | Some key => (s, Ok key)
    | None =>
        let '(w, r) := resolve_did fk status_display answers resolver did (vs_world s) in
        let s := mkVerifierState w (others (w_calls (vs_world s)) (key_cache s)) in
        match (doc ← map_err AtprotoOAuthError_Identity r; extract_atproto_key_from_document doc) with
        | Err e => (s, Err e)
        | Ok key => (mkVerifierState (vs_world s) (insert_atproto_key (key_cache s) did key now_secs), Ok key)
        end
    end.

Definition resolve_signing_key (did : string) (now_secs : Z)
    : st VerifierState AtprotoOAuthError Secp256k1VerifyingKey :=
  key ← resolve_atproto_key did now_secs;
  lift (match key with
        | KSecp256k1 key => Ok key
        | KP256 _ => invalid_key ("DID '" +:+ did +:+ "' uses a P-256 signing key, not secp256k1")
        end).

(** The check of the signature bytes: malformed, or valid, or not. *)
Definition check_signature (key : AtprotoVerifyingKey) (input signature_bytes : list Z)
    : result AtprotoOAuthError bool :=
  match key with
  | KSecp256k1 vk =>
      match k256_sig_from_slice signature_bytes with
      | Ok signature => Ok (is_ok (k256_verify vk input signature))
      | Err _ => malformed "Malformed secp256k1 ECDSA signature"
      end
  | KP256 vk =>
      match sig_from_slice signature_bytes with
      | Ok signature => Ok (is_ok (vk_verify vk input signature))
      | Err _ => malformed "Malformed P-256 ECDSA signature"
      end
  end.

Definition alg_mismatch (key : AtprotoVerifyingKey) (alg : string) : AtprotoOAuthError :=
  AtprotoOAuthError_Token (TokenError_MalformedToken
    (match key with
     | KSecp256k1 _ => "Unsupported JWT algorithm '" +:+ alg +:+ "' for secp256k1 DID key: requires "
                       +:+ ES256K_SERVICE_AUTH_ALG
     | KP256 _ => "Unsupported JWT algorithm '" +:+ alg +:+ "' for P-256 DID key: requires "
                  +:+ ES256_SERVICE_AUTH_ALG
     end)).

(** The three segments of a compact JWT. *)
Definition jwt_segments (token : string) : result AtprotoOAuthError (string * string * string) :=
  match split_char "." token with
  | [] => malformed "Missing JWT header segment"
  | [_] => malformed "Missing JWT payload segment"
  | [_; _] => malformed "Missing JWT signature segment"
  | [header_b64; payload_b64; signature_b64] => Ok (header_b64, payload_b64, signature_b64)
  | _ => malformed "Too many segments in JWT"
  end.

(** Everything before the key is needed: segments, header, algorithm, claims, issuer. *)
Record ParsedJwt := mkParsedJwt {
  pj_header_b64 : string; pj_payload_b64 : string; pj_signature_b64 : string;
  pj_alg : string; pj_claims : ServiceJwtClaims; pj_issuer : string
}.
Definition parse_jwt (auth_header_or_token : string) : result AtprotoOAuthError ParsedJwt :=
  token ← extract_bearer_token auth_header_or_token;
  '(header_b64, payload_b64, signature_b64) ← jwt_segments token;
  header_bytes ← map_err (λ e, AtprotoOAuthError_Token (TokenError_MalformedToken
                   ("JWT header base64 error: " +:+ e))) (decode_lenient header_b64);
  header ← map_err (λ e, AtprotoOAuthError_Token (TokenError_MalformedToken
                   ("JWT header JSON error: " +:+ e))) (service_header_from_slice header_bytes);
  let alg := hdr_alg header in
  _ ← fail_if (alg_id_from_str alg =? ALG_NONE) (AtprotoOAuthError_Token (TokenError_MalformedToken
        ("Unsupported JWT algorithm '" +:+ alg +:+ "': ATProto Service Auth requires "
         +:+ ES256K_SERVICE_AUTH_ALG +:+ " or " +:+ ES256_SERVICE_AUTH_ALG)));
  claims ← parse_service_jwt_claims_unverified token;
  issuer ← ok_or (issuer_or_subject claims) (AtprotoOAuthError_Token TokenError_MissingIssuer);
  Ok (mkParsedJwt header_b64 payload_b64 signature_b64 alg claims issuer).

(** The checks on signed claims. *)
Definition check_service_claims (claims : ServiceJwtClaims) (expected_audiences : list string)
    (now_secs leeway_secs : Z) : result AtprotoOAuthError ServiceJwtClaims :=
  _ ← (match sj_exp claims with
       | Some exp => fail_if (negb (is_service_jwt_exp_valid exp now_secs leeway_secs))
                       (AtprotoOAuthError_Token (TokenError_Expired exp now_secs))
       | None => Ok tt
       end);
  _ ← (if negb (bool_decide (expected_audiences = [])) then
         match sj_aud claims with
         | Some aud => fail_if (negb (existsb (λ expected, (expected =? aud)%string) expected_audiences))
                         (AtprotoOAuthError_Token (TokenError_AudienceMismatch
                            (join_str " | " expected_audiences) aud))
         | None => Ok tt
         end
       else Ok tt);
  _ ← fail_if (bool_decide (sj_iss claims = None) || bool_decide (viewer_did claims = None))
        (AtprotoOAuthError_Token TokenError_MissingDid);
  Ok claims.

Definition verify_service_jwt_claims (auth_header_or_token : string) (expected_audiences : list string)
    (now_secs leeway_secs : Z) : st VerifierState AtprotoOAuthError ServiceJwtClaims := λ s,
  match parse_jwt auth_header_or_token with
  | Err e => (s, Err e)
  | Ok jwt =>
      let '(s, resolved) := resolve_atproto_key (pj_issuer jwt) now_secs s in
      match resolved with
      | Err e => (s, Err e)
      | Ok signing_key =>
          if negb (is_alg_bound_to_curve (curve_id signing_key) (alg_id_from_str (pj_alg jwt)))
          then (s, Err (alg_mismatch signing_key (pj_alg jwt)))
          else
            let signing_input := pj_header_b64 jwt +:+ "." +:+ pj_payload_b64 jwt in
            match (signature_bytes ← map_err (λ e, AtprotoOAuthError_Token (TokenError_MalformedToken
                     ("JWT signature base64 error: " +:+ e))) (decode_lenient (pj_signature_b64 jwt));
                   check_signature signing_key (as_bytes signing_input) signature_bytes) with
            | Err e => (s, Err e)
            | Ok false =>
                (mkVerifierState (vs_world s) (invalidate (key_cache s) (pj_issuer jwt)),
                 token_err TokenError_InvalidSignature)
            | Ok true => (s, check_service_claims (pj_claims jwt) expected_audiences now_secs leeway_secs)
            end
      end
  end.

Definition verify_service_jwt (auth_header : string) (expected_audience : option string) (now_secs : Z)
    : st VerifierState AtprotoOAuthError string :=
  claims ← verify_service_jwt_claims auth_header (option_list expected_audience) now_secs
             SERVICE_JWT_CLOCK_SKEW_LEEWAY_SECS;
  lift (ok_or (sj_iss claims) (AtprotoOAuthError_Token TokenError_MissingDid)).
End service_auth.

(** ** The cache, abstractly: what it holds for a DID *)
Section cache_facts.
Context `{K256} `{P256} (ahash : string → Z) (oldest : gmap string CachedSigningKey → option string).

Class OldestLaws : Prop := {
  oldest_min m k : oldest m = Some k →
    ∃ e, m !! k = Some e ∧ ∀ k' e', m !! k' = Some e' → resolved_at_secs e ≤ resolved_at_secs e';
  oldest_some m : m ≠ ∅ → is_Some (oldest m)
}.

Definition cached (c : DidKeyCache) (did : string) : option CachedSigningKey := kc_shard ahash c did !! did.

Record kc_wf (c : DidKeyCache) : Prop := {
  kc_len : length (kc_shards c) = Z.to_nat DID_KEY_CACHE_SHARDS;
  kc_cap i : Z.of_nat (size (shard_get (kc_shards c) i)) ≤ MAX_DID_KEY_CACHE_PER_SHARD
}.

Lemma shard_idx_lt c did : kc_wf c → (shard_idx ahash did < length (kc_shards c))%nat.
Proof.
  intros [-> _]. unfold shard_idx, DID_KEY_CACHE_SHARDS. change (64 - 1) with (Z.ones 6).
  rewrite Z.land_ones by lia. pose proof (Z.mod_pos_bound (ahash did) (2 ^ 6)). lia.
Qed.

Lemma key_cache_new_wf ttl : kc_wf (key_cache_new ttl).
Proof.
  split; [apply length_replicate|]. intros i. unfold key_cache_new, kc_shards.
  by rewrite shard_get_replicate, map_size_empty.
Qed.

Lemma cached_new ttl did : cached (key_cache_new ttl) did = None.
Proof. unfold cached, kc_shard, key_cache_new, kc_shards. by rewrite shard_get_replicate, lookup_empty. Qed.

(** Clearing empties every shard and keeps the configuration. *)
Lemma key_cache_clear_empty c : kc_wf c →
  kc_wf (key_cache_clear c) ∧ ttl_secs (key_cache_clear c) = ttl_secs c ∧
  key_cache_is_empty (key_cache_clear c) = true ∧ (∀ did, cached (key_cache_clear c) did = None).
Proof.
  intros [Hl _].
  assert (kc_shards (key_cache_clear c) = kc_shards (key_cache_new 0)) as E.
  { unfold key_cache_clear, key_cache_new, kc_shards at 1 3. rewrite <-Hl. generalize (kc_shards c). intros l. induction l as [|x l IH]; [done|].
    cbn. by f_equal. }
  split_and!; [|done| |].
  - destruct (key_cache_new_wf 0) as [? Hcap]. split; rewrite E; [done|apply Hcap].
  - unfold key_cache_is_empty, key_cache_len. rewrite E. by vm_compute.
  - intros did. unfold cached, kc_shard. rewrite E. apply (cached_new 0).
Qed.

Lemma kc_set_shard c did m did' : kc_wf c →
  kc_shard ahash (kc_set ahash c did m) did'
  = if decide (shard_idx ahash did = shard_idx ahash did') then m else kc_shard ahash c did'.
Proof. intros Hc. unfold kc_shard, kc_set; simpl. apply shard_get_insert. by apply shard_idx_lt. Qed.

Lemma kc_set_wf c did m :
  kc_wf c → Z.of_nat (size m) ≤ MAX_DID_KEY_CACHE_PER_SHARD → kc_wf (kc_set ahash c did m).
Proof.
  intros Hc Hm. split; [simpl; rewrite length_insert; apply Hc|]. intros i. simpl.
  rewrite shard_get_insert by (by apply shard_idx_lt). case_decide; [done|]. apply Hc.
Qed.

(** The shard an insertion writes into, after the evictions. *)
Lemma insert_atproto_key_spec `{!OldestLaws} c did key now : kc_wf c →
  ∃ guard, insert_atproto_key ahash oldest c did key now =
    kc_set ahash c did (<[did := mkCachedSigningKey
       (match key with KSecp256k1 k => Some k | KP256 _ => None end) key now]> guard) ∧
  guard ⊆ kc_shard ahash c did ∧
  Z.of_nat (size (<[did := mkCachedSigningKey
       (match key with KSecp256k1 k => Some k | KP256 _ => None end) key now]> guard))
    ≤ MAX_DID_KEY_CACHE_PER_SHARD.
Proof.
  intros Hc. unfold insert_atproto_key. eexists. split; [reflexivity|].
  set (vk := mkCachedSigningKey _ _ _). set (shard := kc_shard ahash c did).
  assert (Z.of_nat (size shard) ≤ MAX_DID_KEY_CACHE_PER_SHARD) as Hcap by apply Hc.
  destruct (bool_decide (is_Some (shard !! did))) eqn:Ein; b2p.
  { rewrite andb_false_r. split; [done|]. rewrite map_size_insert_Some by done. done. }
  assert (shard !! did = None) as Hnone by (by apply eq_None_not_Some). rewrite andb_true_r.
  destruct (MAX_DID_KEY_CACHE_PER_SHARD <=? Z.of_nat (size shard)) eqn:Efull; b2p.
  2: { split; [done|]. rewrite map_size_insert_None by done. lia. }
  set (fresh := retain _ shard). assert (fresh ⊆ shard) as Hsub by apply retain_subseteq.
  pose proof (size_subseteq _ _ Hsub). destruct (MAX_DID_KEY_CACHE_PER_SHARD <=? Z.of_nat (size fresh)) eqn:Efull'; b2p.
  - destruct (oldest_some fresh) as [v Hv].
    { intros E. rewrite E, map_size_empty in Efull'. unfold MAX_DID_KEY_CACHE_PER_SHARD in *. lia. }
    rewrite Hv. destruct (oldest_min _ _ Hv) as (e & He & _). split.
    { etrans; [apply delete_subseteq|done]. }
    rewrite map_size_insert_None, map_size_delete_Some.
    + unfold MAX_DID_KEY_CACHE_PER_SHARD in *. lia.
    + by eexists.
    + apply lookup_delete_None. right. by eapply lookup_weaken_None.
  - split; [done|]. rewrite map_size_insert_None by (by eapply lookup_weaken_None). lia.
Qed.

(** An insertion binds its DID and can only forget, never change, the others. *)
Lemma cached_insert `{!OldestLaws} c did key now did' e : kc_wf c →
  cached (insert_atproto_key ahash oldest c did key now) did' = Some e →
  did' = did ∧ atproto_key e = key ∧ resolved_at_secs e = now ∨ cached c did' = Some e.
Proof.
  intros Hc. destruct (insert_atproto_key_spec c did key now Hc) as (guard & -> & Hsub & _).
  unfold cached at 1. rewrite kc_set_shard by done. case_decide as Hi; [|by right].
  rewrite lookup_insert_Some. intros [[<- <-]|[Hne He]]; [by left|right]. unfold cached.
  assert (kc_shard ahash c did' = kc_shard ahash c did) as -> by (unfold kc_shard; by rewrite Hi).
  by eapply lookup_weaken.
Qed.

Lemma cached_insert_eq `{!OldestLaws} c did key now : kc_wf c →
  ∃ e, cached (insert_atproto_key ahash oldest c did key now) did = Some e ∧
       atproto_key e = key ∧ resolved_at_secs e = now.
Proof.
  intros Hc. destruct (insert_atproto_key_spec c did key now Hc) as (guard & -> & _ & _).
  eexists. unfold cached. rewrite kc_set_shard, decide_True, lookup_insert_eq by done. done.
Qed.

Lemma insert_atproto_key_wf `{!OldestLaws} c did key now :
  kc_wf c → kc_wf (insert_atproto_key ahash oldest c did key now).
Proof.
  intros Hc. destruct (insert_atproto_key_spec c did key now Hc) as (guard & -> & _ & Hs). by apply kc_set_wf.
Qed.

Lemma cached_invalidate c did did' : kc_wf c →
  cached (invalidate ahash c did) did' = if decide (did = did') then None else cached c did'.
Proof.
  intros Hc. unfold cached, invalidate. rewrite kc_set_shard by done. case_decide as Hi.
  - case_decide as Hd; [subst; apply lookup_delete_eq|]. rewrite lookup_delete_ne by done.
    unfold kc_shard. by rewrite Hi.
  - rewrite decide_False by congruence. done.
Qed.

Lemma invalidate_wf c did : kc_wf c → kc_wf (invalidate ahash c did).
Proof.
  intros Hc. apply kc_set_wf; [done|]. pose proof (map_size_delete_le (kc_shard ahash c did) did).
  pose proof (kc_cap _ Hc (shard_idx ahash did)). unfold kc_shard in *. lia.
Qed.

Lemma get_atproto_key_Some c did now key :
  get_atproto_key ahash c did now = Some key ↔
  ∃ e, cached c did = Some e ∧ atproto_key e = key ∧
       u64_saturating_sub now (resolved_at_secs e) < ttl_secs c.
Proof.
  unfold get_atproto_key. fold (cached c did). destruct (cached c did) as [e|]; simpl; [|naive_solver].
  destruct (_ >=? _) eqn:E; b2p; split; intros; destruct_and?; naive_solver lia.
Qed.
End cache_facts.

(** ** Acceptance *)
Section acceptance.
Context `{Base64} `{K256} `{P256} `{ServiceAuthSerde} (ahash : string → Z)
  (oldest : gmap string CachedSigningKey → option string) `{!OldestLaws oldest}
  (fk : gmap string IpAddr → option string) `{UrlCrate} (status_display : Z → string)
  (answers : nat → nat → Round) `{IdentitySerde} (resolver : IdentityResolver)
  (others : nat → DidKeyCache → DidKeyCache).
Local Abbreviation verify_service_jwt_claims :=
  (verify_service_jwt_claims ahash oldest fk status_display answers resolver others).
Local Abbreviation resolve_atproto_key :=
  (resolve_atproto_key ahash oldest fk status_display answers resolver others).

(** [published did key t]: at time [t] the key was read from a document of that DID. *)
Context (published : string → AtprotoVerifyingKey → Z → Prop).

(** Every key in the cache was published for its DID at its time stamp. *)
Record cache_ok (c : DidKeyCache) : Prop := {
  cache_ok_wf : kc_wf c;
  cache_ok_published did e : cached ahash c did = Some e → published did (atproto_key e) (resolved_at_secs e)
}.

(** The other tasks play by the same rules; the clock of a call is [now]. *)
Definition others_ok : Prop := ∀ k c, cache_ok c → cache_ok (others k c) ∧ ttl_secs (others k c) = ttl_secs c.
Definition resolution_publishes (now : Z) : Prop := ∀ did w w' doc key,
  resolve_did fk status_display answers resolver did w = (w', Ok doc) → doc_id doc = did →
  extract_atproto_key_from_document doc = Ok key → published did key now.

Lemma resolve_atproto_key_ok did now s s' r :
  cache_ok (key_cache s) → others_ok → resolution_publishes now →
  resolve_atproto_key did now s = (s', r) →
  cache_ok (key_cache s') ∧ ttl_secs (key_cache s') = ttl_secs (key_cache s) ∧
  ∀ key, r = Ok key → is_valid_service_did did = true ∧
    ∃ t, published did key t ∧ (t = now ∨ u64_saturating_sub now t < ttl_secs (key_cache s)).
Proof.
  intros Hc Hoth Hpub. unfold ServiceAuth.resolve_atproto_key.
  destruct (is_valid_service_did did) eqn:Ev; simpl; [|by intros [= <- <-]].
  destruct (get_atproto_key ahash (key_cache s) did now) as [k|] eqn:Eg.
  { intros [= <- <-]. split_and!; try done. intros key [= <-]. split; [done|].
    apply get_atproto_key_Some in Eg as (e & He & <- & Hfr). exists (resolved_at_secs e).
    split; [by apply Hc|by right]. }
  destruct (resolve_did fk status_display answers resolver did (vs_world s)) as [w rd] eqn:Er. simpl.
  destruct (Hoth (w_calls (vs_world s)) _ Hc) as [Ho Hottl].
  destruct rd as [doc|e]; simpl; [|intros [= <- <-]; done].
  destruct (extract_atproto_key_from_document doc) as [key|e] eqn:Ek; [|intros [= <- <-]; done].
  intros [= <- <-]. simpl.
  assert (published did key now) as Hp.
  { eapply Hpub; [exact Er| |exact Ek]. by eapply resolve_did_Ok in Er as [? _]. }
  split_and!; [|done|].
  - split; [by apply insert_atproto_key_wf, Ho|]. intros did' e He.
    apply cached_insert in He; [|done|apply Ho]. destruct He as [(-> & -> & ->)|He]; [done|by apply Ho].
  - intros k [= <-]. split; [done|]. exists now. auto.
Qed.

(** The key verifies the signature, and the header's algorithm is the key's. *)
Definition signature_valid (key : AtprotoVerifyingKey) (alg : string) (input bytes : list Z) : Prop :=
  match key with
  | KSecp256k1 vk => alg = "ES256K" ∧ ∃ sg, k256_sig_from_slice bytes = Ok sg ∧ k256_verify vk input sg = Ok tt
  | KP256 vk => alg = "ES256" ∧ ∃ sg, sig_from_slice bytes = Ok sg ∧ vk_verify vk input sg = Ok tt
  end.

Lemma alg_bound_spec key alg :
  is_alg_bound_to_curve (curve_id key) (alg_id_from_str alg) = true ↔
  alg = match key with KSecp256k1 _ => "ES256K" | KP256 _ => "ES256" end.
Proof.
  unfold alg_id_from_str, is_alg_bound_to_curve.
  destruct (alg =? "ES256K")%string eqn:E1; [|destruct (alg =? "ES256")%string eqn:E2]; b2p; subst;
    destruct key; vm_compute; naive_solver.
Qed.

Lemma check_signature_valid key alg input bytes :
  is_alg_bound_to_curve (curve_id key) (alg_id_from_str alg) = true ∧ check_signature key input bytes = Ok true ↔
  signature_valid key alg input bytes.
Proof.
  rewrite alg_bound_spec. unfold signature_valid, check_signature. destruct key as [vk|vk];
    [destruct (k256_sig_from_slice bytes) as [sg|] eqn:Es|destruct (sig_from_slice bytes) as [sg|] eqn:Es];
    try (naive_solver); (split; [intros [-> [= Hv]]; apply is_ok_true in Hv as [[] Hv]; eauto|]);
    intros (-> & sg' & [= <-] & ->); done.
Qed.

Lemma exp_valid_spec exp now leeway :
  u64_valid now → is_service_jwt_exp_valid exp now leeway = true ↔ now ≤ exp + leeway.
Proof. unfold is_service_jwt_exp_valid, u64_valid. intros Hn. destruct (_ >? _) eqn:E; b2p; lia. Qed.

(** The issuer whose key is looked up is the token's, when it names one. *)
Lemma parse_jwt_issuer auth jwt i : parse_jwt auth = Ok jwt → sj_iss (pj_claims jwt) = Some i → pj_issuer jwt = i.
Proof.
  intros Ep Hi. unfold parse_jwt in Ep. repeat (apply bind_Ok in Ep as (? & ? & Ep) || (case_match; [])).
  repeat match goal with H : mbind _ _ = Ok _ |- _ => apply bind_Ok in H as (? & ? & H) end.
  injection Ep as <-. simpl in *.
  match goal with H : ok_or (issuer_or_subject _) _ = Ok _ |- _ =>
    apply ok_or_Ok in H; unfold issuer_or_subject in H; rewrite Hi in H; congruence end.
Qed.

(** The claims a verifier that expects one of [auds] accepts at [now].  A token without [exp] passes
    the first check at any time, one without [aud] the second for any list. *)
Definition claims_admitted (c : ServiceJwtClaims) (auds : list string) (now leeway : Z) : Prop :=
  (match sj_exp c with Some e => now ≤ e + leeway | None => True end) ∧
  (match sj_aud c with Some a => auds = [] ∨ a ∈ auds | None => True end) ∧
  is_Some (sj_iss c) ∧ is_Some (viewer_did c).

Lemma check_service_claims_Ok c auds now leeway c' :
  u64_valid now → check_service_claims c auds now leeway = Ok c' ↔ c' = c ∧ claims_admitted c auds now leeway.
Proof.
  intros Hn. unfold check_service_claims, claims_admitted. rewrite !bind_unit.
  assert ((if negb (bool_decide (auds = [])) then
      match sj_aud c with
      | Some aud => fail_if (negb (existsb (λ expected, (expected =? aud)%string) auds))
                      (AtprotoOAuthError_Token (TokenError_AudienceMismatch (join_str " | " auds) aud))
      | None => Ok tt
      end else Ok tt) = Ok tt ↔ match sj_aud c with Some a => auds = [] ∨ a ∈ auds | None => True end) as ->.
  { case_bool_decide as Ha; simpl; [destruct (sj_aud c); naive_solver|].
    destruct (sj_aud c) as [a|]; [|done]. rewrite fail_if_Ok, negb_false_iff, existsb_exists. split.
    - intros (a' & Hx%list_elem_of_In & Hxa). b2p. subst. by right.
    - intros [|Hin]; [done|]. exists a. by rewrite <-list_elem_of_In, String.eqb_refl. }
  assert (match sj_exp c with
          | Some exp => fail_if (negb (is_service_jwt_exp_valid exp now leeway)) (AtprotoOAuthError_Token (TokenError_Expired exp now))
          | None => Ok tt end = Ok tt ↔ match sj_exp c with Some e => now ≤ e + leeway | None => True end) as ->.
  { destruct (sj_exp c) as [e|]; [|done]. by rewrite fail_if_Ok, negb_false_iff, exp_valid_spec. }
  rewrite fail_if_Ok, orb_false_iff, !bool_decide_eq_false, <-!not_eq_None_Some. naive_solver.
Qed.

(** C16. Which service-auth JWTs are accepted.  A token is accepted only when: its three segments decode to the returned claims;
    its issuer is a valid service DID; the signature over [header.payload] verifies under a key that
    was published in that DID's document, either by a resolution made in this call or by one less
    than the cache's time to live ago; the header's algorithm is the one of the key's curve
    (ES256K for secp256k1, ES256 for P-256); an expiry claim, if the token has one, is not past beyond
    the leeway; an audience claim, if it has one, is among the expected ones (any, when none is
    expected); and issuer and viewer are named.  The cache keeps only published
    keys, whatever other tasks do to it by the same rules meanwhile.  Conversely these conditions are
    all there is: when the issuer's key resolves, the signature verifies and the claims are admitted,
    the token is accepted; so a token without [exp] never expires and one without [aud] is accepted for
    every expected audience (the rustdoc of the function promises an error there). *)
Theorem service_jwt_accepted auth auds now leeway s :
  cache_ok (key_cache s) → others_ok → resolution_publishes now → u64_valid now →
  (∀ s' claims, verify_service_jwt_claims auth auds now leeway s = (s', Ok claims) →
     cache_ok (key_cache s') ∧
     ∃ jwt key bytes t, parse_jwt auth = Ok jwt ∧ claims = pj_claims jwt ∧
       sj_iss claims = Some (pj_issuer jwt) ∧ is_valid_service_did (pj_issuer jwt) = true ∧
       published (pj_issuer jwt) key t ∧ (t = now ∨ u64_saturating_sub now t < ttl_secs (key_cache s)) ∧
       decode_lenient (pj_signature_b64 jwt) = Ok bytes ∧
       signature_valid key (pj_alg jwt) (as_bytes (pj_header_b64 jwt +:+ "." +:+ pj_payload_b64 jwt)) bytes ∧
       claims_admitted claims auds now leeway) ∧
  (∀ s' jwt key bytes, parse_jwt auth = Ok jwt → resolve_atproto_key (pj_issuer jwt) now s = (s', Ok key) →
     decode_lenient (pj_signature_b64 jwt) = Ok bytes →
     signature_valid key (pj_alg jwt) (as_bytes (pj_header_b64 jwt +:+ "." +:+ pj_payload_b64 jwt)) bytes →
     claims_admitted (pj_claims jwt) auds now leeway →
     verify_service_jwt_claims auth auds now leeway s = (s', Ok (pj_claims jwt))).
Proof.
  intros Hc Hoth Hpub Hn. split.
  - intros s' claims E. unfold ServiceAuth.verify_service_jwt_claims in E.
    destruct (parse_jwt auth) as [jwt|] eqn:Ep; [|done].
    destruct (resolve_atproto_key (pj_issuer jwt) now s) as [s1 rk] eqn:Er.
    apply resolve_atproto_key_ok in Er as (Hc1 & _ & Hkey); [|done..].
    destruct rk as [key|]; [|done]. destruct (Hkey key eq_refl) as (Hdid & t & Hp & Ht).
    destruct (is_alg_bound_to_curve _ _) eqn:Ea; [|done]. simpl negb in E. cbv iota in E.
    destruct (decode_lenient (pj_signature_b64 jwt)) as [bytes|] eqn:Ed; [|done]. simpl in E.
    destruct (check_signature key _ bytes) as [[]|] eqn:Es; [|done..]. injection E as <- Ec.
    apply check_service_claims_Ok in Ec as [-> Had]; [|done]. split; [done|].
    exists jwt, key, bytes, t. split_and!; try done; [|by apply check_signature_valid].
    destruct Had as (_ & _ & [i Hi] & _). rewrite Hi. by rewrite (parse_jwt_issuer _ _ _ Ep Hi).
  - intros s' jwt key bytes Ep Er Ed [Ha Hs]%check_signature_valid Had. unfold ServiceAuth.verify_service_jwt_claims.
    rewrite Ep, Er, Ha, Ed. cbn [negb map_err mbind result_bind]. rewrite Hs.
    by rewrite (proj2 (check_service_claims_Ok _ _ _ _ _ Hn) (conj eq_refl Had)).
Qed.
End acceptance.

(** ** Multikeys *)
Lemma decode_multikey_bs58 `{Base64} b bytes :
  Forall u8_valid (b :: bytes) → b ≠ 0 →
  decode_multikey (String "z" (bs58_encode (b :: bytes))) = Ok (b :: bytes).
Proof.
  intros Hb Hb0. pose proof (bs58_roundtrip b bytes Hb Hb0) as Hr. unfold decode_multikey.
  destruct (bs58_encode (b :: bytes)) as [|c s] eqn:Ee; [done|].
  assert ((str_len (String "z" (String c s)) <? 2) = false) as ->.
  { unfold str_len. simpl String.length. b2p. lia. }
  simpl Ascii.eqb. cbv iota. rewrite Hr. simpl. destruct b; done.
Qed.

Lemma classify_multikey (p0 p1 curve : Z) sec1 :
  compressed_point sec1 →
  (p0 = 0xe7 ∧ p1 = 0x01 ∧ curve = 1 ∨ p0 = 0x80 ∧ p1 = 0x24 ∧ curve = 2) →
  classify_multikey_bytes (p0 :: p1 :: sec1) = Some (curve, sec1).
Proof.
  intros (tag & x & -> & Htag & Hx & _) Hp. unfold classify_multikey_bytes. cbn [app].
  assert (zlen (p0 :: p1 :: tag :: x) = 35) as -> by (unfold zlen; simpl; lia).
  destruct Hp as [(-> & -> & ->)|(-> & -> & ->)], Htag as [-> | ->]; reflexivity.
Qed.

Lemma compressed_point_bytes p0 p1 sec1 :
  u8_valid p0 → u8_valid p1 → compressed_point sec1 → Forall u8_valid (p0 :: p1 :: sec1).
Proof.
  intros H0 H1 (tag & x & -> & Htag & _ & Hx). do 3 (apply Forall_cons; split; [try done|]); [|done].
  destruct Htag as [-> | ->]; unfold u8_valid, u8_max; lia.
Qed.

(** The multikey codecs round-trip through a DID document: a document whose [#atproto] method
    carries the encoding of a secp256k1 (or P-256) key yields exactly that key, on the right
    curve. *)
Theorem multikey_roundtrip `{Base64} `{K256Laws} `{P256CompressedLaws} doc method :
  extract_signing_key doc = Some method →
  (∀ k, public_key_multibase method = Some (encode_multikey_secp256k1 k) →
     extract_atproto_key_from_document doc = Ok (KSecp256k1 k)) ∧
  (∀ k, public_key_multibase method = Some (encode_multikey_p256 k) →
     extract_atproto_key_from_document doc = Ok (KP256 k)).
Proof.
  intros Hm. split; intros k Hk; unfold extract_atproto_key_from_document; rewrite Hm, Hk;
    [unfold encode_multikey_secp256k1|unfold encode_multikey_p256]; cbn [app MULTIKEY_SECP256K1_VARINT MULTIKEY_P256_VARINT].
  - rewrite decode_multikey_bs58; [|apply compressed_point_bytes; [unfold u8_valid, u8_max; lia..|apply k256_compressed_shape]|done].
    cbn [mbind result_bind]. rewrite (classify_multikey 0xe7 0x01 1); [|apply k256_compressed_shape|by left].
    simpl. by rewrite k256_compressed_roundtrip.
  - rewrite decode_multikey_bs58; [|apply compressed_point_bytes; [unfold u8_valid, u8_max; lia..|apply vk_compressed_shape]|done].
    cbn [mbind result_bind]. rewrite (classify_multikey 0x80 0x24 2); [|apply vk_compressed_shape|by right].
    simpl. by rewrite vk_compressed_roundtrip.
Qed.

(** A token without audience passes every audience list, one without expiry never expires. *)
Lemma missing_audience_accepted iss auds now leeway :
  is_valid_service_did iss = true →
  let claims := mkServiceJwtClaims (Some iss) None None None None None None in
  check_service_claims claims auds now leeway = Ok claims.
Proof.
  intros Hv claims. unfold check_service_claims, viewer_did, issuer_or_subject. simpl. rewrite Hv. simpl.
  by destruct (negb _).
Qed.

(** ** Key rotation *)

(** Reading a key never reports a token error. *)
Definition no_token_error {A} (r : result AtprotoOAuthError A) : Prop :=
  ∀ t, r ≠ Err (AtprotoOAuthError_Token t).

Lemma no_token_bind {A B} (r : result AtprotoOAuthError A) (f : A → result AtprotoOAuthError B) :
  no_token_error r → (∀ a, no_token_error (f a)) → no_token_error (r ≫= f).
Proof. intros Hr Hf t. destruct r as [a|e]; [apply Hf|]. intros [= ->]. by apply (Hr t). Qed.

Lemma decode_multikey_no_token `{Base64} s : no_token_error (decode_multikey s).
Proof.
  unfold decode_multikey. destruct (_ <? _); [done|]. destruct s as [|c s]; [done|].
  apply no_token_bind; [|by intros [|[] ?]]. destruct (Ascii.eqb c "z").
  - unfold bs58_decode. destruct (str_is_empty s); [done|]. destruct (starts_with s "1"); [done|].
    apply no_token_bind; [|done]. generalize (@nil Z). induction s as [|a s IH]; intros out; [done|].
    cbn [decode_chars]. destruct (position a); [|done]. by destruct (decode_pass _ _).
  - destruct (Ascii.eqb c "u"); [|done]. by destruct (b64_no_pad_decode s).
Qed.

Lemma extract_no_token `{Base64} `{K256} `{P256} doc : no_token_error (extract_atproto_key_from_document doc).
Proof.
  unfold extract_atproto_key_from_document. destruct (extract_signing_key doc) as [m|]; [|done].
  destruct (public_key_multibase m) as [raw|]; [|done]. apply no_token_bind; [apply decode_multikey_no_token|].
  intros b. assert (no_token_error (unclassified_key (vm_id m) b)) as Hu.
  { unfold unclassified_key. destruct (_ || _); [done|]. by destruct (list_starts_with _ _ && _). }
  destruct (classify_multikey_bytes b) as [[curve sec1]|]; [|done].
  destruct (_ =? _); [|destruct (_ =? _); [|done]]; apply no_token_bind; try done; intros t.
  - by destruct (k256_from_sec1_bytes sec1).
  - by destruct (vk_from_sec1_bytes sec1).
Qed.

Lemma check_service_claims_no_sig c auds now leeway :
  check_service_claims c auds now leeway ≠ token_err TokenError_InvalidSignature.
Proof.
  intros E. apply bind_Err in E as [E|(? & _ & E)].
  { destruct (sj_exp c); [by apply fail_if_Err in E as [_ ?]|done]. }
  apply bind_Err in E as [E|(? & _ & E)].
  { destruct (negb _); [|done]. destruct (sj_aud c); [by apply fail_if_Err in E as [_ ?]|done]. }
  by apply bind_Err in E as [[_ E]%fail_if_Err|(? & _ & E)].
Qed.

Section rotation.
Context `{Base64} `{K256} `{P256} `{ServiceAuthSerde} (ahash : string → Z)
  (oldest : gmap string CachedSigningKey → option string) `{!OldestLaws oldest}
  (fk : gmap string IpAddr → option string) `{UrlCrate} (status_display : Z → string)
  (answers : nat → nat → Round) `{IdentitySerde} (resolver : IdentityResolver)
  (others : nat → DidKeyCache → DidKeyCache).
Local Abbreviation verify_service_jwt_claims :=
  (verify_service_jwt_claims ahash oldest fk status_display answers resolver others).

(** A failed signature check evicts the issuer's key: after the verifier reports an invalid
    signature, the cache has no key for the token's issuer, so the next token of that issuer is
    judged by a freshly resolved document (a rotated key is picked up); the keys of all other DIDs
    that were in the cache when the check ran stay, and the shards stay within their capacity. *)
Theorem bad_signature_evicts_key auth auds now leeway s s' jwt :
  (∀ k c, kc_wf c → kc_wf (others k c)) → kc_wf (key_cache s) → parse_jwt auth = Ok jwt →
  verify_service_jwt_claims auth auds now leeway s = (s', token_err TokenError_InvalidSignature) →
  kc_wf (key_cache s') ∧ (∀ t, get_atproto_key ahash (key_cache s') (pj_issuer jwt) t = None) ∧
  ∀ did t, did ≠ pj_issuer jwt → let '(s1, _) := resolve_atproto_key ahash oldest fk status_display
       answers resolver others (pj_issuer jwt) now s in
     get_atproto_key ahash (key_cache s') did t = get_atproto_key ahash (key_cache s1) did t.
Proof.
  intros Hoth Hc Hp E. unfold ServiceAuth.verify_service_jwt_claims in E. rewrite Hp in E.
  destruct (resolve_atproto_key _ _ _ _ _ _ _ _ _ s) as [s1 rk] eqn:Er.
  assert (kc_wf (key_cache s1) ∧ no_token_error rk) as [Hc1 Hrk].
  { unfold resolve_atproto_key in Er. destruct (negb _); [by simplify_eq|].
    destruct (get_atproto_key _ _ _ _); [by simplify_eq|].
    destruct (resolve_did _ _ _ _ _ _) as [w rd]. destruct rd as [doc|e]; simpl in Er.
    - pose proof (extract_no_token doc) as Hx. destruct (extract_atproto_key_from_document doc); simplify_eq.
      + split; [|done]. by apply insert_atproto_key_wf, Hoth.
      + split; [by apply Hoth|]. intros t [= ->]. by apply (Hx t).
    - by simplify_eq. }
  destruct rk as [key|e]; [|injection E as _ ->; by destruct (Hrk TokenError_InvalidSignature)].
  destruct (negb _); [done|]. destruct (decode_lenient _) as [bytes|]; [|done]. simpl in E.
  destruct (check_signature key _ bytes) as [[]|e] eqn:Es.
  - injection E as _ E. by apply check_service_claims_no_sig in E.
  - injection E as <-. simpl. split; [by apply invalidate_wf|].
    assert (∀ did t, get_atproto_key ahash (invalidate ahash (key_cache s1) (pj_issuer jwt)) did t =
      if decide (pj_issuer jwt = did) then None else get_atproto_key ahash (key_cache s1) did t) as Hg.
    { intros did t. unfold get_atproto_key. fold (cached ahash (key_cache s1) did).
      fold (cached ahash (invalidate ahash (key_cache s1) (pj_issuer jwt)) did).
      rewrite cached_invalidate by done. by case_decide. }
    split; [intros t; by rewrite Hg, decide_True|]. intros did t Hne. by rewrite Hg, decide_False.
  - injection E as _ ->. unfold check_signature in Es. destruct key; repeat case_match; done.
Qed.
End rotation.

Module ServiceAuthExamples.
Import SsrfExamples IdentityExamples.

(** The first entry of least time stamp in the map's order. *)
Fixpoint min_entry `{K256} `{P256} (l : list (string * CachedSigningKey)) : option (string * CachedSigningKey) :=
  match l with
  | [] => None
  | (k, e) :: l' =>
      match min_entry l' with
      | Some (k', e') => if resolved_at_secs e' <? resolved_at_secs e then Some (k', e') else Some (k, e)
      | None => Some (k, e)
      end
  end.
Definition min_key `{K256} `{P256} (m : gmap string CachedSigningKey) : option string :=
  fst <$> min_entry (map_to_list m).

Lemma min_entry_spec `{K256} `{P256} l k e : min_entry l = Some (k, e) →
  (k, e) ∈ l ∧ ∀ k' e', (k', e') ∈ l → resolved_at_secs e ≤ resolved_at_secs e'.
Proof.
  revert k e. induction l as [|[k1 e1] l IH]; intros k e; simpl; [done|].
  destruct (min_entry l) as [[k2 e2]|] eqn:E.
  - destruct (IH _ _ eq_refl) as [Hin Hmin]. destruct (_ <? _) eqn:El; b2p; intros [= <- <-].
    + split; [by right|]. intros k' e' [[= -> ->]|He]%elem_of_cons; [lia|by eapply Hmin].
    + split; [by left|]. intros k' e' [[= -> ->]|He]%elem_of_cons; [lia|]. apply Hmin in He. lia.
  - intros [= <- <-]. destruct l as [|[k2 e2] l].
    + split; [by left|]. intros k' e' [[= -> ->]|He]%elem_of_cons; [lia|]. by apply elem_of_nil in He.
    + exfalso. simpl in E. destruct (min_entry l) as [[]|]; [destruct (_ <? _)|]; done.
Qed.

#[local] Instance min_key_laws `{K256} `{P256} : OldestLaws min_key.
Proof.
  unfold min_key. split.
  - intros m k Hk. destruct (min_entry (map_to_list m)) as [[k' e]|] eqn:E; [|done].
    injection Hk as <-. apply min_entry_spec in E as [Hin Hmin]. exists e.
    split; [by apply elem_of_map_to_list|]. intros k'' e'' He. eapply Hmin. by apply elem_of_map_to_list.
  - intros m Hm. destruct (map_to_list m) as [|[k e] l] eqn:E; [by apply map_to_list_empty_iff in E|].
    simpl. destruct (min_entry l) as [[]|]; [destruct (_ <? _)|]; by eexists.
Qed.

(** One key per curve, one good signature (the byte of [s]), text instead of base64. *)
#[local] Instance plain_base64 : Base64 :=
  {| b64_no_pad_encode := λ b, string_of_bytes b; b64_no_pad_decode := λ s, Ok (as_bytes s);
     b64_padded_decode := λ s, Ok (as_bytes s) |}.
Definition point : list Z := 2 :: replicate 32 0.
Lemma point_compressed : compressed_point point.
Proof.
  exists 2, (replicate 32 0). split_and!; [done|by left|done|]. apply Forall_replicate. unfold u8_valid, u8_max. lia.
Qed.
#[local] Instance one_k256 : K256 :=
  {| Secp256k1VerifyingKey := unit; Secp256k1Signature := list Z; k256_from_sec1_bytes := λ _, Ok tt;
     k256_to_sec1_compressed := λ _, point; k256_sig_from_slice := λ b, Ok b;
     k256_verify := λ _ _ sg, if bool_decide (sg = as_bytes "s") then Ok tt else Err "signature error" |}.
#[local] Instance one_k256_laws : K256Laws.
Proof. split; [intros; apply point_compressed|by intros []]. Qed.
#[local] Instance one_p256 : P256 :=
  {| SigningKey := unit; VerifyingKey := unit; Signature := unit; sk_sign := λ _ _, tt;
     sk_verifying_key := λ _, tt; sig_to_bytes := λ _, []; sig_from_slice := λ _, Ok tt;
     vk_verify := λ _ _ _, Ok tt; vk_from_sec1_bytes := λ _, Ok tt; vk_sec1_x := λ _, None; vk_sec1_y := λ _, None |}.
#[local] Instance one_compressed : P256Compressed := {| vk_to_sec1_compressed := λ _, point |}.
#[local] Instance one_compressed_laws : P256CompressedLaws.
Proof. split; [intros; apply point_compressed|by intros []]. Qed.

Definition issuer : string := "did:web:pds.example.com".
Definition claims : ServiceJwtClaims :=
  mkServiceJwtClaims (Some issuer) None (Some "did:web:feed.example.com") None (Some 100) None None.
#[local] Instance text_serde : ServiceAuthSerde :=
  {| service_header_from_slice := λ _, Ok (mkServiceJwtHeader "ES256K" None);
     service_claims_from_slice := λ _, Ok claims |}.
Definition key_method : VerificationMethod :=
  mkVerificationMethod "#atproto" "Multikey" issuer (Some (encode_multikey_secp256k1 tt)).
Definition key_doc : DidDocument := mkDidDocument issuer [] [key_method] [].
#[local] Instance key_doc_serde : IdentitySerde :=
  {| did_document_from_slice := λ _, Ok key_doc; doh_response_from_slice := λ _, Err "eof" |}.
#[local] Existing Instance bare_urls.

Definition start : VerifierState := mkVerifierState world (key_cache_new 900).
(** The only call is made at time 50. *)
Definition published (did : string) (k : AtprotoVerifyingKey) (t : Z) : Prop := t = 50.
Definition verify (token : string) :=
  verify_service_jwt_claims str_len min_key fst_key pretty one_round ir (λ _ c, c) token
    ["did:web:feed.example.com"] 50 60 start.

Lemma start_wf : kc_wf (key_cache start).
Proof. apply key_cache_new_wf. Qed.

Lemma service_jwt_accepted_witness :
  snd (verify "Bearer h.p.s") = Ok claims ∧
  ∃ jwt, parse_jwt "Bearer h.p.s" = Ok jwt ∧ sj_iss claims = Some (pj_issuer jwt).
Proof.
  assert (snd (verify "Bearer h.p.s") = Ok claims) as Hv by (vm_compute; reflexivity).
  split; [exact Hv|]. destruct (verify "Bearer h.p.s") as [s' r] eqn:E. cbn [snd] in Hv. subst r.
  destruct (service_jwt_accepted str_len min_key fst_key pretty one_round ir (λ _ c, c) published
    "Bearer h.p.s" ["did:web:feed.example.com"] 50 60 start) as [Hacc _].
  - split; [apply start_wf|]. intros did e He. unfold start, key_cache in He. by rewrite cached_new in He.
  - intros k c Hc. split; [exact Hc|reflexivity].
  - intros did w w' doc key _ _ _. reflexivity.
  - unfold u64_valid, u64_max. lia.
  - destruct (Hacc s' claims E) as [_ (jwt & key & bytes & t & H1 & H2 & H3 & _)]. exists jwt. split; [exact H1|exact H3].
Defined.

Lemma bad_signature_evicts_key_witness :
  let s' := fst (verify "h.p.x") in
  snd (verify "h.p.x") = token_err TokenError_InvalidSignature ∧
  get_atproto_key str_len (key_cache s') issuer 50 = None.
Proof.
  assert (snd (verify "h.p.x") = token_err TokenError_InvalidSignature) as Hv by (vm_compute; reflexivity).
  split; [exact Hv|]. destruct (verify "h.p.x") as [s' r] eqn:E. cbn [fst snd] in *. subst r.
  destruct (parse_jwt "h.p.x") as [jwt|] eqn:Ep; [|vm_compute in Ep; discriminate Ep].
  destruct (bad_signature_evicts_key str_len min_key fst_key pretty one_round ir (λ _ c, c)
    "h.p.x" ["did:web:feed.example.com"] 50 60 start s' jwt) as (_ & Hg & _).
  { intros k c Hc. exact Hc. }
  { apply start_wf. }
  { exact Ep. }
  { exact E. }
  assert (pj_issuer jwt = issuer) as <-; [|apply Hg]. vm_compute in Ep. by injection Ep as <-.
Defined.

Lemma multikey_roundtrip_witness : extract_atproto_key_from_document key_doc = Ok (KSecp256k1 tt).
Proof.
  apply (multikey_roundtrip key_doc key_method); reflexivity.
Defined.
End ServiceAuthExamples.
