(* ===== verification/Store.v ===== *)
(** * Store: the sharded OAuth state store (src/src/store.rs)

    [OAuthStateStore] is a list of 64 maps; an operation takes every clock reading the code makes
    as an argument and returns the new store with the operation's result.  Each operation of the
    code holds one shard's lock for its whole critical section, except [prune_expired_sync],
    [total_entries] and [clear], which lock the shards one after the other; [store_op] lists the
    critical sections, so that a sequence of [store_op]s is an interleaving of the calls of any
    number of threads.  The stored entry is a parameter (store.rs never looks inside it), and so is
    the [ahash] hash function. *)
From S2P Require Import Prelude Errors.
Open Scope Z_scope.

Definition SHARD_ADMISSION_CAPACITY : Z := 1024.
Definition NUM_SHARDS : Z := 64.
Definition NANOS_PER_SEC : Z := 1000000000.
Definition DEFAULT_STATE_TTL : Z := 300 * NANOS_PER_SEC.

(** [Instant] and [Duration] in nanoseconds; an [Instant] keeps its seconds in an [i64]. *)
Definition INSTANT_MAX : Z := i64_max * NANOS_PER_SEC + 999999999.
Definition instant_checked_add (now d : Z) : option Z :=
  if now + d <=? INSTANT_MAX then Some (now + d) else None.
Definition saturating_duration_since (now earlier : Z) : Z := Z.max 0 (now - earlier).

(** ** Records *)
Record StoredStateRecord (Entry : Type) := mkRecord {
  entry : Entry;
  created_at : Z;
  expires_at : Z
}.
Arguments mkRecord {Entry}.
Arguments entry {Entry}.
Arguments created_at {Entry}.
Arguments expires_at {Entry}.

(** [StoredStateRecord::new]; [now] is its [Instant::now()].  The fallback is the argument of
    [unwrap_or], evaluated first whatever the lifetime, and the sum of an [Instant] and a [Duration]
    panics when it overflows: [record_new_checked] is [None] then, and [record_new] is the record
    otherwise ([record_new_checked_spec]). *)
Definition FALLBACK_LIFETIME : Z := 86400 * 365 * NANOS_PER_SEC.
Definition record_new_checked {Entry} (e : Entry) (ttl now : Z) : option (StoredStateRecord Entry) :=
  fallback ← instant_checked_add now FALLBACK_LIFETIME;
  Some {| entry := e; created_at := now; expires_at := default fallback (instant_checked_add now ttl) |}.
Definition record_new {Entry} (e : Entry) (ttl now : Z) : StoredStateRecord Entry :=
  {| entry := e;
     created_at := now;
     expires_at := default (now + FALLBACK_LIFETIME) (instant_checked_add now ttl) |}.

Definition is_expired {Entry} (r : StoredStateRecord Entry) (now : Z) : bool :=
  if now >=? expires_at r then true
  else
    let elapsed := saturating_duration_since now (created_at r) in
    let ttl := saturating_duration_since (expires_at r) (created_at r) in
    elapsed >=? ttl.

(** ** The store *)
Section store.
Context {Entry : Type}.
(** [AHasher::default()], [key.hash], [finish() as usize]. *)
Context (hash : string → Z).

Abbreviation Rec := (StoredStateRecord Entry).
Abbreviation Shard := (gmap string Rec).

Record OAuthStateStore := mkStore {
  shards : list Shard;
  default_ttl : Z
}.

Definition new (ttl : Z) : OAuthStateStore :=
  {| shards := replicate (Z.to_nat NUM_SHARDS) ∅; default_ttl := ttl |}.

Definition store_default : OAuthStateStore := new DEFAULT_STATE_TTL.

Definition shard_index (key : string) : nat := Z.to_nat (hash key mod NUM_SHARDS).

(** [self.shards[idx]] and the store after its write guard is dropped.  Every index the code uses
    is a residue modulo [NUM_SHARDS], so the out-of-range panic is never reached. *)
Definition shard_at (st : OAuthStateStore) (i : nat) : Shard := shard_get (shards st) i.
Definition with_shard (st : OAuthStateStore) (i : nat) (m : Shard) : OAuthStateStore :=
  {| shards := <[i:=m]> (shards st); default_ttl := default_ttl st |}.

Definition shard_size (m : Shard) : Z := Z.of_nat (size m).

(** [t_new] is the clock read by [StoredStateRecord::new], [t_prune] the one of the opportunistic
    prune. *)
Definition insert_state_sync (st : OAuthStateStore) (state : string) (e : Entry) (ttl : Z)
    (t_new t_prune : Z) : OAuthStateStore * result StoreError unit :=
  let idx := shard_index state in
  let record := record_new e ttl t_new in
  let shard := shard_at st idx in
  if shard_size shard >=? SHARD_ADMISSION_CAPACITY then
    let shard := retain (λ r, negb (is_expired r t_prune)) shard in
    if shard_size shard >=? SHARD_ADMISSION_CAPACITY then
      (with_shard st idx shard, Err (StoreError_CapacityExceeded SHARD_ADMISSION_CAPACITY))
    else (with_shard st idx (<[state:=record]> shard), Ok tt)
  else (with_shard st idx (<[state:=record]> shard), Ok tt).

(** The insertion of a build that reaches the panic of [StoredStateRecord::new]: it happens before the
    shard is locked, so the store is as it was. *)
Definition insert_state_checked (st : OAuthStateStore) (state : string) (e : Entry) (ttl : Z)
    (t_new t_prune : Z) : option (OAuthStateStore * result StoreError unit) :=
  _ ← record_new_checked e ttl t_new; Some (insert_state_sync st state e ttl t_new t_prune).

Definition insert_default_sync (st : OAuthStateStore) (state : string) (e : Entry)
    (t_new t_prune : Z) : OAuthStateStore * result StoreError unit :=
  insert_state_sync st state e (default_ttl st) t_new t_prune.

Definition take_state_sync (st : OAuthStateStore) (state : string) (now : Z)
    : OAuthStateStore * option Entry :=
  let idx := shard_index state in
  let shard := shard_at st idx in
  match shard !! state with
  | Some record =>
      (with_shard st idx (delete state shard),
       if negb (is_expired record now) then Some (entry record) else None)
  | None => (st, None)
  end.

Definition contains_state_sync (st : OAuthStateStore) (state : string) (now : Z) : bool :=
  match shard_at st (shard_index state) !! state with
  | Some record => negb (is_expired record now)
  | None => false
  end.

(** One iteration of the loop of [prune_expired_sync]. *)
Definition prune_shard (now : Z) (guard : Shard) : Shard * Z :=
  let initial_count := shard_size guard in
  let guard' := retain (λ r, negb (is_expired r now)) guard in
  (guard', u64_saturating_sub initial_count (shard_size guard')).

Fixpoint prune_shards (now : Z) (l : list Shard) (total_pruned : Z) : list Shard * Z :=
  match l with
  | [] => ([], total_pruned)
  | guard :: rest =>
      let '(guard', pruned) := prune_shard now guard in
      let '(rest', total) := prune_shards now rest (total_pruned + pruned) in
      (guard' :: rest', total)
  end.

Definition prune_expired_sync (st : OAuthStateStore) (now : Z) : OAuthStateStore * Z :=
  let '(l, total) := prune_shards now (shards st) 0 in
  ({| shards := l; default_ttl := default_ttl st |}, total).

Definition total_entries (st : OAuthStateStore) : Z :=
  shards_total (shards st).

Definition shard_len (st : OAuthStateStore) (shard_idx : Z) : Z :=
  shard_size (shard_at st (Z.to_nat (shard_idx mod NUM_SHARDS))).

Definition is_empty (st : OAuthStateStore) : bool := total_entries st =? 0.

Definition clear (st : OAuthStateStore) : OAuthStateStore :=
  {| shards := (λ _, ∅) <$> shards st; default_ttl := default_ttl st |}.

(** The background worker: every tick of its interval runs one prune, until cancellation.  The
    readings of the clock at the ticks before the cancellation are its input; the precondition is
    the first assertion (the second one, a running tokio runtime, has no counterpart here). *)
Definition spawn_pruning_task (st : OAuthStateStore) (interval_duration : Z) (ticks : list Z)
    : option OAuthStateStore :=
  if interval_duration =? 0 then None
  else Some (foldl (λ st now, fst (prune_expired_sync st now)) st ticks).

(** ** Critical sections *)
Inductive store_op :=
| OpInsert (state : string) (e : Entry) (ttl t_new t_prune : Z)
| OpTake (state : string) (now : Z)
| OpContains (state : string) (now : Z)
| OpPruneShard (i : nat) (now : Z)
| OpClearShard (i : nat).

Inductive store_out :=
| OutInsert (r : result StoreError unit)
| OutTake (r : option Entry)
| OutContains (b : bool)
| OutPruned (n : Z)
| OutCleared.

Definition store_step (st : OAuthStateStore) (op : store_op) : OAuthStateStore * store_out :=
  match op with
  | OpInsert k e ttl t1 t2 =>
      let '(st', r) := insert_state_sync st k e ttl t1 t2 in (st', OutInsert r)
  | OpTake k now => let '(st', r) := take_state_sync st k now in (st', OutTake r)
  | OpContains k now => (st, OutContains (contains_state_sync st k now))
  | OpPruneShard i now =>
      let '(m, n) := prune_shard now (shard_at st i) in (with_shard st i m, OutPruned n)
  | OpClearShard i => (with_shard st i ∅, OutCleared)
  end.

End store.

Arguments OAuthStateStore : clear implicits.
Arguments store_op : clear implicits.
Arguments store_out : clear implicits.

(** ** Abstract view and well-formedness *)
Section theory.
Context {Entry : Type} (hash : string → Z).
Implicit Types (st : OAuthStateStore Entry) (op : store_op Entry).

(** The store as one flat map: the record a token has in its home shard. *)
Definition store_lookup st (k : string) : option (StoredStateRecord Entry) :=
  shard_at st (shard_index hash k) !! k.

(** 64 shards, every key in its home shard, no shard above the admission capacity. *)
Record store_wf st : Prop := {
  wf_len : length (shards st) = Z.to_nat NUM_SHARDS;
  wf_home : ∀ i k r, shard_at st i !! k = Some r → shard_index hash k = i;
  wf_cap : ∀ i, shard_size (shard_at st i) ≤ SHARD_ADMISSION_CAPACITY
}.

Lemma shard_index_lt k : (shard_index hash k < Z.to_nat NUM_SHARDS)%nat.
Proof.
  unfold shard_index. pose proof (Z.mod_pos_bound (hash k) NUM_SHARDS). unfold NUM_SHARDS in *. lia.
Qed.

Lemma shard_at_with st i m j :
  (i < length (shards st))%nat →
  shard_at (with_shard st i m) j = if decide (i = j) then m else shard_at st j.
Proof.
  apply shard_get_insert.
Qed.

Lemma with_shard_len st i m : length (shards (with_shard st i m)) = length (shards st).
Proof. apply length_insert. Qed.

(** Replacing a shard by one that keeps the home property and the capacity keeps the store
    well-formed, whatever the index. *)
Lemma with_shard_wf st i m :
  store_wf st →
  (∀ k r, m !! k = Some r → shard_index hash k = i) →
  shard_size m ≤ SHARD_ADMISSION_CAPACITY →
  store_wf (with_shard st i m).
Proof.
  intros [Hlen Hhome Hcap] Hm Hsz. destruct (decide (i < length (shards st))%nat) as [Hi|Hi].
  - split; [by rewrite with_shard_len| |]; intros j; rewrite shard_at_with by done;
      case_decide; subst; eauto.
  - replace (with_shard st i m) with st; [done|].
    unfold with_shard. rewrite list_insert_ge by lia. by destruct st.
Qed.

Lemma shard_size_retain (f : StoredStateRecord Entry → bool) m :
  shard_size (retain f m) ≤ shard_size m.
Proof. unfold shard_size. pose proof (retain_size f m). lia. Qed.

Lemma shard_size_insert (m : gmap string (StoredStateRecord Entry)) k r :
  shard_size m < SHARD_ADMISSION_CAPACITY → shard_size (<[k:=r]> m) ≤ SHARD_ADMISSION_CAPACITY.
Proof. unfold shard_size. pose proof (map_size_insert_le m k r). lia. Qed.

(** The shard an insertion writes to: unchanged, or pruned when it was at capacity. *)
Lemma insert_state_sync_cases st k e ttl t1 t2 :
  let i := shard_index hash k in
  let m := shard_at st i in
  let m' := if shard_size m >=? SHARD_ADMISSION_CAPACITY
            then retain (λ r, negb (is_expired r t2)) m else m in
  (SHARD_ADMISSION_CAPACITY ≤ shard_size m' ∧
   insert_state_sync hash st k e ttl t1 t2 =
   (with_shard st i m', Err (StoreError_CapacityExceeded SHARD_ADMISSION_CAPACITY))) ∨
  (shard_size m' < SHARD_ADMISSION_CAPACITY ∧
   insert_state_sync hash st k e ttl t1 t2 =
   (with_shard st i (<[k:=record_new e ttl t1]> m'), Ok tt)).
Proof.
  cbv zeta. unfold insert_state_sync. repeat case_if; b2p; auto with lia.
Qed.

Lemma insert_state_sync_wf st k e ttl t1 t2 :
  store_wf st → store_wf (insert_state_sync hash st k e ttl t1 t2).1.
Proof.
  intros Hwf. pose proof (wf_home _ Hwf) as Hh. pose proof (wf_cap _ Hwf (shard_index hash k)) as Hc.
  destruct (insert_state_sync_cases st k e ttl t1 t2) as [[Hs ->]|[Hs ->]]; simpl;
    (apply with_shard_wf; [done| |]).
  - intros k' r. case_if; [rewrite retain_lookup; intros [? _]|intros ?]; eauto.
  - case_if; [etrans; [apply shard_size_retain|]|]; done.
  - intros k' r. destruct (decide (k = k')) as [<-|]; [done|]. rewrite lookup_insert_ne by done.
    case_if; [rewrite retain_lookup; intros [? _]|intros ?]; eauto.
  - by apply shard_size_insert.
Qed.

Lemma take_state_sync_wf st k now : store_wf st → store_wf (take_state_sync hash st k now).1.
Proof.
  intros Hwf. unfold take_state_sync. case_match; simpl; [|done].
  apply with_shard_wf; [done| |].
  - intros k' r' [_ Hl]%lookup_delete_Some. by eapply wf_home.
  - unfold shard_size. pose proof (wf_cap _ Hwf (shard_index hash k)) as Hc.
    pose proof (map_size_delete_le (shard_at st (shard_index hash k)) k).
    unfold shard_size in Hc. lia.
Qed.

Lemma store_step_wf st op : store_wf st → store_wf (store_step hash st op).1.
Proof.
  intros Hwf. destruct op as [k e ttl t1 t2|k now|k now|i now|i]; simpl.
  - pose proof (insert_state_sync_wf st k e ttl t1 t2 Hwf).
    by destruct (insert_state_sync hash st k e ttl t1 t2).
  - pose proof (take_state_sync_wf st k now Hwf). by destruct (take_state_sync hash st k now).
  - done.
  - apply with_shard_wf; [done| |].
    + intros k r [Hl _]%retain_lookup. by eapply wf_home.
    + etrans; [apply shard_size_retain|]. by apply wf_cap.
  - apply with_shard_wf; [done|intros ?? Hl; by rewrite lookup_empty in Hl|done].
Qed.

Lemma shard_at_new ttl i : shard_at (Entry := Entry) (new ttl) i = ∅.
Proof.
  apply shard_get_replicate.
Qed.

Lemma new_wf ttl : store_wf (new ttl).
Proof.
  split; [apply length_replicate|intros i k r|intros i]; rewrite shard_at_new.
  - by rewrite lookup_empty.
  - done.
Qed.

(** ** What each critical section does to one token *)

Lemma store_lookup_with st i m k :
  store_wf st → (i < Z.to_nat NUM_SHARDS)%nat →
  store_lookup (with_shard st i m) k =
  if decide (i = shard_index hash k) then m !! k else store_lookup st k.
Proof.
  intros Hwf Hi. unfold store_lookup. rewrite shard_at_with by (by rewrite (wf_len _ Hwf)).
  by case_decide.
Qed.

(** A pruning pass keeps a token's record or drops it because it has expired. *)
Lemma retain_unexpired (m : gmap string (StoredStateRecord Entry)) now k :
  retain (λ r, negb (is_expired r now)) m !! k =
  (r ← m !! k; if is_expired r now then None else Some r).
Proof. rewrite retain_lookup_option. destruct (m !! k); simpl; [|done]. by destruct (is_expired _ _). Qed.

Lemma store_lookup_insert_other st k e ttl t1 t2 k' :
  store_wf st → k ≠ k' →
  store_lookup (insert_state_sync hash st k e ttl t1 t2).1 k' = store_lookup st k' ∨
  (∃ r, store_lookup st k' = Some r ∧ is_expired r t2 = true ∧
        store_lookup (insert_state_sync hash st k e ttl t1 t2).1 k' = None).
Proof.
  intros Hwf Hk. pose proof (shard_index_lt k) as Hi.
  destruct (insert_state_sync_cases st k e ttl t1 t2) as [[_ ->]|[_ ->]]; simpl;
    rewrite store_lookup_with by done; (case_decide as Heq; [|by left]);
    rewrite ?lookup_insert_ne by done; unfold store_lookup; rewrite <-Heq;
    (case_if; [|by left]); rewrite retain_unexpired; destruct (_ !! k') as [r|]; simpl;
    try (by left); destruct (is_expired r t2) eqn:?; eauto.
Qed.

Lemma store_lookup_insert_ok st k e ttl t1 t2 st' :
  store_wf st → insert_state_sync hash st k e ttl t1 t2 = (st', Ok tt) →
  store_lookup st' k = Some (record_new e ttl t1).
Proof.
  intros Hwf. pose proof (shard_index_lt k).
  destruct (insert_state_sync_cases st k e ttl t1 t2) as [[_ ->]|[_ ->]]; intros [=]; subst.
  rewrite store_lookup_with by done. rewrite decide_True by done. apply lookup_insert_eq.
Qed.

Lemma store_lookup_insert_err st k e ttl t1 t2 st' err :
  store_wf st → insert_state_sync hash st k e ttl t1 t2 = (st', Err err) →
  store_lookup st' k = store_lookup st k ∨
  (∃ r, store_lookup st k = Some r ∧ is_expired r t2 = true ∧ store_lookup st' k = None).
Proof.
  intros Hwf. pose proof (shard_index_lt k).
  destruct (insert_state_sync_cases st k e ttl t1 t2) as [[_ ->]|[_ ->]]; intros [=]; subst.
  rewrite store_lookup_with, decide_True by done. unfold store_lookup.
  case_if; [|by left]. rewrite retain_unexpired.
  destruct (_ !! k) as [r|]; simpl; [|by left]. destruct (is_expired r t2) eqn:?; eauto.
Qed.

Lemma store_lookup_take st k now k' :
  store_wf st →
  store_lookup (take_state_sync hash st k now).1 k' =
  if decide (k = k') then None else store_lookup st k'.
Proof.
  intros Hwf. pose proof (shard_index_lt k). unfold take_state_sync.
  destruct (shard_at st (shard_index hash k) !! k) as [r|] eqn:E; simpl.
  - rewrite store_lookup_with by done. destruct (decide (k = k')) as [<-|Hk].
    + rewrite decide_True by done. apply lookup_delete_eq.
    + case_decide as Hi; [|done]. rewrite lookup_delete_ne by done.
      unfold store_lookup. by rewrite Hi.
  - case_decide; [|done]. by subst.
Qed.

Lemma take_state_sync_result st k now :
  (take_state_sync hash st k now).2 =
  (r ← store_lookup st k; if is_expired r now then None else Some (entry r)).
Proof.
  unfold take_state_sync, store_lookup. destruct (_ !! k) as [r|]; simpl; [|done].
  by destruct (is_expired r now).
Qed.

(** The clock at which a critical section may discard expired records. *)
Definition prune_time op : option Z :=
  match op with
  | OpInsert _ _ _ _ t => Some t
  | OpPruneShard _ t => Some t
  | _ => None
  end.

(** The critical section neither consumes the token, nor stores it, nor clears its shard. *)
Definition spares (k : string) op (out : store_out Entry) : Prop :=
  match op with
  | OpInsert k' _ _ _ _ => k' = k → ∃ err, out = OutInsert (Err err)
  | OpTake k' _ => k' ≠ k
  | OpClearShard i => i ≠ shard_index hash k
  | _ => True
  end.

(** One token's record before and after a critical section. *)
Inductive token_step (k : string) : option (StoredStateRecord Entry) → store_op Entry →
    store_out Entry → option (StoredStateRecord Entry) → Prop :=
| ts_insert r e ttl t1 t2 :
    token_step k r (OpInsert k e ttl t1 t2) (OutInsert (Ok tt)) (Some (record_new e ttl t1))
| ts_take r now :
    token_step k r (OpTake k now)
      (OutTake (r' ← r; if is_expired r' now then None else Some (entry r'))) None
| ts_clear r :
    token_step k r (OpClearShard (shard_index hash k)) OutCleared None
| ts_expire r op out now :
    spares k op out → prune_time op = Some now → is_expired r now = true →
    token_step k (Some r) op out None
| ts_keep r op out :
    spares k op out → token_step k r op out r.

Lemma token_step_insert st k e ttl t1 t2 k' :
  store_wf st →
  token_step k' (store_lookup st k') (OpInsert k e ttl t1 t2)
    (OutInsert (insert_state_sync hash st k e ttl t1 t2).2)
    (store_lookup (insert_state_sync hash st k e ttl t1 t2).1 k').
Proof.
  intros Hwf. destruct (decide (k = k')) as [<-|Hk].
  - destruct (insert_state_sync hash st k e ttl t1 t2) as [st' [[]|err]] eqn:E; simpl.
    + rewrite (store_lookup_insert_ok _ _ _ _ _ _ _ Hwf E). constructor.
    + destruct (store_lookup_insert_err _ _ _ _ _ _ _ _ Hwf E) as [->|(r & -> & Hx & ->)].
      * apply ts_keep; simpl; eauto.
      * by eapply ts_expire; [simpl; eauto|done|].
  - destruct (store_lookup_insert_other st k e ttl t1 t2 k' Hwf Hk) as [->|(r & -> & Hx & ->)].
    + apply ts_keep. by intros ?.
    + eapply ts_expire; [by intros ?|done|done].
Qed.

Lemma token_step_with st i m k op out :
  store_wf st →
  (i = shard_index hash k → token_step k (store_lookup st k) op out (m !! k)) →
  (i ≠ shard_index hash k → token_step k (store_lookup st k) op out (store_lookup st k)) →
  token_step k (store_lookup st k) op out (store_lookup (with_shard st i m) k).
Proof.
  intros Hwf Hm Ho. destruct (decide (i < Z.to_nat NUM_SHARDS)%nat).
  - rewrite store_lookup_with by done. case_decide; auto.
  - replace (with_shard st i m) with st.
    + apply Ho. pose proof (shard_index_lt k). lia.
    + unfold with_shard. rewrite list_insert_ge by (rewrite (wf_len _ Hwf); lia). by destruct st.
Qed.

(** Every critical section moves every token along [token_step]. *)
Lemma store_step_token st op k :
  store_wf st →
  token_step k (store_lookup st k) op (store_step hash st op).2
    (store_lookup (store_step hash st op).1 k).
Proof.
  intros Hwf. destruct op as [k' e ttl t1 t2|k' now|k' now|i now|i]; simpl.
  - pose proof (token_step_insert st k' e ttl t1 t2 k Hwf) as H.
    by destruct (insert_state_sync hash st k' e ttl t1 t2).
  - pose proof (store_lookup_take st k' now k Hwf) as H1.
    pose proof (take_state_sync_result st k' now) as H2.
    destruct (take_state_sync hash st k' now) as [st' r]; simpl in *. rewrite H1, H2.
    case_decide as Hk; [subst k'; apply ts_take|by apply ts_keep].
  - by apply ts_keep.
  - apply token_step_with; [done| |by intros; apply ts_keep]. intros ->.
    rewrite retain_unexpired. fold (store_lookup st k).
    destruct (store_lookup st k) as [r|]; simpl; [|by apply ts_keep].
    destruct (is_expired r now) eqn:?; [by eapply ts_expire|by apply ts_keep].
  - apply token_step_with; [done| |by intros; apply ts_keep]. intros ->.
    rewrite lookup_empty. apply ts_clear.
Qed.

(** ** Histories *)
Abbreviation exec := (run (store_step hash)).

Lemma exec_wf ops st : store_wf st → store_wf (exec st ops).1.
Proof. apply run_invariant. apply store_step_wf. Qed.

Definition took (k : string) op (out : store_out Entry) : bool :=
  match op, out with OpTake k' _, OutTake (Some _) => bool_decide (k' = k) | _, _ => false end.
Definition stored (k : string) op (out : store_out Entry) : bool :=
  match op, out with OpInsert k' _ _ _ _, OutInsert (Ok _) => bool_decide (k' = k) | _, _ => false end.

(** How many events of a history satisfy a test. *)
Fixpoint count (f : store_op Entry → store_out Entry → bool) (ops : list (store_op Entry))
    (outs : list (store_out Entry)) : nat :=
  match ops, outs with
  | op :: ops', out :: outs' => (if f op out then 1 else 0) + count f ops' outs'
  | _, _ => 0
  end.

Definition held (o : option (StoredStateRecord Entry)) : nat := match o with Some _ => 1 | None => 0 end.

(** Along one step: a successful take uses up the record, only a successful insertion brings one. *)
Lemma token_step_balance k r op out r' :
  token_step k r op out r' →
  ((if took k op out then 1 else 0) + held r' ≤ held r + (if stored k op out then 1 else 0))%nat.
Proof.
  destruct 1 as [r e ttl t1 t2|r now|r|r op out now Hs Ht Hx|r op out Hs]; simpl.
  - rewrite bool_decide_true by done. lia.
  - destruct r as [r|]; simpl; [|lia]. destruct (is_expired r now); simpl; repeat case_if; lia.
  - lia.
  - destruct op, out as [[]| | | |]; simpl in *; simplify_eq; simpl; repeat case_if; lia.
  - destruct op as [k' e ttl t1 t2|k' t| | |]; simpl in *; try lia.
    destruct out as [|[]| | |]; simpl; try lia. rewrite bool_decide_false by done. lia.
Qed.

Lemma exec_balance k ops st :
  store_wf st →
  (count (took k) ops (exec st ops).2 + held (store_lookup (exec st ops).1 k) ≤
   held (store_lookup st k) + count (stored k) ops (exec st ops).2)%nat.
Proof.
  revert st. induction ops as [|op ops IH]; intros st Hwf; simpl; [lia|].
  pose proof (token_step_balance _ _ _ _ _ (store_step_token st op k Hwf)) as Hb.
  pose proof (store_step_wf st op Hwf) as Hwf'.
  destruct (store_step hash st op) as [st' out]; simpl in *.
  specialize (IH st' Hwf'). destruct (exec st' ops) as [st'' outs]; simpl in *. lia.
Qed.

Lemma exec_snoc st ops op :
  exec st (ops ++ [op]) =
  ((store_step hash (exec st ops).1 op).1, (exec st ops).2 ++ [(store_step hash (exec st ops).1 op).2]).
Proof.
  rewrite run_app. destruct (exec st ops) as [s1 o1]; simpl. by destruct (store_step hash s1 op).
Qed.

(** [post] with its outcomes leaves the token [k] alone. *)
Definition spares_all (k : string) (post : list (store_op Entry)) (outs : list (store_out Entry)) :=
  Forall2 (spares k) post outs.

(** Where a record found in a store that started empty comes from: the last critical section that
    wrote the token is an insertion, and nothing touched the token since. *)
Lemma store_lookup_provenance ttl0 ops k r :
  store_lookup (exec (new ttl0) ops).1 k = Some r →
  ∃ pre e ttl t1 t2 post outs1 outs2,
    ops = pre ++ OpInsert k e ttl t1 t2 :: post ∧
    (exec (new ttl0) ops).2 = outs1 ++ OutInsert (Ok tt) :: outs2 ∧
    length outs1 = length pre ∧ spares_all k post outs2 ∧ r = record_new e ttl t1.
Proof.
  revert r. induction ops as [|op ops IH] using rev_ind; intros r.
  { simpl. unfold store_lookup. rewrite shard_at_new. by rewrite lookup_empty. }
  rewrite exec_snoc; simpl. pose proof (exec_wf ops _ (new_wf ttl0)) as Hwf.
  pose proof (run_length (store_step hash) (new ttl0) ops) as Hlen.
  pose proof (store_step_token _ op k Hwf) as Hts. intros Hr. rewrite Hr in Hts.
  remember (store_lookup (exec (new ttl0) ops).1 k) as r0 eqn:Hr0.
  remember (store_step hash (exec (new ttl0) ops).1 op).2 as out eqn:Hout.
  inversion Hts; subst; clear Hts.
  - eexists ops, _, _, _, _, [], (exec (new ttl0) ops).2, []. repeat split; try done. by constructor.
  - destruct (IH r ltac:(done)) as (pre & e & ttl & t1 & t2 & post & o1 & o2 & -> & Ho & Hl & Hs & ->).
    eexists pre, e, ttl, t1, t2, (post ++ [op]), o1, (o2 ++ [_]). rewrite Ho, <-!app_assoc.
    repeat split; try done. apply Forall2_app; [done|]. by repeat constructor.
Qed.

(** A token nothing touches keeps its record as long as no pruning pass finds it expired. *)
Lemma store_lookup_spared st ops k r :
  store_wf st → store_lookup st k = Some r →
  spares_all k ops (exec st ops).2 →
  Forall (λ op, ∀ t, prune_time op = Some t → is_expired r t = false) ops →
  store_lookup (exec st ops).1 k = Some r.
Proof.
  revert st. induction ops as [|op ops IH]; intros st Hwf Hr Hs Hp; [done|].
  simpl in *. pose proof (store_step_token st op k Hwf) as Hts.
  pose proof (store_step_wf st op Hwf) as Hwf'.
  destruct (store_step hash st op) as [st' out]; simpl in *.
  specialize (IH st' Hwf'). destruct (exec st' ops) as [st'' outs]; simpl in *.
  apply Forall2_cons in Hs as [Ho Hs]. apply Forall_cons in Hp as [Hp1 Hp2].
  apply IH; try done. rewrite Hr in Hts. inversion Hts; subst; simpl in *; try done.
  - by destruct (Ho eq_refl).
  - match goal with H : prune_time _ = Some _ |- _ => apply Hp1 in H end. congruence.
Qed.

(** ** Counting and pruning *)
Lemma total_entries_bound st :
  store_wf st → 0 ≤ total_entries st ≤ NUM_SHARDS * SHARD_ADMISSION_CAPACITY.
Proof.
  intros Hwf. pose proof (shards_total_bound (shards st) SHARD_ADMISSION_CAPACITY) as H.
  unfold zlen in H. rewrite (wf_len _ Hwf) in H. apply H; [done|]. apply (wf_cap _ Hwf).
Qed.

Lemma prune_shards_spec now (l : list (gmap string (StoredStateRecord Entry))) acc :
  prune_shards now l acc =
  (retain (λ r, negb (is_expired r now)) <$> l,
   acc + (shards_total l - shards_total (retain (λ r, negb (is_expired r now)) <$> l))).
Proof.
  revert acc. induction l as [|m l IH]; intros acc; simpl; [f_equal; unfold shards_total; simpl; lia|].
  rewrite IH. f_equal. pose proof (shard_size_retain (λ r, negb (is_expired r now)) m) as H.
  rewrite !shards_total_cons. unfold u64_saturating_sub, shard_size, fmap in *. lia.
Qed.

Lemma shard_at_prune st now i :
  shard_at (prune_expired_sync st now).1 i = retain (λ r, negb (is_expired r now)) (shard_at st i).
Proof.
  unfold prune_expired_sync. rewrite prune_shards_spec. unfold shard_at, shard_get; simpl.
  rewrite list_lookup_fmap. by destruct (shards st !! i).
Qed.

Lemma with_shards_run now st l1 l2 :
  shards st = l1 ++ l2 →
  exec st ((λ i, OpPruneShard i now) <$> seq (length l1) (length l2)) =
  ({| shards := l1 ++ (prune_shards now l2 0).1; default_ttl := default_ttl st |},
   (λ m, OutPruned (prune_shard now m).2) <$> l2).
Proof.
  revert st l1. induction l2 as [|m l2 IH]; intros [sh d] l1 Hsh; simpl in *; subst.
  { by rewrite app_nil_r. }
  assert (shard_at (mkStore (l1 ++ m :: l2) d) (length l1) = m) as ->.
  { unfold shard_at, shard_get; simpl. by rewrite list_lookup_middle. }
  unfold with_shard; simpl. rewrite insert_app_r_alt, Nat.sub_diag by done; simpl.
  pose proof (IH (mkStore ((l1 ++ [retain (λ r, negb (is_expired r now)) m]) ++ l2) d)
                 (l1 ++ [retain (λ r, negb (is_expired r now)) m]) eq_refl) as H.
  rewrite length_app, Nat.add_1_r, <-!app_assoc in H; simpl in H. unfold fmap in *. rewrite H.
  rewrite !prune_shards_spec. done.
Qed.

(** ** Expiry of a record *)
Lemma is_expired_spec (r : StoredStateRecord Entry) now :
  is_expired r now = true ↔ expires_at r ≤ now ∨ expires_at r ≤ created_at r.
Proof.
  unfold is_expired, saturating_duration_since. case_if; b2p; [tauto|]. lia.
Qed.

Lemma record_new_expires (e : Entry) ttl t :
  t + ttl ≤ INSTANT_MAX → expires_at (record_new e ttl t) = t + ttl.
Proof. intros. unfold record_new, instant_checked_add; simpl. case_if; b2p; [done|lia]. Qed.

(** The panic needs a monotonic clock within a year of the largest [Instant] (292 billion years). *)
Lemma record_new_checked_spec (e : Entry) ttl t :
  record_new_checked e ttl t = if t + FALLBACK_LIFETIME <=? INSTANT_MAX then Some (record_new e ttl t) else None.
Proof.
  unfold record_new_checked. assert (instant_checked_add t FALLBACK_LIFETIME =
    if t + FALLBACK_LIFETIME <=? INSTANT_MAX then Some (t + FALLBACK_LIFETIME) else None) as -> by done.
  by destruct (t + FALLBACK_LIFETIME <=? INSTANT_MAX).
Qed.

Lemma insert_state_checked_spec st k (e : Entry) ttl t1 t2 :
  t1 + FALLBACK_LIFETIME ≤ INSTANT_MAX →
  insert_state_checked hash st k e ttl t1 t2 = Some (insert_state_sync hash st k e ttl t1 t2).
Proof. intros Hm. unfold insert_state_checked. rewrite record_new_checked_spec.
  by rewrite (proj2 (Z.leb_le _ _) Hm).
Qed.

Lemma record_new_live (e : Entry) ttl t now :
  0 < ttl → t + ttl ≤ INSTANT_MAX → is_expired (record_new e ttl t) now = false ↔ now < t + ttl.
Proof.
  intros Httl Hmax. rewrite <-not_true_iff_false, is_expired_spec, record_new_expires by done.
  simpl. lia.
Qed.

(** ** Properties *)

(** C1. Single use, under every interleaving: in any sequence of critical sections on a fresh
    store, a state token is handed out at most as many times as it was successfully inserted. *)
Theorem take_state_single_use ttl0 (ops : list (store_op Entry)) (k : string) :
  (count (took k) ops (exec (new ttl0) ops).2 ≤ count (stored k) ops (exec (new ttl0) ops).2)%nat.
Proof.
  pose proof (exec_balance k ops _ (new_wf ttl0)) as H.
  unfold store_lookup at 2 in H. rewrite shard_at_new, lookup_empty in H. simpl in H. lia.
Qed.

(** C6. Provenance of a consumed token: when a take after any interleaving returns an entry, that
    entry is the one of the last successful insertion of this very token; since then no take of
    the token, no other successful insertion of it and no clearing of its shard happened, and the
    deadline of that insertion has not been reached. *)
Theorem take_state_provenance ttl0 (ops : list (store_op Entry)) k now e :
  (take_state_sync hash (exec (new ttl0) ops).1 k now).2 = Some e →
  ∃ pre ttl t1 t2 post outs1 outs2,
    ops = pre ++ OpInsert k e ttl t1 t2 :: post ∧
    (exec (new ttl0) ops).2 = outs1 ++ OutInsert (Ok tt) :: outs2 ∧
    length outs1 = length pre ∧ spares_all k post outs2 ∧
    now < expires_at (record_new e ttl t1).
Proof.
  rewrite take_state_sync_result. intros (r & Hr & He)%bind_Some.
  destruct (is_expired r now) eqn:Hx; [done|]. injection He as <-.
  destruct (store_lookup_provenance _ _ _ _ Hr)
    as (pre & e & ttl & t1 & t2 & post & o1 & o2 & Hops & Ho & Hl & Hs & ->).
  eexists pre, ttl, t1, t2, post, o1, o2. repeat split; try done.
  apply not_true_iff_false in Hx. rewrite is_expired_spec in Hx. simpl in *. lia.
Qed.

(** Insert then take: a token inserted with a positive time-to-live is handed out, exactly
    once, by a take before its deadline, whatever critical sections on other tokens, failed
    insertions and pruning passes before the deadline happen in between. *)
Theorem insert_take_roundtrip st k e ttl t1 t2 st1 ops now now' :
  store_wf st →
  insert_state_sync hash st k e ttl t1 t2 = (st1, Ok tt) →
  0 < ttl → t1 + ttl ≤ INSTANT_MAX →
  spares_all k ops (exec st1 ops).2 →
  Forall (λ op, ∀ t, prune_time op = Some t → t < t1 + ttl) ops →
  now < t1 + ttl →
  (take_state_sync hash (exec st1 ops).1 k now).2 = Some e ∧
  (take_state_sync hash (take_state_sync hash (exec st1 ops).1 k now).1 k now').2 = None.
Proof.
  intros Hwf Hins Httl Hmax Hs Hp Hnow.
  assert (store_wf st1) as Hwf1.
  { pose proof (insert_state_sync_wf st k e ttl t1 t2 Hwf) as H. by rewrite Hins in H. }
  pose proof (store_lookup_insert_ok _ _ _ _ _ _ _ Hwf Hins) as Hl.
  pose proof (store_lookup_spared _ ops _ _ Hwf1 Hl Hs) as Hk.
  rewrite !take_state_sync_result, store_lookup_take, decide_True by auto using exec_wf.
  rewrite Hk; simpl; [by rewrite (proj2 (record_new_live e ttl t1 now Httl Hmax))|].
  eapply Forall_impl; [exact Hp|]. intros op H t Ht. apply record_new_live; eauto.
Qed.

(** C34. Admission control: after any interleaving every shard holds at most 1024 records, the
    whole store at most 65536, and every record sits in the shard its token hashes to. *)
Theorem store_capacity ttl0 (ops : list (store_op Entry)) :
  let st := (exec (new ttl0) ops).1 in
  (∀ i, shard_len st i ≤ 1024) ∧ 0 ≤ total_entries st ≤ 65536 ∧
  (∀ i k r, shard_at st i !! k = Some r → shard_index hash k = i).
Proof.
  pose proof (exec_wf ops _ (new_wf ttl0)) as Hwf. repeat split.
  - intros i. apply (wf_cap _ Hwf).
  - by apply total_entries_bound.
  - by apply (total_entries_bound _ Hwf).
  - apply (wf_home _ Hwf).
Qed.

(** A prune over the 64 shards is the sequence of its 64 critical sections; it removes exactly
    the expired records and returns how many it removed. *)
Theorem prune_expired_exact ttl0 (ops : list (store_op Entry)) now :
  let st := (exec (new ttl0) ops).1 in
  let '(st', n) := prune_expired_sync st now in
  st' = (exec st ((λ i, OpPruneShard i now) <$> seq 0 64)).1 ∧
  total_entries st = total_entries st' + n ∧
  ∀ k, store_lookup st' k = (r ← store_lookup st k; if is_expired r now then None else Some r).
Proof.
  cbv zeta. pose proof (exec_wf ops _ (new_wf ttl0)) as Hwf. revert Hwf.
  generalize (exec (new ttl0) ops).1 as st. intros st Hwf.
  pose proof (with_shards_run now st [] (shards st) eq_refl) as Hrun.
  rewrite (wf_len _ Hwf) in Hrun. change (length []) with 0%nat in Hrun.
  change (Z.to_nat NUM_SHARDS) with 64%nat in Hrun.
  pose proof (shard_at_prune st now) as Hat. revert Hat. unfold prune_expired_sync.
  rewrite prune_shards_spec in *. cbn [fst snd]. intros Hat.
  split; [by rewrite Hrun|split].
  - unfold total_entries; simpl. lia.
  - intros k. unfold store_lookup. rewrite Hat. apply retain_unexpired.
Qed.
End theory.

(** ** Concrete runs *)
Module StoreExamples.
Definition h (_ : string) : Z := 7.
Definition st1 : OAuthStateStore nat :=
  (insert_state_sync h (new 5) "abc" 42%nat 100 10 10).1.

Lemma take_state_provenance_witness :
  ∃ pre ttl t1 t2 post outs1 outs2,
    [OpInsert "abc" 42%nat 100 10 10; OpTake "x" 11] = pre ++ OpInsert "abc" 42%nat ttl t1 t2 :: post ∧
    (run (store_step h) (new 5) [OpInsert "abc" 42%nat 100 10 10; OpTake "x" 11]).2 =
      outs1 ++ OutInsert (Ok tt) :: outs2 ∧
    length outs1 = length pre ∧ spares_all h "abc" post outs2 ∧
    50 < expires_at (record_new 42%nat ttl t1).
Proof. apply take_state_provenance. vm_compute. reflexivity. Defined.

Lemma insert_take_roundtrip_witness :
  (take_state_sync h (run (store_step h) st1 [OpTake "x" 11; OpPruneShard 7 20]).1 "abc" 109).2
    = Some 42%nat.
Proof.
  refine (proj1 (insert_take_roundtrip h (new 5) "abc" 42%nat 100 10 10 st1
    [OpTake "x" 11; OpPruneShard 7 20] 109 0 (new_wf h 5) _ _ _ _ _ _)).
  - vm_compute; reflexivity.
  - lia.
  - vm_compute; discriminate.
  - vm_compute. repeat constructor; discriminate.
  - repeat constructor; simpl; intros t [=]; lia.
  - lia.
Defined.
End StoreExamples.
