(* ===== verification/StoreModel.v ===== *)
(** * StoreModel: the repository's state-machine models and their link to the store

    Models [SingleStateModel] and [OAuthStateTransitionModel] of
    src/src/verification/formal_models.rs, proves the invariants their doc comments announce over
    every sequence of operations, and proves that the production store of [Store] refines
    [OAuthStateTransitionModel]: for every interleaving at non-decreasing times, the store's takes
    return what the model's takes return. *)
From S2P Require Import Prelude Errors Store.
Open Scope Z_scope.

(** ** Data *)
Inductive StateTransitionStatus :=
| Uninitialized
| Pending (created_at_tick ttl_ticks : Z)
| Consumed (consumed_at_tick : Z)
| Expired (expired_at_tick : Z).

Record ModelStoredEntry := mkModelEntry {
  state_id : string;
  client_id : string;
  created_at_tick : Z;
  ttl_ticks : Z
}.

#[export] Instance StateTransitionStatus_eq_dec : EqDecision StateTransitionStatus.
Proof. solve_decision. Defined.
#[export] Instance ModelStoredEntry_eq_dec : EqDecision ModelStoredEntry.
Proof. solve_decision. Defined.

(** ** The single-token model *)
Module SingleStateModel.
Record SingleStateModel := mkSingle {
  status : StateTransitionStatus;
  consumption_count : Z
}.

Definition new : SingleStateModel := mkSingle Uninitialized 0.

Definition insert (m : SingleStateModel) (ttl current_tick : Z) : SingleStateModel * bool :=
  match status m with
  | Uninitialized => (mkSingle (Pending current_tick ttl) (consumption_count m), true)
  | _ => (m, false)
  end.

Definition take_state (m : SingleStateModel) (current_tick : Z) : SingleStateModel * option Z :=
  match status m with
  | Pending created ttl =>
      if u64_saturating_sub current_tick created >=? ttl
      then (mkSingle (Expired current_tick) (consumption_count m), None)
      else (mkSingle (Consumed current_tick) (u64_saturating_add (consumption_count m) 1),
            Some created)
  | _ => (m, None)
  end.

Definition verify_single_use_invariant (m : SingleStateModel) : bool := consumption_count m <=? 1.

Inductive op := OpInsert (ttl tick : Z) | OpTake (tick : Z).

Definition step (m : SingleStateModel) (o : op) : SingleStateModel * option Z :=
  match o with
  | OpInsert ttl t => ((insert m ttl t).1, None)
  | OpTake t => take_state m t
  end.
End SingleStateModel.

(** ** The model of the whole store *)
Record OAuthStateTransitionModel := mkModel {
  states : gmap string StateTransitionStatus;
  payloads : gmap string ModelStoredEntry;
  consumption_counts : gmap string Z
}.

Definition model_new : OAuthStateTransitionModel := mkModel ∅ ∅ ∅.

Definition model_insert (m : OAuthStateTransitionModel) (id client : string) (ttl tick : Z)
    : OAuthStateTransitionModel * bool :=
  if (id =? "")%string || (ttl =? 0) then (m, false)
  else
    let e := mkModelEntry id client tick ttl in
    (mkModel (<[id := Pending tick ttl]> (states m)) (<[id := e]> (payloads m))
       (delete id (consumption_counts m)), true).

Definition model_take_state (m : OAuthStateTransitionModel) (id : string) (tick : Z)
    : OAuthStateTransitionModel * option ModelStoredEntry :=
  match default Uninitialized (states m !! id) with
  | Pending created ttl =>
      if u64_saturating_sub tick created >=? ttl then
        (mkModel (<[id := Expired tick]> (states m)) (delete id (payloads m))
           (consumption_counts m), None)
      else
        (mkModel (<[id := Consumed tick]> (states m)) (delete id (payloads m))
           (<[id := u64_saturating_add (default 0 (consumption_counts m !! id)) 1]>
              (consumption_counts m)),
         payloads m !! id)
  | _ => (m, None)
  end.

Definition status_elapsed (tick : Z) (s : StateTransitionStatus) : bool :=
  match s with
  | Pending created ttl => u64_saturating_sub tick created >=? ttl
  | _ => false
  end.

Definition expired_keys (m : OAuthStateTransitionModel) (tick : Z) : list string :=
  fst <$> filter (λ kv, status_elapsed tick kv.2 = true) (map_to_list (states m)).

Definition model_expire (tick : Z) (m : OAuthStateTransitionModel) (id : string)
    : OAuthStateTransitionModel :=
  mkModel (<[id := Expired tick]> (states m)) (delete id (payloads m)) (consumption_counts m).

Definition model_prune (m : OAuthStateTransitionModel) (tick : Z)
    : OAuthStateTransitionModel * Z :=
  let keys := expired_keys m tick in
  (foldl (model_expire tick) m keys, zlen keys).

Definition model_verify_single_use (m : OAuthStateTransitionModel) (id : string) : bool :=
  default 0 (consumption_counts m !! id) <=? 1.

Definition is_consumed (s : StateTransitionStatus) : bool :=
  match s with Consumed _ => true | _ => false end.

Definition verify_global_store_invariants (m : OAuthStateTransitionModel) : bool :=
  forallb (λ kc : string * Z,
    let '(id, count) := kc in
    if count >? 1 then false
    else match states m !! id with
         | Some s => negb ((count =? 1) && negb (is_consumed s))
         | None => true
         end) (map_to_list (consumption_counts m)).

Fixpoint simulate_race (n : nat) (m : OAuthStateTransitionModel) (id : string) (tick : Z)
    (success failure : Z) : OAuthStateTransitionModel * (Z * Z) :=
  match n with
  | O => (m, (success, failure))
  | S n' =>
      let '(m', r) := model_take_state m id tick in
      match r with
      | Some _ => simulate_race n' m' id tick (u64_saturating_add success 1) failure
      | None => simulate_race n' m' id tick success (u64_saturating_add failure 1)
      end
  end.

Definition simulate_concurrent_consumption_race (m : OAuthStateTransitionModel) (id : string)
    (num_racers : nat) (tick : Z) : OAuthStateTransitionModel * (Z * Z) :=
  simulate_race num_racers m id tick 0 0.

Inductive model_op :=
| MInsert (id client : string) (ttl tick : Z)
| MTake (id : string) (tick : Z)
| MPrune (tick : Z).

Definition model_step (m : OAuthStateTransitionModel) (o : model_op)
    : OAuthStateTransitionModel * option ModelStoredEntry :=
  match o with
  | MInsert id c ttl t => ((model_insert m id c ttl t).1, None)
  | MTake id t => model_take_state m id t
  | MPrune t => ((model_prune m t).1, None)
  end.

(** ** Inductive invariant of the model

    What the status of a token says about the two other maps. *)
Definition model_inv (m : OAuthStateTransitionModel) : Prop := ∀ id,
  match states m !! id with
  | Some (Pending created ttl) =>
      consumption_counts m !! id = None ∧
      ∃ client, payloads m !! id = Some (mkModelEntry id client created ttl)
  | Some (Consumed _) => consumption_counts m !! id = Some 1
  | Some (Expired _) => consumption_counts m !! id = None
  | Some Uninitialized => False
  | None => consumption_counts m !! id = None
  end.

Lemma model_new_inv : model_inv model_new.
Proof. intros id. unfold model_new; simpl. by rewrite !lookup_empty. Qed.

(** Split on whether a key is the one the operation writes. *)
Ltac split_key id id' :=
  destruct (decide (id = id')) as [<-|?];
  [rewrite ?lookup_insert_eq, ?lookup_delete_eq | rewrite ?lookup_insert_ne, ?lookup_delete_ne by done].

Lemma model_insert_inv m id c ttl t : model_inv m → model_inv (model_insert m id c ttl t).1.
Proof.
  intros Hm. unfold model_insert. case_if; [done|]. intros id'; simpl.
  split_key id id'; [eauto|apply Hm].
Qed.

Lemma model_take_inv m id t : model_inv m → model_inv (model_take_state m id t).1.
Proof.
  intros Hm. unfold model_take_state. pose proof (Hm id) as Hid.
  destruct (states m !! id) as [[]|] eqn:E; simpl; try done.
  destruct Hid as [Hc [client Hp]].
  case_if; intros id'; simpl; split_key id id'; try apply Hm; [done|]. by rewrite Hc.
Qed.

Lemma model_expire_inv m id t :
  model_inv m → consumption_counts m !! id = None → model_inv (model_expire t m id).
Proof. intros Hm Hc id'; simpl. split_key id id'; [done|apply Hm]. Qed.

Lemma expired_keys_pending m t id :
  id ∈ expired_keys m t ↔
  ∃ created ttl, states m !! id = Some (Pending created ttl) ∧ ttl ≤ u64_saturating_sub t created.
Proof.
  unfold expired_keys. rewrite list_elem_of_fmap. split.
  - intros ([k s] & -> & [Hs Hin]%list_elem_of_filter). apply elem_of_map_to_list in Hin.
    destruct s; simpl in *; try done. b2p. eauto.
  - intros (c & ttl & Hs & Hle). exists (id, Pending c ttl). split; [done|].
    apply list_elem_of_filter. simpl. b2p. by rewrite elem_of_map_to_list.
Qed.

Lemma model_expire_all_inv t keys m :
  model_inv m → (∀ id, id ∈ keys → consumption_counts m !! id = None) →
  model_inv (foldl (model_expire t) m keys).
Proof.
  revert m. induction keys as [|k keys IH]; intros m Hm Hk; simpl; [done|]. apply IH.
  - apply model_expire_inv; [done|]. apply Hk. set_solver.
  - intros id Hid. simpl. apply Hk. set_solver.
Qed.

Lemma model_prune_inv m t : model_inv m → model_inv (model_prune m t).1.
Proof.
  intros Hm. apply model_expire_all_inv; [done|].
  intros id (c & ttl & Hs & _)%expired_keys_pending. specialize (Hm id). rewrite Hs in Hm. tauto.
Qed.

Lemma model_step_inv m o : model_inv m → model_inv (model_step m o).1.
Proof.
  destruct o; [apply model_insert_inv|apply model_take_inv|apply model_prune_inv].
Qed.

Lemma model_run_inv os : model_inv (run model_step model_new os).1.
Proof. apply run_invariant; [apply model_step_inv|apply model_new_inv]. Qed.

Lemma model_inv_counts m id c :
  model_inv m → consumption_counts m !! id = Some c → c = 1 ∧ ∃ t, states m !! id = Some (Consumed t).
Proof.
  intros Hm Hc. specialize (Hm id).
  destruct (states m !! id) as [[]|]; naive_solver congruence.
Qed.

(** The statuses after a pruning pass. *)
Lemma model_expire_all_states t keys m id :
  states (foldl (model_expire t) m keys) !! id =
  if decide (id ∈ keys) then Some (Expired t) else states m !! id.
Proof.
  revert m. induction keys as [|k keys IH]; intros m; cbn [foldl].
  - case_decide; [set_solver|done].
  - rewrite IH. pose proof (elem_of_cons keys id k) as Hc.
    repeat case_decide; try tauto; cbn [model_expire states].
    + assert (id = k) as -> by tauto. apply lookup_insert_eq.
    + apply lookup_insert_ne. naive_solver.
Qed.

Lemma model_expire_all_payloads t keys m id :
  id ∉ keys → payloads (foldl (model_expire t) m keys) !! id = payloads m !! id.
Proof.
  revert m. induction keys as [|k keys IH]; intros m Hid; simpl; [done|].
  rewrite IH by set_solver. simpl. apply lookup_delete_ne. set_solver.
Qed.

(** ** The store refines the model *)
Section refinement.
Context {Entry : Type} (hash : string → Z).
(** The client identifier the model keeps of an entry. *)
Context (client_of : Entry → string).

(** The model operation of a critical section and its outcome.  A refused insertion and a pass that
    only reads have none; a prune of one shard has none either, because the model forgets an
    expired token only when somebody asks for it. *)
Definition model_op_of (op : store_op Entry) (out : store_out Entry) : list model_op :=
  match op, out with
  | OpInsert k e ttl t _, OutInsert (Ok _) => [MInsert k (client_of e) ttl t]
  | OpTake k t, _ => [MTake k t]
  | _, _ => []
  end.

(** The operations of a history of the store, in the model. *)
Fixpoint model_ops_of (ops : list (store_op Entry)) (outs : list (store_out Entry))
    : list model_op :=
  match ops, outs with
  | op :: ops', out :: outs' => model_op_of op out ++ model_ops_of ops' outs'
  | _, _ => []
  end.

(** The clock readings of a critical section lie between [lo] and [hi], and it inserts a non-empty
    token with a positive time-to-live that does not overflow the clock. *)
Definition op_between (lo hi : Z) (op : store_op Entry) : Prop :=
  match op with
  | OpInsert k _ ttl t1 t2 =>
      lo ≤ t1 ≤ t2 ∧ t2 ≤ hi ∧ k ≠ "" ∧ 0 < ttl ∧ t1 + ttl ≤ INSTANT_MAX
  | OpTake _ t | OpContains _ t | OpPruneShard _ t => lo ≤ t ≤ hi
  | OpClearShard _ => False
  end.

(** A history at non-decreasing times, from [lo]. *)
Inductive monotone_history : Z → list (store_op Entry) → Prop :=
| mono_nil lo : monotone_history lo []
| mono_cons lo hi op ops :
    op_between lo hi op → monotone_history hi ops → monotone_history lo (op :: ops).

(** The record of a token in the store against its status in the model at time [now]: a token the
    store holds is pending with the same deadline and payload; one the store does not hold is not
    pending, or its deadline has passed. *)
Definition token_rel (now : Z) (m : OAuthStateTransitionModel) (k : string)
    (r : option (StoredStateRecord Entry)) : Prop :=
  match r with
  | Some r =>
      0 < expires_at r - created_at r ∧ created_at r ≤ now ∧
      states m !! k = Some (Pending (created_at r) (expires_at r - created_at r)) ∧
      payloads m !! k = Some (mkModelEntry k (client_of (entry r)) (created_at r)
                                (expires_at r - created_at r))
  | None => ∀ c ttl, states m !! k = Some (Pending c ttl) → ttl ≤ now - c
  end.

Definition sim (now : Z) (st : OAuthStateStore Entry) (m : OAuthStateTransitionModel) : Prop :=
  ∀ k, token_rel now m k (store_lookup hash st k).

(** What the store's take returns, as the model's payload. *)
Definition take_agrees (out : store_out Entry) (r : option ModelStoredEntry) : Prop :=
  match out with
  | OutTake o => client_of <$> o = client_id <$> r
  | _ => True
  end.

Lemma token_rel_later now now' m k r : now ≤ now' → token_rel now m k r → token_rel now' m k r.
Proof.
  intros Hle. destruct r as [r|]; simpl; [intuition lia|]. intros H c ttl Hs.
  specialize (H c ttl Hs). lia.
Qed.

Lemma token_rel_frame now m m' k r :
  states m' !! k = states m !! k → payloads m' !! k = payloads m !! k →
  token_rel now m k r → token_rel now m' k r.
Proof. intros E1 E2. destruct r; simpl; by rewrite ?E1, ?E2. Qed.

(** A record the store discarded as expired is one the model finds elapsed. *)
Lemma token_rel_expired now m k r t :
  token_rel now m k (Some r) → is_expired r t = true → t ≤ now → token_rel now m k None.
Proof.
  intros (Hpos & Hc & Hs & _) Hx Ht c ttl Hs'. apply is_expired_spec in Hx.
  rewrite Hs in Hs'. simplify_eq. lia.
Qed.

Lemma token_rel_spared lo hi m k r op out r' :
  lo ≤ hi → (∀ t, prune_time op = Some t → t ≤ hi) → spares hash k op out →
  token_step hash k r op out r' → token_rel lo m k r → token_rel hi m k r'.
Proof.
  intros Hle Hp Hs Hts Hrel. apply (token_rel_later _ hi) in Hrel; [|done].
  inversion Hts; subst; simpl in *; try done.
  - by destruct (Hs eq_refl).
  - eapply (token_rel_expired hi m k); eauto.
Qed.

Lemma op_between_le lo hi op : op_between lo hi op → lo ≤ hi.
Proof. destruct op; simpl; lia. Qed.

Lemma op_between_prune lo hi op t : op_between lo hi op → prune_time op = Some t → t ≤ hi.
Proof. destruct op; simpl; intros ? [=]; subst; lia. Qed.

Lemma record_new_rel now e ttl t k m :
  0 < ttl → t + ttl ≤ INSTANT_MAX → t ≤ now → k ≠ "" →
  token_rel now (model_insert m k (client_of e) ttl t).1 k (Some (record_new e ttl t)).
Proof.
  intros Hpos Hmax Ht Hk. unfold token_rel. rewrite record_new_expires by done.
  replace (t + ttl - created_at (record_new e ttl t)) with ttl by (simpl; lia).
  unfold model_insert. rewrite (proj2 (String.eqb_neq _ _) Hk), (proj2 (Z.eqb_neq ttl 0)) by lia.
  simpl. by rewrite !lookup_insert_eq.
Qed.

Lemma model_insert_frame m id c ttl t k :
  id ≠ k →
  states (model_insert m id c ttl t).1 !! k = states m !! k ∧
  payloads (model_insert m id c ttl t).1 !! k = payloads m !! k.
Proof. intros. unfold model_insert. case_if; simpl; [done|]. by rewrite !lookup_insert_ne. Qed.

Lemma model_take_frame m id t k :
  id ≠ k →
  states (model_take_state m id t).1 !! k = states m !! k ∧
  payloads (model_take_state m id t).1 !! k = payloads m !! k.
Proof.
  intros. unfold model_take_state. case_match; try done.
  case_if; simpl; by rewrite !lookup_insert_ne, !lookup_delete_ne.
Qed.

(** After a take the token is not pending in the model. *)
Lemma model_take_not_pending m id t c ttl :
  states (model_take_state m id t).1 !! id ≠ Some (Pending c ttl).
Proof.
  unfold model_take_state. destruct (states m !! id) as [[]|] eqn:E; simpl; try congruence.
  case_if; simpl; by rewrite lookup_insert_eq.
Qed.

(** The two takes agree on related tokens. *)
Lemma take_rel lo now st m k :
  token_rel lo m k (store_lookup hash st k) → lo ≤ now →
  client_of <$> (take_state_sync hash st k now).2 = client_id <$> (model_take_state m k now).2.
Proof.
  intros Hrel Hle. rewrite take_state_sync_result. unfold model_take_state.
  destruct (store_lookup hash st k) as [r|]; simpl in *.
  - destruct Hrel as (Hpos & Hc & -> & ->); simpl.
    destruct (is_expired r now) eqn:Hx; case_if; simpl; try done; b2p;
      unfold u64_saturating_sub in *.
    + apply is_expired_spec in Hx. lia.
    + apply not_true_iff_false in Hx. rewrite is_expired_spec in Hx. lia.
  - destruct (states m !! k) as [[| c ttl| |]|] eqn:E; simpl; try done.
    specialize (Hrel c ttl eq_refl). case_if; [done|]. b2p. unfold u64_saturating_sub in *. lia.
Qed.

(** One token across a critical section that spares it, when the model changes other tokens. *)
Lemma sim_spared lo hi st m m' op k :
  store_wf hash st → sim lo st m → op_between lo hi op →
  spares hash k op (store_step hash st op).2 →
  states m' !! k = states m !! k → payloads m' !! k = payloads m !! k →
  token_rel hi m' k (store_lookup hash (store_step hash st op).1 k).
Proof.
  intros Hwf Hsim Hop Hs E1 E2. apply (token_rel_frame _ m); [done|done|].
  apply (token_rel_spared lo hi m k (store_lookup hash st k) op (store_step hash st op).2);
    eauto using op_between_le, op_between_prune. by apply store_step_token.
Qed.

Lemma sim_insert lo hi st m k e ttl t1 t2 :
  store_wf hash st → sim lo st m → op_between lo hi (OpInsert k e ttl t1 t2) →
  sim hi (store_step hash st (OpInsert k e ttl t1 t2)).1
    (run model_step m (model_op_of (OpInsert k e ttl t1 t2)
       (store_step hash st (OpInsert k e ttl t1 t2)).2)).1.
Proof.
  intros Hwf Hsim Hop k'. pose proof Hop as (? & ? & Hk & Httl & Hmax).
  pose proof (sim_spared lo hi st m) as Hframe.
  specialize (λ m', Hframe m' (OpInsert k e ttl t1 t2) k' Hwf Hsim Hop).
  cbn [store_step] in *.
  destruct (insert_state_sync hash st k e ttl t1 t2) as [st' [[]|err]] eqn:E; cbn in *.
  - destruct (decide (k = k')) as [<-|Hne].
    + rewrite (store_lookup_insert_ok hash _ _ _ _ _ _ _ Hwf E). apply record_new_rel; lia || done.
    + apply Hframe; [done|by apply model_insert_frame..].
  - apply Hframe; eauto.
Qed.

Lemma sim_take lo hi st m k t :
  store_wf hash st → sim lo st m → op_between lo hi (OpTake k t) →
  sim hi (store_step hash st (OpTake k t)).1 (model_take_state m k t).1.
Proof.
  intros Hwf Hsim Hop k'. destruct (decide (k = k')) as [<-|Hne].
  - cbn [store_step]. pose proof (store_lookup_take hash st k t k Hwf) as Hl.
    destruct (take_state_sync hash st k t) as [st' r]; simpl in *.
    rewrite Hl, decide_True by done. intros c ttl Hs. by apply model_take_not_pending in Hs.
  - apply (sim_spared lo hi st m); try done; by apply model_take_frame.
Qed.

Lemma sim_step lo hi st m op :
  store_wf hash st → sim lo st m → op_between lo hi op →
  sim hi (store_step hash st op).1
    (run model_step m (model_op_of op (store_step hash st op).2)).1.
Proof.
  intros Hwf Hsim Hop. destruct op as [k e ttl t1 t2|k t|k t|i t|i].
  - by apply (sim_insert lo hi).
  - pose proof (sim_take lo hi st m k t Hwf Hsim Hop) as H. revert H. cbn.
    destruct (take_state_sync hash st k t), (model_take_state m k t); done.
  - intros k'. by apply (sim_spared lo hi st m).
  - intros k'. by apply (sim_spared lo hi st m).
  - done.
Qed.

(** The clients the takes of a history hand out, in order, in the store and in the model. *)
Definition take_outcome (op : store_op Entry) (out : store_out Entry) : list (option string) :=
  match op, out with OpTake _ _, OutTake r => [client_of <$> r] | _, _ => [] end.

Fixpoint store_takes (ops : list (store_op Entry)) (outs : list (store_out Entry))
    : list (option string) :=
  match ops, outs with
  | op :: ops', out :: outs' => take_outcome op out ++ store_takes ops' outs'
  | _, _ => []
  end.

Fixpoint model_takes (os : list model_op) (rs : list (option ModelStoredEntry))
    : list (option string) :=
  match os, rs with
  | MTake _ _ :: os', r :: rs' => (client_id <$> r) :: model_takes os' rs'
  | _ :: os', _ :: rs' => model_takes os' rs'
  | _, _ => []
  end.

Lemma model_takes_app os1 rs1 os2 rs2 :
  length rs1 = length os1 →
  model_takes (os1 ++ os2) (rs1 ++ rs2) = model_takes os1 rs1 ++ model_takes os2 rs2.
Proof.
  revert rs1. induction os1 as [|o os1 IH]; intros [|r rs1] Hlen; simplify_eq/=; [done|].
  destruct o; simpl; rewrite IH by lia; done.
Qed.

Lemma sim_take_outcome lo hi st m op :
  sim lo st m → op_between lo hi op →
  take_outcome op (store_step hash st op).2 =
  model_takes (model_op_of op (store_step hash st op).2)
    (run model_step m (model_op_of op (store_step hash st op).2)).2.
Proof.
  intros Hsim Hop. destruct op as [k e ttl t1 t2|k t|k t|i t|i]; cbn [store_step].
  - destruct (insert_state_sync hash st k e ttl t1 t2) as [? [[]|]]; done.
  - pose proof (take_rel lo t st m k (Hsim k)) as H. simpl in Hop.
    destruct (take_state_sync hash st k t) as [st' r]; cbn in *.
    destruct (model_take_state m k t) as [m' r']; cbn in *. by rewrite H by lia.
  - done.
  - done.
  - done.
Qed.

Lemma sim_run lo ops st m :
  store_wf hash st → sim lo st m → monotone_history lo ops →
  let outs := (run (store_step hash) st ops).2 in
  store_takes ops outs =
  model_takes (model_ops_of ops outs) (run model_step m (model_ops_of ops outs)).2.
Proof.
  intros Hwf Hsim Hmono. revert st m Hwf Hsim.
  induction Hmono as [lo|lo hi op ops Hop Hmono IH]; intros st m Hwf Hsim; [done|].
  pose proof (sim_step lo hi st m op Hwf Hsim Hop) as Hs.
  pose proof (sim_take_outcome lo hi st m op Hsim Hop) as Ht.
  pose proof (store_step_wf hash st op Hwf) as Hwf'. cbn [run].
  destruct (store_step hash st op) as [st' out]; cbn [fst snd] in *.
  specialize (IH st' _ Hwf' Hs). destruct (run (store_step hash) st' ops) as [st'' outs].
  cbn [snd store_takes model_ops_of] in *. rewrite run_app.
  pose proof (run_length model_step m (model_op_of op out)) as Hlen.
  destruct (run model_step m (model_op_of op out)) as [m' rs]; cbn [fst snd] in *.
  destruct (run model_step m' (model_ops_of ops outs)) as [m'' rs'].
  cbn [snd] in *. by rewrite model_takes_app, IH, Ht.
Qed.

(** C12. The production store implements the repository's state-machine model: run any interleaving
    of insertions, takes, lookups and pruning passes at non-decreasing times on a fresh store and
    its successful insertions and its takes on a fresh [OAuthStateTransitionModel]; every take
    hands out an entry of the same client in both, or nothing in both. *)
Theorem store_refines_model ttl0 lo ops :
  monotone_history lo ops →
  let outs := (run (store_step hash) (new ttl0) ops).2 in
  store_takes ops outs =
  model_takes (model_ops_of ops outs) (run model_step model_new (model_ops_of ops outs)).2.
Proof.
  apply sim_run; [apply new_wf|].
  intros k. unfold store_lookup. rewrite shard_at_new, lookup_empty. intros c ttl. simpl.
  by rewrite lookup_empty.
Qed.
End refinement.

Lemma store_refines_model_witness :
  let ops := [OpInsert "abc" "client-1" 100 10 10; OpTake "zzz" 11; OpPruneShard 3 12;
              OpTake "abc" 20; OpTake "abc" 21] in
  let outs := (run (store_step (λ _, 3)) (new 5) ops).2 in
  [None; Some "client-1"; None] =
  model_takes (model_ops_of id ops outs) (run model_step model_new (model_ops_of id ops outs)).2.
Proof.
  intros ops outs.
  refine (eq_trans (y := store_takes id ops outs) _ (store_refines_model (λ _, 3) id 5 0 ops _)).
  { vm_compute. reflexivity. }
  apply (mono_cons _ 10); [cbn; repeat split; done|].
  apply (mono_cons _ 11); [cbn; lia|]. apply (mono_cons _ 12); [cbn; lia|].
  apply (mono_cons _ 20); [cbn; lia|]. apply (mono_cons _ 21); [cbn; lia|]. constructor.
Defined.

(** ** Properties of the models *)

(** The announced invariants of [OAuthStateTransitionModel] hold after every sequence of its
    operations: no token is recorded as consumed more than once and the global invariant check
    passes. *)
Theorem model_invariants (os : list model_op) :
  let m := (run model_step model_new os).1 in
  verify_global_store_invariants m = true ∧ ∀ id, model_verify_single_use m id = true.
Proof.
  pose proof (model_run_inv os) as Hm. cbv zeta. revert Hm.
  generalize (run model_step model_new os).1 as m. intros m Hm. split.
  - unfold verify_global_store_invariants. apply forallb_forall. intros [id c] Hin.
    apply list_elem_of_In, elem_of_map_to_list in Hin.
    destruct (model_inv_counts _ _ _ Hm Hin) as [-> [t ->]]. done.
  - intros id. unfold model_verify_single_use.
    destruct (consumption_counts m !! id) as [c|] eqn:E; simpl; [|done].
    by destruct (model_inv_counts _ _ _ Hm E) as [-> _].
Qed.

(** The losers of a race: once a token is not pending, every further attempt fails. *)
Lemma race_losers n m id t s f :
  (∀ c ttl, states m !! id ≠ Some (Pending c ttl)) → f + Z.of_nat n ≤ u64_max →
  simulate_race n m id t s f = (m, (s, f + Z.of_nat n)).
Proof.
  revert f. induction n as [|n IH]; intros f Hm Hf; simpl.
  { by rewrite Z.add_0_r. }
  assert (model_take_state m id t = (m, None)) as ->.
  { unfold model_take_state. destruct (states m !! id) as [[]|] eqn:E; simpl; try done.
    by destruct (Hm created_at_tick0 ttl_ticks0). }
  unfold u64_saturating_add. rewrite Z.min_r by lia. rewrite IH by (done || lia).
  do 2 f_equal. lia.
Qed.

(** A race of [n + 1] consumers for one pending, unexpired token of a reachable model has
    exactly one winner and [n] losers; for an expired or unknown token everybody loses. *)
Theorem race_single_winner (os : list model_op) id n t :
  let m := (run model_step model_new os).1 in
  Z.of_nat n < u64_max →
  (simulate_concurrent_consumption_race m id (S n) t).2 =
  match states m !! id with
  | Some (Pending c ttl) =>
      if u64_saturating_sub t c >=? ttl then (0, Z.of_nat n + 1) else (1, Z.of_nat n)
  | _ => (0, Z.of_nat n + 1)
  end.
Proof.
  cbv zeta. pose proof (model_run_inv os) as Hm. revert Hm.
  generalize (run model_step model_new os).1 as m. intros m Hm Hn. specialize (Hm id).
  unfold simulate_concurrent_consumption_race. cbn [simulate_race].
  pose proof (model_take_not_pending m id t) as Hnp. revert Hnp. unfold model_take_state.
  destruct (states m !! id) as [[| c ttl | |]|] eqn:E; simpl; intros Hnp;
    rewrite ?race_losers by (try done; unfold u64_saturating_add, u64_max in *; congruence || lia);
    try (cbn [snd]; unfold u64_saturating_add, u64_max; f_equal; lia).
  destruct Hm as [_ [client Hp]].
  case_if; simpl; rewrite ?Hp, race_losers by (done || unfold u64_saturating_add, u64_max in *; lia);
    cbn [snd]; unfold u64_saturating_add, u64_max; f_equal; lia.
Qed.

Lemma race_single_winner_witness :
  (simulate_concurrent_consumption_race
     (run model_step model_new [MInsert "s" "c" 10 0]).1 "s" 5 3).2 = (1, 4).
Proof.
  rewrite (race_single_winner [MInsert "s" "c" 10 0] "s" 4 3); [reflexivity|]. unfold u64_max; lia.
Defined.

(** Zero time-to-live: the model refuses the insertion although its doc comment says that an
    insertion never fails for a non-empty identifier; the store accepts it. *)
Lemma model_insert_zero_ttl_diverges :
  (model_insert model_new "s" "c" 0 5).2 = false ∧
  (insert_state_sync (λ _, 0) (new 1) "s" "c" 0 5 5).2 = Ok tt.
Proof. by vm_compute. Qed.

(** Invariant of the single-token model: a token that was never consumed has count 0. *)
Lemma single_state_run_inv (os : list SingleStateModel.op) :
  let m := (run SingleStateModel.step SingleStateModel.new os).1 in
  match SingleStateModel.status m with
  | Consumed _ => SingleStateModel.consumption_count m = 1
  | _ => SingleStateModel.consumption_count m = 0
  end.
Proof.
  apply (run_invariant SingleStateModel.step (λ m, match SingleStateModel.status m with
    | Consumed _ => SingleStateModel.consumption_count m = 1
    | _ => SingleStateModel.consumption_count m = 0 end)); [|done].
  intros [s c] [ttl t|t] H; destruct s; simpl in *; try done.
  unfold SingleStateModel.take_state; simpl. case_if; simpl; [done|]. by rewrite H.
Qed.

(** How many takes can still succeed. *)
Definition takes_left (m : SingleStateModel.SingleStateModel) : nat :=
  match SingleStateModel.status m with Uninitialized | Pending _ _ => 1 | _ => 0 end.

Lemma single_state_takes os m :
  (length (omap id (run SingleStateModel.step m os).2) ≤ takes_left m)%nat.
Proof.
  revert m. induction os as [|o os IH]; intros m; simpl; [lia|].
  assert (length (omap id [(SingleStateModel.step m o).2]) +
          takes_left (SingleStateModel.step m o).1 ≤ takes_left m)%nat as Hs.
  { destruct m as [[] c], o as [ttl t|t]; try (cbn; lia).
    all: unfold SingleStateModel.take_state; cbn; try case_if; cbn; lia. }
  destruct (SingleStateModel.step m o) as [m' r]. specialize (IH m').
  destruct (run SingleStateModel.step m' os) as [m'' rs]; cbn in *. destruct r; cbn in *; lia.
Qed.

(** The single-token model is single-use over every sequence of its operations, re-insertion
    attempts included: its invariant check passes and at most one take succeeds. *)
Theorem single_state_single_use (os : list SingleStateModel.op) :
  SingleStateModel.verify_single_use_invariant
    (run SingleStateModel.step SingleStateModel.new os).1 = true ∧
  (length (omap id (run SingleStateModel.step SingleStateModel.new os).2) ≤ 1)%nat.
Proof.
  split; [|apply single_state_takes].
  pose proof (single_state_run_inv os) as H. unfold SingleStateModel.verify_single_use_invariant.
  apply Z.leb_le. cbv zeta in H. case_match; lia.
Qed.
