(* ===== verification/Replay.v ===== *)
(** * Replay: the caches of src/src/dpop.rs

    [DPoPReplayCache] (consumed proof identifiers, 64 shards with lazily pruned, capacity-bounded
    maps), [DPoPNonceCache] (the client's latest nonce per origin) and
    [InMemoryServerNonceSource] (the server's challenge nonces with an issuance rate limit).
    Operations take the current time in seconds where the code takes or reads it, and return the
    new state.  The replay cache's keyed hash is a parameter. *)
From S2P Require Import Prelude Errors Strs.
Open Scope Z_scope.

Definition NUM_SHARDS : Z := 64.
Definition REPLAY_PRUNE_HINT_INTERVAL : Z := 64.
Definition REPLAY_PRUNE_THRESHOLD : Z := 512.
Definition REPLAY_SHARD_CAPACITY : Z := 2048.
Definition NONCE_PRUNE_THRESHOLD : Z := 1024.
Definition NONCE_CACHE_CAPACITY : Z := 4096.
Definition CHALLENGE_ISSUANCE_RATE_LIMIT : Z := 64.

(** Entries whose expiry lies after [now]; the expiry maps of both server caches are pruned so. *)
Definition live (now exp : Z) : bool := exp >? now.
Definition map_size (m : gmap string Z) : Z := Z.of_nat (size m).

(** ** The replay cache *)
Section replay.
(** [RandomState::build_hasher], [write(key.as_bytes())], [finish() as usize]. *)
Context (hash : string → Z).

Record DPoPReplayCache := mkReplay {
  shards : list (gmap string Z);
  prune_hints : list Z
}.

Definition replay_new : DPoPReplayCache :=
  mkReplay (replicate (Z.to_nat NUM_SHARDS) ∅) (replicate (Z.to_nat NUM_SHARDS) 0).

Definition shard_index (key : string) : nat := Z.to_nat (hash key mod NUM_SHARDS).

Definition composite_key (jkt jti : string) : string := jkt +:+ String ":" jti.

(** [AtomicU64::fetch_add(1)]: the old value, and the wrapped increment. *)
Definition fetch_add_hint (c : DPoPReplayCache) (i : nat) : DPoPReplayCache * Z :=
  let old := default 0 (prune_hints c !! i) in
  (mkReplay (shards c) (<[i := (old + 1) mod (u64_max + 1)]> (prune_hints c)), old).

Definition set_shard (c : DPoPReplayCache) (i : nat) (m : gmap string Z) : DPoPReplayCache :=
  mkReplay (<[i := m]> (shards c)) (prune_hints c).

Definition check_and_record (c : DPoPReplayCache) (jkt jti : string) (expires_at_secs now_secs : Z)
    : DPoPReplayCache * result DPoPError unit :=
  let key := composite_key jkt jti in
  let i := shard_index key in
  let guard := shard_get (shards c) i in
  if (match guard !! key with Some existing_exp => existing_exp >? now_secs | None => false end)
  then (c, Err (DPoPError_ReplayDetected jti))
  else
    let '(c, admissions) := fetch_add_hint c i in
    let guard :=
      if (map_size guard >? REPLAY_PRUNE_THRESHOLD)
         && (admissions mod REPLAY_PRUNE_HINT_INTERVAL =? 0)
      then retain (live now_secs) guard else guard in
    if map_size guard >=? REPLAY_SHARD_CAPACITY then
      let guard := retain (live now_secs) guard in
      if map_size guard >=? REPLAY_SHARD_CAPACITY
      then (set_shard c i guard, Err DPoPError_ReplayCacheSaturated)
      else (set_shard c i (<[key := expires_at_secs]> guard), Ok tt)
    else (set_shard c i (<[key := expires_at_secs]> guard), Ok tt).

Definition is_consumed (c : DPoPReplayCache) (jkt jti : string) (now_secs : Z) : bool :=
  let key := composite_key jkt jti in
  match shard_get (shards c) (shard_index key) !! key with
  | Some exp => exp >? now_secs
  | None => false
  end.

Definition replay_prune_expired (c : DPoPReplayCache) (now_secs : Z) : DPoPReplayCache :=
  mkReplay (retain (live now_secs) <$> shards c) (prune_hints c).

Definition replay_len (c : DPoPReplayCache) : Z := shards_total (shards c).
Definition replay_is_empty (c : DPoPReplayCache) : bool := replay_len c =? 0.
Definition replay_clear (c : DPoPReplayCache) : DPoPReplayCache :=
  mkReplay ((λ _, ∅) <$> shards c) (prune_hints c).

(** The critical sections of the cache: one per call of [check_and_record] and [is_consumed], one
    per shard for the two loops. *)
Inductive replay_op :=
| RRecord (jkt jti : string) (exp now : Z)
| RIsConsumed (jkt jti : string) (now : Z)
| RPruneShard (i : nat) (now : Z)
| RClearShard (i : nat).

Inductive replay_out :=
| ORecord (r : result DPoPError unit)
| OConsumed (b : bool)
| ODone.

Definition replay_step (c : DPoPReplayCache) (op : replay_op) : DPoPReplayCache * replay_out :=
  match op with
  | RRecord jkt jti exp now => let '(c', r) := check_and_record c jkt jti exp now in (c', ORecord r)
  | RIsConsumed jkt jti now => (c, OConsumed (is_consumed c jkt jti now))
  | RPruneShard i now => (set_shard c i (retain (live now) (shard_get (shards c) i)), ODone)
  | RClearShard i => (set_shard c i ∅, ODone)
  end.

(** ** Abstract view: the expiry recorded for a composite key *)
Definition recorded (c : DPoPReplayCache) (key : string) : option Z :=
  shard_get (shards c) (shard_index key) !! key.

Record replay_wf (c : DPoPReplayCache) : Prop := {
  rwf_len : length (shards c) = Z.to_nat NUM_SHARDS;
  rwf_cap : ∀ i, map_size (shard_get (shards c) i) ≤ REPLAY_SHARD_CAPACITY
}.

Lemma replay_shard_lt k : (shard_index k < Z.to_nat NUM_SHARDS)%nat.
Proof.
  unfold shard_index. pose proof (Z.mod_pos_bound (hash k) NUM_SHARDS). unfold NUM_SHARDS in *. lia.
Qed.

Lemma replay_new_wf : replay_wf replay_new.
Proof.
  split; [done|]. intros i. cbn [replay_new shards]. by rewrite shard_get_replicate.
Qed.

Lemma set_shard_wf c i m :
  replay_wf c → map_size m ≤ REPLAY_SHARD_CAPACITY → replay_wf (set_shard c i m).
Proof.
  intros [Hlen Hcap] Hm. destruct (decide (i < length (shards c))%nat).
  - split; simpl; [by rewrite length_insert|]. intros j. rewrite shard_get_insert by done.
    by case_decide.
  - unfold set_shard. rewrite list_insert_ge by lia. by destruct c.
Qed.

Lemma recorded_set_shard c i m key :
  replay_wf c → (i < Z.to_nat NUM_SHARDS)%nat →
  recorded (set_shard c i m) key =
  if decide (i = shard_index key) then m !! key else recorded c key.
Proof.
  intros Hwf Hi. unfold recorded; simpl. rewrite shard_get_insert by (by rewrite (rwf_len _ Hwf)).
  by case_decide.
Qed.

Lemma live_size now m : map_size (retain (live now) m) ≤ map_size m.
Proof. unfold map_size. pose proof (retain_size (live now) m). lia. Qed.

Lemma retain_retain now (m : gmap string Z) :
  retain (live now) (retain (live now) m) = retain (live now) m.
Proof.
  apply map_eq. intros k. rewrite !retain_lookup_option.
  destruct (m !! k) as [e|]; simpl; [|done]. destruct (live now e) eqn:E; simpl; [|done].
  by rewrite E.
Qed.

(** How full the shard of a key is with unexpired entries. *)
Definition live_entries (c : DPoPReplayCache) (key : string) (now : Z) : Z :=
  map_size (retain (live now) (shard_get (shards c) (shard_index key))).

Definition is_live (now : Z) (o : option Z) : bool :=
  match o with Some exp => live now exp | None => false end.

(** The three outcomes of [check_and_record]: the cache is untouched, only pruned, or pruned at
    most and extended. *)
Lemma check_and_record_cases c jkt jti exp now :
  let key := composite_key jkt jti in
  let i := shard_index key in
  let guard := shard_get (shards c) i in
  (is_live now (recorded c key) = true ∧
   check_and_record c jkt jti exp now = (c, Err (DPoPError_ReplayDetected jti))) ∨
  (∃ c0 guard', is_live now (recorded c key) = false ∧ shards c0 = shards c ∧
    (guard' = guard ∨ guard' = retain (live now) guard) ∧
    ((REPLAY_SHARD_CAPACITY ≤ live_entries c key now ∧ guard' = retain (live now) guard ∧
      check_and_record c jkt jti exp now = (set_shard c0 i guard', Err DPoPError_ReplayCacheSaturated)) ∨
     (live_entries c key now < REPLAY_SHARD_CAPACITY ∧ map_size guard' < REPLAY_SHARD_CAPACITY ∧
      check_and_record c jkt jti exp now = (set_shard c0 i (<[key := exp]> guard'), Ok tt)))).
Proof.
  cbv zeta. unfold check_and_record, live_entries, is_live, recorded, live.
  set (key := composite_key jkt jti). set (guard := shard_get (shards c) (shard_index key)).
  destruct (match guard !! key with Some e => e >? now | None => false end); [by left|right].
  unfold fetch_add_hint; simpl.
  set (c0 := mkReplay (shards c) _). exists c0. pose proof (live_size now guard) as Hle.
  fold (live now).
  set (b := (_ && _)%bool). destruct b.
  - exists (retain (live now) guard). rewrite retain_retain.
    repeat split; [by right|]. case_if; b2p; [left|right]; auto with lia.
  - destruct (map_size guard >=? REPLAY_SHARD_CAPACITY) eqn:E1;
      [exists (retain (live now) guard)|exists guard]; (repeat split; [by auto|]); b2p.
    + case_if; b2p; [left|right]; auto with lia.
    + right. auto with lia.
Qed.

Lemma wf_shards c c0 : shards c0 = shards c → replay_wf c → replay_wf c0.
Proof. intros E [H1 H2]. split; by rewrite E. Qed.

Lemma check_and_record_wf c jkt jti exp now :
  replay_wf c → replay_wf (check_and_record c jkt jti exp now).1.
Proof.
  intros Hwf. pose proof (rwf_cap _ Hwf (shard_index (composite_key jkt jti))) as Hcap.
  destruct (check_and_record_cases c jkt jti exp now)
    as [[_ ->]|(c0 & g & _ & E & Hg & [(_ & Hg' & ->)|(_ & Hs & ->)])]; [done|..]; simpl;
    (apply set_shard_wf; [by apply (wf_shards c)|]).
  - subst g. etrans; [apply live_size|done].
  - unfold map_size in *. pose proof (map_size_insert_le g (composite_key jkt jti) exp).
    unfold REPLAY_SHARD_CAPACITY in *. lia.
Qed.

Lemma retain_live now (m : gmap string Z) k :
  retain (live now) m !! k = m !! k ∨
  (retain (live now) m !! k = None ∧ is_live now (m !! k) = false).
Proof.
  rewrite retain_lookup_option. destruct (m !! k) as [e|]; simpl; [|by left].
  destruct (live now e) eqn:E; auto.
Qed.

(** Effect of a call on any key: a successful call records its own key; apart from that an entry
    stays, or goes because it has expired. *)
Lemma check_and_record_lookup c jkt jti exp now k :
  replay_wf c →
  let key := composite_key jkt jti in
  let '(c', r) := check_and_record c jkt jti exp now in
  (r = Ok tt ∧ k = key ∧ is_live now (recorded c key) = false ∧ recorded c' k = Some exp) ∨
  ((k = key → r ≠ Ok tt) ∧
   (recorded c' k = recorded c k ∨
    (recorded c' k = None ∧ is_live now (recorded c k) = false))).
Proof.
  intros Hwf. cbv zeta. set (key := composite_key jkt jti). pose proof (replay_shard_lt key) as Hi.
  destruct (check_and_record_cases c jkt jti exp now)
    as [[_ ->]|(c0 & g & Hl & E & Hg & Hc)]; [right; split; [done|by left]|].
  fold key in Hl, Hg, Hc. assert (replay_wf c0) as Hwf0 by (by apply (wf_shards c)).
  assert (recorded c0 k = recorded c k) as Ek by (unfold recorded; by rewrite E).
  assert (shard_index key = shard_index k → g !! k = recorded c k ∨
          (g !! k = None ∧ is_live now (recorded c k) = false)) as Hgk.
  { intros Es. unfold recorded. rewrite <-Es. destruct Hg as [->| ->]; [by left|].
    apply retain_live. }
  destruct Hc as [(_ & _ & ->)|(_ & _ & ->)]; rewrite recorded_set_shard by done.
  - right. split; [done|]. case_decide; [by apply Hgk|rewrite Ek; by left].
  - destruct (decide (k = key)) as [->|Hk].
    + left. rewrite decide_True, lookup_insert_eq by done. done.
    + right. split; [done|]. rewrite lookup_insert_ne by done.
      case_decide; [by apply Hgk|rewrite Ek; by left].
Qed.

(** The times of a critical section that could make it drop an entry expiring at [exp], and the
    clearing of the entry's shard. *)
Definition keeps_until (key : string) (exp : Z) (op : replay_op) : Prop :=
  match op with
  | RRecord _ _ _ now => now < exp
  | RPruneShard _ now => now < exp
  | RClearShard i => i ≠ shard_index key
  | RIsConsumed _ _ _ => True
  end.

Lemma live_true now e : live now e = true ↔ now < e.
Proof. unfold live. rewrite Z.gtb_ltb. apply Z.ltb_lt. Qed.

Lemma recorded_with_any c i m k :
  replay_wf c → recorded (set_shard c i m) k = recorded c k ∨
  (i = shard_index k ∧ recorded (set_shard c i m) k = m !! k).
Proof.
  intros Hwf. destruct (decide (i < Z.to_nat NUM_SHARDS)%nat).
  - rewrite recorded_set_shard by done. case_decide; auto.
  - left. unfold set_shard. rewrite list_insert_ge by (rewrite (rwf_len _ Hwf); lia). by destruct c.
Qed.

Lemma replay_step_wf c op : replay_wf c → replay_wf (replay_step c op).1.
Proof.
  intros Hwf. destruct op as [jkt jti exp now|jkt jti now|i now|i]; simpl.
  - pose proof (check_and_record_wf c jkt jti exp now Hwf).
    by destruct (check_and_record c jkt jti exp now).
  - done.
  - apply set_shard_wf; [done|]. etrans; [apply live_size|]. apply (rwf_cap _ Hwf).
  - by apply set_shard_wf.
Qed.

Lemma replay_step_keeps c key exp op :
  replay_wf c → recorded c key = Some exp → keeps_until key exp op →
  recorded (replay_step c op).1 key = Some exp.
Proof.
  intros Hwf Hr Hk. destruct op as [jkt jti exp' now|jkt jti now|i now|i]; simpl in *.
  - pose proof (check_and_record_lookup c jkt jti exp' now key Hwf) as H.
    destruct (check_and_record c jkt jti exp' now) as [c' r]; simpl in *.
    assert (is_live now (recorded c key) = true) as Hl by (rewrite Hr; by apply live_true).
    destruct H as [(_ & <- & Hn & _)|(_ & [->|[_ Hn]])]; congruence.
  - done.
  - destruct (recorded_with_any c i (retain (live now) (shard_get (shards c) i)) key Hwf)
      as [->|[-> ->]]; [done|]. apply retain_lookup. split; [done|by apply live_true].
  - destruct (recorded_with_any c i ∅ key Hwf) as [->|[-> _]]; done.
Qed.

Lemma replay_run_keeps ops c key exp :
  replay_wf c → recorded c key = Some exp → Forall (keeps_until key exp) ops →
  recorded (run replay_step c ops).1 key = Some exp.
Proof.
  intros Hwf Hr Hops. revert c Hwf Hr. induction Hops as [|op ops Hop Hops IH]; intros c Hwf Hr; [done|].
  simpl. pose proof (replay_step_keeps c key exp op Hwf Hr Hop) as H1.
  pose proof (replay_step_wf c op Hwf) as H2.
  destruct (replay_step c op) as [c' o]. specialize (IH c' H2 H1).
  by destruct (run replay_step c' ops).
Qed.

Lemma check_and_record_ok c jkt jti exp now c' :
  replay_wf c → check_and_record c jkt jti exp now = (c', Ok tt) →
  recorded c' (composite_key jkt jti) = Some exp.
Proof.
  intros Hwf E. pose proof (check_and_record_lookup c jkt jti exp now (composite_key jkt jti) Hwf) as H.
  rewrite E in H. destruct H as [(_&_&_&?)|[H _]]; [done|]. by destruct (H eq_refl).
Qed.

Lemma check_and_record_live c jkt jti exp now e :
  recorded c (composite_key jkt jti) = Some e → now < e →
  check_and_record c jkt jti exp now = (c, Err (DPoPError_ReplayDetected jti)).
Proof.
  intros Hr Hlt. destruct (check_and_record_cases c jkt jti exp now)
    as [[_ ->]|(c0 & g & Hl & _)]; [done|].
  rewrite Hr in Hl. simpl in Hl. apply not_true_iff_false in Hl. by rewrite live_true in Hl.
Qed.

(** The composite key determines the pair when thumbprints contain no colon. *)
Lemma composite_key_inj jkt1 jti1 jkt2 jti2 :
  str_contains_char ":" jkt1 = false → str_contains_char ":" jkt2 = false →
  composite_key jkt1 jti1 = composite_key jkt2 jti2 → jkt1 = jkt2 ∧ jti1 = jti2.
Proof. apply join_inj. Qed.

(** ** Properties of the replay cache *)

(** C11. Replay protection under every interleaving: once a proof identifier has been recorded,
    every later attempt to record it before its expiry is refused as a replay and changes nothing,
    whatever other proofs are recorded, looked up or pruned (before that expiry) in between. *)
Theorem replay_rejected_until_expiry c jkt jti exp now0 c1 ops exp' now1 :
  replay_wf c →
  check_and_record c jkt jti exp now0 = (c1, Ok tt) →
  Forall (keeps_until (composite_key jkt jti) exp) ops →
  now1 < exp →
  let c2 := (run replay_step c1 ops).1 in
  check_and_record c2 jkt jti exp' now1 = (c2, Err (DPoPError_ReplayDetected jti)) ∧
  is_consumed c2 jkt jti now1 = true.
Proof.
  intros Hwf E Hops Hlt. cbv zeta.
  pose proof (check_and_record_wf c jkt jti exp now0 Hwf) as Hwf1. rewrite E in Hwf1; simpl in Hwf1.
  pose proof (replay_run_keeps ops c1 _ _ Hwf1 (check_and_record_ok _ _ _ _ _ _ Hwf E) Hops) as Hr.
  split; [by eapply check_and_record_live|].
  unfold is_consumed. unfold recorded in Hr. rewrite Hr. by apply live_true.
Qed.

(** C33. What a call decides and what it may forget: it reports a replay exactly when the pair is
    recorded and unexpired, saturation exactly when the shard is full of unexpired entries, and
    succeeds otherwise; in every case all other unexpired entries are kept. *)
Theorem check_and_record_decides c jkt jti exp now :
  replay_wf c →
  let '(c', r) := check_and_record c jkt jti exp now in
  r = (if is_consumed c jkt jti now then Err (DPoPError_ReplayDetected jti)
       else if live_entries c (composite_key jkt jti) now >=? REPLAY_SHARD_CAPACITY
            then Err DPoPError_ReplayCacheSaturated else Ok tt) ∧
  ∀ k e, recorded c k = Some e → now < e →
    recorded c' k = Some e.
Proof.
  intros Hwf. pose proof (λ k, check_and_record_lookup c jkt jti exp now k Hwf) as Hk. revert Hk.
  assert (is_consumed c jkt jti now = is_live now (recorded c (composite_key jkt jti))) as ->.
  { unfold is_consumed, recorded. by destruct (_ !! _). }
  destruct (check_and_record_cases c jkt jti exp now)
    as [[-> ->]|(c0 & g & -> & E & Hg & [(Hs & Hg' & ->)|(Hs & _ & ->)])]; intros Hk;
    (split; [|intros k e Hr Hlt; specialize (Hk k);
      assert (is_live now (recorded c k) = true) as Hl by (rewrite Hr; by apply live_true);
      destruct Hk as [(_ & -> & Hn & _)|(_ & [Hn|[_ Hn]])]; congruence]).
  - done.
  - by rewrite (proj2 (Z.geb_le _ _)) by lia.
  - case_if; [b2p; lia|done].
Qed.

(** The replay cache is bounded: after any sequence of critical sections every shard holds at
    most 2048 entries and the cache at most 131072. *)
Theorem replay_cache_bounded (ops : list replay_op) :
  let c := (run replay_step replay_new ops).1 in
  (∀ i, map_size (shard_get (shards c) i) ≤ 2048) ∧ 0 ≤ replay_len c ≤ 131072.
Proof.
  pose proof (run_invariant replay_step replay_wf replay_step_wf ops _ replay_new_wf) as Hwf.
  split; [apply (rwf_cap _ Hwf)|]. cbv zeta.
  pose proof (shards_total_bound (shards (run replay_step replay_new ops).1) 2048) as H.
  unfold zlen in H. rewrite (rwf_len _ Hwf) in H. apply H; [done|]. apply (rwf_cap _ Hwf).
Qed.
End replay.

(** ** Concrete runs of the replay cache *)
Module ReplayExamples.
Definition h (_ : string) : Z := 5.
Definition c1 : DPoPReplayCache := (check_and_record h replay_new "jkt" "a" 360 0).1.

Lemma replay_rejected_until_expiry_witness :
  (check_and_record h (run (replay_step h) c1 [RRecord "jkt" "b" 370 10; RPruneShard 5 20]).1
     "jkt" "a" 700 359).2 = Err (DPoPError_ReplayDetected "a").
Proof.
  refine (f_equal snd (proj1 (replay_rejected_until_expiry h replay_new "jkt" "a" 360 0 c1
    [RRecord "jkt" "b" 370 10; RPruneShard 5 20] 700 359 (replay_new_wf) _ _ _))).
  - vm_compute. reflexivity.
  - repeat constructor; simpl; lia.
  - lia.
Defined.

Lemma check_and_record_decides_witness :
  (check_and_record h c1 "jkt" "b" 360 0).2 = Ok tt ∧
  recorded h (check_and_record h c1 "jkt" "b" 360 0).1 (composite_key "jkt" "a") = Some 360.
Proof.
  assert (replay_wf c1) as Hwf by apply (check_and_record_wf h), replay_new_wf.
  pose proof (check_and_record_decides h c1 "jkt" "b" 360 0 Hwf) as H.
  destruct (check_and_record h c1 "jkt" "b" 360 0) as [c2 r] eqn:E. destruct H as [-> H].
  split; [vm_compute; reflexivity|]. apply H; [vm_compute; reflexivity|lia].
Defined.
End ReplayExamples.
