(* ===== verification/Nonces.v ===== *)
(** * Nonces: the DPoP nonce caches of src/src/dpop.rs

    [DPoPNonceCache] keeps, on the client, the latest nonce of each origin;
    [InMemoryServerNonceSource] issues and checks the server's challenge nonces.  The random bytes
    of a nonce are an argument, [base64url_encode] (the base64 crate) is a parameter.  Issuing a nonce
    takes two locks one after the other, so a concurrent history ([nonce_step]) is made of the
    critical sections: admissions, stores, checks and prunes. *)
From S2P Require Import Prelude Errors Strs Replay.
Open Scope Z_scope.

(** ** The client's nonce cache *)
Definition DPoPNonceCache := gmap string string.
Definition nonce_cache_new : DPoPNonceCache := ∅.

Definition nonce_origin (origin : string) : string := to_ascii_lowercase (trim origin).

Definition set_nonce (c : DPoPNonceCache) (origin nonce : string) : DPoPNonceCache :=
  <[nonce_origin origin := nonce]> c.
Definition get_nonce (c : DPoPNonceCache) (origin : string) : option string :=
  c !! nonce_origin origin.
Definition clear_nonce (c : DPoPNonceCache) (origin : string) : DPoPNonceCache :=
  delete (nonce_origin origin) c.

(** [extract_dpop_nonce]. *)
Definition extract_dpop_nonce (header_val : option string) : option string :=
  v ← header_val;
  let trimmed := trim v in if str_is_empty trimmed then None else Some trimmed.

(** ** The server's nonce source *)
Section server.
Context (base64url_encode : list Z → string).

(** [ttl] in whole seconds ([Duration::as_secs]). *)
Record InMemoryServerNonceSource := mkNonceSource {
  nonces : gmap string Z;
  ttl : Z;
  single_use : bool;
  issuance_window_secs : Z;
  issuance_count_in_window : Z;
  issuance_rate_limit : Z
}.

Definition nonce_source_new (ttl : Z) : InMemoryServerNonceSource :=
  mkNonceSource ∅ ttl false 0 0 CHALLENGE_ISSUANCE_RATE_LIMIT.
Definition with_issuance_rate_limit (s : InMemoryServerNonceSource) (per_second : Z) :=
  mkNonceSource (nonces s) (ttl s) (single_use s) (issuance_window_secs s)
    (issuance_count_in_window s) per_second.
Definition with_single_use (s : InMemoryServerNonceSource) :=
  mkNonceSource (nonces s) (ttl s) true (issuance_window_secs s)
    (issuance_count_in_window s) (issuance_rate_limit s).

Definition set_nonces (s : InMemoryServerNonceSource) (m : gmap string Z) :=
  mkNonceSource m (ttl s) (single_use s) (issuance_window_secs s)
    (issuance_count_in_window s) (issuance_rate_limit s).

Definition nonce_prune_expired (s : InMemoryServerNonceSource) (now_secs : Z) :=
  set_nonces s (retain (live now_secs) (nonces s)).

(** The limiter's block of [generate_nonce]. *)
Definition issuance_admit (s : InMemoryServerNonceSource) (now_secs : Z)
    : InMemoryServerNonceSource * result DPoPError unit :=
  let '(window, count) :=
    if negb (issuance_window_secs s =? now_secs) then (now_secs, 0)
    else (issuance_window_secs s, issuance_count_in_window s) in
  if count >=? issuance_rate_limit s then
    (mkNonceSource (nonces s) (ttl s) (single_use s) window count (issuance_rate_limit s),
     Err DPoPError_NonceCacheSaturated)
  else
    (mkNonceSource (nonces s) (ttl s) (single_use s) window (count + 1) (issuance_rate_limit s),
     Ok tt).

(** The map behind the write guard after the opportunistic prune. *)
Definition nonce_guard (m : gmap string Z) (now_secs : Z) : gmap string Z :=
  if map_size m >? NONCE_PRUNE_THRESHOLD then retain (live now_secs) m else m.

(** The second critical section: a call that read [now_secs] and was admitted stores its nonce; [raw]
    are its 24 random bytes. *)
Definition store_nonce (s : InMemoryServerNonceSource) (now_secs : Z) (raw : list Z)
    : InMemoryServerNonceSource * result DPoPError string :=
  let nonce := base64url_encode raw in
  let exp := u64_saturating_add now_secs (ttl s) in
  let guard := nonce_guard (nonces s) now_secs in
  if map_size guard >=? NONCE_CACHE_CAPACITY
  then (set_nonces s guard, Err DPoPError_NonceCacheSaturated)
  else (set_nonces s (<[nonce := exp]> guard), Ok nonce).

(** A call of [generate_nonce] with nothing in between its two sections; [now] is its clock reading. *)
Definition generate_nonce (s : InMemoryServerNonceSource) (now : Z) (raw : list Z)
    : InMemoryServerNonceSource * result DPoPError string :=
  let now_secs := unix_secs_or_zero now in
  let '(s, admitted) := issuance_admit s now_secs in
  match admitted with
  | Err e => (s, Err e)
  | Ok _ => store_nonce s now_secs raw
  end.

Definition verify_nonce (s : InMemoryServerNonceSource) (now : Z) (nonce : string)
    : InMemoryServerNonceSource * bool :=
  let now_secs := unix_secs_or_zero now in
  let trimmed := trim nonce in
  if single_use s then
    match nonces s !! trimmed with
    | Some exp =>
        if exp >? now_secs then (set_nonces s (delete trimmed (nonces s)), true) else (s, false)
    | None => (s, false)
    end
  else
    match nonces s !! trimmed with
    | Some exp => (s, exp >? now_secs)
    | None => (s, false)
    end.

(** *** Concurrent calls

    The source is shared by the requests of the server.  A call of [generate_nonce] holds the
    limiter's locks in one critical section ([NAdmit]) and the map's lock in a later one ([NStore]);
    the other calls have one section each.  [admitted] are the seconds read by the calls that stand
    between their two sections; [NStore i] is the second section of the [i]-th of them. *)
Record NonceSys := mkNonceSys { source : InMemoryServerNonceSource; admitted : list Z }.

Inductive nonce_op :=
| NAdmit (now : Z)
| NStore (i : nat) (raw : list Z)
| NVerify (now : Z) (nonce : string)
| NPrune (now_secs : Z).

(** [OGenerated] with the second its call read. *)
Inductive nonce_out :=
| OAdmitted (r : result DPoPError unit)
| OGenerated (now_secs : Z) (r : result DPoPError string)
| OVerified (b : bool)
| OPruned
| OIdle.

Definition nonce_step (sys : NonceSys) (op : nonce_op) : NonceSys * nonce_out :=
  let s := source sys in
  match op with
  | NAdmit now =>
      let '(s', r) := issuance_admit s (unix_secs_or_zero now) in
      (mkNonceSys s' (if is_ok r then admitted sys ++ [unix_secs_or_zero now] else admitted sys), OAdmitted r)
  | NStore i raw =>
      match admitted sys !! i with
      | Some t =>
          let '(s', r) := store_nonce s t raw in (mkNonceSys s' (delete i (admitted sys)), OGenerated t r)
      | None => (sys, OIdle)
      end
  | NVerify now n => let '(s', b) := verify_nonce s now n in (mkNonceSys s' (admitted sys), OVerified b)
  | NPrune now => (mkNonceSys (nonce_prune_expired s now) (admitted sys), OPruned)
  end.

(** The sequential call is its two sections in a row. *)
Lemma generate_nonce_sections sys now raw :
  let r := run nonce_step sys (NAdmit now :: [NStore (length (admitted sys)) raw]) in
  source r.1 = (generate_nonce (source sys) now raw).1 ∧ admitted r.1 = admitted sys ∧
  r.2 = match (issuance_admit (source sys) (unix_secs_or_zero now)).2 with
        | Ok u => [OAdmitted (Ok u); OGenerated (unix_secs_or_zero now) (generate_nonce (source sys) now raw).2]
        | Err e => [OAdmitted (Err e); OIdle]
        end.
Proof.
  cbv zeta. cbn [run nonce_step]. unfold generate_nonce.
  destruct (issuance_admit (source sys) (unix_secs_or_zero now)) as [s' [u|e]]; cbn [is_ok fst snd source admitted].
  - rewrite list_lookup_middle by done. destruct (store_nonce s' _ raw) as [s'' r]; cbn [fst snd source admitted].
    split_and!; [done| |done]. rewrite delete_middle, app_nil_r. done.
  - rewrite lookup_ge_None_2 by done. done.
Qed.

(** ** Configuration and capacity *)
Definition same_config (s s' : InMemoryServerNonceSource) : Prop :=
  ttl s' = ttl s ∧ single_use s' = single_use s ∧ issuance_rate_limit s' = issuance_rate_limit s.

Lemma issuance_admit_config s t : same_config s (issuance_admit s t).1.
Proof. unfold same_config, issuance_admit. destruct (negb _); repeat (case_match; simplify_eq); done. Qed.

Lemma store_nonce_config s t raw : same_config s (store_nonce s t raw).1.
Proof. unfold same_config, store_nonce. by case_if. Qed.

Lemma verify_nonce_config s now n : same_config s (verify_nonce s now n).1.
Proof. unfold same_config, verify_nonce. repeat (case_match; simplify_eq); done. Qed.

Lemma nonce_step_config sys op : same_config (source sys) (source (nonce_step sys op).1).
Proof.
  destruct op as [now|i raw|now n|now]; simpl; [| | |done].
  - pose proof (issuance_admit_config (source sys) (unix_secs_or_zero now)). by destruct (issuance_admit _ _).
  - destruct (admitted sys !! i) as [t|]; [|done].
    pose proof (store_nonce_config (source sys) t raw). by destruct (store_nonce _ _ _).
  - pose proof (verify_nonce_config (source sys) now n). by destruct (verify_nonce _ _ _).
Qed.

(** The window, the count and the stored nonces, per operation. *)
Lemma issuance_admit_frame s t :
  nonces (issuance_admit s t).1 = nonces s ∧ ttl (issuance_admit s t).1 = ttl s ∧
  single_use (issuance_admit s t).1 = single_use s.
Proof. unfold issuance_admit. destruct (negb _); repeat case_match; simplify_eq; done. Qed.

Definition nonce_wf (s : InMemoryServerNonceSource) : Prop :=
  map_size (nonces s) ≤ NONCE_CACHE_CAPACITY ∧
  0 ≤ issuance_count_in_window s ≤ issuance_rate_limit s.

Lemma issuance_admit_wf s t :
  nonce_wf s → nonce_wf (issuance_admit s t).1.
Proof.
  unfold nonce_wf, issuance_admit. intros [H1 H2].
  destruct (negb _); case_if; b2p; simpl; lia.
Qed.

Lemma set_nonces_wf s m :
  nonce_wf s → map_size m ≤ NONCE_CACHE_CAPACITY → nonce_wf (set_nonces s m).
Proof. unfold nonce_wf. simpl. tauto. Qed.

Lemma store_nonce_wf s t raw : nonce_wf s → nonce_wf (store_nonce s t raw).1.
Proof.
  intros Hwf. unfold store_nonce.
  assert (map_size (nonce_guard (nonces s) t) ≤ NONCE_CACHE_CAPACITY) as Hg.
  { unfold nonce_guard. case_if; [etrans; [apply live_size|]|]; apply Hwf. }
  case_if; simpl; apply set_nonces_wf; try done. b2p. unfold map_size in *.
  pose proof (map_size_insert_le (nonce_guard (nonces s) t) (base64url_encode raw)
    (u64_saturating_add t (ttl s))). lia.
Qed.

Lemma generate_nonce_wf s now raw : nonce_wf s → nonce_wf (generate_nonce s now raw).1.
Proof.
  intros Hwf. unfold generate_nonce. pose proof (issuance_admit_wf s (unix_secs_or_zero now) Hwf) as Hwf'.
  destruct (issuance_admit _ _) as [s' [[]|e]]; [by apply store_nonce_wf|done].
Qed.

Lemma nonce_step_wf sys op : nonce_wf (source sys) → nonce_wf (source (nonce_step sys op).1).
Proof.
  intros Hwf. destruct op as [now|i raw|now n|now]; simpl.
  - pose proof (issuance_admit_wf _ (unix_secs_or_zero now) Hwf). by destruct (issuance_admit _ _).
  - destruct (admitted sys !! i) as [t|]; [|done].
    pose proof (store_nonce_wf _ t raw Hwf). by destruct (store_nonce _ _ _).
  - unfold verify_nonce. repeat (case_match; simplify_eq/=); try done.
    apply set_nonces_wf; [done|]. destruct Hwf as [Hs _]. unfold map_size in *.
    pose proof (map_size_delete_le (nonces (source sys)) (trim n)). lia.
  - apply set_nonces_wf; [done|]. etrans; [apply live_size|]. apply Hwf.
Qed.

(** ** Where an accepted nonce comes from *)
Abbreviation nrun := (run nonce_step).

(** The operation does not use up the nonce [n]: it is not a successful check of it on a single-use
    source. *)
Definition unspent (single : bool) (n : string) (op : nonce_op) (out : nonce_out) : Prop :=
  match op, out with
  | NVerify _ m, OVerified true => single = true → trim m ≠ n
  | _, _ => True
  end.

Lemma store_nonce_lookup s t raw n e :
  nonces (store_nonce s t raw).1 !! n = Some e →
  ((store_nonce s t raw).2 = Ok n ∧ n = base64url_encode raw ∧ e = u64_saturating_add t (ttl s)) ∨ nonces s !! n = Some e.
Proof.
  unfold store_nonce.
  assert (nonce_guard (nonces s) t !! n = Some e → nonces s !! n = Some e) as Hg.
  { unfold nonce_guard. case_if; [|done]. by intros [? _]%retain_lookup. }
  case_if; simpl; [auto|]. rewrite lookup_insert_Some. naive_solver.
Qed.

Lemma nonce_step_lookup sys op n e :
  nonces (source (nonce_step sys op).1) !! n = Some e →
  (∃ i raw t, op = NStore i raw ∧ admitted sys !! i = Some t ∧ (nonce_step sys op).2 = OGenerated t (Ok n) ∧
     e = u64_saturating_add t (ttl (source sys))) ∨
  (nonces (source sys) !! n = Some e ∧ unspent (single_use (source sys)) n op (nonce_step sys op).2).
Proof.
  destruct op as [now|i raw|now m|now]; simpl.
  - intros H. right. pose proof (issuance_admit_frame (source sys) (unix_secs_or_zero now)) as (En & _).
    destruct (issuance_admit _ _) as [s' r]; simpl in *. by rewrite <-En.
  - destruct (admitted sys !! i) as [t|] eqn:Ei; [|by right].
    intros H. pose proof (store_nonce_lookup (source sys) t raw n e) as Hg.
    destruct (store_nonce _ _ _) as [s' r]; simpl in *.
    destruct (Hg H) as [(-> & _ & ->)|?]; [left; by exists i, raw, t|by right].
  - intros H. right. revert H. unfold verify_nonce.
    destruct (single_use (source sys)) eqn:Hs; simpl.
    + destruct (nonces (source sys) !! trim m) as [e'|]; [case_if|]; simpl; try done.
      intros [Hne Hl]%lookup_delete_Some. by split.
    + destruct (nonces (source sys) !! trim m) as [e'|]; simpl; [|done]. intros. split; [done|]. by case_if.
  - intros [Hl _]%retain_lookup. by right.
Qed.

Lemma nrun_config sys ops : same_config (source sys) (source (nrun sys ops).1).
Proof.
  apply (run_invariant nonce_step (λ sys', same_config (source sys) (source sys'))); [|done].
  intros s' op (E1 & E2 & E3). destruct (nonce_step_config s' op) as (F1 & F2 & F3).
  unfold same_config. by rewrite F1, F2, F3.
Qed.

Lemma nrun_snoc sys ops op :
  nrun sys (ops ++ [op]) =
  ((nonce_step (nrun sys ops).1 op).1, (nrun sys ops).2 ++ [(nonce_step (nrun sys ops).1 op).2]).
Proof.
  rewrite run_app. destruct (nrun sys ops) as [s1 o1]; simpl. by destruct (nonce_step s1 op).
Qed.

(** The calls between their sections have been admitted. *)
Lemma admitted_provenance s ops t :
  t ∈ admitted (nrun (mkNonceSys s []) ops).1 → ∃ now, NAdmit now ∈ ops ∧ t = unix_secs_or_zero now.
Proof.
  induction ops as [|op ops IH] using rev_ind; [by intros ?%not_elem_of_nil|]. rewrite nrun_snoc. cbn [fst].
  assert (t ∈ admitted (nrun (mkNonceSys s []) ops).1 → ∃ now, NAdmit now ∈ ops ++ [op] ∧ t = unix_secs_or_zero now) as Hold.
  { intros (now & Hin & ->)%IH. exists now. set_solver. }
  destruct op as [now|i raw|now m|now]; simpl.
  - destruct (issuance_admit _ _) as [s' [u|e]]; simpl; [|done]. intros [Hin|Hin]%elem_of_app; [by apply Hold|].
    exists now. apply list_elem_of_singleton in Hin. set_solver.
  - destruct (_ !! i) as [t'|] eqn:Ei; [|done]. destruct (store_nonce _ _ _) as [s' r]; simpl. intros Hin. apply Hold.
    rewrite (delete_Permutation _ _ _ Ei). by right.
  - by destruct (verify_nonce _ _ _).
  - done.
Qed.

Lemma nonce_provenance sys ops n e :
  nonces (source sys) = ∅ →
  nonces (source (nrun sys ops).1) !! n = Some e →
  ∃ pre i raw post outs1 outs2 t,
    ops = pre ++ NStore i raw :: post ∧ admitted (nrun sys pre).1 !! i = Some t ∧
    (nrun sys ops).2 = outs1 ++ OGenerated t (Ok n) :: outs2 ∧ length outs1 = length pre ∧
    e = u64_saturating_add t (ttl (source sys)) ∧
    Forall2 (unspent (single_use (source sys)) n) post outs2.
Proof.
  intros Hs. revert e. induction ops as [|op ops IH] using rev_ind; intros e.
  { simpl. by rewrite Hs, lookup_empty. }
  rewrite nrun_snoc; simpl. destruct (nrun_config sys ops) as (E1 & E2 & _).
  pose proof (run_length nonce_step sys ops) as Hlen. intros Hl.
  destruct (nonce_step_lookup _ _ _ _ Hl) as [(i & raw & t & -> & Ht & -> & ->)|[Ho Hu]].
  - eexists ops, i, raw, [], (nrun sys ops).2, [], t. rewrite E1. by repeat split.
  - destruct (IH e Ho) as (pre & i & raw & post & o1 & o2 & t & -> & Ht & Hout & Hl1 & -> & Hf).
    eexists pre, i, raw, (post ++ [op]), o1, (o2 ++ [_]), t. rewrite Hout, <-!app_assoc.
    repeat split; try done. apply Forall2_app; [done|]. rewrite <-E2. by repeat constructor.
Qed.

Lemma verify_nonce_true s now n :
  (verify_nonce s now n).2 = true →
  ∃ e, nonces s !! trim n = Some e ∧ unix_secs_or_zero now < e.
Proof.
  unfold verify_nonce. intros H.
  destruct (nonces s !! trim n) as [e|]; [|by destruct (single_use s)].
  exists e. split; [done|]. apply Z.ltb_lt. rewrite <-Z.gtb_ltb.
  destruct (single_use s); simpl in *; [|done]. by destruct (e >? unix_secs_or_zero now).
Qed.

(** ** Issuance rate *)

(** A sequence of operations whose admissions read non-decreasing times, from [lo] seconds. *)
Fixpoint gen_monotone (lo : Z) (ops : list nonce_op) : Prop :=
  match ops with
  | [] => True
  | NAdmit now :: ops' => lo ≤ unix_secs_or_zero now ∧ gen_monotone (unix_secs_or_zero now) ops'
  | _ :: ops' => gen_monotone lo ops'
  end.

(** How many nonces the history issued to calls that read the second [t], and how many calls of that
    second are between their sections. *)
Fixpoint issued_at (t : Z) (outs : list nonce_out) : Z :=
  match outs with
  | OGenerated now_secs (Ok _) :: outs' => (if now_secs =? t then 1 else 0) + issued_at t outs'
  | _ :: outs' => issued_at t outs'
  | [] => 0
  end.
Fixpoint pending_at (t : Z) (l : list Z) : Z :=
  match l with [] => 0 | x :: l' => (if x =? t then 1 else 0) + pending_at t l' end.

Lemma pending_at_app t l1 l2 : pending_at t (l1 ++ l2) = pending_at t l1 + pending_at t l2.
Proof. induction l1 as [|x l1 IH]; simpl; [done|]. rewrite IH. lia. Qed.
Lemma pending_at_nonneg t l : 0 ≤ pending_at t l.
Proof. induction l as [|x l IH]; simpl; [done|]. case_if; lia. Qed.
Lemma pending_at_delete t l i x :
  l !! i = Some x → pending_at t l = (if x =? t then 1 else 0) + pending_at t (delete i l).
Proof. revert i. induction l as [|y l IH]; intros [|i] E; simpl in *; try done; [by injection E as ->|]. rewrite (IH i E). lia. Qed.

(** What the limiter still grants in the second [t]. *)
Definition budget (s : InMemoryServerNonceSource) (t : Z) : Z :=
  if issuance_window_secs s =? t then issuance_rate_limit s - issuance_count_in_window s
  else if issuance_window_secs s <? t then issuance_rate_limit s else 0.

Lemma budget_nonneg s t : nonce_wf s → 0 ≤ budget s t.
Proof. intros [_ H]. unfold budget. repeat case_if; lia. Qed.

Lemma issuance_admit_budget s now t :
  nonce_wf s → issuance_window_secs s ≤ now →
  (if is_ok (issuance_admit s now).2 then if now =? t then 1 else 0 else 0)
    + budget (issuance_admit s now).1 t ≤ budget s t.
Proof.
  intros [_ Hc] Hle. unfold issuance_admit, budget.
  destruct (negb (issuance_window_secs s =? now)) eqn:E; b2p; repeat case_if; simpl in *;
    repeat case_if; b2p; lia.
Qed.

Lemma issuance_admit_window s now : issuance_window_secs (issuance_admit s now).1 = now.
Proof.
  unfold issuance_admit. destruct (negb (issuance_window_secs s =? now)) eqn:E;
    case_if; simpl; b2p; done.
Qed.

Lemma budget_limiter s s' t :
  issuance_window_secs s' = issuance_window_secs s →
  issuance_count_in_window s' = issuance_count_in_window s →
  issuance_rate_limit s' = issuance_rate_limit s → budget s' t = budget s t.
Proof. unfold budget. by intros -> -> ->. Qed.

(** Only admissions touch the limiter. *)
Definition same_limiter (s s' : InMemoryServerNonceSource) : Prop :=
  issuance_window_secs s' = issuance_window_secs s ∧ issuance_count_in_window s' = issuance_count_in_window s ∧
  issuance_rate_limit s' = issuance_rate_limit s.
Lemma store_nonce_limiter s t raw : same_limiter s (store_nonce s t raw).1.
Proof. unfold same_limiter, store_nonce. by case_if. Qed.
Lemma verify_nonce_limiter s now n : same_limiter s (verify_nonce s now n).1.
Proof. unfold same_limiter, verify_nonce. repeat (case_match; simplify_eq/=); done. Qed.

Lemma issued_within_budget t ops sys :
  nonce_wf (source sys) → gen_monotone (issuance_window_secs (source sys)) ops →
  issued_at t (nrun sys ops).2 ≤ budget (source sys) t + pending_at t (admitted sys).
Proof.
  revert sys. induction ops as [|op ops IH]; intros sys Hwf Hm.
  { simpl. pose proof (budget_nonneg (source sys) t Hwf). pose proof (pending_at_nonneg t (admitted sys)). lia. }
  cbn [run]. pose proof (nonce_step_wf sys op Hwf) as Hwf'.
  assert (∀ sys' out, nonce_step sys op = (sys', out) → same_limiter (source sys) (source sys') →
    gen_monotone (issuance_window_secs (source sys)) ops →
    issued_at t (nrun sys' ops).2 ≤ budget (source sys) t + pending_at t (admitted sys')) as Hsame.
  { intros sys' out E (L1 & L2 & L3) Hm'. rewrite E in Hwf'. rewrite <-(budget_limiter _ (source sys')) by done.
    apply IH; [done|]. by rewrite L1. }
  destruct op as [now|i raw|now n|now]; cbn [nonce_step] in *.
  - destruct Hm as [Hle Hm]. pose proof (issuance_admit_window (source sys) (unix_secs_or_zero now)) as Hw.
    pose proof (issuance_admit_budget (source sys) (unix_secs_or_zero now) t Hwf Hle) as Ha.
    destruct (issuance_admit _ _) as [s' r]; cbn [fst snd source admitted] in *. rewrite <-Hw in Hm.
    specialize (IH (mkNonceSys s' (if is_ok r then admitted sys ++ [unix_secs_or_zero now] else admitted sys)) Hwf' Hm).
    destruct (nrun _ ops) as [s'' outs]; cbn [fst snd issued_at source admitted] in *.
    destruct r as [u|e]; cbn [is_ok] in *; [rewrite pending_at_app in IH; simpl in IH|]; lia.
  - destruct (admitted sys !! i) as [x|] eqn:Ei.
    + pose proof (store_nonce_limiter (source sys) x raw) as Hl. rewrite (pending_at_delete t _ i x Ei).
      destruct (store_nonce _ _ _) as [s' r]. specialize (Hsame _ _ eq_refl Hl Hm). simpl in Hsame.
      destruct (nrun _ ops) as [s'' outs]; cbn [snd issued_at] in *. destruct r; [lia|case_if; lia].
    + specialize (Hsame _ _ eq_refl ltac:(done) Hm). by destruct (nrun _ ops).
  - pose proof (verify_nonce_limiter (source sys) now n) as Hl.
    destruct (verify_nonce _ _ _) as [s' b]. specialize (Hsame _ _ eq_refl Hl Hm). by destruct (nrun _ ops).
  - specialize (Hsame _ _ eq_refl ltac:(done) Hm). by destruct (nrun _ ops).
Qed.

(** ** Properties *)

(** C35. An accepted challenge nonce was issued by this source to a call that the limiter had
    admitted, has not expired (counted from the second that call read), and, on a single-use source,
    has not been accepted since it was last issued: for every interleaving of the critical sections
    of issuances, checks and prunes on an initially empty source. *)
Theorem verify_nonce_provenance s ops now n :
  nonces s = ∅ →
  (verify_nonce (source (nrun (mkNonceSys s []) ops).1) now n).2 = true →
  ∃ pre now0 i raw post outs1 outs2,
    ops = pre ++ NStore i raw :: post ∧ NAdmit now0 ∈ pre ∧
    admitted (nrun (mkNonceSys s []) pre).1 !! i = Some (unix_secs_or_zero now0) ∧
    (nrun (mkNonceSys s []) ops).2 = outs1 ++ OGenerated (unix_secs_or_zero now0) (Ok (trim n)) :: outs2 ∧
    length outs1 = length pre ∧
    unix_secs_or_zero now < u64_saturating_add (unix_secs_or_zero now0) (ttl s) ∧
    Forall2 (unspent (single_use s) (trim n)) post outs2.
Proof.
  intros Hs (e & He & Hlt)%verify_nonce_true.
  destruct (nonce_provenance (mkNonceSys s []) ops _ _ Hs He)
    as (pre & i & raw & post & o1 & o2 & t & ? & Ht & ? & ? & -> & ?).
  destruct (admitted_provenance s pre t) as (now0 & Hin & ->); [by eapply list_elem_of_lookup_2|].
  by eexists pre, now0, i, raw, post, o1, o2.
Qed.

(** Flood bounds of the challenge source: in any interleaving of the critical sections whose
    admissions read a non-decreasing clock, at most [issuance_rate_limit] nonces are issued for any one
    second, and at most 4096 nonces are ever held. *)
Theorem issuance_rate_bounded (ttl0 limit t : Z) (single : bool) ops :
  0 ≤ limit →
  gen_monotone 0 ops →
  let s0 := mkNonceSys (mkNonceSource ∅ ttl0 single 0 0 limit) [] in
  issued_at t (nrun s0 ops).2 ≤ limit ∧ map_size (nonces (source (nrun s0 ops).1)) ≤ 4096.
Proof.
  intros Hl Hm. cbv zeta. assert (nonce_wf (mkNonceSource ∅ ttl0 single 0 0 limit)) as Hwf.
  { split; [done|simpl; lia]. }
  split.
  - etrans; [by apply (issued_within_budget t ops (mkNonceSys (mkNonceSource ∅ ttl0 single 0 0 limit) []))|].
    unfold budget; simpl. repeat case_if; lia.
  - apply (run_invariant nonce_step (λ sys, nonce_wf (source sys)) nonce_step_wf ops
      (mkNonceSys (mkNonceSource ∅ ttl0 single 0 0 limit) []) Hwf).
Qed.
End server.

(** ** Concrete runs *)
Module NonceExamples.
Definition enc (raw : list Z) : string := "n" +:+ pretty (hd 0 raw).
Definition src : InMemoryServerNonceSource := with_single_use (nonce_source_new 300).

(** Two calls whose sections interleave: the second to be admitted stores first. *)
Definition history : list nonce_op :=
  [NAdmit 5000000000; NAdmit 5500000000; NStore 1 [8]; NStore 0 [7]; NVerify 6000000000 "x"].
Definition start : NonceSys := mkNonceSys src [].

Lemma verify_nonce_provenance_witness :
  (verify_nonce (source (run (nonce_step enc) start history).1) 7000000000 " n7 ").2 = true ∧
  ∃ pre now0 i raw post, history = pre ++ NStore i raw :: post ∧ NAdmit now0 ∈ pre ∧
    unix_secs_or_zero 7000000000 < u64_saturating_add (unix_secs_or_zero now0) (ttl src).
Proof.
  split; [vm_compute; reflexivity|].
  destruct (verify_nonce_provenance enc src history 7000000000 " n7 ")
    as (pre & now0 & i & raw & post & o1 & o2 & E & Hin & _ & _ & _ & Hlt & _);
    [vm_compute; reflexivity..|]. exists pre, now0, i, raw, post. exact (conj E (conj Hin Hlt)).
Defined.

Lemma issuance_rate_bounded_witness :
  issued_at 5 (run (nonce_step enc) (mkNonceSys (mkNonceSource ∅ 300 false 0 0 2) [])
    [NAdmit 5000000000; NAdmit 5100000000; NStore 0 [1]; NAdmit 5200000000; NStore 0 [2]; NStore 0 [3]]).2 ≤ 2.
Proof.
  refine (proj1 (issuance_rate_bounded enc 300 2 5 false _ _ _)); [lia|].
  vm_compute. repeat split; discriminate.
Defined.
End NonceExamples.
