(* ===== verification/Pkce.v ===== *)
(** * Pkce: RFC 7636 verifiers and challenges

    Models src/src/kernels/pkce_bytes.rs, src/src/pkce.rs and [PkceFormalSpec] of
    src/src/verification/formal_models.rs.  Random bytes are an argument of the generators. *)
From S2P Require Import Prelude Errors Strs Externals Crypto.
Open Scope Z_scope.

(** ** The byte kernel *)
Definition VERIFIER_MIN_LENGTH : Z := 43.
Definition VERIFIER_MAX_LENGTH : Z := 128.

Definition u8_is_ascii_alphanumeric (b : Z) : bool :=
  ((48 <=? b) && (b <=? 57)) || ((65 <=? b) && (b <=? 90)) || ((97 <=? b) && (b <=? 122)).

Definition is_unreserved_byte (byte : Z) : bool :=
  u8_is_ascii_alphanumeric byte || (byte =? 45) || (byte =? 46) || (byte =? 95) || (byte =? 126).

Definition is_valid_verifier_length (len : Z) : bool :=
  (len >=? VERIFIER_MIN_LENGTH) && (len <=? VERIFIER_MAX_LENGTH).

Inductive VerifierByteError :=
| InvalidLength (len : Z)
| InvalidCharacter (byte position : Z).

Fixpoint validate_bytes_from (position : Z) (bytes : list Z) : result VerifierByteError unit :=
  match bytes with
  | [] => Ok tt
  | byte :: rest =>
      if negb (is_unreserved_byte byte) then Err (InvalidCharacter byte position)
      else validate_bytes_from (position + 1) rest
  end.

Definition validate_verifier_bytes (verifier : list Z) : result VerifierByteError unit :=
  let len := zlen verifier in
  if negb (is_valid_verifier_length len) then Err (InvalidLength len)
  else validate_bytes_from 0 verifier.

(** ** [PkceFormalSpec] *)
Definition is_unreserved_char (byte : Z) : bool :=
  bool_decide (97 ≤ byte ≤ 122) || bool_decide (65 ≤ byte ≤ 90) || bool_decide (48 ≤ byte ≤ 57)
  || (byte =? 45) || (byte =? 46) || (byte =? 95) || (byte =? 126).
Definition is_valid_verifier_len (len : Z) : bool := (len >=? 43) && (len <=? 128).
Definition spec_validate_verifier (verifier : list Z) : bool :=
  if negb (is_valid_verifier_len (zlen verifier)) then false
  else forallb is_unreserved_char verifier.
Definition spec_s256_challenge_len : Z := 43.

(** ** pkce.rs *)
Inductive PkceMethod := S256.
Definition pkce_method_as_str (m : PkceMethod) : string := match m with S256 => "S256" end.

Record PkcePair := mkPkcePair { verifier : string; challenge : string; method : PkceMethod }.

Section pkce.
Context `{Base64} `{Sha2} `{Subtle}.

Definition derive_s256_challenge (verifier : string) : string :=
  base64url_encode (sha256_digest (as_bytes verifier)).

Definition validate_verifier (verifier : string) : result PkceError unit :=
  match validate_verifier_bytes (as_bytes verifier) with
  | Ok _ => Ok tt
  | Err (InvalidLength len) =>
      Err (PkceError_InvalidVerifierLength len VERIFIER_MIN_LENGTH VERIFIER_MAX_LENGTH)
  | Err (InvalidCharacter byte position) =>
      Err (PkceError_InvalidVerifierCharacter byte position)
  end.

Definition verify_pkce (verifier expected_challenge : string) : result PkceError unit :=
  _ ← validate_verifier verifier;
  if negb (str_len expected_challenge =? 43)
  then Err (PkceError_InvalidChallengeLength (str_len expected_challenge))
  else
    let derived := derive_s256_challenge verifier in
    if constant_time_eq (as_bytes derived) (as_bytes expected_challenge)
    then Ok tt else Err PkceError_ChallengeMismatch.

Definition from_verifier (verifier : string) : result PkceError PkcePair :=
  _ ← validate_verifier verifier;
  Ok (mkPkcePair verifier (derive_s256_challenge verifier) S256).

(** [entropy]: the 32 random bytes. *)
Definition generate (entropy : list Z) : PkcePair :=
  let verifier := base64url_encode entropy in
  mkPkcePair verifier (derive_s256_challenge verifier) S256.

(** [bytes]: the [entropy_bytes] random bytes.  The product in the error is a [usize] product, which
    wraps in a release build (a build with overflow checks panics there instead). *)
Definition generate_with_entropy_size (entropy_bytes : Z) (bytes : list Z)
    : result PkceError PkcePair :=
  if negb (bool_decide (32 ≤ entropy_bytes ≤ 96))
  then Err (PkceError_InvalidVerifierLength (((entropy_bytes * 4) mod (u64_max + 1) + 2) / 3) 43 128)
  else from_verifier (base64url_encode bytes).

Definition pkce_pair_verify (p : PkcePair) (candidate_verifier : string) : result PkceError unit :=
  verify_pkce candidate_verifier (challenge p).

(** ** Facts *)
Lemma is_unreserved_spec b : is_unreserved_char b = is_unreserved_byte b.
Proof.
  unfold is_unreserved_char, is_unreserved_byte, u8_is_ascii_alphanumeric.
  apply eq_iff_eq_true. b2p. lia.
Qed.

Lemma forallb_unreserved l : forallb is_unreserved_char l = forallb is_unreserved_byte l.
Proof. induction l as [|b l IH]; simpl; [done|]. by rewrite is_unreserved_spec, IH. Qed.

(** The scan accepts iff every byte is unreserved, and reports the first byte that is not. *)
Lemma validate_bytes_from_spec bytes p :
  match validate_bytes_from p bytes with
  | Ok _ => forallb is_unreserved_byte bytes = true
  | Err (InvalidCharacter byte position) =>
      ∃ good bad, bytes = good ++ byte :: bad ∧ position = p + zlen good ∧
        forallb is_unreserved_byte good = true ∧ is_unreserved_byte byte = false
  | Err (InvalidLength _) => False
  end.
Proof.
  revert p. induction bytes as [|b bytes IH]; intros p; simpl; [done|].
  destruct (is_unreserved_byte b) eqn:E; simpl.
  - specialize (IH (p + 1)). destruct (validate_bytes_from (p + 1) bytes) as [[]|[len|byte pos]].
    + done.
    + done.
    + destruct IH as (good & bad & -> & -> & Hg & Hb).
      exists (b :: good), bad. simpl. rewrite E. repeat split; [|done|done].
      unfold zlen. simpl. lia.
  - exists [], bytes. unfold zlen. simpl. repeat split; [lia|done].
Qed.

Lemma validate_verifier_bytes_ok l :
  is_ok (validate_verifier_bytes l) =
  is_valid_verifier_length (zlen l) && forallb is_unreserved_byte l.
Proof.
  unfold validate_verifier_bytes. destruct (is_valid_verifier_length (zlen l)); [|done].
  cbn [negb andb]. pose proof (validate_bytes_from_spec l 0) as Hs.
  destruct (validate_bytes_from 0 l) as [[]|[len|byte p]]; [done|done|].
  destruct Hs as (good & bad & -> & _ & _ & Hb). rewrite forallb_app. cbn. rewrite Hb.
  by rewrite andb_false_r.
Qed.

Lemma validate_verifier_Ok v :
  validate_verifier v = Ok tt ↔ spec_validate_verifier (as_bytes v) = true.
Proof.
  unfold validate_verifier, validate_verifier_bytes, spec_validate_verifier.
  change (is_valid_verifier_len (zlen (as_bytes v))) with (is_valid_verifier_length (zlen (as_bytes v))).
  case_if; [done|].
  rewrite forallb_unreserved.
  pose proof (validate_bytes_from_spec (as_bytes v) 0) as Hs.
  destruct (validate_bytes_from 0 (as_bytes v)) as [[]|[len|byte pos]]; [by split|done|].
  split; [done|]. destruct Hs as (good & bad & -> & _ & _ & Hb).
  rewrite forallb_app; simpl. rewrite Hb, andb_false_r. done.
Qed.

Lemma base64url_unreserved c : base64url_char c = true → is_unreserved_byte (byte_of c) = true.
Proof. destruct c as [[] [] [] [] [] [] [] []]; done. Qed.

Lemma forallb_as_bytes f s : forallb f (as_bytes s) = str_forall (λ c, f (byte_of c)) s.
Proof. unfold as_bytes. induction s as [|a s IH]; simpl; [done|]. f_equal. apply IH. Qed.

(** The encoding of [n] bytes is a valid verifier for every [n] between 32 and 96. *)
Lemma encoded_verifier_valid `{!Base64Alphabet} `{!Base64Length} bytes :
  32 ≤ zlen bytes ≤ 96 → validate_verifier (base64url_encode bytes) = Ok tt.
Proof.
  intros Hl. apply validate_verifier_Ok. unfold spec_validate_verifier.
  rewrite zlen_as_bytes. unfold base64url_encode. rewrite b64_length.
  assert (is_valid_verifier_len ((4 * zlen bytes + 2) / 3) = true) as ->.
  { unfold is_valid_verifier_len. b2p. Z.to_euclidean_division_equations. lia. }
  simpl. rewrite forallb_as_bytes. eapply str_forall_impl; [|apply b64_alphabet].
  intros c Hc. rewrite is_unreserved_spec. by apply base64url_unreserved.
Qed.

Lemma derived_challenge_len `{!Base64Length} `{!Sha2Laws} v :
  str_len (derive_s256_challenge v) = spec_s256_challenge_len.
Proof.
  unfold derive_s256_challenge, base64url_encode, sha256_digest.
  rewrite b64_length. unfold zlen. by rewrite sha256_len.
Qed.

Lemma verify_pkce_Ok `{!Base64Length} `{!Sha2Laws} `{!SubtleLaws} v c :
  verify_pkce v c = Ok tt ↔
  spec_validate_verifier (as_bytes v) = true ∧ c = derive_s256_challenge v.
Proof.
  unfold verify_pkce. rewrite bind_Ok. rewrite <-validate_verifier_Ok. split.
  - intros ([] & Hv & Hc). split; [done|]. destruct (negb _); [done|].
    destruct (constant_time_eq _ _) eqn:E; [|done].
    apply constant_time_eq_spec, as_bytes_inj in E. done.
  - intros [Hv ->]. exists tt. split; [done|]. rewrite derived_challenge_len; simpl.
    by rewrite (proj2 (constant_time_eq_spec _ _)).
Qed.
End pkce.

(** ** Properties *)

(** C36. A code verifier is accepted exactly when RFC 7636 allows it (43 to 128 bytes, all
    unreserved), which is also what the repository's [PkceFormalSpec] says; otherwise the error is
    the length, or the first offending byte with its position. *)
Theorem validate_verifier_correct (v : string) :
  (validate_verifier v = Ok tt ↔ spec_validate_verifier (as_bytes v) = true) ∧
  (spec_validate_verifier (as_bytes v) = true ↔
   43 ≤ str_len v ≤ 128 ∧ Forall (λ b, is_unreserved_byte b = true) (as_bytes v)) ∧
  (∀ byte pos, validate_verifier v = Err (PkceError_InvalidVerifierCharacter byte pos) →
   43 ≤ str_len v ≤ 128 ∧ is_unreserved_byte byte = false ∧
   ∃ good bad, as_bytes v = good ++ byte :: bad ∧ pos = zlen good ∧
     Forall (λ b, is_unreserved_byte b = true) good).
Proof.
  split; [apply validate_verifier_Ok|]. split.
  - unfold spec_validate_verifier, is_valid_verifier_len. rewrite zlen_as_bytes.
    case_if; b2p; [split; [done|]; intuition lia|].
    rewrite Forall_forall, forallb_forall.
    setoid_rewrite is_unreserved_spec. setoid_rewrite <-list_elem_of_In. intuition lia.
  - intros byte pos. unfold validate_verifier, validate_verifier_bytes, is_valid_verifier_length.
    unfold VERIFIER_MIN_LENGTH, VERIFIER_MAX_LENGTH. rewrite zlen_as_bytes.
    case_if; [done|]. b2p. pose proof (validate_bytes_from_spec (as_bytes v) 0) as Hs.
    destruct (validate_bytes_from 0 (as_bytes v)) as [|[len|byte' pos']]; [done|done|].
    intros [= -> ->]. destruct Hs as (good & bad & E & -> & Hg & Hb).
    repeat split; [lia|lia|done|]. exists good, bad. repeat split; [done|].
    apply Forall_forall. intros b Hin. rewrite forallb_forall in Hg. apply Hg.
    by apply list_elem_of_In.
Qed.

(** PKCE binds: a verifier is accepted for a challenge exactly when it is well-formed and its
    S256 challenge is that challenge; generated pairs verify themselves, and generation with a
    custom entropy size succeeds exactly for 32 to 96 bytes. *)
Theorem pkce_binding `{Base64Alphabet} `{!Base64Length} `{Sha2Laws} `{SubtleLaws} :
  (∀ v c, verify_pkce v c = Ok tt ↔
     spec_validate_verifier (as_bytes v) = true ∧ c = derive_s256_challenge v) ∧
  (∀ entropy, zlen entropy = 32 →
     pkce_pair_verify (generate entropy) (verifier (generate entropy)) = Ok tt) ∧
  (∀ bytes, (32 ≤ zlen bytes ≤ 96 →
       ∃ p, generate_with_entropy_size (zlen bytes) bytes = Ok p ∧
            pkce_pair_verify p (verifier p) = Ok tt) ∧
     (¬ 32 ≤ zlen bytes ≤ 96 →
       ∃ e, generate_with_entropy_size (zlen bytes) bytes = Err e)).
Proof.
  split; [apply verify_pkce_Ok|]. split.
  - intros entropy Hl. apply verify_pkce_Ok. split; [|done].
    apply validate_verifier_Ok. apply encoded_verifier_valid. lia.
  - intros bytes. unfold generate_with_entropy_size. split; intros Hl.
    + rewrite bool_decide_true by done. simpl. unfold from_verifier.
      rewrite encoded_verifier_valid by done. simpl. eexists. split; [done|].
      apply verify_pkce_Ok. split; [|done]. by apply validate_verifier_Ok, encoded_verifier_valid.
    + rewrite bool_decide_false by done. simpl. eauto.
Qed.

(** ** A concrete instance *)
Module PkceExamples.
(** An encoder with the documented length and alphabet (enough for the properties above, which do
    not decode), a digest of 32 zero bytes and a decidable comparison. *)
Fixpoint letters (n : nat) : string := match n with O => "" | S n' => String "A" (letters n') end.
Definition enc (b : list Z) : string := letters (Z.to_nat ((4 * zlen b + 2) / 3)).
#[local] Instance base64_example : Base64 :=
  {| b64_no_pad_encode := enc; b64_no_pad_decode := λ _, Err ""; b64_padded_decode := λ _, Err "" |}.
#[local] Instance base64_alphabet_example : Base64Alphabet.
Proof.
  split. intros b. unfold b64_no_pad_encode; simpl. unfold enc.
  induction (Z.to_nat _) as [|n IH]; [done|]. simpl. done.
Qed.
#[local] Instance base64_length_example : Base64Length.
Proof.
  split. intros b. unfold b64_no_pad_encode; simpl. unfold enc, str_len.
  assert (∀ n, String.length (letters n) = n) as -> by (induction n; simpl; congruence).
  apply Z2Nat.id. unfold zlen. apply Z.div_pos; lia.
Qed.
#[local] Instance sha2_example : Sha2 := {| sha256 := λ _, replicate 32 0 |}.
#[local] Instance sha2_laws_example : Sha2Laws.
Proof.
  split; intros d; [done|]. apply Forall_replicate. unfold u8_valid, u8_max. lia.
Qed.
#[local] Instance subtle_example : Subtle := {| ct_eq a b := bool_decide (a = b) |}.
#[local] Instance subtle_laws_example : SubtleLaws.
Proof. split. intros a b _. apply bool_decide_eq_true. Qed.

Lemma validate_verifier_correct_witness :
  ∃ good bad, as_bytes (letters 20 +:+ "!" +:+ letters 30) = good ++ 33 :: bad ∧ 20 = zlen good ∧
    Forall (λ b, is_unreserved_byte b = true) good.
Proof.
  apply (proj2 (proj2 (validate_verifier_correct (letters 20 +:+ "!" +:+ letters 30))) 33 20).
  vm_compute. reflexivity.
Defined.

Lemma pkce_binding_witness :
  verify_pkce (letters 43) (letters 43) = Ok tt ∧
  pkce_pair_verify (generate (replicate 32 7)) (verifier (generate (replicate 32 7))) = Ok tt.
Proof.
  split.
  - apply (proj1 pkce_binding). split; vm_compute; reflexivity.
  - apply (proj1 (proj2 pkce_binding)). reflexivity.
Defined.
End PkceExamples.
