(* ===== verification/Nsid.v ===== *)
(** * Nsid: the XRPC NSID grammar kernel (src/src/kernels/nsid_bytes.rs)

    The tests of the code on [char]s are written on bytes: each of them only accepts ASCII, so a
    byte of a multi-byte character fails it as the character does. *)
From S2P Require Import Prelude Strs.
Open Scope Z_scope.

Definition NSID_MAX_LENGTH : Z := 317.
Definition NSID_MAX_SEGMENT_LENGTH : Z := 63.
Definition NSID_MIN_SEGMENTS : Z := 3.

Definition backslash : ascii := ascii_of_N 92.

(** [s.chars().next().is_some_and(f)]. *)
Definition first_is (f : ascii → bool) (s : string) : bool :=
  match s with String a _ => f a | EmptyString => false end.

Definition nsid_char (c : ascii) : bool := is_ascii_alphanumeric c || Ascii.eqb c "-".

(** The rejection test of the loop over the segments. *)
Definition bad_segment (seg : string) : bool :=
  str_is_empty seg || (str_len seg >? NSID_MAX_SEGMENT_LENGTH) || starts_with seg "-"
  || ends_with seg "-" || negb (str_forall nsid_char seg).

Definition is_valid_nsid (nsid : string) : bool :=
  let trimmed := trim_start_matches "/" nsid in
  if str_is_empty trimmed || (str_len trimmed >? NSID_MAX_LENGTH) then false
  else if str_contains trimmed ".." || str_contains_char backslash trimmed
          || str_contains_char "%" trimmed then false
  else
    let segments := split_char "." trimmed in
    if zlen segments <? NSID_MIN_SEGMENTS then false
    else if existsb bad_segment segments then false
    else if negb (first_is is_ascii_alphabetic (hd "" segments)) then false
    else
      let name := List.last segments "" in
      if negb (first_is is_ascii_alphabetic name)
         || negb (str_forall is_ascii_alphanumeric name) then false
      else true.

(** ** The grammar, declaratively *)
Definition nsid_segment (seg : string) : Prop :=
  1 ≤ str_len seg ≤ 63 ∧ str_forall nsid_char seg = true ∧
  starts_with seg "-" = false ∧ ends_with seg "-" = false.

Record nsid_grammar (t : string) (segments : list string) : Prop := {
  ng_split : segments = split_char "." t;
  ng_len : str_len t ≤ 317;
  ng_count : 3 ≤ zlen segments;
  ng_segments : Forall nsid_segment segments;
  ng_authority : first_is is_ascii_alphabetic (hd "" segments) = true;
  ng_name : first_is is_ascii_alphabetic (List.last segments "") = true ∧
            str_forall is_ascii_alphanumeric (List.last segments "") = true
}.

(** ** Facts on splitting *)
(** A property of all characters but the separator, per piece or on the whole. *)
Lemma split_char_forall c f s :
  Forall (λ p, str_forall f p = true) (split_char c s) ↔
  str_forall (λ a, Ascii.eqb a c || f a) s = true.
Proof.
  induction s as [|a s IH]; simpl.
  - rewrite Forall_cons, Forall_nil. done.
  - destruct (Ascii.eqb a c); simpl.
    + rewrite Forall_cons. simpl. tauto.
    + pose proof (split_char_nonempty c s). destruct (split_char c s) as [|h t]; [done|].
      rewrite Forall_cons in *. simpl. rewrite !andb_true_iff. tauto.
Qed.

(** Two adjacent separators leave an empty piece, never the first one. *)
Lemma split_char_double c s :
  str_contains s (String c (String c "")) = true → "" ∈ tail (split_char c s).
Proof.
  induction s as [|a s IH]; simpl; [done|]. rewrite orb_true_iff. intros [H|H].
  - apply starts_with_spec in H as [r Hr]. injection Hr as -> ->. simpl.
    rewrite Ascii.eqb_refl. simpl. set_solver.
  - specialize (IH H). destruct (Ascii.eqb a c); simpl.
    + by destruct (split_char c s); [|right].
    + by destruct (split_char c s).
Qed.

Lemma bad_segment_spec seg : bad_segment seg = false ↔ nsid_segment seg.
Proof.
  unfold bad_segment, nsid_segment, str_is_empty, NSID_MAX_SEGMENT_LENGTH. b2p.
  assert (seg ≠ "" ↔ 1 ≤ str_len seg) as ->.
  { unfold str_len. destruct seg; simpl; [split; [done|lia]|]. split; [lia|done]. }
  tauto.
Qed.

Lemma existsb_bad_segment l : existsb bad_segment l = false ↔ Forall nsid_segment l.
Proof.
  induction l as [|x l IH]; simpl; [by rewrite Forall_nil|].
  by rewrite orb_false_iff, Forall_cons, bad_segment_spec, IH.
Qed.

(** Segments of the right shape rule out what the early tests look for. *)
Lemma nsid_segments_chars t :
  Forall nsid_segment (split_char "." t) →
  str_forall (λ a, Ascii.eqb a "." || nsid_char a) t = true ∧ str_contains t ".." = false.
Proof.
  intros Hs. split.
  - apply split_char_forall. eapply Forall_impl; [exact Hs|]. by intros x (_ & ? & _).
  - apply not_true_iff_false. intros H%split_char_double.
    rewrite Forall_forall in Hs.
    assert ("" ∈ split_char "." t) as Hin.
    { destruct (split_char "." t); [done|]. by right. }
    destruct (Hs _ Hin) as ([Hl _] & _). done.
Qed.

Lemma is_valid_nsid_spec s :
  is_valid_nsid s = true ↔
  nsid_grammar (trim_start_matches "/" s) (split_char "." (trim_start_matches "/" s)).
Proof.
  unfold is_valid_nsid. set (t := trim_start_matches "/" s). set (segs := split_char "." t).
  split.
  - intros H. repeat (case_if; [done|]). b2p.
    split; unfold NSID_MAX_LENGTH, NSID_MIN_SEGMENTS in *; try done; try tauto; try lia.
    by apply existsb_bad_segment.
  - intros [_ Hlen Hcount Hsegs Hauth [Hn1 Hn2]]. fold segs in Hsegs.
    destruct (nsid_segments_chars t Hsegs) as [Hchars Hdots].
    rewrite (str_forall_no_char _ _ _ (eq_refl : (λ a, Ascii.eqb a "." || nsid_char a) "%"%char = false) Hchars).
    rewrite (str_forall_no_char _ _ _ (eq_refl : (λ a, Ascii.eqb a "." || nsid_char a) backslash = false) Hchars).
    assert (str_is_empty t = false) as ->.
    { unfold str_is_empty. apply String.eqb_neq. intros E. unfold segs in Hcount. rewrite E in Hcount.
      done. }
    rewrite Hdots, (proj2 (existsb_bad_segment segs) Hsegs), Hauth, Hn1, Hn2.
    rewrite Z.gtb_ltb. unfold NSID_MAX_LENGTH, NSID_MIN_SEGMENTS.
    rewrite (proj2 (Z.ltb_ge _ _) Hlen), (proj2 (Z.ltb_ge _ _) Hcount). done.
Qed.

(** ** Properties *)

(** The NSID kernel accepts exactly the grammar: after leading slashes, at most 317 bytes, at
    least three dot-separated segments of 1 to 63 letters, digits and inner hyphens, the first
    starting with a letter, the last a letter followed by letters and digits; an accepted name
    contains only letters, digits, hyphens and single dots, so it cannot escape its URL path
    segment. *)
Theorem is_valid_nsid_correct (s : string) :
  let t := trim_start_matches "/" s in
  (is_valid_nsid s = true ↔ nsid_grammar t (split_char "." t)) ∧
  (is_valid_nsid s = true →
     str_forall (λ a, Ascii.eqb a "." || nsid_char a) t = true ∧ str_contains t ".." = false).
Proof.
  cbv zeta. split; [apply is_valid_nsid_spec|].
  intros H%is_valid_nsid_spec. apply nsid_segments_chars, (ng_segments _ _ H).
Qed.

Lemma is_valid_nsid_correct_witness :
  str_contains (trim_start_matches "/" "/com.atproto.repo.getRecord") ".." = false.
Proof.
  apply (is_valid_nsid_correct "/com.atproto.repo.getRecord"). vm_compute. reflexivity.
Defined.

(** A middle segment may start with a digit, which the kernel's doc comment excludes (every segment
    is [alpha *( alpha / number / -)]). *)
Lemma nsid_digit_leading_segment : is_valid_nsid "com.4example.record" = true.
Proof. vm_compute. reflexivity. Qed.
