(* ===== verification/Htu.v ===== *)
(** * Htu: normalisation of the DPoP target URI

    Models src/src/kernels/htu_components.rs, [normalize_htu] of src/src/dpop.rs and
    [DPoPHtuFormalSpec] of src/src/verification/formal_models.rs.  Parsing is the url crate's. *)
From S2P Require Import Prelude Errors Strs Externals.
Open Scope Z_scope.

(** ** Components *)
Inductive HtuScheme := Http | Https.
#[export] Instance HtuScheme_eq_dec : EqDecision HtuScheme.
Proof. solve_decision. Defined.

Definition scheme_as_str (s : HtuScheme) : string :=
  match s with Http => "http" | Https => "https" end.
Definition default_port (s : HtuScheme) : Z := match s with Http => 80 | Https => 443 end.
Definition scheme_parse (scheme : string) : option HtuScheme :=
  let l := to_ascii_lowercase scheme in
  if (l =? "http")%string then Some Http
  else if (l =? "https")%string then Some Https else None.

Definition digit_char (d : Z) : ascii := ascii_of_N (Z.to_N (48 + d)).

(** The [while n > 0] loop of [decimal_port_str]: the digits of [n], least significant first, in a
    buffer of 6.  The fuel is the size of the buffer; a [u16] has at most 5 digits. *)
Fixpoint port_digits (fuel : nat) (n : Z) : list Z :=
  match fuel with
  | O => []
  | S f => if n >? 0 then n mod 10 :: port_digits f (n / 10) else []
  end.
Definition decimal_port_str (port : Z) : string :=
  let buf := if port =? 0 then [0] else port_digits 6 port in
  String ":" (String.string_of_list_ascii (digit_char <$> rev buf)).

Definition build_normalized_htu (scheme : HtuScheme) (host : string) (port : option Z)
    (path : string) : string :=
  let port_str :=
    match port with
    | Some p => if p =? default_port scheme then "" else decimal_port_str p
    | None => ""
    end in
  let normalized_path := if str_is_empty path then "/" else path in
  scheme_as_str scheme +:+ "://" +:+ host +:+ port_str +:+ normalized_path.

Definition starts_with_explicit_port (s : string) : bool :=
  match s with
  | String a (String b _) => Ascii.eqb a ":" && is_ascii_digit b
  | _ => false
  end.

Definition has_query_or_fragment (s : string) : bool :=
  str_contains_char "?" s || str_contains_char "#" s.

Definition invariants_hold (scheme : HtuScheme) (host : string) (port : option Z)
    (path out : string) : bool :=
  if negb (out =? build_normalized_htu scheme host port path)%string then false
  else if has_query_or_fragment host || has_query_or_fragment path then false
  else
    let prefix := scheme_as_str scheme +:+ "://" in
    let lower_host := to_ascii_lowercase host in
    match strip_prefix prefix out with
    | None => false
    | Some rest =>
        match strip_prefix lower_host rest with
        | None => false
        | Some after_host =>
            match port with
            | None => negb (starts_with_explicit_port after_host)
            | Some p =>
                if p =? default_port scheme then negb (starts_with_explicit_port after_host)
                else starts_with after_host (decimal_port_str p)
            end
        end
    end.

(** ** [DPoPHtuFormalSpec] *)
Definition spec_has_no_query (uri : string) : bool := negb (str_contains_char "?" uri).
Definition spec_has_no_fragment (uri : string) : bool := negb (str_contains_char "#" uri).
Definition spec_valid_scheme (uri : string) : bool :=
  starts_with uri "https://" || starts_with uri "http://".
Definition spec_no_default_ports (uri : string) : bool :=
  if starts_with uri "https://" then negb (str_contains uri ":443/") && negb (ends_with uri ":443")
  else if starts_with uri "http://" then negb (str_contains uri ":80/") && negb (ends_with uri ":80")
  else true.

(** ** [normalize_htu] *)
Section normalize.
Context `{UrlCrate}.

Definition normalize_htu (uri_str : string) : result DPoPError string :=
  let trimmed := trim uri_str in
  if str_is_empty trimmed then Err (DPoPError_InvalidUri "URI string cannot be empty")
  else
    parsed ← map_err (λ e, DPoPError_InvalidUri ("Malformed URI '" +:+ trimmed +:+ "': " +:+ e))
               (url_parse trimmed);
    scheme ← ok_or (scheme_parse (url_scheme parsed))
               (DPoPError_InvalidUri ("URI scheme must be 'http' or 'https', got '"
                                      +:+ url_scheme parsed +:+ "'"));
    host ← ok_or (url_host_str parsed) (DPoPError_InvalidUri "URI is missing host");
    let host := to_ascii_lowercase host in
    let path := url_path parsed in
    let normalized_path := if str_is_empty path then "/" else path in
    Ok (build_normalized_htu scheme host (url_port parsed) normalized_path).
End normalize.

(** What the url crate guarantees of a parsed [http] or [https] URL: the path starts with a slash,
    [host_str] and [path] carry neither query nor fragment, the port is a [u16], and the host is a
    name without delimiters or a bracketed IPv6 literal. *)
Definition plain_host (h : string) : Prop :=
  str_forall (λ c, negb (Ascii.eqb c ":" || Ascii.eqb c "/" || Ascii.eqb c "[")) h = true.
Definition bracketed_host (h : string) : Prop :=
  ∃ b, h = "[" +:+ b +:+ "]" ∧ str_forall (λ c, negb (Ascii.eqb c "]" || Ascii.eqb c "/")) b = true.
Definition host_wf (h : string) : Prop := plain_host h ∨ bracketed_host h.
Definition port_wf (p : option Z) : Prop := match p with Some p => u16_valid p | None => True end.
Definition path_wf (p : string) : Prop := ∃ p', p = String "/" p'.

Class UrlLaws `{UrlCrate} : Prop := {
  url_http_shape s u :
    url_parse s = Ok u → is_Some (scheme_parse (url_scheme u)) →
    path_wf (url_path u) ∧ has_query_or_fragment (url_path u) = false ∧ port_wf (url_port u) ∧
    ∀ h, url_host_str u = Some h → host_wf h ∧ has_query_or_fragment h = false
}.

(** ** Decimal ports *)

(** The number a list of digits spells, least significant first. *)
Fixpoint digits_value (ds : list Z) : Z :=
  match ds with [] => 0 | d :: ds' => d + 10 * digits_value ds' end.

Lemma port_digits_value fuel n : 0 ≤ n < 10 ^ Z.of_nat fuel → digits_value (port_digits fuel n) = n.
Proof.
  revert n. induction fuel as [|f IH]; intros n Hn; [simpl in *; lia|].
  simpl. case_if; b2p; [|simpl; lia]. simpl. rewrite IH.
  - pose proof (Z.div_mod n 10). lia.
  - rewrite Nat2Z.inj_succ, Z.pow_succ_r in Hn by lia.
    split; [apply Z.div_pos; lia|]. apply Z.div_lt_upper_bound; lia.
Qed.

Lemma port_digits_range fuel n : Forall (λ d, 0 ≤ d < 10) (port_digits fuel n).
Proof.
  revert n. induction fuel as [|f IH]; intros n; simpl; [by constructor|].
  case_if; constructor; [apply Z.mod_pos_bound; lia|apply IH].
Qed.

Lemma digit_char_inj d e : 0 ≤ d < 10 → 0 ≤ e < 10 → digit_char d = digit_char e → d = e.
Proof.
  intros Hd He E. unfold digit_char in E. apply (f_equal N_of_ascii) in E.
  rewrite !N_ascii_embedding in E by lia. lia.
Qed.

Lemma map_inj_in {A B} (f : A → B) (P : A → Prop) l1 l2 :
  (∀ x y, P x → P y → f x = f y → x = y) → Forall P l1 → Forall P l2 → f <$> l1 = f <$> l2 → l1 = l2.
Proof.
  intros Hf H1. revert l2. induction H1 as [|x l1 Hx H1 IH]; intros [|y l2] H2 E; simplify_eq/=; [done|].
  apply Forall_cons in H2 as [Hy H2]. f_equal; [by apply Hf|by apply IH].
Qed.

Lemma decimal_port_digits p :
  u16_valid p → ∃ ds, decimal_port_str p = String ":" (String.string_of_list_ascii (digit_char <$> rev ds))
    ∧ Forall (λ d, 0 ≤ d < 10) ds ∧ digits_value ds = p ∧ ds ≠ [].
Proof.
  intros Hp. unfold u16_valid, u16_max in Hp. unfold decimal_port_str.
  destruct (p =? 0) eqn:E; b2p.
  - exists [0]. repeat split; [by repeat constructor|simpl; lia|done].
  - exists (port_digits 6 p). repeat split; [apply port_digits_range|apply port_digits_value; simpl; lia|].
    simpl. by rewrite (proj2 (Z.gtb_lt p 0)) by lia.
Qed.

Lemma decimal_port_str_inj p q :
  u16_valid p → u16_valid q → decimal_port_str p = decimal_port_str q → p = q.
Proof.
  intros Hp Hq E. destruct (decimal_port_digits p Hp) as (ds & Ep & Hds & <- & _).
  destruct (decimal_port_digits q Hq) as (es & Eq & Hes & <- & _). rewrite Ep, Eq in E.
  injection E as E. apply (f_equal String.list_ascii_of_string) in E.
  rewrite !String.list_ascii_of_string_of_list_ascii in E.
  apply (map_inj_in digit_char (λ d, 0 ≤ d < 10)) in E.
  - apply (f_equal (@rev Z)) in E. rewrite !rev_involutive in E. by rewrite E.
  - intros x y. apply digit_char_inj.
  - by apply Forall_rev.
  - by apply Forall_rev.
Qed.

(** ** Shape of the authority *)
Definition port_part (s : HtuScheme) (p : option Z) : string :=
  match p with Some p => if p =? default_port s then "" else decimal_port_str p | None => "" end.
Definition effective_port (s : HtuScheme) (p : option Z) : Z := default (default_port s) p.

Lemma digits_no_char c l :
  is_ascii_digit c = false → Forall (λ d, 0 ≤ d < 10) l →
  str_contains_char c (String.string_of_list_ascii (digit_char <$> l)) = false.
Proof.
  intros Hc. induction 1 as [|d l Hd Hl IH]; [done|]. rewrite fmap_cons; simpl.
  rewrite IH, orb_false_r.
  apply Ascii.eqb_neq. intros <-. revert Hc. unfold is_ascii_digit, in_range, byte_of, digit_char.
  rewrite N_ascii_embedding by lia. intros Hc. b2p. lia.
Qed.

(** The port part is empty, or a colon followed by digits. *)
Lemma port_part_shape s p :
  port_wf p →
  (port_part s p = "" ∧ effective_port s p = default_port s) ∨
  (∃ q ds, p = Some q ∧ q ≠ default_port s ∧ port_part s p = String ":" ds ∧
     port_part s p = decimal_port_str q ∧ (∀ c, is_ascii_digit c = false → str_contains_char c ds = false)).
Proof.
  intros Hp. destruct p as [q|]; simpl; [|by left].
  destruct (q =? default_port s) eqn:E; b2p; [by left|].
  right. destruct (decimal_port_digits q Hp) as (ds & Eq & Hds & _).
  exists q, (String.string_of_list_ascii (digit_char <$> rev ds)). repeat split; try done.
  intros c Hc. apply digits_no_char; [done|]. by apply Forall_rev.
Qed.

Lemma port_part_no_slash s p : port_wf p → str_contains_char "/" (port_part s p) = false.
Proof.
  intros Hp. destruct (port_part_shape s p Hp) as [[-> _]|(q & ds & _ & _ & -> & _ & Hc)]; [done|].
  simpl. by apply Hc.
Qed.

Lemma port_part_inj s p q :
  port_wf p → port_wf q → port_part s p = port_part s q → effective_port s p = effective_port s q.
Proof.
  intros Hp Hq E.
  destruct (port_part_shape s p Hp) as [[Ep ->]|(p' & dp & -> & Np & Ep & Dp & _)],
    (port_part_shape s q Hq) as [[Eq ->]|(q' & dq & -> & Nq & Eq & Dq & _)]; [done|congruence..|].
  simpl. apply decimal_port_str_inj; [done..|]. congruence.
Qed.

Lemma host_no_slash h : host_wf h → str_contains_char "/" h = false.
Proof.
  intros [Hh|(b & -> & Hb)].
  - eapply str_forall_no_char; [|exact Hh]. done.
  - rewrite !str_contains_char_app. simpl. rewrite orb_false_r.
    eapply str_forall_no_char; [|exact Hb]. done.
Qed.

Lemma plain_host_no_colon h : plain_host h → str_contains_char ":" h = false.
Proof. intros Hh. eapply str_forall_no_char; [|exact Hh]. done. Qed.

Lemma plain_not_bracketed h p s b r :
  plain_host h → port_wf p → h +:+ port_part s p ≠ "[" +:+ b +:+ r.
Proof.
  intros Hh Hp E. destruct h as [|a h]; simpl in E.
  - destruct (port_part_shape s p Hp) as [[E' _]|(q & ds & _ & _ & E' & _)]; rewrite E' in E; done.
  - injection E as -> _. unfold plain_host in Hh. simpl in Hh. done.
Qed.

Lemma host_port_inj s h p h' p' :
  host_wf h → host_wf h' → port_wf p → port_wf p' →
  h +:+ port_part s p = h' +:+ port_part s p' → h = h' ∧ port_part s p = port_part s p'.
Proof.
  intros [Hh|(b & -> & Hb)] [Hh'|(b' & -> & Hb')] Hp Hp' E.
  - pose proof (plain_host_no_colon h Hh) as C. pose proof (plain_host_no_colon h' Hh') as C'.
    destruct (port_part_shape s p Hp) as [[E1 _]|(q & ds & _ & _ & E1 & _ & _)],
      (port_part_shape s p' Hp') as [[E2 _]|(q' & ds' & _ & _ & E2 & _ & _)];
      rewrite E1, E2 in *; rewrite ?str_app_nil in E.
    + done.
    + rewrite E, str_contains_char_app in C. simpl in C. by rewrite orb_true_r in C.
    + rewrite <-E, str_contains_char_app in C'. simpl in C'. by rewrite orb_true_r in C'.
    + apply join_inj in E as [-> ->]; done.
  - rewrite !str_app_assoc in E. exfalso. by eapply plain_not_bracketed in E.
  - rewrite !str_app_assoc in E. exfalso. symmetry in E. by eapply plain_not_bracketed in E.
  - rewrite !str_app_assoc in E. simpl in E. injection E as E.
    apply join_inj in E as [-> ->]; [done|..]; (eapply str_forall_no_char; [|eassumption]; done).
Qed.

Lemma build_unfold s h p path :
  path_wf path → build_normalized_htu s h p path = scheme_as_str s +:+ "://" +:+ (h +:+ port_part s p) +:+ path.
Proof. intros [r ->]. unfold build_normalized_htu, port_part. simpl. by rewrite str_app_assoc. Qed.

Lemma build_normalized_htu_inj s h p path s' h' p' path' :
  host_wf h → host_wf h' → port_wf p → port_wf p' → path_wf path → path_wf path' →
  build_normalized_htu s h p path = build_normalized_htu s' h' p' path' →
  s = s' ∧ h = h' ∧ effective_port s p = effective_port s' p' ∧ path = path'.
Proof.
  intros Hh Hh' Hp Hp' Hr Hr' E. rewrite !build_unfold in E by done.
  destruct Hr as [r ->], Hr' as [r' ->].
  assert (s = s' ∧ (h +:+ port_part s p) +:+ String "/" r = (h' +:+ port_part s p') +:+ String "/" r')
    as [<- E']; [|clear E].
  { destruct s, s'; simpl in E; injection E as E; try done.  }
  apply join_inj in E' as [Ea ->];
    [|by rewrite str_contains_char_app, host_no_slash, port_part_no_slash..].
  apply host_port_inj in Ea as [-> Ep]; try done.
  repeat split. by apply port_part_inj.
Qed.

(** Lower-casing keeps the shape of a host. *)
Lemma str_forall_map f g s :
  (∀ c, f c = true → f (g c) = true) → str_forall f s = true → str_forall f (str_map g s) = true.
Proof.
  intros Hg. induction s as [|a s IH]; simpl; [done|]. rewrite !andb_true_iff. naive_solver.
Qed.

Lemma lower_plain h : plain_host h → plain_host (to_ascii_lowercase h).
Proof. apply str_forall_map. intros [[] [] [] [] [] [] [] []]; done. Qed.

Lemma lower_host_wf h : host_wf h → host_wf (to_ascii_lowercase h).
Proof.
  intros [Hh|(b & -> & Hb)]; [left; by apply lower_plain|right].
  exists (to_ascii_lowercase b). unfold to_ascii_lowercase. rewrite !str_map_app. split; [done|].
  revert Hb. apply str_forall_map. intros [[] [] [] [] [] [] [] []]; done.
Qed.

Lemma lower_contains c s :
  is_ascii_lowercase c = false → str_contains_char c (to_ascii_lowercase s) = true →
  str_contains_char c s = true.
Proof.
  intros Hc. unfold to_ascii_lowercase. induction s as [|a s IH]; simpl; [done|].
  rewrite !orb_true_iff. intros [Ha|Hs]; [|auto]. left. apply Ascii.eqb_eq in Ha as <-.
  apply Ascii.eqb_eq. revert Hc. destruct a as [[] [] [] [] [] [] [] []]; done.
Qed.

Lemma lower_no_query h :
  has_query_or_fragment h = false → has_query_or_fragment (to_ascii_lowercase h) = false.
Proof.
  unfold has_query_or_fragment. rewrite !orb_false_iff, <-!not_true_iff_false.
  intros [H1 H2]. split; intros Hc; [apply H1|apply H2]; by apply lower_contains.
Qed.

Lemma strip_prefix_app p r : strip_prefix p (p +:+ r) = Some r.
Proof. by apply strip_prefix_spec. Qed.

(** The assembled URI passes the kernel's own invariant check. *)
Lemma build_invariants_hold s h p path :
  path_wf path → port_wf p → to_ascii_lowercase h = h →
  has_query_or_fragment h = false → has_query_or_fragment path = false →
  invariants_hold s h p path (build_normalized_htu s h p path) = true.
Proof.
  intros Hr Hp Hh Qh Qp. unfold invariants_hold. rewrite String.eqb_refl; simpl.
  rewrite Qh, Qp; simpl. rewrite Hh, build_unfold by done.
  rewrite !str_app_assoc, <-(str_app_assoc (scheme_as_str s)), !strip_prefix_app.
  destruct Hr as [r ->]. unfold port_part.
  destruct p as [q|]; simpl; [|by destruct r]. destruct (q =? default_port s); simpl; [by destruct r|].
  apply starts_with_spec. eauto.
Qed.

Lemma build_formal_spec s h p path :
  path_wf path → port_wf p →
  has_query_or_fragment h = false → has_query_or_fragment path = false →
  spec_has_no_query (build_normalized_htu s h p path) = true ∧
  spec_has_no_fragment (build_normalized_htu s h p path) = true ∧
  spec_valid_scheme (build_normalized_htu s h p path) = true.
Proof.
  intros Hr Hp. unfold has_query_or_fragment. rewrite !orb_false_iff. intros [Q1 F1] [Q2 F2].
  assert (∀ c, is_ascii_digit c = false → Ascii.eqb ":" c = false →
               str_contains_char c (port_part s p) = false) as Hport.
  { intros c Hc Hcol. destruct (port_part_shape s p Hp) as [[-> _]|(q & ds & _ & _ & -> & _ & Hd)];
      [done|]. cbn [str_contains_char]. by rewrite Hcol, Hd. }
  rewrite !build_unfold by done. unfold spec_has_no_query, spec_has_no_fragment, spec_valid_scheme.
  rewrite !str_contains_char_app, Q1, Q2, F1, F2, !Hport by done.
  by destruct s.
Qed.

Section properties.
Context `{UrlLaws}.

(** The pieces a successful normalisation went through. *)
Lemma normalize_htu_parts u n :
  normalize_htu u = Ok n →
  ∃ parsed s h, url_parse (trim u) = Ok parsed ∧ scheme_parse (url_scheme parsed) = Some s ∧
    url_host_str parsed = Some h ∧ path_wf (url_path parsed) ∧
    has_query_or_fragment (url_path parsed) = false ∧ port_wf (url_port parsed) ∧
    host_wf (to_ascii_lowercase h) ∧ has_query_or_fragment (to_ascii_lowercase h) = false ∧
    n = build_normalized_htu s (to_ascii_lowercase h) (url_port parsed) (url_path parsed).
Proof.
  unfold normalize_htu. case_if; [done|]. intros E.
  apply bind_Ok in E as (parsed & Hp%map_err_Ok & E).
  apply bind_Ok in E as (s & Hs%ok_or_Ok & E). apply bind_Ok in E as (h & Hh%ok_or_Ok & E).
  destruct (url_http_shape _ _ Hp) as (P1 & P2 & P3 & P4); [by rewrite Hs|].
  destruct (P4 h Hh) as [P5 P6]. exists parsed, s, h.
  repeat split; auto using lower_host_wf, lower_no_query.
  injection E as <-. destruct P1 as [r ->]. done.
Qed.

(** Every normalised target URI satisfies the kernel's component invariants (the
    [debug_assert!] of [normalize_htu] never fires) and has a lower-case http(s) scheme, no query
    and no fragment. *)
Theorem normalize_htu_invariants u n :
  normalize_htu u = Ok n →
  (∃ parsed s h, url_parse (trim u) = Ok parsed ∧ url_host_str parsed = Some h ∧
     scheme_parse (url_scheme parsed) = Some s ∧
     invariants_hold s (to_ascii_lowercase h) (url_port parsed) (url_path parsed) n = true) ∧
  spec_has_no_query n = true ∧ spec_has_no_fragment n = true ∧ spec_valid_scheme n = true.
Proof.
  intros (parsed & s & h & Hp & Hs & Hh & P1 & P2 & P3 & P4 & P5 & ->)%normalize_htu_parts.
  split; [|by apply build_formal_spec].
  exists parsed, s, h. repeat split; try done. apply build_invariants_hold; try done.
  apply to_ascii_lowercase_idem.
Qed.

(** C37. The [htu] comparison separates endpoints: two URIs normalise to the same string exactly
    when their schemes, lower-cased hosts, effective ports (an absent port is the scheme's default)
    and paths agree. *)
Theorem normalize_htu_separates u1 u2 n1 n2 p1 p2 :
  normalize_htu u1 = Ok n1 → normalize_htu u2 = Ok n2 →
  url_parse (trim u1) = Ok p1 → url_parse (trim u2) = Ok p2 →
  n1 = n2 ↔
  ∃ s, scheme_parse (url_scheme p1) = Some s ∧ scheme_parse (url_scheme p2) = Some s ∧
    to_ascii_lowercase <$> url_host_str p1 = to_ascii_lowercase <$> url_host_str p2 ∧
    effective_port s (url_port p1) = effective_port s (url_port p2) ∧ url_path p1 = url_path p2.
Proof.
  intros (q1 & s1 & h1 & Q1 & S1 & H1 & A1 & _ & C1 & D1 & _ & ->)%normalize_htu_parts
    (q2 & s2 & h2 & Q2 & S2 & H2 & A2 & _ & C2 & D2 & _ & ->)%normalize_htu_parts E1 E2.
  rewrite Q1 in E1. rewrite Q2 in E2. injection E1 as <-. injection E2 as <-.
  rewrite S1, S2, H1, H2; simpl. split.
  - intros (-> & Eh & Ep & Er)%build_normalized_htu_inj; try done.
    exists s2. rewrite Eh. done.
  - intros (s & [= ->] & [= ->] & [= ->] & Ep & Er). rewrite !build_unfold, Er by done.
    do 3 f_equal. f_equal. revert Ep. unfold effective_port, port_part.
    destruct (url_port q1) as [x|], (url_port q2) as [y|]; simpl; intros; subst;
      rewrite ?Z.eqb_refl; done.
Qed.
End properties.

(** Re-parsing a serialised URL: its parts are printable ASCII, and the URI assembled from them
    parses to the same parts. *)
Class UrlReparse `{UrlCrate} : Prop := {
  url_printable s u :
    url_parse s = Ok u → is_Some (scheme_parse (url_scheme u)) →
    str_forall ws_free_byte (url_path u) = true ∧
    ∀ h, url_host_str u = Some h → str_forall ws_free_byte h = true;
  url_reparse s u sch h :
    url_parse s = Ok u → scheme_parse (url_scheme u) = Some sch → url_host_str u = Some h →
    ∃ u', url_parse (build_normalized_htu sch (to_ascii_lowercase h) (url_port u) (url_path u)) = Ok u' ∧
      url_scheme u' = scheme_as_str sch ∧ url_host_str u' = Some (to_ascii_lowercase h) ∧
      url_path u' = url_path u ∧ effective_port sch (url_port u') = effective_port sch (url_port u)
}.

Lemma lower_ws_free h :
  str_forall ws_free_byte h = true → str_forall ws_free_byte (to_ascii_lowercase h) = true.
Proof. apply str_forall_map. intros [[] [] [] [] [] [] [] []]; done. Qed.

Lemma digits_ws_free l :
  Forall (λ d, 0 ≤ d < 10) l →
  str_forall ws_free_byte (String.string_of_list_ascii (digit_char <$> l)) = true.
Proof.
  induction 1 as [|d l Hd Hl IH]; [done|]. rewrite fmap_cons; simpl. rewrite IH, andb_true_r.
  unfold ws_free_byte, byte_of, digit_char. rewrite N_ascii_embedding by lia. b2p. lia.
Qed.

Lemma port_part_ws_free s p : port_wf p → str_forall ws_free_byte (port_part s p) = true.
Proof.
  intros Hp. destruct p as [q|]; simpl; [|done]. case_if; [done|].
  destruct (decimal_port_digits q Hp) as (ds & -> & Hds & _). simpl.
  apply digits_ws_free. by apply Forall_rev.
Qed.

Lemma scheme_parse_as_str s : scheme_parse (scheme_as_str s) = Some s.
Proof. by destruct s. Qed.

Lemma port_part_effective s p q :
  effective_port s p = effective_port s q → port_part s p = port_part s q.
Proof.
  unfold effective_port, port_part. destruct p as [a|], q as [b|]; simpl; intros; subst;
    rewrite ?Z.eqb_refl; done.
Qed.

(** Normalisation is idempotent: a normalised target URI is its own normal form. *)
Lemma normalize_htu_idempotent `{UrlLaws} `{!UrlReparse} u n :
  normalize_htu u = Ok n → normalize_htu n = Ok n.
Proof.
  intros (parsed & s & h & Hp & Hs & Hh & P1 & P2 & P3 & P4 & P5 & ->)%normalize_htu_parts.
  destruct (url_printable _ _ Hp) as [W1 W2]; [by rewrite Hs|].
  destruct (url_reparse _ _ _ _ Hp Hs Hh) as (u' & E & Es & Eh & Er & Ep).
  unfold normalize_htu. rewrite trim_ws_free.
  - assert (str_is_empty (build_normalized_htu s (to_ascii_lowercase h) (url_port parsed)
      (url_path parsed)) = false) as -> by (by destruct s).
    step_ok E. rewrite Es, scheme_parse_as_str. cbn [ok_or mbind result_bind]. step_ok Eh.
    rewrite to_ascii_lowercase_idem, Er. destruct P1 as [r Hr]. rewrite Hr. cbn [str_is_empty String.eqb].
    f_equal. rewrite !build_unfold by (by eexists). by rewrite (port_part_effective s _ _ Ep).
  - rewrite build_unfold by done. rewrite !str_forall_app, W1, port_part_ws_free, lower_ws_free by auto.
    by destruct s.
Qed.

(** The formal predicate on default ports scans the whole string: it also rejects a correctly
    normalised URI whose path happens to contain [:443/]. *)
Lemma spec_no_default_ports_false_alarm :
  let uri := build_normalized_htu Https "example.com" None "/a:443/b" in
  invariants_hold Https "example.com" None "/a:443/b" uri = true ∧ spec_no_default_ports uri = false.
Proof. vm_compute. done. Qed.

(** ** A concrete instance *)
Module HtuExamples.
Record parsed := mkParsed { p_scheme : string; p_host : option string; p_port : option Z; p_path : string }.
Definition table (s : string) : result string parsed :=
  if (s =? "https://Example.com/xrpc?a=b")%string
  then Ok (mkParsed "https" (Some "Example.com") None "/xrpc")
  else if (s =? "https://example.com:443/xrpc")%string
  then Ok (mkParsed "https" (Some "example.com") None "/xrpc")
  else if (s =? "https://example.com/xrpc")%string
  then Ok (mkParsed "https" (Some "example.com") None "/xrpc")
  else if (s =? "https://example.com:8443/xrpc")%string
  then Ok (mkParsed "https" (Some "example.com") (Some 8443) "/xrpc")
  else Err "relative URL without a base".
#[local] Instance url_example : UrlCrate :=
  {| url_parse := table; url_scheme := p_scheme; url_host_str := p_host; url_port := p_port;
     url_path := p_path; url_as_str := λ p, p_scheme p +:+ "://" +:+ default "" (p_host p) +:+ p_path p;
     url_port_or_known_default := λ p, Some (default 443 (p_port p)); url_join := λ _ s, table s |}.
#[local] Instance url_example_laws : UrlLaws.
Proof.
  split. intros s u Hu _. unfold url_parse in Hu; simpl in Hu. unfold table in Hu.
  repeat case_if; simplify_eq; simpl; (split; [by eexists|split; [done|split; [by vm_compute|]]]);
    intros h [= <-]; (split; [by left|done]).
Qed.

#[local] Instance url_example_reparse : UrlReparse.
Proof.
  split.
  - intros s u Hu _. unfold url_parse in Hu; simpl in Hu. unfold table in Hu.
    repeat case_if; simplify_eq; simpl; (split; [done|]); by intros h [= <-].
  - intros s u sch h Hu. unfold url_parse in Hu; simpl in Hu. unfold table in Hu.
    repeat case_if; simplify_eq; cbn; intros [= <-] [= <-]; eexists; (split; [vm_compute; reflexivity|]); done.
Qed.

Lemma normalize_htu_invariants_witness :
  normalize_htu " https://Example.com/xrpc?a=b " = Ok "https://example.com/xrpc" ∧
  spec_has_no_query "https://example.com/xrpc" = true.
Proof.
  split; [vm_compute; reflexivity|].
  apply (normalize_htu_invariants " https://Example.com/xrpc?a=b " "https://example.com/xrpc").
  vm_compute. reflexivity.
Defined.

Lemma normalize_htu_separates_witness :
  "https://example.com/xrpc" = "https://example.com/xrpc" ↔
  ∃ s, scheme_parse "https" = Some s ∧ scheme_parse "https" = Some s ∧
    Some "example.com" = Some "example.com" ∧ effective_port s None = effective_port s None ∧
    "/xrpc" = "/xrpc".
Proof.
  apply (@normalize_htu_separates url_example url_example_laws "https://Example.com/xrpc?a=b" "https://example.com:443/xrpc" _ _
    (mkParsed "https" (Some "Example.com") None "/xrpc")
    (mkParsed "https" (Some "example.com") None "/xrpc")); vm_compute; reflexivity.
Defined.
End HtuExamples.
