(* ===== verification/Keys.v ===== *)
(** * Keys: import, export and persistence of DPoP keys (src/src/dpop.rs, [DPoPKey])

    A [DPoPKey] is its signing key.  The encodings are the p256 crate's ([P256Keys]); the code picks
    the format, maps the errors and goes through Base64URL for scalars. *)
From S2P Require Import Prelude Errors Strs Externals Instances Crypto.
Open Scope Z_scope.

Section keys.
Context `{Base64} `{P256Keys}.

(** [DPoPKey::eq]: the scalars agree. *)
Definition dpop_key_eq (a b : SigningKey) : bool := bool_decide (sk_to_bytes a = sk_to_bytes b).

Definition from_pkcs8_der (der_bytes : list Z) : result CryptoError SigningKey :=
  map_err (λ e, CryptoError_InvalidKey ("Invalid PKCS#8 DER key: " +:+ e)) (sk_from_pkcs8_der der_bytes).
Definition from_pkcs8_pem (pem : string) : result CryptoError SigningKey :=
  map_err (λ e, CryptoError_Pem ("Invalid PKCS#8 PEM key: " +:+ e)) (sk_from_pkcs8_pem pem).
Definition to_pkcs8_pem (key : SigningKey) : result CryptoError string :=
  map_err (λ e, CryptoError_Pem ("Failed to export PKCS#8 PEM: " +:+ e)) (sk_to_pkcs8_pem key).

Definition to_bytes (key : SigningKey) : list Z := sk_to_bytes key.
Definition to_bytes_b64 (key : SigningKey) : string := base64url_encode (to_bytes key).

Definition from_slice (bytes : list Z) : result CryptoError SigningKey :=
  map_err (λ e, CryptoError_InvalidKey ("Invalid P-256 scalar bytes: " +:+ e)) (sk_from_slice bytes).
Definition from_bytes_b64 (b64 : string) : result CryptoError SigningKey :=
  bytes ← base64url_decode b64; from_slice bytes.

(** ** Persistence

    The hand-written [Serialize] and [Deserialize]: a key is the string of its PEM text.  [s] is
    what [String::deserialize] gave. *)
Definition key_serialize (key : SigningKey) : result string json :=
  pem ← map_err CryptoError_display (to_pkcs8_pem key); Ok (JString pem).
Definition key_deserialize (s : result string string) : result string SigningKey :=
  s ← s; map_err CryptoError_display (from_pkcs8_pem s).
End keys.

Section laws.
Context `{Base64Laws} `{!Base64Alphabet} `{P256KeysLaws}.

Lemma pem_export_import key : ∃ pem, to_pkcs8_pem key = Ok pem ∧ from_pkcs8_pem pem = Ok key.
Proof.
  destruct (pem_roundtrip key) as (pem & E1 & E2). exists pem. unfold to_pkcs8_pem, from_pkcs8_pem.
  by rewrite E1, E2.
Qed.

Lemma dpop_key_eq_spec a b : dpop_key_eq a b = true ↔ a = b.
Proof.
  unfold dpop_key_eq. rewrite bool_decide_eq_true. split; [|by intros ->]. intros E.
  apply (f_equal sk_from_slice) in E. rewrite !scalar_roundtrip in E. by injection E.
Qed.

Lemma key_persist_restore key :
  ∃ pem, key_serialize key = Ok (JString pem) ∧ key_deserialize (Ok pem) = Ok key.
Proof.
  destruct (pem_export_import key) as (pem & E1 & E2). exists pem. unfold key_serialize, key_deserialize.
  rewrite E1. cbn [mbind result_bind]. by rewrite E2.
Qed.

(** A DPoP key survives every export: through PKCS#8 PEM, through its Base64URL scalar, and
    through its persisted form, importing what was exported gives the key back, and two keys compare
    equal exactly when they are the same key. *)
Theorem dpop_key_roundtrips key :
  from_bytes_b64 (to_bytes_b64 key) = Ok key ∧
  (∃ pem, to_pkcs8_pem key = Ok pem ∧ from_pkcs8_pem pem = Ok key) ∧
  (∃ pem, key_serialize key = Ok (JString pem) ∧ key_deserialize (Ok pem) = Ok key) ∧
  (∀ other, dpop_key_eq key other = true ↔ key = other).
Proof.
  split_and!; [|apply pem_export_import|apply key_persist_restore|apply dpop_key_eq_spec].
  unfold from_bytes_b64, to_bytes_b64, to_bytes. rewrite base64url_roundtrip by apply scalar_bytes.
  cbn [mbind result_bind]. unfold from_slice. by rewrite scalar_roundtrip.
Qed.
End laws.

(** ** A concrete run *)
Module KeysExamples.
#[local] Existing Instances nibble_base64 nibble_laws nibble_alphabet unit_p256.
#[local] Instance unit_keys : @P256Keys unit_p256 :=
  {| sk_from_pkcs8_der := λ _, Ok tt; sk_from_pkcs8_pem := λ _, Ok tt; sk_to_pkcs8_pem := λ _, Ok "PEM";
     sk_to_bytes := λ _, replicate 32 7; sk_from_slice := λ _, Ok tt |}.
Lemma unit_keys_laws : P256KeysLaws.
Proof.
  split; try done; [intros []; by exists "PEM"|by intros []|]. intros k. change (Forall u8_valid (replicate 32 7)).
  apply Forall_replicate. unfold u8_valid, u8_max. lia.
Qed.
#[local] Existing Instance unit_keys_laws.

Definition the_key : @SigningKey unit_p256 := tt.
Lemma dpop_key_roundtrips_witness :
  from_bytes_b64 (to_bytes_b64 the_key) = Ok the_key ∧ dpop_key_eq the_key the_key = true.
Proof.
  destruct (dpop_key_roundtrips the_key) as (E & _ & _ & Heq). split; [exact E|]. by apply Heq.
Defined.
End KeysExamples.
