(* ===== verification/Dpop.v ===== *)
(** * Dpop: proof creation and verification (src/src/dpop.rs)

    [DPoPKey] signs proofs and client assertions, [DPoPVerifier] checks inbound proofs.  A verifier
    shares its replay cache with its clones, so the operations that touch the cache take it and
    return it.  Clock readings and random bytes are arguments; keys, hashing, Base64, JSON and URLs
    are the crates of [Externals]; the two [serde]-derived decoders are [DpopSerde]. *)
From S2P Require Import Prelude Errors Strs Externals Instances Crypto Htu Replay.
Open Scope Z_scope.

Definition DEFAULT_MAX_PROOF_AGE : Z := 300 * 1000000000.
Definition DEFAULT_CLOCK_SKEW_LEEWAY : Z := 60 * 1000000000.
Definition MAX_JTI_LENGTH : Z := 256.

(** [Duration::as_secs] of nanoseconds, and the text of a [SystemTimeError]. *)
Definition as_secs (d : Z) : Z := d / 1000000000.
Definition clock_error : string := "second time provided was later than self".

Record JwkEc := mkJwk { kty : string; crv : string; x : string; y : string }.

Record DPoPProofClaims := mkClaims {
  jti : string; htm : string; htu : string; iat : Z;
  exp : option Z; nonce : option string; ath : option string
}.

#[export] Instance JwkEc_eq_dec : EqDecision JwkEc.
Proof. solve_decision. Defined.
#[export] Instance DPoPProofClaims_eq_dec : EqDecision DPoPProofClaims.
Proof. solve_decision. Defined.

(** The decoders [serde] derives for the two structs above. *)
Class DpopSerde := {
  jwk_from_value : json → result string JwkEc;
  claims_from_slice : list Z → result string DPoPProofClaims
}.

Definition jwk_to_value (j : JwkEc) : json :=
  JObject [("crv", JString (crv j)); ("kty", JString (kty j)); ("x", JString (x j)); ("y", JString (y j))].

(** An optional field: absent or null is [None], otherwise its decoder must accept. *)
Definition optional_field {A} (dec : json → option A) (v : json) (key : string) : option (option A) :=
  match json_get v key with
  | None | Some JNull => Some None
  | Some f => a ← dec f; Some (Some a)
  end.
Definition claims_of_value (v : json) : option DPoPProofClaims :=
  jti ← get_str v "jti"; htm ← get_str v "htm"; htu ← get_str v "htu";
  iat ← json_get v "iat" ≫= as_u64;
  exp ← optional_field as_u64 v "exp";
  nonce ← optional_field as_str v "nonce";
  ath ← optional_field as_str v "ath";
  Some (mkClaims jti htm htu iat exp nonce ath).

(** What the derived decoders do on the objects the crate itself writes. *)
Class DpopSerdeLaws `{SerdeJson} `{DpopSerde} : Prop := {
  jwk_from_to j : jwk_from_value (jwk_to_value j) = Ok j;
  claims_decode b v c :
    json_from_slice b = Ok v → claims_of_value v = Some c → claims_from_slice b = Ok c
}.

(** The [u64] fields of the decoded claims. *)
Definition claims_typed (c : DPoPProofClaims) : Prop :=
  u64_valid (iat c) ∧ match exp c with Some e => u64_valid e | None => True end.
Class DpopSerdeTyped `{DpopSerde} : Prop := {
  claims_u64 b c : claims_from_slice b = Ok c → claims_typed c
}.

Section dpop.
Context `{Base64} `{Sha2} `{P256} `{SerdeJson} `{DpopSerde} `{Subtle} `{UrlCrate} `{UnicodeUpper}.

(** ** Keys *)
Definition jwk_thumbprint (j : JwkEc) : string := jwk_thumbprint_ec_p256 (x j) (y j).

Definition to_verifying_key (j : JwkEc) : result CryptoError VerifyingKey :=
  x_bytes ← base64url_decode_fixed 32 (x j);
  y_bytes ← base64url_decode_fixed 32 (y j);
  verifying_key_from_coordinates x_bytes y_bytes.

Definition public_jwk (signing_key : SigningKey) : JwkEc :=
  let '(x_bytes, y_bytes) := verifying_key_to_coordinates (sk_verifying_key signing_key) in
  mkJwk "EC" "P-256" (base64url_encode x_bytes) (base64url_encode y_bytes).

Definition key_thumbprint (signing_key : SigningKey) : string :=
  jwk_thumbprint (public_jwk signing_key).

(** ** Signing *)

(** The compact serialisation shared by the two signing functions. *)
Definition sign_compact (signing_key : SigningKey) (header payload : json) : result DPoPError string :=
  header_str ← map_err DPoPError_Serialization (json_to_string header);
  payload_str ← map_err DPoPError_Serialization (json_to_string payload);
  let header_b64 := base64url_encode (as_bytes header_str) in
  let payload_b64 := base64url_encode (as_bytes payload_str) in
  let signing_input := header_b64 +:+ "." +:+ payload_b64 in
  sig_bytes ← map_err DPoPError_Crypto (sign_p256_raw signing_key (as_bytes signing_input));
  Ok (signing_input +:+ "." +:+ base64url_encode sig_bytes).

Definition proof_header (signing_key : SigningKey) : json :=
  JObject [("alg", JString "ES256"); ("jwk", jwk_to_value (public_jwk signing_key));
           ("typ", JString "dpop+jwt")].

(** [if let Some(v) = opt { if !v.trim().is_empty() { payload.insert(key, v.trim()) } }]. *)
Definition insert_trimmed (key : string) (opt : option string) (m : list (string * json))
    : list (string * json) :=
  match opt with
  | Some v => if negb (str_is_empty (trim v)) then json_insert key (JString (trim v)) m else m
  | None => m
  end.

Definition proof_payload (jti htm htu : string) (iat_secs : Z) (nonce ath : option string) : json :=
  let m := json_insert "jti" (JString jti) [] in
  let m := json_insert "htm" (JString htm) m in
  let m := json_insert "htu" (JString htu) m in
  let m := json_insert "iat" (JInt iat_secs) m in
  let m := insert_trimmed "nonce" nonce m in
  JObject (insert_trimmed "ath" ath m).

(** [jti_bytes]: the 16 random bytes used when there is no override. *)
Definition create_proof_internal (key : SigningKey) (htm htu : string) (nonce ath : option string)
    (iat_secs : Z) (jti_override : option string) (jti_bytes : list Z) : result DPoPError string :=
  let jti := match jti_override with Some j => j | None => base64url_encode jti_bytes end in
  let normalized_htm := to_uppercase (trim htm) in
  normalized_htu ← normalize_htu htu;
  sign_compact key (proof_header key)
    (proof_payload jti normalized_htm normalized_htu iat_secs nonce ath).

Definition create_proof (key : SigningKey) (htm htu : string) (nonce ath : option string)
    (now : Z) (jti_bytes : list Z) : result DPoPError string :=
  now_secs ← ok_or (unix_secs now) (DPoPError_ClockSkew clock_error);
  create_proof_internal key htm htu nonce ath now_secs None jti_bytes.

Definition public_client_jwk (key : SigningKey) : json :=
  let jwk := public_jwk key in
  JObject [("alg", JString "ES256"); ("crv", JString (crv jwk)); ("kid", JString (jwk_thumbprint jwk));
           ("kty", JString (kty jwk)); ("use", JString "sig"); ("x", JString (x jwk));
           ("y", JString (y jwk))].

Definition create_client_assertion_internal (key : SigningKey) (client_id audience : string)
    (iat_secs : Z) (jti_override : option string) (jti_bytes : list Z) : result DPoPError string :=
  let jti := match jti_override with Some j => j | None => base64url_encode jti_bytes end in
  let header := JObject [("alg", JString "ES256"); ("kid", JString (key_thumbprint key));
                         ("typ", JString "jwt")] in
  let exp_secs := u64_saturating_add iat_secs 60 in
  let payload := JObject [("aud", JString audience); ("exp", JInt exp_secs); ("iat", JInt iat_secs);
                          ("iss", JString client_id); ("jti", JString jti);
                          ("sub", JString client_id)] in
  sign_compact key header payload.

Definition create_client_assertion (key : SigningKey) (client_id audience : string) (now : Z)
    (jti_bytes : list Z) : result DPoPError string :=
  now_secs ← ok_or (unix_secs now) (DPoPError_ClockSkew clock_error);
  create_client_assertion_internal key client_id audience now_secs None jti_bytes.

Definition compute_access_token_hash (access_token : string) : string :=
  base64url_encode (sha256_digest (as_bytes access_token)).

(** ** The verifier: its two durations; the cache is threaded. *)
Record DPoPVerifier := mkVerifier { max_clock_skew : Z; max_proof_age : Z }.

Definition verifier_new : DPoPVerifier := mkVerifier DEFAULT_CLOCK_SKEW_LEEWAY DEFAULT_MAX_PROOF_AGE.
Definition with_max_clock_skew (v : DPoPVerifier) (skew : Z) := mkVerifier skew (max_proof_age v).
Definition with_max_proof_age (v : DPoPVerifier) (age : Z) := mkVerifier (max_clock_skew v) age.

(** [with_replay_prevention]: what becomes of the verifier's cache. *)
Definition with_replay_prevention (cache : option DPoPReplayCache) (enabled : bool)
    : option DPoPReplayCache :=
  if enabled then match cache with None => Some replay_new | Some c => Some c end else None.

Definition with_replay_cache (cache : option DPoPReplayCache) (c : DPoPReplayCache) : option DPoPReplayCache :=
  Some c.

(** An expected value compared in constant time with an optional claim. *)
Definition check_expected (expected actual : option string) (missing : DPoPError)
    (mismatch : string → string → DPoPError) : result DPoPError unit :=
  match expected with
  | None => Ok tt
  | Some e =>
      match actual with
      | Some a => if negb (constant_time_eq (as_bytes e) (as_bytes a)) then Err (mismatch e a) else Ok tt
      | None => Err missing
      end
  end.

(** The header checks, from the parsed header to the verified signature. *)
Definition check_header (header_val : json) (signing_input : string) (signature_bytes : list Z)
    : result DPoPError JwkEc :=
  typ ← ok_or (get_str header_val "typ") (DPoPError_InvalidHeaderTyp "Missing 'typ' header");
  _ ← fail_if (negb (eq_ignore_ascii_case typ "dpop+jwt")) (DPoPError_InvalidHeaderTyp typ);
  alg ← ok_or (get_str header_val "alg") (DPoPError_UnsupportedAlgorithm "Missing 'alg' header");
  _ ← fail_if (negb (alg =? "ES256")%string) (DPoPError_UnsupportedAlgorithm alg);
  jwk_val ← ok_or (json_get header_val "jwk") DPoPError_MissingJwk;
  _ ← fail_if (bool_decide (is_Some (json_get jwk_val "d"))) DPoPError_PrivateKeyInJwk;
  jwk ← map_err DPoPError_InvalidJwk (jwk_from_value jwk_val);
  _ ← fail_if (negb (kty jwk =? "EC")%string)
        (DPoPError_InvalidJwk ("Expected kty 'EC', got '" +:+ kty jwk +:+ "'"));
  _ ← fail_if (negb (crv jwk =? "P-256")%string)
        (DPoPError_InvalidJwk ("Expected crv 'P-256', got '" +:+ crv jwk +:+ "'"));
  verifying_key ← map_err DPoPError_Crypto (to_verifying_key jwk);
  _ ← map_err (λ _, DPoPError_SignatureVerificationFailed)
        (verify_p256_raw verifying_key (as_bytes signing_input) signature_bytes);
  Ok jwk.

(** The claim checks up to the clock. *)
Definition check_claims (claims : DPoPProofClaims) (expected_htm expected_htu : string)
    (expected_nonce expected_ath : option string) : result DPoPError unit :=
  _ ← fail_if (str_is_empty (trim (jti claims))) (DPoPError_MissingClaim "jti");
  _ ← fail_if (str_len (jti claims) >? MAX_JTI_LENGTH)
        (DPoPError_JtiTooLong MAX_JTI_LENGTH (str_len (jti claims)));
  _ ← fail_if (negb (eq_ignore_ascii_case (htm claims) expected_htm))
        (DPoPError_MethodMismatch (to_uppercase expected_htm) (htm claims));
  norm_expected_htu ← normalize_htu expected_htu;
  norm_claims_htu ← normalize_htu (htu claims);
  _ ← fail_if (negb (norm_claims_htu =? norm_expected_htu)%string)
        (DPoPError_UriMismatch norm_expected_htu (htu claims));
  _ ← check_expected expected_nonce (nonce claims) DPoPError_MissingNonce DPoPError_NonceMismatch;
  check_expected expected_ath (ath claims) DPoPError_MissingAth DPoPError_AthMismatch.

(** The temporal checks at [now] seconds. *)
Definition check_times (v : DPoPVerifier) (claims : DPoPProofClaims) (now : Z)
    : result DPoPError unit :=
  let skew_secs := as_secs (max_clock_skew v) in
  let max_age_secs := as_secs (max_proof_age v) in
  _ ← fail_if (iat claims >? u64_saturating_add now skew_secs)
        (DPoPError_FutureProof (iat claims) now skew_secs);
  _ ← fail_if (u64_saturating_sub now (iat claims) >? max_age_secs)
        (DPoPError_ProofTooOld (iat claims) now max_age_secs);
  match exp claims with
  | Some e => fail_if (u64_saturating_add e skew_secs <? now) (DPoPError_ExpiredProof e now)
  | None => Ok tt
  end.

(** [sys_now] is the reading of [SystemTime::now()] used when there is no override. *)
Definition verify_proof_no_replay (v : DPoPVerifier) (proof_jwt expected_htm expected_htu : string)
    (expected_nonce expected_ath : option string) (now_override : option Z) (sys_now : Z)
    : result DPoPError (DPoPProofClaims * JwkEc) :=
  let parts := split_char "." (trim proof_jwt) in
  match parts with
  | [p0; p1; p2] =>
      header_bytes ← map_err DPoPError_Crypto (base64url_decode p0);
      payload_bytes ← map_err DPoPError_Crypto (base64url_decode p1);
      signature_bytes ← map_err DPoPError_Crypto (base64url_decode p2);
      header_val ← map_err (λ e, DPoPError_MalformedJwt ("Failed to parse header JSON: " +:+ e))
                     (json_from_slice header_bytes);
      jwk ← check_header header_val (p0 +:+ "." +:+ p1) signature_bytes;
      claims ← map_err (λ e, DPoPError_MalformedJwt ("Failed to parse payload JSON: " +:+ e))
                 (claims_from_slice payload_bytes);
      _ ← check_claims claims expected_htm expected_htu expected_nonce expected_ath;
      now ← ok_or (unix_secs (default sys_now now_override)) (DPoPError_ClockSkew clock_error);
      _ ← check_times v claims now;
      Ok (claims, jwk)
  | _ => Err (DPoPError_MalformedJwt
           ("Expected 3 parts in compact JWT, got " +:+ pretty (zlen parts)))
  end.

Record ReplayAdmission := mkAdmission {
  adm_jkt : string; adm_jti : string; adm_expires_at : Z; adm_now : Z
}.

(** [t_admit]: the clock reading after the validation. *)
Definition verify_proof_deferred (v : DPoPVerifier) (proof_jwt expected_htm expected_htu : string)
    (expected_nonce expected_ath : option string) (now_override : option Z) (sys_now t_admit : Z)
    : result DPoPError (DPoPProofClaims * JwkEc * ReplayAdmission) :=
  '(claims, jwk) ← verify_proof_no_replay v proof_jwt expected_htm expected_htu expected_nonce
                     expected_ath now_override sys_now;
  let jkt := jwk_thumbprint jwk in
  now ← ok_or (unix_secs t_admit) (DPoPError_ClockSkew clock_error);
  let expires_at :=
    u64_saturating_add (u64_saturating_add now (as_secs (max_proof_age v)))
      (as_secs (max_clock_skew v)) in
  Ok (claims, jwk, mkAdmission jkt (jti claims) expires_at now).

(** [require_dpop_nonce]: [header] is the [dpop-nonce] header when present and visible ASCII. *)
Definition require_dpop_nonce (header : option string) : result DPoPError unit :=
  let present := match header with Some v => negb (str_is_empty (trim v)) | None => false end in
  if present then Ok tt else Err DPoPError_ResponseMissingDpopNonce.

(** ** What an accepted proof satisfies *)

(** The JOSE header and the signature. *)
Definition header_valid (header : json) (signing_input : string) (signature : list Z) (jwk : JwkEc)
    : Prop :=
  (∃ typ, get_str header "typ" = Some typ ∧ to_ascii_lowercase typ = "dpop+jwt") ∧
  get_str header "alg" = Some "ES256" ∧
  (∃ jv, json_get header "jwk" = Some jv ∧ json_get jv "d" = None ∧ jwk_from_value jv = Ok jwk) ∧
  kty jwk = "EC" ∧ crv jwk = "P-256" ∧
  ∃ key, to_verifying_key jwk = Ok key ∧
    verify_p256_raw key (as_bytes signing_input) signature = Ok tt.

(** The claims against the request. *)
Definition claims_valid (c : DPoPProofClaims) (expected_htm expected_htu : string)
    (expected_nonce expected_ath : option string) : Prop :=
  trim (jti c) ≠ "" ∧ str_len (jti c) ≤ 256 ∧
  to_ascii_lowercase (htm c) = to_ascii_lowercase expected_htm ∧
  (∃ n, normalize_htu expected_htu = Ok n ∧ normalize_htu (htu c) = Ok n) ∧
  (∀ e, expected_nonce = Some e → nonce c = Some e) ∧
  (∀ e, expected_ath = Some e → ath c = Some e).

(** The claims against the clock, in seconds. *)
Definition times_valid (v : DPoPVerifier) (c : DPoPProofClaims) (now : Z) : Prop :=
  iat c ≤ now + as_secs (max_clock_skew v) ∧
  now ≤ iat c + as_secs (max_proof_age v) ∧
  (∀ e, exp c = Some e → now ≤ e + as_secs (max_clock_skew v)).

Definition proof_valid (v : DPoPVerifier) (proof_jwt expected_htm expected_htu : string)
    (expected_nonce expected_ath : option string) (now : Z) (c : DPoPProofClaims) (jwk : JwkEc)
    : Prop :=
  ∃ p0 p1 p2 hb pb sb header,
    split_char "." (trim proof_jwt) = [p0; p1; p2] ∧
    base64url_decode p0 = Ok hb ∧ base64url_decode p1 = Ok pb ∧ base64url_decode p2 = Ok sb ∧
    json_from_slice hb = Ok header ∧ header_valid header (p0 +:+ "." +:+ p1) sb jwk ∧
    claims_from_slice pb = Ok c ∧
    claims_valid c expected_htm expected_htu expected_nonce expected_ath ∧ times_valid v c now.

Definition config_typed (v : DPoPVerifier) : Prop :=
  0 ≤ max_clock_skew v ∧ 0 ≤ max_proof_age v.

Lemma as_secs_nonneg d : 0 ≤ d → 0 ≤ as_secs d.
Proof. intros. unfold as_secs. apply Z.div_pos; lia. Qed.

Lemma check_header_Ok header si sb jwk :
  check_header header si sb = Ok jwk ↔ header_valid header si sb jwk.
Proof.
  unfold check_header, header_valid. split.
  - intros E. res_inv. b2p. unfold eq_ignore_ascii_case in *. b2p.
    match goal with H : verify_p256_raw _ _ _ = Ok ?u |- _ => destruct u end.
    repeat split; eauto.
    + match goal with H : get_str _ "alg" = Some ?a |- _ => rewrite H; by f_equal end.
    + eexists. repeat split; eauto.
      match goal with H : ¬ is_Some _ |- _ => by apply eq_None_not_Some in H end.
  - intros ((typ & Ht & Htyp) & Halg & (jv & Hj & Hd & Hjwk) & Hk & Hc & key & Hkey & Hsig).
    unfold eq_ignore_ascii_case.
    step_ok Ht. rewrite Htyp; simpl. step_ok Halg; simpl. step_ok Hj.
    rewrite Hd; simpl. step_ok Hjwk. rewrite Hk, Hc; simpl. step_ok Hkey. by step_ok Hsig.
Qed.

Lemma check_expected_Ok `{!SubtleLaws} expected actual missing mismatch u :
  check_expected expected actual missing mismatch = Ok u ↔
  ∀ e, expected = Some e → actual = Some e.
Proof.
  destruct u. unfold check_expected. destruct expected as [e|]; [|naive_solver].
  destruct actual as [a|]; [|naive_solver]. case_if; b2p.
  - rewrite constant_time_eq_false in Hif. naive_solver.
  - apply constant_time_eq_spec, as_bytes_inj in Hif. naive_solver.
Qed.

Lemma check_claims_Ok `{!SubtleLaws} c ehtm ehtu en ea u :
  check_claims c ehtm ehtu en ea = Ok u ↔ claims_valid c ehtm ehtu en ea.
Proof.
  unfold check_claims, claims_valid, str_is_empty, MAX_JTI_LENGTH, eq_ignore_ascii_case. split.
  - intros E. res_inv. b2p. subst.
    repeat split; eauto; by eapply check_expected_Ok.
  - intros (Hj & Hl & Hm & (n & He & Hc) & Hn & Ha).
    rewrite (proj2 (String.eqb_neq _ _) Hj), Z.gtb_ltb, (proj2 (Z.ltb_ge _ _) Hl); simpl.
    rewrite Hm, String.eqb_refl; simpl. rewrite He; simpl. rewrite Hc; simpl.
    rewrite String.eqb_refl; simpl.
    rewrite (proj2 (check_expected_Ok en (nonce c) _ _ tt) Hn); simpl.
    by apply check_expected_Ok.
Qed.

Lemma check_times_Ok v c now u :
  claims_typed c → config_typed v → u64_valid now →
  check_times v c now = Ok u ↔ times_valid v c now.
Proof.
  intros [Hi He] [Hs Ha] Hn. apply as_secs_nonneg in Hs, Ha. unfold check_times, times_valid.
  unfold u64_saturating_add, u64_saturating_sub, u64_valid in *. split.
  - intros E. res_inv. b2p. destruct u. destruct (exp c) as [e|]; res_inv; b2p;
      repeat split; try lia; naive_solver lia.
  - intros (Hfut & Hold & Hexp). destruct u.
    rewrite !Z.gtb_ltb, (proj2 (Z.ltb_ge _ _)), (proj2 (Z.ltb_ge _ _)) by lia. simpl.
    destruct (exp c) as [e|]; [|done]. apply fail_if_Ok. specialize (Hexp e eq_refl). b2p. lia.
Qed.

(** Acceptance is exactly validity, at the clock reading the code uses. *)
Lemma verify_proof_no_replay_Ok `{!SubtleLaws} `{!DpopSerdeTyped} v jwt ehtm ehtu en ea ovr sys now c jwk :
  config_typed v → unix_secs (default sys ovr) = Some now → u64_valid now →
  verify_proof_no_replay v jwt ehtm ehtu en ea ovr sys = Ok (c, jwk) ↔
  proof_valid v jwt ehtm ehtu en ea now c jwk.
Proof.
  intros Hcfg Hnow Hu. unfold verify_proof_no_replay, proof_valid. split.
  - intros E. destruct (split_char "." (trim jwt)) as [|p0 [|p1 [|p2 [|? ?]]]]; try done.
    rewrite Hnow in E. simpl in E. res_inv.
    do 7 eexists. split; [done|]. repeat (split; [eassumption|]).
    split; [by apply check_header_Ok|]. split; [eassumption|].
    split; [by eapply check_claims_Ok|]. eapply check_times_Ok; eauto using claims_u64.
  - intros (p0 & p1 & p2 & hb & pb & sb & header & -> & E0 & E1 & E2 & Ej & Hh & Ec & Hc & Ht).
    step_ok E0. step_ok E1. step_ok E2. step_ok Ej.
    step_ok (proj2 (check_header_Ok _ _ _ _) Hh). step_ok Ec.
    step_ok (proj2 (check_claims_Ok _ _ _ _ _ tt) Hc). step_ok Hnow.
    by step_ok (proj2 (check_times_Ok v c now tt (claims_u64 _ _ Ec) Hcfg Hu) Ht).
Qed.

(** The same compact JWT decodes to the same claims and key, whatever it is checked against. *)
Lemma verify_proof_no_replay_det v1 v2 jwt a1 b1 n1 h1 o1 s1 a2 b2 n2 h2 o2 s2 r1 r2 :
  verify_proof_no_replay v1 jwt a1 b1 n1 h1 o1 s1 = Ok r1 →
  verify_proof_no_replay v2 jwt a2 b2 n2 h2 o2 s2 = Ok r2 → r1 = r2.
Proof.
  unfold verify_proof_no_replay. intros E1 E2.
  destruct (split_char "." (trim jwt)) as [|p0 [|p1 [|p2 [|? ?]]]]; try done.
  res_inv. repeat match goal with
    | A : ?t = Ok ?u, B : ?t = Ok ?w |- _ => rewrite A in B; injection B as B; subst
    end. done.
Qed.
End dpop.

(** ** Verification with replay admission *)
Section admission.
Context `{Base64} `{Sha2} `{P256} `{SerdeJson} `{DpopSerde} `{Subtle} `{UrlCrate} `{UnicodeUpper}.
Context (hash : string → Z).

Definition commit_replay_admission (cache : option DPoPReplayCache) (a : ReplayAdmission)
    : option DPoPReplayCache * result DPoPError unit :=
  match cache with
  | Some c =>
      let '(c', r) := check_and_record hash c (adm_jkt a) (adm_jti a) (adm_expires_at a) (adm_now a) in
      (Some c', r)
  | None => (None, Ok tt)
  end.

Definition verify_proof (v : DPoPVerifier) (cache : option DPoPReplayCache)
    (proof_jwt expected_htm expected_htu : string) (expected_nonce expected_ath : option string)
    (now_override : option Z) (sys_now t_admit : Z)
    : option DPoPReplayCache * result DPoPError (DPoPProofClaims * JwkEc) :=
  match verify_proof_no_replay v proof_jwt expected_htm expected_htu expected_nonce expected_ath
          now_override sys_now with
  | Err e => (cache, Err e)
  | Ok (claims, jwk) =>
      let jkt := jwk_thumbprint jwk in
      match unix_secs t_admit with
      | None => (cache, Err (DPoPError_ClockSkew clock_error))
      | Some now =>
          let expires_at :=
            u64_saturating_add (u64_saturating_add now (as_secs (max_proof_age v)))
              (as_secs (max_clock_skew v)) in
          match cache with
          | Some c =>
              let '(c', r) := check_and_record hash c jkt (jti claims) expires_at now in
              (Some c', _ ← r; Ok (claims, jwk))
          | None => (None, Ok (claims, jwk))
          end
      end
  end.

(** ** One proof, presented twice *)

(** The successful outcome of [verify_proof] with a cache. *)
Lemma verify_proof_Ok v c jwt ehtm ehtu en ea ovr sys ta c' claims jwk :
  verify_proof v (Some c) jwt ehtm ehtu en ea ovr sys ta = (Some c', Ok (claims, jwk)) →
  ∃ now, verify_proof_no_replay v jwt ehtm ehtu en ea ovr sys = Ok (claims, jwk) ∧
    unix_secs ta = Some now ∧
    check_and_record hash c (jwk_thumbprint jwk) (jti claims)
      (u64_saturating_add (u64_saturating_add now (as_secs (max_proof_age v)))
         (as_secs (max_clock_skew v))) now = (c', Ok tt).
Proof.
  unfold verify_proof. destruct (verify_proof_no_replay _ _ _ _ _ _ _ _) as [[cl j]|e]; [|done].
  destruct (unix_secs ta) as [now|]; [|done].
  destruct (check_and_record _ _ _ _ _ _) as [c1 [[]|e]] eqn:E; simpl; [|done].
  intros [= -> -> ->]. eauto.
Qed.


Lemma unix_secs_le t t' n n' : unix_secs t = Some n → unix_secs t' = Some n' → t ≤ t' → n ≤ n'.
Proof.
  unfold unix_secs. repeat case_if; intros [= <-] [= <-] Hle. apply Z.div_le_mono; lia.
Qed.

Lemma unix_secs_nonneg t n : unix_secs t = Some n → 0 ≤ n.
Proof. unfold unix_secs. case_if; intros [= <-]. b2p. apply Z.div_pos; lia. Qed.

Lemma verify_proof_no_replay_clock v jwt a b n h sys r :
  verify_proof_no_replay v jwt a b n h None sys = Ok r → ∃ now, unix_secs sys = Some now.
Proof.
  unfold verify_proof_no_replay. destruct (split_char _ _) as [|? [|? [|? [|? ?]]]]; try done.
  intros E. res_inv. eauto.
Qed.

(** C3. The verifier accepts exactly the valid proofs: three Base64 parts, a [dpop+jwt] / ES256
    header whose JWK is a public P-256 key that verifies the signature, a bounded non-blank [jti],
    the request's method and normalised URI, the expected nonce and token hash, and times with
    [iat - skew <= now <= iat + age] and [now <= exp + skew]. *)
Theorem verify_proof_accepts_exactly `{!SubtleLaws} `{!DpopSerdeTyped}
    v jwt ehtm ehtu en ea ovr sys now c jwk :
  config_typed v → unix_secs (default sys ovr) = Some now → u64_valid now →
  verify_proof_no_replay v jwt ehtm ehtu en ea ovr sys = Ok (c, jwk) ↔
  proof_valid v jwt ehtm ehtu en ea now c jwk.
Proof. apply verify_proof_no_replay_Ok. Qed.

(** C10. Replay window: once a verifier has accepted a proof, it accepts the same JWT again, for any
    request and whatever other proofs were recorded or pruned before its cache entry expires, at
    most in the one second in which that entry expires: the two clock readings of a second
    successful call lie on the two sides of [t + age + skew].  If they read the same second, that
    second is [t + age + skew] exactly and the proof was dated [skew] seconds ahead. *)
Theorem replay_window `{!SubtleLaws} `{!DpopSerdeTyped}
    v c0 jwt m1 u1 n1 h1 sys1 adm1 c1 claims jwk t1 t1' ops m2 u2 n2 h2 sys2 adm2 c2 r t2 t2' :
  let key := composite_key (jwk_thumbprint jwk) (jti claims) in
  let expiry := t1' + as_secs (max_proof_age v) + as_secs (max_clock_skew v) in
  replay_wf c0 → config_typed v → expiry ≤ u64_max →
  unix_secs sys1 = Some t1 → unix_secs adm1 = Some t1' → sys1 ≤ adm1 →
  unix_secs sys2 = Some t2 → unix_secs adm2 = Some t2' → sys2 ≤ adm2 → t2' ≤ u64_max →
  verify_proof v (Some c0) jwt m1 u1 n1 h1 None sys1 adm1 = (Some c1, Ok (claims, jwk)) →
  Forall (keeps_until hash key expiry) ops →
  verify_proof v (Some (run (replay_step hash) c1 ops).1) jwt m2 u2 n2 h2 None sys2 adm2
    = (Some c2, Ok r) →
  t2 ≤ expiry ≤ t2' ∧ (t2 = t2' → t2 = expiry ∧ iat claims = t1 + as_secs (max_clock_skew v)).
Proof.
  intros key expiry Hwf Hcfg Hmax Ht1 Ht1' Hle1 Ht2 Ht2' Hle2 Hm2 V1 Hops V2.
  pose proof (unix_secs_le _ _ _ _ Ht1 Ht1' Hle1) as Ho1.
  pose proof (unix_secs_le _ _ _ _ Ht2 Ht2' Hle2) as Ho2.
  pose proof (unix_secs_nonneg _ _ Ht1). pose proof (unix_secs_nonneg _ _ Ht2).
  pose proof (as_secs_nonneg _ (proj1 Hcfg)) as Hs0.
  pose proof (as_secs_nonneg _ (proj2 Hcfg)) as Ha0.
  destruct (verify_proof_Ok _ _ _ _ _ _ _ _ _ _ _ _ _ V1) as (x1 & N1 & X1 & R1).
  destruct r as [claims2 jwk2].
  destruct (verify_proof_Ok _ _ _ _ _ _ _ _ _ _ _ _ _ V2) as (x2 & N2 & X2 & R2).
  assert ((claims, jwk) = (claims2, jwk2)) as [= <- <-] by (by eapply verify_proof_no_replay_det).
  rewrite Ht1' in X1. rewrite Ht2' in X2. injection X1 as <-. injection X2 as <-.
  assert (u64_saturating_add (u64_saturating_add t1' (as_secs (max_proof_age v)))
            (as_secs (max_clock_skew v)) = expiry) as Eexp.
  { unfold u64_saturating_add, expiry in *. lia. }
  rewrite Eexp in R1.
  assert (iat claims ≤ t1 + as_secs (max_clock_skew v)) as Hfut.
  { apply (verify_proof_no_replay_Ok _ _ _ _ _ _ _ _ t1) in N1 as (?&?&?&?&?&?&?&?&?&?&?&?&?&?&?&Ht);
      [apply Ht|done|done|unfold u64_valid, expiry in *; lia]. }
  assert (t2 ≤ iat claims + as_secs (max_proof_age v)) as Hold.
  { apply (verify_proof_no_replay_Ok _ _ _ _ _ _ _ _ t2) in N2 as (?&?&?&?&?&?&?&?&?&?&?&?&?&?&?&Ht);
      [apply Ht|done|done|unfold u64_valid, expiry in *; lia]. }
  pose proof (check_and_record_wf hash c0 (jwk_thumbprint jwk) (jti claims) expiry t1' Hwf) as Hwf1.
  rewrite R1 in Hwf1. cbn [fst] in Hwf1.
  assert (expiry ≤ t2') as Hge.
  { destruct (decide (expiry ≤ t2')) as [|Hlt]; [done|]. exfalso.
    pose proof (replay_run_keeps hash ops c1 key expiry Hwf1
      (check_and_record_ok hash _ _ _ _ _ _ Hwf R1) Hops) as Hk.
    rewrite (check_and_record_live hash _ _ _ _ _ _ Hk) in R2 by lia. done. }
  unfold expiry in *. split; [lia|]. intros ->. lia.
Qed.

(** Two-phase admission is the single-phase check split in two: verifying with a deferred
    admission and committing it at once gives the result and the cache of [verify_proof]. *)
Theorem deferred_commit_equivalent v cache jwt m u n h ovr sys adm :
  verify_proof v cache jwt m u n h ovr sys adm =
  match verify_proof_deferred v jwt m u n h ovr sys adm with
  | Err e => (cache, Err e)
  | Ok (claims, jwk, admission) =>
      let '(cache', r) := commit_replay_admission cache admission in
      (cache', _ ← r; Ok (claims, jwk))
  end.
Proof.
  unfold verify_proof, verify_proof_deferred.
  destruct (verify_proof_no_replay _ _ _ _ _ _ _ _) as [[claims jwk]|e]; [|done].
  cbn [mbind result_bind]. destruct (unix_secs adm) as [now|]; [|done].
  destruct cache as [c|]; [|done].
  cbn [ok_or mbind result_bind commit_replay_admission adm_jkt adm_jti adm_expires_at adm_now].
  by destruct (check_and_record _ _ _ _ _ _).
Qed.
End admission.

(** ** Created proofs verify *)
Section roundtrip.
Context `{Base64Laws} `{!Base64Alphabet} `{Sha2} `{P256Laws} `{DpopSerdeLaws}
  `{!SerdeJsonLaws} `{SubtleLaws} `{UrlLaws} `{!UrlReparse} `{UnicodeUpperLaws}.

(** A compact JWT splits back into its three Base64 parts. *)
Lemma compact_parts (a b c : list Z) :
  split_char "." (trim ((base64url_encode a +:+ "." +:+ base64url_encode b) +:+ "."
                        +:+ base64url_encode c)) =
  [base64url_encode a; base64url_encode b; base64url_encode c].
Proof.
  assert (∀ d, str_forall ws_free_byte (base64url_encode d) = true) as Hw.
  { intros d. eapply str_forall_impl; [apply base64url_char_ws_free|apply b64_alphabet]. }
  rewrite trim_ws_free by (by rewrite !str_forall_app, !Hw).
  rewrite !str_app_assoc. rewrite !str_cons_app.
  rewrite split_char_cons by (by apply base64url_no_char).
  rewrite split_char_cons by (by apply base64url_no_char).
  by rewrite split_char_free by (by apply base64url_no_char).
Qed.

Lemma public_jwk_key key : to_verifying_key (public_jwk key) = Ok (sk_verifying_key key).
Proof.
  destruct (sec1_coords (sk_verifying_key key)) as (cx & cy & Hx & Hy & Lx & Ly & Vx & Vy & Hv).
  unfold to_verifying_key, public_jwk, verifying_key_to_coordinates. cbn [Dpop.x Dpop.y].
  rewrite Hx, Hy, !pad_coordinate_32 by done. unfold base64url_decode_fixed.
  rewrite !base64url_roundtrip by done. cbn [mbind result_bind]. unfold zlen.
  rewrite Lx, Ly. cbn [negb Z.eqb Z.of_nat]. simpl. unfold verifying_key_from_coordinates.
  by rewrite Hv.
Qed.

(** The claims of a payload the crate writes. *)
Definition trimmed_claim (o : option string) : option string :=
  v ← o; if str_is_empty (trim v) then None else Some (trim v).

Definition claim_field (key : string) (o : option string) : list (string * json) :=
  match o with Some v => [(key, JString v)] | None => [] end.

(** The payload map, its keys in order. *)
Lemma proof_payload_shape j m u t n a :
  proof_payload j m u t n a =
  JObject (claim_field "ath" (trimmed_claim a) ++
           [("htm", JString m); ("htu", JString u); ("iat", JInt t); ("jti", JString j)] ++
           claim_field "nonce" (trimmed_claim n)).
Proof.
  unfold proof_payload, insert_trimmed, trimmed_claim.
  destruct n as [n|], a as [a|]; cbn [mbind option_bind];
    try destruct (str_is_empty (trim n)); try destruct (str_is_empty (trim a)); reflexivity.
Qed.

Lemma as_u64_int t : u64_valid t → as_u64 (JInt t) = Some t.
Proof.
  intros [Hlo Hhi]. unfold as_u64. by rewrite (proj2 (Z.leb_le _ _) Hlo), (proj2 (Z.leb_le _ _) Hhi).
Qed.

Lemma proof_payload_claims j m u t n a :
  u64_valid t →
  claims_of_value (proof_payload j m u t n a) =
  Some (mkClaims j m u t None (trimmed_claim n) (trimmed_claim a)).
Proof.
  intros Ht%as_u64_int. rewrite proof_payload_shape. unfold claims_of_value, get_str.
  destruct (trimmed_claim n), (trimmed_claim a); cbn -[as_u64]; by rewrite Ht.
Qed.

Lemma proof_payload_wf j m u t n a :
  u64_valid t → json_wf (proof_payload j m u t n a) = true ∧ float_free (proof_payload j m u t n a) = true.
Proof.
  intros [Hlo Hhi]. rewrite proof_payload_shape.
  assert ((- i64_max - 1 <=? t) && (t <=? u64_max) = true) as Ht.
  { b2p. unfold i64_max. lia. }
  destruct (trimmed_claim n), (trimmed_claim a); cbn -[Z.leb String.ltb i64_max u64_max Z.sub];
    rewrite Ht; done.
Qed.

Lemma proof_header_wf key :
  json_wf (proof_header key) = true ∧ float_free (proof_header key) = true.
Proof. done. Qed.

Lemma lower_upper s : to_ascii_lowercase (to_ascii_uppercase s) = to_ascii_lowercase s.
Proof.
  unfold to_ascii_lowercase, to_ascii_uppercase. induction s as [|a s IH]; simpl; [done|].
  rewrite IH. f_equal. by destruct a as [[] [] [] [] [] [] [] []].
Qed.

Lemma sign_compact_Ok key header payload :
  json_wf header = true → float_free header = true →
  json_wf payload = true → float_free payload = true →
  ∃ hs ps sg,
    sign_compact key header payload =
      Ok ((base64url_encode (as_bytes hs) +:+ "." +:+ base64url_encode (as_bytes ps)) +:+ "."
          +:+ base64url_encode sg) ∧
    json_from_slice (as_bytes hs) = Ok header ∧ json_from_slice (as_bytes ps) = Ok payload ∧
    Forall u8_valid sg ∧
    verify_p256_raw (sk_verifying_key key)
      (as_bytes (base64url_encode (as_bytes hs) +:+ "." +:+ base64url_encode (as_bytes ps))) sg = Ok tt.
Proof.
  intros W1 F1 W2 F2. destruct (json_roundtrip header W1 F1) as (hs & Eh & Dh).
  destruct (json_roundtrip payload W2 F2) as (ps & Ep & Dp).
  destruct (sign_verify_raw key
    (as_bytes (base64url_encode (as_bytes hs) +:+ "." +:+ base64url_encode (as_bytes ps))))
    as (sg & Es & _ & Hsg & Hv).
  exists hs, ps, sg. unfold sign_compact. step_ok Eh. step_ok Ep. step_ok Es. done.
Qed.

Lemma proof_header_valid key si sg :
  verify_p256_raw (sk_verifying_key key) (as_bytes si) sg = Ok tt →
  header_valid (proof_header key) si sg (public_jwk key).
Proof.
  intros Hv. repeat split.
  - by exists "dpop+jwt".
  - exists (jwk_to_value (public_jwk key)). repeat split. apply jwk_from_to.
  - exists (sk_verifying_key key). split; [apply public_jwk_key|done].
Qed.

(** The [jti] claim a created proof carries. *)
Definition proof_jti (jti_override : option string) (jti_bytes : list Z) : string :=
  match jti_override with Some j => j | None => base64url_encode jti_bytes end.

(** A created proof is accepted inside the time window. *)
Lemma created_proof_accepted `{!DpopSerdeTyped} v key m u n a iat jo jb ehtm now sys nrm :
  normalize_htu u = Ok nrm →
  trim (proof_jti jo jb) ≠ "" → str_len (proof_jti jo jb) ≤ 256 →
  u64_valid iat → config_typed v → u64_valid (now / 1000000000) → 0 ≤ now →
  is_ascii_str (trim m) = true → to_ascii_lowercase ehtm = to_ascii_lowercase (trim m) →
  iat ≤ now / 1000000000 + as_secs (max_clock_skew v) →
  now / 1000000000 ≤ iat + as_secs (max_proof_age v) →
  ∃ jwt, create_proof_internal key m u n a iat jo jb = Ok jwt ∧
    verify_proof_no_replay v jwt ehtm u (trimmed_claim n) (trimmed_claim a) (Some now) sys =
    Ok (mkClaims (proof_jti jo jb) (to_uppercase (trim m)) nrm iat None (trimmed_claim n)
          (trimmed_claim a), public_jwk key).
Proof.
  intros Hu Hj Hjl Hi Hcfg Hnow Hpos Hasc Hm Hfut Hold.
  unfold create_proof_internal. step_ok Hu. fold (proof_jti jo jb).
  destruct (proof_payload_wf (proof_jti jo jb) (to_uppercase (trim m)) nrm iat n a Hi) as [W F].
  destruct (sign_compact_Ok key (proof_header key) _ eq_refl eq_refl W F)
    as (hs & ps & sg & -> & Dh & Dp & Hsg & Hv).
  assert (unix_secs (default sys (Some now)) = Some (now / 1000000000)) as Hs.
  { change (default sys (Some now)) with now. unfold unix_secs. by rewrite (proj2 (Z.ltb_ge _ _) Hpos). }
  eexists. split; [reflexivity|].
  apply (proj2 (verify_proof_no_replay_Ok v _ _ _ _ _ _ _ _ _ _ Hcfg Hs Hnow)).
  do 7 eexists. split; [apply compact_parts|].
  do 3 (split; [apply base64url_roundtrip; (apply as_bytes_valid || done)|]).
  split; [exact Dh|]. split; [by apply proof_header_valid|].
  split; [by eapply claims_decode; [exact Dp|apply proof_payload_claims]|]. split.
  - repeat split; simpl; try done.
    + by rewrite to_uppercase_ascii, lower_upper.
    + exists nrm. split; [done|]. by eapply normalize_htu_idempotent.
  - repeat split; simpl; done.
Qed.

(** C24. A proof made by [DPoPKey::create_proof] is accepted by every verifier inside the time
    window, for the same method (up to case), URI, nonce and access-token hash, and yields the
    signer's public key and the claims that were signed. *)
Theorem created_proof_verifies `{!DpopSerdeTyped} v key m u n a iat jo jb ehtm now sys nrm :
  normalize_htu u = Ok nrm →
  trim (proof_jti jo jb) ≠ "" → str_len (proof_jti jo jb) ≤ 256 →
  u64_valid iat → config_typed v → u64_valid (now / 1000000000) → 0 ≤ now →
  is_ascii_str (trim m) = true → to_ascii_lowercase ehtm = to_ascii_lowercase (trim m) →
  iat ≤ now / 1000000000 + as_secs (max_clock_skew v) →
  now / 1000000000 ≤ iat + as_secs (max_proof_age v) →
  ∃ jwt, create_proof_internal key m u n a iat jo jb = Ok jwt ∧
    verify_proof_no_replay v jwt ehtm u (trimmed_claim n) (trimmed_claim a) (Some now) sys =
    Ok (mkClaims (proof_jti jo jb) (to_uppercase (trim m)) nrm iat None (trimmed_claim n)
          (trimmed_claim a), public_jwk key).
Proof. apply created_proof_accepted. Qed.
End roundtrip.

(** ** Concrete runs *)
Module DpopExamples.
#[local] Existing Instance nibble_base64.
#[local] Existing Instance nibble_laws.
#[local] Existing Instance nibble_alphabet.
#[local] Existing Instance zero_sha2.
#[local] Existing Instance unit_p256.
#[local] Existing Instance unit_p256_laws.
#[local] Existing Instance plain_subtle.
#[local] Existing Instance plain_subtle_laws.
#[local] Existing Instance ascii_upper_case.
#[local] Existing Instance ascii_upper_laws.
#[local] Existing Instance numbered_json.
#[local] Existing Instance numbered_json_laws.
#[local] Existing Instance HtuExamples.url_example.
#[local] Existing Instance HtuExamples.url_example_laws.
#[local] Existing Instance HtuExamples.url_example_reparse.

(** Decoders that read objects field by field. *)
Definition jwk_of_object (v : json) : result string JwkEc :=
  ok_or (k ← get_str v "kty"; c ← get_str v "crv"; x ← get_str v "x"; y ← get_str v "y";
         Some (mkJwk k c x y)) "missing field".
#[local] Instance object_serde : DpopSerde :=
  {| jwk_from_value := jwk_of_object;
     claims_from_slice b := v ← json_from_slice b; ok_or (claims_of_value v) "missing field" |}.
#[local] Instance object_serde_laws : DpopSerdeLaws.
Proof.
  split; [by intros []|]. intros b v c E1 E2. cbn -[json_from_slice]. rewrite E1.
  cbn -[claims_of_value]. by rewrite E2.
Qed.

Lemma as_u64_valid v n : as_u64 v = Some n → u64_valid n.
Proof. destruct v; cbn; try done. case_if; [|done]. intros [= <-]. b2p. done. Qed.

Lemma claims_of_value_typed v c : claims_of_value v = Some c → claims_typed c.
Proof.
  unfold claims_of_value. intros E. repeat (apply bind_Some in E as (? & ? & E)). simplify_eq.
  repeat match goal with H : _ ≫= _ = Some _ |- _ => apply bind_Some in H as (? & ? & H) end.
  split; cbn; [by eapply as_u64_valid|]. case_match; [|done]. unfold optional_field in *.
  repeat case_match; simplify_eq; repeat match goal with
    | H : _ ≫= _ = Some _ |- _ => apply bind_Some in H as (? & ? & H) end; simplify_eq;
    by eapply as_u64_valid.
Qed.

#[local] Instance object_serde_typed : DpopSerdeTyped.
Proof.
  split. intros b c E. cbn -[json_from_slice] in E. apply bind_Ok in E as (v & _ & E%ok_or_Ok).
  by eapply claims_of_value_typed.
Qed.

Definition key0 : @SigningKey unit_p256 := tt.

Lemma created_proof_verifies_witness :
  ∃ jwt, create_proof_internal key0 "post" "https://Example.com/xrpc?a=b" (Some " n1 ") None 1000
           (Some "id-1") [] = Ok jwt ∧
    verify_proof_no_replay verifier_new jwt "POST" "https://Example.com/xrpc?a=b"
      (trimmed_claim (Some " n1 ")) (trimmed_claim None) (Some 1030000000000) 0 =
    Ok (mkClaims (proof_jti (Some "id-1") []) (to_uppercase (trim "post")) "https://example.com/xrpc"
          1000 None (trimmed_claim (Some " n1 ")) (trimmed_claim None), public_jwk key0).
Proof.
  apply (created_proof_verifies verifier_new key0 "post" "https://Example.com/xrpc?a=b" (Some " n1 ") None
    1000 (Some "id-1") [] "POST" 1030000000000 0 "https://example.com/xrpc"); vm_compute; try reflexivity;
    try discriminate; try (split; discriminate).
Defined.
End DpopExamples.

(** A fixed proof dated 60 seconds ahead of its first use. *)
Module ReplayWindowExamples.
#[local] Existing Instance nibble_base64.
#[local] Existing Instance zero_sha2.
#[local] Existing Instance unit_p256.
#[local] Existing Instance plain_subtle.
#[local] Existing Instance plain_subtle_laws.
#[local] Existing Instance ascii_upper_case.
#[local] Existing Instance HtuExamples.url_example.

Definition jwk0 : JwkEc := mkJwk "EC" "P-256" (nibble_encode (replicate 32 0)) (nibble_encode (replicate 32 0)).
Definition claims0 : DPoPProofClaims :=
  mkClaims "id-1" "GET" "https://example.com/xrpc" 1060 None None None.
Definition header0 : json :=
  JObject [("alg", JString "ES256"); ("jwk", jwk_to_value jwk0); ("typ", JString "dpop+jwt")].
#[local] Instance fixed_json : SerdeJson :=
  {| json_from_slice := λ _, Ok header0; json_to_string := λ _, Ok "" |}.
#[local] Instance fixed_serde : DpopSerde :=
  {| jwk_from_value := λ _, Ok jwk0; claims_from_slice := λ _, Ok claims0 |}.
#[local] Instance fixed_serde_typed : DpopSerdeTyped.
Proof. split. intros b c [= <-]. vm_compute. repeat split; discriminate. Qed.

Definition jwt0 : string := "AA.AA." +:+ nibble_encode (replicate 64 0).
Definition h (_ : string) : Z := 5.
Definition secs (n : Z) : Z := n * 1000000000.
Definition first :=
  verify_proof h verifier_new (Some replay_new) jwt0 "GET" "https://example.com/xrpc" None None
    None (secs 1000) (secs 1000).
Definition c1 : DPoPReplayCache := default replay_new first.1.

Lemma verify_proof_accepts_exactly_witness :
  proof_valid verifier_new jwt0 "GET" "https://example.com/xrpc" None None 1000 claims0 jwk0.
Proof.
  apply (verify_proof_accepts_exactly verifier_new jwt0 "GET" "https://example.com/xrpc" None None
    None (secs 1000) 1000 claims0 jwk0).
  - vm_compute. split; discriminate.
  - reflexivity.
  - vm_compute. split; discriminate.
  - vm_compute. reflexivity.
Defined.

(** The same JWT is accepted at 1000 s and again at 1360 s, the second in which its replay-cache
    entry expires, while at 1359 s it is refused as a replay and at 1361 s as too old. *)
Lemma replay_accepted_at_expiry_second :
  first.2 = Ok (claims0, jwk0) ∧
  (λ t, (verify_proof h verifier_new (Some c1) jwt0 "GET" "https://example.com/xrpc" None None
           None (secs t) (secs t)).2) <$> [1359; 1360; 1361] =
  [Err (DPoPError_ReplayDetected "id-1"); Ok (claims0, jwk0); Err (DPoPError_ProofTooOld 1060 1361 300)].
Proof. vm_compute. done. Qed.

Lemma replay_window_witness :
  (1360 ≤ 1000 + 300 + 60 ≤ 1360) ∧
  (1360 = 1360 → 1360 = 1000 + 300 + 60 ∧ iat claims0 = 1000 + 60).
Proof.
  refine (replay_window h verifier_new replay_new jwt0 "GET" "https://example.com/xrpc" None None
    (secs 1000) (secs 1000) c1 claims0 jwk0 1000 1000 [RRecord "k" "j" 1365 1005]
    "GET" "https://example.com/xrpc" None None (secs 1360) (secs 1360) _ (claims0, jwk0) 1360 1360
    replay_new_wf _ _ _ _ _ _ _ _ _ _ _ _).
  all: try (vm_compute; reflexivity).
  - vm_compute. split; discriminate.
  - vm_compute. discriminate.
  - vm_compute. discriminate.
  - vm_compute. discriminate.
  - vm_compute. discriminate.
  - constructor; [vm_compute; reflexivity|constructor].
Defined.
End ReplayWindowExamples.
