(* ===== verification/Session.v ===== *)
(** * Session: authenticated OAuth sessions (src/src/session.rs)

    A session is a record of credentials bound to a DPoP key.  Every reading of the clock is an
    argument.  Zeroisation of outgoing strings has no effect on values and is left out.  Decoding the
    derived [RawSession] and printing a session are serde's ([SessionSerde]); the checks the
    hand-written [Deserialize] makes afterwards are [deserialize]. *)
From S2P Require Import Prelude Errors Strs Externals Instances Crypto Store Htu Keys Dpop.
Open Scope Z_scope.

(** [SystemTime::checked_add]: seconds are an [i64], as for an [Instant]. *)
Definition systime_checked_add (t d : Z) : option Z := instant_checked_add t d.
Definition from_secs (secs : Z) : Z := secs * NANOS_PER_SEC.

Section session.
Context `{Base64} `{Sha2} `{P256} `{SerdeJson} `{UrlCrate} `{UnicodeUpper}.

Record OAuthSession := mkSession {
  sub : string;
  access_token : string;
  refresh_token : option string;
  token_type : string;
  ses_scope : option string;
  ses_expires_at : option Z;
  dpop_key : SigningKey;
  ses_pds_endpoint : option string;
  ses_auth_server_issuer : option string;
  ses_token_endpoint : option string;
  ses_created_at : Z
}.

(** [RawSession] has the same fields; the checks decide whether it becomes a session. *)
Definition RawSession : Type := OAuthSession.

Definition deserialize (raw : result string RawSession) : result string OAuthSession :=
  raw ← raw;
  _ ← fail_if (negb (eq_ignore_ascii_case (token_type raw) "DPoP"))
        ("OAuthSession deserialization rejected: token_type must be 'DPoP', got '"
         +:+ token_type raw +:+ "'");
  _ ← fail_if (str_is_empty (trim (sub raw)))
        "OAuthSession deserialization rejected: `sub` must be a non-empty DID";
  _ ← fail_if (str_is_empty (trim (access_token raw)))
        "OAuthSession deserialization rejected: `access_token` must be non-empty";
  Ok raw.

(** The expiry both [new] and [rotate] compute. *)
Definition expiry (expires_in_secs : option Z) (now : Z) : option Z :=
  secs ← expires_in_secs; systime_checked_add now (from_secs secs).

Definition session_new (sub access_token : string) (refresh_token : option string) (ttype : string)
    (scope : option string) (expires_in_secs : option Z) (dpop_key : SigningKey)
    (pds_endpoint auth_server_issuer token_endpoint : option string) (now : Z)
    : result AtprotoOAuthError OAuthSession :=
  _ ← fail_if (negb (eq_ignore_ascii_case ttype "DPoP"))
        (AtprotoOAuthError_Token (TokenError_InvalidTokenType ttype));
  let expires_at := expiry expires_in_secs now in
  _ ← fail_if (bool_decide (is_Some expires_in_secs) && bool_decide (expires_at = None))
        (AtprotoOAuthError_Token (TokenError_Http
           "expires_in value overflows session expiry timestamp; refusing to issue a never-expiring session (fail-closed)"));
  Ok (mkSession sub access_token refresh_token ttype scope expires_at dpop_key pds_endpoint
        auth_server_issuer token_endpoint now).

Definition is_expired_with_leeway (s : OAuthSession) (leeway now : Z) : bool :=
  match ses_expires_at s with
  | Some exp =>
      match systime_checked_add now leeway with
      | Some now_with_leeway => exp <=? now_with_leeway
      | None => true
      end
  | None => false
  end.
Definition session_is_expired (s : OAuthSession) (now : Z) : bool := is_expired_with_leeway s 0 now.

Definition rotate_tokens_with_scope (s : OAuthSession) (access_token : string)
    (refresh_token : option string) (expires_in_secs : option Z) (scope : option string) (now : Z)
    : OAuthSession :=
  let scope' := match scope with Some new_scope => Some new_scope | None => ses_scope s end in
  let expires_at := expiry expires_in_secs now in
  let expires_at' :=
    if bool_decide (is_Some expires_in_secs) && bool_decide (expires_at = None) then Some now
    else expires_at in
  mkSession (sub s) access_token refresh_token (token_type s) scope' expires_at' (dpop_key s)
    (ses_pds_endpoint s) (ses_auth_server_issuer s) (ses_token_endpoint s) (ses_created_at s).
Definition rotate_tokens (s : OAuthSession) (access_token : string) (refresh_token : option string)
    (expires_in_secs : option Z) (now : Z) : OAuthSession :=
  rotate_tokens_with_scope s access_token refresh_token expires_in_secs None now.

Definition session_create_dpop_proof (s : OAuthSession) (htm htu : string) (nonce : option string)
    (now : Z) (jti_bytes : list Z) : result DPoPError string :=
  let ath := compute_access_token_hash (access_token s) in
  create_proof (dpop_key s) htm htu nonce (Some ath) now jti_bytes.

Definition dpop_auth_header (s : OAuthSession) : string := "DPoP " +:+ access_token s.

(** ** What can happen to a session *)

(** The tokens are rotated, or the session is written out and read back. *)
Inductive session_op :=
| Rotate (access_token : string) (refresh_token : option string) (expires_in_secs : option Z)
         (scope : option string) (now : Z)
| Persist (raw : result string RawSession).

(** [Persist] replaces the session only when the stored text decodes. *)
Definition session_step (s : OAuthSession) (op : session_op) : OAuthSession * bool :=
  match op with
  | Rotate a r e sc now => (rotate_tokens_with_scope s a r e sc now, true)
  | Persist raw =>
      match deserialize raw with Ok s' => (s', true) | Err _ => (s, false) end
  end.
End session.

(** Printing and decoding; [session_from_slice] is [serde_json::from_slice::<RawSession>]. *)
Class SessionSerde `{P256} := {
  session_to_string : OAuthSession → result string string;
  session_from_slice : list Z → result string RawSession
}.
(** A session dated after the epoch prints, and its text decodes to the same fields. *)
Class SessionSerdeLaws `{SessionSerde} : Prop := {
  session_serde_roundtrip s : 0 ≤ ses_created_at s → match ses_expires_at s with Some e => 0 ≤ e | None => True end →
    ∃ t, session_to_string s = Ok t ∧ session_from_slice (as_bytes t) = Ok s
}.

(** ** Facts *)
Section facts.
Context `{Base64} `{Sha2} `{P256} `{SerdeJson} `{UrlCrate} `{UnicodeUpper}.

(** Every session is DPoP-bound. *)
Definition dpop_bound (s : OAuthSession) : Prop := eq_ignore_ascii_case (token_type s) "DPoP" = true.

(** The credentials a restored session must have. *)
Definition credentials_present (s : OAuthSession) : Prop :=
  trim (sub s) ≠ "" ∧ trim (access_token s) ≠ "".

Lemma deserialize_Ok raw s :
  deserialize raw = Ok s ↔ raw = Ok s ∧ dpop_bound s ∧ credentials_present s.
Proof.
  unfold deserialize, dpop_bound, credentials_present, str_is_empty. destruct raw as [r|e]; [|naive_solver].
  cbn [mbind result_bind]. rewrite !bind_unit, !fail_if_Ok, negb_false_iff, !String.eqb_neq. naive_solver.
Qed.

Lemma overflow_check (e : option Z) (o : option Z) :
  bool_decide (is_Some e) && bool_decide (o = None) = false ↔ (o = None → e = None).
Proof. destruct e, o; simpl; naive_solver. Qed.

Lemma session_new_Ok su a r ty sc e k p i te now s :
  session_new su a r ty sc e k p i te now = Ok s ↔
  eq_ignore_ascii_case ty "DPoP" = true ∧ (expiry e now = None → e = None) ∧
  s = mkSession su a r ty sc (expiry e now) k p i te now.
Proof.
  unfold session_new. rewrite !bind_unit, !fail_if_Ok, negb_false_iff, overflow_check. naive_solver.
Qed.

(** Rotation keeps identity, binding and endpoints. *)
Definition same_identity (s s' : OAuthSession) : Prop :=
  sub s' = sub s ∧ token_type s' = token_type s ∧ dpop_key s' = dpop_key s ∧
  ses_pds_endpoint s' = ses_pds_endpoint s ∧ ses_auth_server_issuer s' = ses_auth_server_issuer s ∧
  ses_token_endpoint s' = ses_token_endpoint s ∧ ses_created_at s' = ses_created_at s.

Lemma rotate_same_identity s a r e sc now : same_identity s (rotate_tokens_with_scope s a r e sc now).
Proof. done. Qed.

(** An announced lifetime always gives an expiry, in rotation as in construction. *)
Lemma rotate_expiry s a r e sc now :
  ses_expires_at (rotate_tokens_with_scope s a r e sc now) = None ↔ e = None.
Proof.
  cbn -[expiry]. destruct e as [secs|]; cbn -[systime_checked_add]; [|done].
  by destruct (systime_checked_add _ _).
Qed.

Lemma rotations_identity ops : ∀ s,
  Forall (λ op, match op with Rotate _ _ _ _ _ => True | Persist _ => False end) ops →
  same_identity s (run session_step s ops).1.
Proof.
  induction ops as [|op ops IH]; intros s Hops; [done|]. apply Forall_cons in Hops as [Hop Hops].
  destruct op as [a r e sc now|]; [|done]. simpl.
  specialize (IH (rotate_tokens_with_scope s a r e sc now) Hops). by destruct (run session_step _ ops).
Qed.

Lemma session_step_bound s op : dpop_bound s → dpop_bound (session_step s op).1.
Proof.
  intros Hs. destruct op as [a r e sc now|raw]; [done|]. simpl.
  destruct (deserialize raw) as [s'|] eqn:Ed; [|done]. by apply deserialize_Ok in Ed as (_ & ? & _).
Qed.

(** C39. A session always is what its type promises.  From any session [new] returns, through any
    sequence of token rotations and restores from storage, whatever the stored text holds, the
    session is DPoP-bound; and as long as its tokens are only rotated, its subject, key, endpoints
    and date of creation are those it was created with. *)
Theorem session_invariant su a r ty sc e k p i te now s0 ops :
  session_new su a r ty sc e k p i te now = Ok s0 →
  let s := (run session_step s0 ops).1 in
  dpop_bound s ∧
  (Forall (λ op, match op with Rotate _ _ _ _ _ => True | Persist _ => False end) ops →
   sub s = su ∧ dpop_key s = k ∧ ses_pds_endpoint s = p ∧ ses_auth_server_issuer s = i ∧
   ses_token_endpoint s = te ∧ ses_created_at s = now).
Proof.
  intros (Hty & _ & ->)%session_new_Ok. cbv zeta. split.
  - apply run_invariant; [apply session_step_bound|done].
  - intros Hops. by destruct (rotations_identity ops (mkSession su a r ty sc (expiry e now) k p i te now) Hops)
      as (? & ? & ? & ? & ? & ? & ?).
Qed.

(** Expiry, decided exactly: from the moment the clock, advanced by the leeway, reaches the expiry. *)
Lemma session_is_expired_spec s exp leeway now :
  ses_expires_at s = Some exp → 0 ≤ leeway → exp ≤ INSTANT_MAX →
  is_expired_with_leeway s leeway now = true ↔ exp ≤ now + leeway.
Proof.
  intros E Hl Hm. unfold is_expired_with_leeway, systime_checked_add, instant_checked_add. rewrite E.
  case_if; b2p; [done|]. split; [lia|done].
Qed.

Lemma expiry_bound e now t : expiry e now = Some t → t ≤ INSTANT_MAX.
Proof.
  destruct e as [secs|]; [|done]. simpl. unfold systime_checked_add, instant_checked_add.
  case_if; [|done]. b2p. intros [= <-]. done.
Qed.

(** C40. Lifetimes fail closed.  When the authorization server announces a lifetime of [secs]
    seconds, neither construction nor rotation ever yields a session without expiry; the rotated
    session is expired from [now + secs] on (advanced by the leeway), and if that instant is not
    representable, construction fails and the rotated session is expired at once. *)
Theorem session_expiry_fail_closed s a r secs sc now leeway t :
  0 ≤ secs → 0 ≤ leeway → now ≤ INSTANT_MAX →
  let s' := rotate_tokens_with_scope s a r (Some secs) sc now in
  let made := session_new (sub s) a r (token_type s) sc (Some secs) (dpop_key s) (ses_pds_endpoint s)
                (ses_auth_server_issuer s) (ses_token_endpoint s) now in
  (is_expired_with_leeway s' leeway t = true ↔
   if now + from_secs secs <=? INSTANT_MAX then now + from_secs secs ≤ t + leeway else now ≤ t + leeway) ∧
  (∀ s'', made = Ok s'' → now + from_secs secs ≤ INSTANT_MAX ∧
     ses_expires_at s'' = Some (now + from_secs secs)).
Proof.
  intros Hs Hl Hn. cbv zeta. split.
  - assert (ses_expires_at (rotate_tokens_with_scope s a r (Some secs) sc now) =
            Some (if now + from_secs secs <=? INSTANT_MAX then now + from_secs secs else now)) as E.
    { cbn -[from_secs INSTANT_MAX]. unfold systime_checked_add, instant_checked_add.
      by destruct (now + from_secs secs <=? INSTANT_MAX). }
    rewrite (session_is_expired_spec _ _ _ _ E Hl) by (case_if; b2p; lia). by case_if.
  - intros s'' (_ & He & ->)%session_new_Ok. cbn -[from_secs INSTANT_MAX] in *.
    unfold systime_checked_add, instant_checked_add in *. case_if; b2p; [done|]. by specialize (He eq_refl).
Qed.
End facts.

(** ** Persistence *)
Section persistence.
Context `{Base64} `{Sha2} `{SessionSerdeLaws}.

(** A session with credentials, dated after the epoch, survives storage unchanged: its text
    decodes to the same session.  Conversely, whatever text is restored, an accepted session is
    DPoP-bound and has a non-empty subject and access token. *)
Theorem session_persistence s :
  dpop_bound s → credentials_present s → 0 ≤ ses_created_at s →
  match ses_expires_at s with Some e => 0 ≤ e | None => True end →
  (∃ t, session_to_string s = Ok t ∧ deserialize (session_from_slice (as_bytes t)) = Ok s) ∧
  (∀ b s', deserialize (session_from_slice b) = Ok s' → dpop_bound s' ∧ credentials_present s').
Proof.
  intros Hb Hc Hd He. split.
  - destruct (session_serde_roundtrip s Hd He) as (t & E1 & E2). exists t. split; [done|].
    by apply deserialize_Ok.
  - intros b s' (_ & ? & ?)%deserialize_Ok. done.
Qed.

(** [new] does not ask for credentials, so a session it makes may be refused when it is restored. *)
Lemma new_session_not_restorable su k now :
  0 ≤ now → ∃ s t, session_new su "" None "DPoP" None None k None None None now = Ok s ∧
    session_to_string s = Ok t ∧ is_ok (deserialize (session_from_slice (as_bytes t))) = false.
Proof.
  intros Hn. destruct (session_serde_roundtrip (mkSession su "" None "DPoP" None None k None None None now))
    as (t & E1 & E2); [done..|].
  eexists _, t. split; [by apply session_new_Ok|]. split; [exact E1|]. rewrite E2.
  destruct (deserialize _) as [s'|] eqn:E; [|done]. apply deserialize_Ok in E as ([= <-] & _ & _ & Ha).
  by destruct Ha.
Qed.
End persistence.

(** ** A session's proofs are accepted *)
Section proofs.
Context `{Base64Laws} `{!Base64Alphabet} `{Sha2} `{P256Laws} `{DpopSerdeLaws}
  `{!SerdeJsonLaws} `{SubtleLaws} `{UrlLaws} `{!UrlReparse} `{UnicodeUpperLaws}.

(** A proof a session makes for a request is accepted by a resource server that received the
    session's access token: the verifier that expects the hash of that token, the request's method
    and URI and the nonce it issued accepts it inside the time window and obtains the session's
    public key. *)
Theorem session_proof_accepted `{!DpopSerdeTyped} s v htm htu nonce made raw now sys nrm :
  normalize_htu htu = Ok nrm → base64url_encode raw ≠ "" → str_len (base64url_encode raw) ≤ 256 →
  compute_access_token_hash (access_token s) ≠ "" →
  0 ≤ made → u64_valid (made / 1000000000) → 0 ≤ now → u64_valid (now / 1000000000) → config_typed v →
  is_ascii_str (trim htm) = true →
  made / 1000000000 ≤ now / 1000000000 + as_secs (max_clock_skew v) →
  now / 1000000000 ≤ made / 1000000000 + as_secs (max_proof_age v) →
  ∃ jwt claims, session_create_dpop_proof s htm htu nonce made raw = Ok jwt ∧
    verify_proof_no_replay v jwt (trim htm) htu (trimmed_claim nonce)
      (Some (compute_access_token_hash (access_token s))) (Some now) sys = Ok (claims, public_jwk (dpop_key s)).
Proof.
  intros Hu Hj Hjl Hath Hm Hmv Hn Hnv Hcfg Hasc Hfut Hold.
  assert (trimmed_claim (Some (compute_access_token_hash (access_token s))) =
          Some (compute_access_token_hash (access_token s))) as Htr.
  { unfold trimmed_claim, compute_access_token_hash in *. cbn [mbind option_bind].
    rewrite base64url_encode_trim. unfold str_is_empty. by rewrite (proj2 (String.eqb_neq _ _) Hath). }
  destruct (created_proof_accepted v (dpop_key s) htm htu nonce
    (Some (compute_access_token_hash (access_token s))) (made / 1000000000) None raw (trim htm) now sys nrm)
    as (jwt & Ej & Ev); try done; [by unfold proof_jti; rewrite base64url_encode_trim|].
  rewrite Htr in Ev. exists jwt. eexists. split; [|exact Ev].
  unfold session_create_dpop_proof, create_proof, unix_secs. by rewrite (proj2 (Z.ltb_ge _ _) Hm).
Qed.
End proofs.

(** ** Concrete runs *)
Module SessionExamples.
#[local] Existing Instances nibble_base64 nibble_laws nibble_alphabet zero_sha2 unit_p256 unit_p256_laws
  plain_subtle plain_subtle_laws ascii_upper_case ascii_upper_laws numbered_json numbered_json_laws
  HtuExamples.url_example HtuExamples.url_example_laws HtuExamples.url_example_reparse
  DpopExamples.object_serde DpopExamples.object_serde_laws DpopExamples.object_serde_typed.

Definition key0 : @SigningKey unit_p256 := tt.
Definition made : result AtprotoOAuthError (@OAuthSession unit_p256) :=
  session_new "did:plc:abc" "at-1" (Some "rt-1") "dpop" (Some "atproto") (Some 3600) key0
    (Some "https://pds.example") None None 1000.
Definition session : @OAuthSession unit_p256 :=
  mkSession "did:plc:abc" "at-1" (Some "rt-1") "dpop" (Some "atproto") (Some 3600000001000) key0
    (Some "https://pds.example") None None 1000.
(** A Bearer session in storage is refused, the rotated one stays. *)
Definition ops : list (@session_op unit_p256) :=
  [Rotate "at-2" (Some "rt-2") None None 2000;
   Persist (Ok (mkSession "did:plc:abc" "at-3" None "Bearer" None None key0 None None None 0))].

Lemma session_invariant_witness :
  made = Ok session ∧ access_token (run session_step session ops).1 = "at-2" ∧
  dpop_bound (run session_step session ops).1.
Proof.
  split; [vm_compute; reflexivity|]. split; [vm_compute; reflexivity|].
  apply (session_invariant "did:plc:abc" "at-1" (Some "rt-1") "dpop" (Some "atproto") (Some 3600) key0
    (Some "https://pds.example") None None 1000 session ops). vm_compute. reflexivity.
Defined.

Lemma session_expiry_fail_closed_witness :
  is_expired_with_leeway (rotate_tokens_with_scope session "at-2" None (Some u64_max) None 1000) 0 1000 = true.
Proof.
  apply (session_expiry_fail_closed session "at-2" None u64_max None 1000 0 1000); [done..|].
  vm_compute. discriminate.
Defined.

(** A storage that keeps the session under any text. *)
#[local] Instance one_session : @SessionSerde unit_p256 :=
  {| session_to_string := λ s, Ok (pos_string (encode (s.(sub), s.(access_token), s.(refresh_token), s.(token_type),
        s.(ses_scope), s.(ses_expires_at), (s.(ses_pds_endpoint), s.(ses_auth_server_issuer), s.(ses_token_endpoint),
        s.(ses_created_at)))));
     session_from_slice := λ b,
       match decode (bytes_pos b) with
       | Some (su, a, r, ty, sc, e, (p, i, te, c)) => Ok (mkSession su a r ty sc e key0 p i te c)
       | None => Err "expected value"
       end |}.
Lemma one_session_laws : SessionSerdeLaws.
Proof.
  split. intros [su a r ty sc e [] p i te c] _ _. eexists. split; [reflexivity|]. cbn.
  by rewrite bytes_pos_string, decode_encode.
Qed.
#[local] Existing Instance one_session_laws.

Lemma session_persistence_witness :
  ∃ t, session_to_string session = Ok t ∧ deserialize (session_from_slice (as_bytes t)) = Ok session.
Proof. apply (session_persistence session); try done. Defined.

Lemma session_proof_accepted_witness :
  ∃ jwt claims, session_create_dpop_proof session "get" "https://Example.com/xrpc?a=b" None 1000000000000 [1; 2] = Ok jwt ∧
    verify_proof_no_replay verifier_new jwt "get" "https://Example.com/xrpc?a=b" None
      (Some (compute_access_token_hash "at-1")) (Some 1030000000000) 0 = Ok (claims, public_jwk (dpop_key session)).
Proof.
  apply (session_proof_accepted session verifier_new "get" "https://Example.com/xrpc?a=b" None 1000000000000 [1; 2]
    1030000000000 0 "https://example.com/xrpc"); vm_compute; try reflexivity; try discriminate;
    try (split; discriminate).
Defined.
End SessionExamples.
