(* ===== verification/Sealed.v ===== *)
(** * Sealed: encryption at rest (src/src/sealed.rs)

    [SealedBox] wraps AES-256-GCM in a versioned Base64 envelope.  The random nonce is an argument;
    the cipher and the Base64 engine are [AesGcm]; [utf8_error] and [utf8_owned_error] are the
    texts of the standard library's UTF-8 errors. *)
From S2P Require Import Prelude Errors Strs Externals Instances Crypto.
Open Scope Z_scope.

Definition SEALED_ENVELOPE_PREFIX : string := "enc:v1:".

Record SealedBox := mkSealedBox { sb_key : list Z }.

(** ** Keys *)
Definition sealed_new (key : list Z) : SealedBox := mkSealedBox key.

Definition from_secret_passphrase `{Sha2} (secret : string) : SealedBox :=
  mkSealedBox (sha256_digest (as_bytes secret)).

(** [char::to_digit(16)] on a byte. *)
Definition hex_digit (b : Z) : option Z :=
  if (48 <=? b) && (b <=? 57) then Some (b - 48)
  else if (97 <=? b) && (b <=? 102) then Some (b - 87)
  else if (65 <=? b) && (b <=? 70) then Some (b - 55)
  else None.

(** [u8::from_str_radix(pair, 16)] on two bytes: a leading plus sign is skipped. *)
Definition u8_from_hex_pair (hi lo : Z) : result string Z :=
  ok_or (if hi =? 43 then hex_digit lo
         else h ← hex_digit hi; l ← hex_digit lo; Some (16 * h + l))
    "invalid digit found in string".

Section hex.
Context (utf8_error : list Z → string).

Definition parse_hex_chunk (hi lo : Z) : result CryptoError Z :=
  _ ← fail_if (bool_decide (from_utf8 [hi; lo] = None))
        (CryptoError_InvalidKey ("Key is not valid UTF-8: " +:+ utf8_error [hi; lo]));
  map_err (λ e, CryptoError_InvalidKey ("Key is not valid hex: " +:+ e)) (u8_from_hex_pair hi lo).

(** [as_chunks::<2>().0.iter().map(..).collect::<Result<Vec<_>, _>>()]: the whole pairs, in order,
    up to the first error. *)
Fixpoint parse_hex_chunks (bytes : list Z) : result CryptoError (list Z) :=
  match bytes with
  | hi :: lo :: rest => b ← parse_hex_chunk hi lo; bs ← parse_hex_chunks rest; Ok (b :: bs)
  | _ => Ok []
  end.

Definition from_hex (hex : string) : result CryptoError SealedBox :=
  let bytes := as_bytes hex in
  _ ← fail_if (negb (zlen bytes =? 64))
        (CryptoError_InvalidKey ("Expected a 64-character hex key, got " +:+ pretty (zlen bytes)
                                 +:+ " characters"));
  key ← parse_hex_chunks bytes;
  _ ← fail_if (negb (zlen key =? 32)) (CryptoError_InvalidKey "Key must decode to 32 bytes");
  Ok (mkSealedBox key).
End hex.

(** ** Sealing and opening *)
Section sealed.
Context `{AesGcm}.

Definition cipher_of (sb : SealedBox) : result CryptoError AesKey :=
  map_err (λ e, CryptoError_InvalidKey ("Invalid AES-256-GCM key: " +:+ e)) (aes_new_from_slice (sb_key sb)).

Definition seal_with_aad (sb : SealedBox) (plaintext aad nonce_bytes : list Z) : result CryptoError string :=
  cipher ← cipher_of sb;
  ciphertext ← map_err (λ e, CryptoError_Seal ("AES-256-GCM sealing failed: " +:+ e))
                 (aes_encrypt cipher nonce_bytes aad plaintext);
  let combined := nonce_bytes ++ ciphertext in
  Ok (SEALED_ENVELOPE_PREFIX +:+ std_encode combined).
Definition seal (sb : SealedBox) (plaintext nonce_bytes : list Z) : result CryptoError string :=
  seal_with_aad sb plaintext [] nonce_bytes.

Definition open_error : CryptoError :=
  CryptoError_Open "Authentication tag mismatch or invalid key while opening sealed payload".

Definition open_with_aad (sb : SealedBox) (raw : string) (aad : list Z) : result CryptoError (list Z) :=
  let raw := trim raw in
  match strip_prefix SEALED_ENVELOPE_PREFIX raw with
  | None => Ok (as_bytes raw)
  | Some encoded =>
      combined ← map_err (λ e, CryptoError_Base64Decode ("Sealed payload Base64 decode: " +:+ e))
                   (std_decode encoded);
      _ ← fail_if (zlen combined <? 28) (CryptoError_InvalidEnvelope "Sealed payload is truncated");
      let nonce := take 12 combined in
      let ciphertext := drop 12 combined in
      cipher ← cipher_of sb;
      let decrypt (associated : list Z) :=
        map_err (λ _, open_error) (aes_decrypt cipher nonce associated ciphertext) in
      match decrypt aad with
      | Ok plaintext => Ok plaintext
      | Err err =>
          if negb (bool_decide (aad = [])) then
            match decrypt [] with Ok plaintext => Ok plaintext | Err _ => Err err end
          else Err err
      end
  end.
Definition sealed_open (sb : SealedBox) (raw : string) : result CryptoError (list Z) :=
  open_with_aad sb raw [].

Context (utf8_owned_error : list Z → string).
Definition open_string_with_aad (sb : SealedBox) (raw : string) (aad : list Z) : result CryptoError string :=
  bytes ← open_with_aad sb raw aad;
  ok_or (from_utf8 bytes) (CryptoError_Utf8 (utf8_owned_error bytes)).
Definition open_string (sb : SealedBox) (raw : string) : result CryptoError string :=
  open_string_with_aad sb raw [].
End sealed.

(** ** Hexadecimal keys *)
Lemma list_pair_ind {A} (P : list A → Prop) :
  P [] → (∀ x, P [x]) → (∀ x y l, P l → P (x :: y :: l)) → ∀ l, P l.
Proof. intros Hnil Hone Htwo. fix IH 1. intros [|x [|y l]]; [done|apply Hone|apply Htwo, IH]. Qed.

(** The lower-case hexadecimal text of a key, as the reference for [from_hex]. *)
Definition hex_char (d : Z) : Z := if d <? 10 then 48 + d else 87 + d.
Fixpoint hex_bytes (key : list Z) : list Z :=
  match key with [] => [] | b :: key' => hex_char (b / 16) :: hex_char (b mod 16) :: hex_bytes key' end.
Definition hex_string (key : list Z) : string := string_of_bytes (hex_bytes key).

Section hexfacts.
Context (utf8_error : list Z → string).

Lemma hex_digit_range b d : hex_digit b = Some d → 0 ≤ d < 16.
Proof. unfold hex_digit. repeat case_if; intros [= <-]; b2p; lia. Qed.

Lemma u8_from_hex_pair_u8 hi lo b : u8_from_hex_pair hi lo = Ok b → u8_valid b.
Proof.
  unfold u8_from_hex_pair, u8_valid, u8_max. intros E%ok_or_Ok. case_if.
  - apply hex_digit_range in E. lia.
  - apply bind_Some in E as (h & Hh%hex_digit_range & E). apply bind_Some in E as (l & Hl%hex_digit_range & [= <-]).
    lia.
Qed.

Lemma parse_hex_chunks_Ok bytes key :
  parse_hex_chunks utf8_error bytes = Ok key → length key = Nat.div2 (length bytes) ∧ Forall u8_valid key.
Proof.
  revert key. induction bytes as [|x|hi lo rest IH] using list_pair_ind; intros key; simpl;
    [by intros [= <-]..|].
  intros (b & Eb & E)%bind_Ok. apply bind_Ok in E as (bs & Ebs & [= <-]).
  unfold parse_hex_chunk in Eb. rewrite bind_unit, map_err_Ok in Eb. destruct Eb as [_ Eb].
  destruct (IH _ Ebs) as [Hl Hf]. split; [simpl; lia|]. constructor; [by eapply u8_from_hex_pair_u8|done].
Qed.

Lemma hex_digit_char d : 0 ≤ d < 16 → hex_digit (hex_char d) = Some d.
Proof.
  intros Hd. unfold hex_digit, hex_char. repeat (case_if; b2p; try lia); f_equal; lia.
Qed.

Lemma hex_char_ascii d : 0 ≤ d < 16 → 48 ≤ hex_char d < 128.
Proof. intros Hd. unfold hex_char. case_if; b2p; lia. Qed.

Lemma utf8_ascii_pair hi lo : 0 ≤ hi < 128 → 0 ≤ lo < 128 → is_Some (from_utf8 [hi; lo]).
Proof.
  intros Hhi Hlo. unfold from_utf8. cbn [utf8_valid length].
  rewrite !(proj2 (Z.ltb_lt _ _)) by lia. eauto.
Qed.

Lemma parse_hex_bytes key : Forall u8_valid key → parse_hex_chunks utf8_error (hex_bytes key) = Ok key.
Proof.
  induction 1 as [|b key Hb Hk IH]; [done|]. unfold u8_valid, u8_max in Hb.
  assert (0 ≤ b / 16 < 16 ∧ 0 ≤ b mod 16 < 16) as [Hh Hl] by (Z.to_euclidean_division_equations; lia).
  cbn [hex_bytes parse_hex_chunks].
  pose proof (hex_char_ascii _ Hh). pose proof (hex_char_ascii _ Hl).
  destruct (utf8_ascii_pair (hex_char (b / 16)) (hex_char (b mod 16))) as [u Eu]; [lia..|].
  unfold parse_hex_chunk, u8_from_hex_pair. rewrite Eu, bool_decide_false by done.
  cbn [fail_if mbind result_bind]. rewrite (proj2 (Z.eqb_neq _ _)), !hex_digit_char by lia.
  cbn [mbind option_bind ok_or map_err result_bind]. step_ok IH. do 2 f_equal. pose proof (Z.div_mod b 16). lia.
Qed.

Lemma hex_bytes_facts key :
  Forall u8_valid key → Forall u8_valid (hex_bytes key) ∧ length (hex_bytes key) = (2 * length key)%nat.
Proof.
  induction 1 as [|b key Hb Hk [IH1 IH2]]; [done|]. unfold u8_valid, u8_max in Hb. cbn [hex_bytes length].
  split; [|lia].
  assert (0 ≤ b / 16 < 16 ∧ 0 ≤ b mod 16 < 16) as [Hh%hex_char_ascii Hl%hex_char_ascii]
    by (Z.to_euclidean_division_equations; lia).
  repeat constructor; unfold u8_max; lia || done.
Qed.

(** Parsing a hexadecimal key: the 64-character hexadecimal text of any 256-bit key gives that
    key, and whatever text is accepted, the resulting key has exactly 32 bytes. *)
Theorem from_hex_correct key hex sb :
  (length key = 32%nat → Forall u8_valid key → from_hex utf8_error (hex_string key) = Ok (mkSealedBox key)) ∧
  (from_hex utf8_error hex = Ok sb → length (sb_key sb) = 32%nat ∧ Forall u8_valid (sb_key sb) ∧ str_len hex = 64).
Proof.
  split.
  - intros Hl Hk. destruct (hex_bytes_facts key Hk) as [Hv Hlen]. unfold from_hex, hex_string.
    rewrite as_bytes_of_bytes by done. unfold zlen. rewrite Hlen, Hl. cbn [negb Z.eqb fail_if mbind result_bind].
    change (Z.of_nat (2 * 32) =? 64) with true. cbn [negb fail_if mbind result_bind].
    step_ok (parse_hex_bytes key Hk). by rewrite Hl.
  - unfold from_hex. rewrite bind_unit, fail_if_Ok, negb_false_iff, Z.eqb_eq, zlen_as_bytes.
    intros (Hlen & k & Hk & E)%(λ h, conj (proj1 h) (proj1 (bind_Ok _ _ _) (proj2 h))).
    rewrite bind_unit, fail_if_Ok, negb_false_iff, Z.eqb_eq in E. destruct E as [Hl [= <-]]. cbn.
    apply parse_hex_chunks_Ok in Hk as [_ Hv]. unfold zlen in Hl. split_and!; [lia|done..].
Qed.
End hexfacts.

(** A pair may carry a plus sign in place of its first digit: such texts are not hexadecimal but are
    accepted. *)
Example from_hex_plus :
  from_hex (λ _, "") "+f+f+f+f+f+f+f+f+f+f+f+f+f+f+f+f+f+f+f+f+f+f+f+f+f+f+f+f+f+f+f+f" =
  Ok (mkSealedBox (replicate 32 15)).
Proof. vm_compute. reflexivity. Qed.

(** ** Sealing *)
Section sealing.
Context `{AesGcmLaws}.

Definition std_char (c : ascii) : bool :=
  is_ascii_alphanumeric c || Ascii.eqb c "+" || Ascii.eqb c "/" || Ascii.eqb c "=".

Lemma std_char_ws_free c : std_char c = true → ws_free_byte c = true.
Proof. destruct c as [[] [] [] [] [] [] [] []]; done. Qed.

Lemma envelope_trim b : trim (SEALED_ENVELOPE_PREFIX +:+ std_encode b) = SEALED_ENVELOPE_PREFIX +:+ std_encode b.
Proof.
  apply trim_ws_free. rewrite str_forall_app. apply andb_true_iff. split; [done|].
  eapply str_forall_impl; [apply std_char_ws_free|apply std_alphabet].
Qed.

(** A box made from a 256-bit key. *)
Definition box_valid (sb : SealedBox) : Prop := length (sb_key sb) = 32%nat.

Lemma cipher_of_valid sb : box_valid sb → ∃ c, cipher_of sb = Ok c.
Proof. intros (c & E)%aes_key_ok. exists c. unfold cipher_of. by rewrite E. Qed.

Lemma seal_with_aad_Ok sb p aad nonce :
  box_valid sb → zlen p ≤ 2^36 → zlen aad ≤ 2^36 → Forall u8_valid p →
  ∃ c ct, cipher_of sb = Ok c ∧ aes_encrypt c nonce aad p = Ok ct ∧ length ct = (length p + 16)%nat ∧
    Forall u8_valid ct ∧
    seal_with_aad sb p aad nonce = Ok (SEALED_ENVELOPE_PREFIX +:+ std_encode (nonce ++ ct)).
Proof.
  intros (c & Ec)%cipher_of_valid Hp Ha Hv. destruct (aes_encrypt_ok c nonce aad p Hp Ha Hv) as (ct & Et & Hl & Hvt).
  exists c, ct. split_and!; [done..|]. unfold seal_with_aad. step_ok Ec. by step_ok Et.
Qed.

(** Opening the envelope of a combined payload. *)
Lemma open_envelope sb nonce ct aad c :
  length nonce = 12%nat → (16 ≤ length ct)%nat → Forall u8_valid (nonce ++ ct) → cipher_of sb = Ok c →
  open_with_aad sb (SEALED_ENVELOPE_PREFIX +:+ std_encode (nonce ++ ct)) aad =
  match aes_decrypt c nonce aad ct with
  | Ok p => Ok p
  | Err _ =>
      if negb (bool_decide (aad = [])) then map_err (λ _, open_error) (aes_decrypt c nonce [] ct)
      else Err open_error
  end.
Proof.
  intros Hn Hct Hv Ec. unfold open_with_aad. rewrite envelope_trim.
  rewrite (proj2 (strip_prefix_spec _ _ _) eq_refl). step_ok (std_roundtrip _ Hv).
  rewrite (proj2 (Z.ltb_ge _ _)) by (unfold zlen; rewrite length_app; lia). cbn [fail_if mbind result_bind].
  step_ok Ec. rewrite <-Hn, take_app_length, drop_app_length.
  destruct (aes_decrypt c nonce aad ct) as [p|e]; [done|]. cbn [map_err].
  destruct (bool_decide (aad = [])); [done|]. by destruct (aes_decrypt c nonce [] ct).
Qed.

(** C38. What was sealed opens: under any 256-bit key, sealing a message of at most 2^36 bytes
    succeeds, and opening the envelope with the same associated data returns the message; a message
    sealed without associated data also opens under other associated data, unless that very
    ciphertext is an encryption bound to them (a collision of tags). *)
Theorem seal_open_roundtrip sb p aad nonce :
  box_valid sb → zlen p ≤ 2^36 → zlen aad ≤ 2^36 → Forall u8_valid p →
  length nonce = 12%nat → Forall u8_valid nonce →
  (∃ env, seal_with_aad sb p aad nonce = Ok env ∧ open_with_aad sb env aad = Ok p) ∧
  (∃ env, seal sb p nonce = Ok env ∧
     (open_with_aad sb env aad = Ok p ∨
      ∃ c ct p', cipher_of sb = Ok c ∧ aes_encrypt c nonce [] p = Ok ct ∧
        aes_encrypt c nonce aad p' = Ok ct ∧ aad ≠ [])).
Proof.
  intros Hb Hp Ha Hv Hn Hnv. split.
  - destruct (seal_with_aad_Ok sb p aad nonce Hb Hp Ha Hv) as (c & ct & Ec & Et & Hl & Hvt & Es).
    eexists. split; [exact Es|]. rewrite (open_envelope sb nonce ct aad c); [|done|lia|by apply Forall_app|done].
    by rewrite (proj2 (aes_decrypt_iff c nonce aad ct p) Et).
  - destruct (seal_with_aad_Ok sb p [] nonce Hb Hp ltac:(done) Hv) as (c & ct & Ec & Et & Hl & Hvt & Es).
    eexists. split; [exact Es|]. rewrite (open_envelope sb nonce ct aad c); [|done|lia|by apply Forall_app|done].
    destruct (aes_decrypt c nonce aad ct) as [p'|e] eqn:Ed.
    + apply aes_decrypt_iff in Ed. destruct (decide (aad = [])) as [->|Hne].
      * left. f_equal. apply aes_decrypt_iff in Ed, Et. congruence.
      * right. by exists c, ct, p'.
    + left. rewrite (proj2 (aes_decrypt_iff c nonce [] ct p) Et). destruct (decide (aad = [])) as [->|Hne].
      * by rewrite (proj2 (aes_decrypt_iff c nonce [] ct p) Et) in Ed.
      * by rewrite bool_decide_false.
Qed.

(** Nothing but a sealed message opens: when a text that carries the envelope prefix opens to a
    message, its payload is a 12-byte nonce followed by exactly the encryption of that message under
    the box's key, bound to the associated data given or, for records older than associated data, to
    none. *)
Theorem open_authentic sb raw aad p :
  starts_with (trim raw) SEALED_ENVELOPE_PREFIX = true → open_with_aad sb raw aad = Ok p →
  ∃ encoded nonce ct c, trim raw = SEALED_ENVELOPE_PREFIX +:+ encoded ∧
    std_decode encoded = Ok (nonce ++ ct) ∧ length nonce = 12%nat ∧ (16 ≤ length ct)%nat ∧
    cipher_of sb = Ok c ∧ (aes_encrypt c nonce aad p = Ok ct ∨ aes_encrypt c nonce [] p = Ok ct).
Proof.
  intros (enc & Hraw)%starts_with_spec. unfold open_with_aad. rewrite (proj2 (strip_prefix_spec _ _ _) Hraw).
  intros (comb & Hd%map_err_Ok & E)%bind_Ok. rewrite bind_unit, fail_if_Ok, Z.ltb_ge in E. destruct E as [Hl E].
  apply bind_Ok in E as (c & Ec & E). unfold zlen in Hl.
  exists enc, (take 12 comb), (drop 12 comb), c. rewrite take_drop, length_take, length_drop.
  split_and!; [done|done|lia|lia|done|].
  destruct (aes_decrypt c (take 12 comb) aad (drop 12 comb)) as [p'|e] eqn:E1; cbn [map_err] in E.
  - injection E as <-. left. by apply aes_decrypt_iff.
  - destruct (bool_decide (aad = [])); [done|]. cbn [negb] in E.
    destruct (aes_decrypt c (take 12 comb) [] (drop 12 comb)) as [p'|e'] eqn:E2; cbn [map_err] in E; [|done].
    injection E as <-. right. by apply aes_decrypt_iff.
Qed.
End sealing.

(** A legacy value is passed through trimmed, not unchanged. *)
Lemma legacy_is_trimmed `{AesGcm} sb raw aad :
  starts_with (trim raw) SEALED_ENVELOPE_PREFIX = false → open_with_aad sb raw aad = Ok (as_bytes (trim raw)).
Proof.
  unfold open_with_aad, starts_with. by destruct (strip_prefix SEALED_ENVELOPE_PREFIX (trim raw)).
Qed.

(** ** Concrete runs *)
Module SealedExamples.
(** A cipher that appends the length of the associated data sixteen times. *)
Definition tag (aad : list Z) : list Z := replicate 16 (zlen aad mod 256).
#[local] Instance tag_cipher : AesGcm :=
  {| AesKey := list Z; aes_new_from_slice := λ k, Ok k; aes_encrypt := λ _ _ aad m, Ok (m ++ tag aad);
     aes_decrypt := λ _ _ aad c,
       if bool_decide (drop (length c - 16) c = tag aad) then Ok (take (length c - 16) c) else Err "aead::Error";
     std_encode := nibble_encode; std_decode := nibble_decode |}.
#[local] Instance tag_cipher_laws : AesGcmLaws.
Proof.
  assert (∀ aad m : list Z, length (m ++ tag aad) - 16 = length m)%nat as Hlen.
  { intros. rewrite length_app. unfold tag. rewrite length_replicate. lia. }
  split; cbn -[tag].
  - eauto.
  - intros k n aad m _ _ Hm. eexists. split; [done|]. rewrite length_app, Forall_app. split_and!; [done|done|].
    apply Forall_replicate. unfold u8_valid, u8_max. pose proof (Z.mod_pos_bound (zlen aad) 256). lia.
  - intros k n aad c m. case_bool_decide as Ht; split; try done.
    + intros [= <-]. by rewrite <-Ht, take_drop.
    + intros [= <-]. by rewrite Hlen, take_app_length.
    + intros [= <-]. destruct Ht. by rewrite Hlen, drop_app_length.
  - intros b Hb. exact (@b64_roundtrip _ nibble_laws b Hb).
  - intros b. eapply str_forall_impl; [|apply nibble_alphanumeric]. intros c Hc. by rewrite Hc.
Qed.

Definition box : SealedBox := mkSealedBox (replicate 32 7).
Definition nonce : list Z := replicate 12 1.
Lemma ones n : Forall u8_valid (replicate n 1).
Proof. apply Forall_replicate. unfold u8_valid, u8_max. lia. Qed.

Lemma seal_open_roundtrip_witness :
  ∃ env, seal_with_aad box [1; 1] [9] nonce = Ok env ∧ open_with_aad box env [9] = Ok [1; 1].
Proof. apply (seal_open_roundtrip box [1; 1] [9] nonce); try done; [apply (ones 2)|apply (ones 12)]. Defined.

Definition env : string := SEALED_ENVELOPE_PREFIX +:+ std_encode (nonce ++ [1; 1] ++ tag [9]).
Lemma open_authentic_witness :
  open_with_aad box (" " +:+ env) [9] = Ok [1; 1] ∧
  ∃ encoded n ct c, trim (" " +:+ env) = SEALED_ENVELOPE_PREFIX +:+ encoded ∧ std_decode encoded = Ok (n ++ ct) ∧
    cipher_of box = Ok c ∧ (aes_encrypt c n [9] [1; 1] = Ok ct ∨ aes_encrypt c n [] [1; 1] = Ok ct).
Proof.
  assert (open_with_aad box (" " +:+ env) [9] = Ok [1; 1]) as E by (vm_compute; reflexivity).
  split; [exact E|].
  destruct (open_authentic box (" " +:+ env) [9] [1; 1]) as (e & n & ct & c & E1 & E2 & _ & _ & E3 & E4);
    [vm_compute; reflexivity|exact E|]. by exists e, n, ct, c.
Defined.

Lemma from_hex_correct_witness :
  from_hex (λ _, "") (hex_string (replicate 32 1)) = Ok (mkSealedBox (replicate 32 1)).
Proof. apply (from_hex_correct (λ _, "") (replicate 32 1) "" box); [done|apply (ones 32)]. Defined.
End SealedExamples.
