(* ===== verification/Exchange.v ===== *)
(** * Exchange: DPoP-authenticated requests of the OAuth client

    What par.rs and client.rs share: a client is pinned to the endpoint through the SSRF filter, a
    proof is made with the nonce cached for the server's origin, the request is sent, and the nonce
    of the answer is cached.  [Env] is the outside world: at the [k]-th effect it answers a DNS
    lookup, a request (as a function of the request), a clock reading or a draw of random bytes, and
    changes the nonce cache, which other tasks share, at every [await].  [CW] is the state the calls
    thread: the pins and the requests sent ([World] of Fetch), the nonce cache, the number of
    effects, and a log of the full exchanges. *)
From S2P Require Import Prelude Errors Strs Externals IpFilter Net Ssrf Fetch Identity Crypto Nonces Htu Dpop.
Open Scope Z_scope.

Section exchange.
Context (fk : gmap string IpAddr → option string) `{UrlParts}.

Record HttpRequest := mkRequest {
  rq_method : string;
  rq_url : Url;
  rq_headers : list (string * string);
  rq_body : option (list Z)
}.

(** The headers are those the code reads, decoded with [to_str]. *)
Record DpopResponse := mkDpopResponse {
  dr_response : Response;
  dr_dpop_nonce : option string;
  dr_www_authenticate : list string
}.
Definition dr_status (r : DpopResponse) : Z := status (dr_response r).

Record Env := mkEnv {
  e_dns : nat → string → DnsOutcome;
  e_server : nat → HttpRequest → result string DpopResponse;
  e_clock : nat → Z;
  e_random : nat → list Z;
  e_others : nat → DPoPNonceCache → DPoPNonceCache
}.

(** One exchange: what was sent where, and what came back. *)
Record Xch := mkXch { x_request : HttpRequest; x_addr : SocketAddr; x_response : result string DpopResponse }.

Record CW := mkCW {
  cw_world : World;
  cw_nonces : DPoPNonceCache;
  cw_tick : nat;
  cw_log : list Xch
}.
End exchange.

Section effects.
Context (fk : gmap string IpAddr → option string) `{UrlParts} (env : Env).
Local Abbreviation CW := (@CW _).

Definition now_ {E} : st CW E Z := λ w,
  (mkCW (cw_world w) (cw_nonces w) (S (cw_tick w)) (cw_log w), Ok (e_clock env (cw_tick w))).
Definition random_ {E} : st CW E (list Z) := λ w,
  (mkCW (cw_world w) (cw_nonces w) (S (cw_tick w)) (cw_log w), Ok (e_random env (cw_tick w))).

(** [SsrfFilter::build_pinned_client(..).await]. *)
Definition pinned_client (f : SsrfFilter) (url : Url) : st CW SsrfError (SocketAddr * string) := λ w,
  let '(r, res) := build_pinned_client fk f (w_resolver (cw_world w)) url (e_dns env (cw_tick w)) in
  (mkCW (mkWorld r (w_calls (cw_world w)) (w_sent (cw_world w)) (w_doh (cw_world w)))
     (e_others env (cw_tick w) (cw_nonces w)) (S (cw_tick w)) (cw_log w), res).

(** [.send().await]. *)
Definition send (addr : SocketAddr) (req : HttpRequest) : st CW string DpopResponse := λ w,
  (mkCW (mkWorld (w_resolver (cw_world w)) (w_calls (cw_world w)) (w_sent (cw_world w) ++ [(rq_url req, addr)])
           (w_doh (cw_world w)))
     (e_others env (cw_tick w) (cw_nonces w)) (S (cw_tick w))
     (cw_log w ++ [mkXch req addr (e_server env (cw_tick w) req)]),
   e_server env (cw_tick w) req).

Definition cached_nonce {E} (origin : string) : st CW E (option string) := λ w,
  (w, Ok (get_nonce (cw_nonces w) origin)).

(** [if let Some(new_nonce) = extract_dpop_nonce(..) { nonce_cache.set_nonce(..) }]. *)
Definition remember_nonce {E} (origin : string) (resp : DpopResponse) : st CW E unit := λ w,
  (match extract_dpop_nonce (dr_dpop_nonce resp) with
   | Some new_nonce =>
       mkCW (cw_world w) (set_nonce (cw_nonces w) origin new_nonce) (cw_tick w) (cw_log w)
   | None => w
   end, Ok tt).

(** [DPoPKey::create_proof] and [create_client_assertion] read the clock, then draw the identifier. *)
Context `{Base64} `{P256} `{SerdeJson} `{UnicodeUpper} `{Sha2}.

Definition form_request (url : Url) (host_header proof : string) (form_body : list Z) : HttpRequest :=
  mkRequest "POST" url
    [("host", host_header); ("content-type", "application/x-www-form-urlencoded");
     ("accept", "application/json"); ("dpop", proof)]
    (Some form_body).

Definition make_proof (key : SigningKey) (htm htu : string) (nonce ath : option string)
    : st CW AtprotoOAuthError string :=
  now ← now_; raw ← random_;
  lift (map_err AtprotoOAuthError_DPoP (create_proof key htm htu nonce ath now raw)).

Definition make_client_assertion (key : SigningKey) (client_id audience : string)
    : st CW AtprotoOAuthError string :=
  now ← now_; raw ← random_;
  lift (map_err AtprotoOAuthError_DPoP (create_client_assertion key client_id audience now raw)).
End effects.

(** [StatusCode::is_redirection], [is_success], and the two statuses of a challenge. *)
Definition is_redirection (s : Z) : bool := bool_decide (300 ≤ s ≤ 399).
Definition is_success (s : Z) : bool := bool_decide (200 ≤ s ≤ 299).
Definition is_400_or_401 (s : Z) : bool := (s =? 400) || (s =? 401).

(** [json.and_then(|j| j.get("error")).and_then(|e| e.as_str()) == Some("use_dpop_nonce")]. *)
Definition is_use_dpop_nonce_error (j : option json) : bool :=
  bool_decide (j ≫= (λ v, get_str v "error") = Some "use_dpop_nonce").

(** The [error] and [error_description] of an error body; [default_code] is the fallback. *)
Definition error_fields (default_code : string) (j : option json) : string * option string :=
  (default default_code (j ≫= λ v, get_str v "error"), j ≫= λ v, get_str v "error_description").

(** ** What an exchange may do to the world

    A Hoare-style logic of traces: from a well-formed resolver, a computation leaves the resolver well
    formed and appends to the log a trace [l] with [P l]; a value it returns satisfies [Q] together
    with the trace. *)
Section traces.
Context (fk : gmap string IpAddr → option string) `{UrlParts} (env : Env).
Local Abbreviation CW := (@CW _).

Definition extends (l : list Xch) (w w' : CW) : Prop :=
  resolver_wf (w_resolver (cw_world w')) ∧ cw_log w' = cw_log w ++ l ∧
  w_sent (cw_world w') = w_sent (cw_world w) ++ ((λ x, (rq_url (x_request x), x_addr x)) <$> l).

Definition traced {E A} (P : list Xch → Prop) (Q : A → list Xch → Prop) (m : st CW E A) : Prop :=
  ∀ w, resolver_wf (w_resolver (cw_world w)) →
    ∃ l, extends l w (m w).1 ∧ P l ∧ ∀ a, (m w).2 = Ok a → Q a l.

Lemma extends_nil w : resolver_wf (w_resolver (cw_world w)) → extends [] w w.
Proof. intros Hw. unfold extends. simpl. by rewrite !app_nil_r. Qed.

Lemma extends_app l1 l2 w1 w2 w3 : extends l1 w1 w2 → extends l2 w2 w3 → extends (l1 ++ l2) w1 w3.
Proof.
  intros (_ & E1 & S1) (Hw & E2 & S2). split; [done|]. by rewrite E2, E1, S2, S1, fmap_app, !app_assoc.
Qed.

(** Steps that send nothing. *)
Lemma traced_quiet {E A} (m : st CW E A) (P : list Xch → Prop) (Q : A → list Xch → Prop) :
  P [] → (∀ w, cw_world (m w).1 = cw_world w ∧ cw_log (m w).1 = cw_log w ∧ ∀ a, (m w).2 = Ok a → Q a []) →
  traced P Q m.
Proof.
  intros HP Hm w Hw. destruct (Hm w) as (E1 & E2 & HQ). exists []. split; [|done].
  unfold extends. rewrite E1, E2. simpl. by rewrite !app_nil_r.
Qed.

Lemma traced_bind {E A B} P1 (Q1 : A → list Xch → Prop) P (Q : B → list Xch → Prop)
    (m : st CW E A) (g : A → st CW E B) :
  traced P1 Q1 m → (∀ l, P1 l → P l) →
  (∀ a l1, P1 l1 → Q1 a l1 → traced (λ l2, P (l1 ++ l2)) (λ b l2, Q b (l1 ++ l2)) (g a)) →
  traced P Q (m ≫= g).
Proof.
  intros Hm HP Hg w Hw. destruct (Hm w Hw) as (l1 & He & Hl & HQ). unfold mbind, st_bind.
  destruct (m w) as [w1 [a|e]]; simpl in *; [|exists l1; split_and!; [done|by apply HP|done]].
  destruct (Hg a l1 Hl (HQ a eq_refl) w1 (proj1 He)) as (l2 & He2 & HP2 & HQ2).
  exists (l1 ++ l2). split_and!; [by eapply extends_app|done..].
Qed.

Lemma traced_map_err {E F A} P (Q : A → list Xch → Prop) (h : E → F) (m : st CW E A) :
  traced P Q m → traced P Q (st_map_err h m).
Proof.
  intros Hm w Hw. destruct (Hm w Hw) as (l & He & HP & HQ). exists l. unfold st_map_err.
  destruct (m w) as [w1 [a|e]]; cbn in *; (split_and!; [done..|]); [|done]. intros x [= <-]. by apply HQ.
Qed.

Lemma traced_impl {E A} (P P' : list Xch → Prop) (Q Q' : A → list Xch → Prop) (m : st CW E A) :
  (∀ l, P l → P' l) → (∀ a l, P l → Q a l → Q' a l) → traced P Q m → traced P' Q' m.
Proof.
  intros HP HQ Hm w Hw. destruct (Hm w Hw) as (l & He & Hl & Ha). exists l. split_and!; [done|by apply HP|].
  intros a Ea. apply HQ; [done|]. by apply Ha.
Qed.

Lemma traced_pinned `{!FirstKeyLaws fk} f url :
  traced (λ l, l = []) (λ a l, l = [] ∧ request_safe f (url, fst a)) (pinned_client fk env f url).
Proof.
  intros w Hw. unfold pinned_client. destruct (build_pinned_client _ _ _ _ _) as [r res] eqn:E.
  destruct (build_pinned_client_safe fk f _ url _ r res Hw E) as (Hr & _ & Hs). exists []. split_and!.
  - unfold extends. simpl. by rewrite !app_nil_r.
  - done.
  - intros [a hh] Ea. simpl in Ea. split; [done|]. by eapply Hs.
Qed.

Lemma traced_send addr req :
  traced (λ l, ∃ res, l = [mkXch req addr res]) (λ resp l, l = [mkXch req addr (Ok resp)]) (send env addr req).
Proof.
  intros w Hw. exists [mkXch req addr (e_server env (cw_tick w) req)]. split_and!; [done|by eexists|].
  simpl. by intros a ->.
Qed.

Lemma traced_remember {E} origin resp :
  traced (E := E) (λ l, l = []) (λ _ l, l = []) (remember_nonce origin resp).
Proof.
  apply traced_quiet; [done|]. intros w. unfold remember_nonce. by destruct (extract_dpop_nonce _).
Qed.

(** The value returned was read from the last exchange: its answer [resp] satisfies [P resp]. *)
Definition answered {A} (P : DpopResponse → A → Prop) (a : A) (l : list Xch) : Prop :=
  ∃ before x resp, l = before ++ [x] ∧ x_response x = Ok resp ∧ P resp a.

Lemma answered_bind {E A B} (P : DpopResponse → B → Prop) (m : st CW E A) (g : A → st CW E B) :
  traced (λ _, True) (λ _ _, True) m → (∀ a, traced (λ _, True) (answered P) (g a)) → traced (λ _, True) (answered P) (m ≫= g).
Proof.
  intros Hm Hg. eapply traced_bind; [exact Hm|done|]. intros a l1 _ _.
  eapply traced_impl; [| |exact (Hg a)]; [done|]. intros b l2 _ (before & x & resp & -> & Hx & HP).
  exists (l1 ++ before), x, resp. by rewrite app_assoc.
Qed.

(** At most [n] exchanges, each of them [allowed]. *)
Definition at_most (n : nat) (allowed : Xch → Prop) (l : list Xch) : Prop :=
  (length l ≤ n)%nat ∧ Forall allowed l.
(** Forget the trace. *)
Lemma traced_any {E A} P (Q : A → list Xch → Prop) (m : st CW E A) : traced P Q m → traced (λ _, True) (λ _ _, True) m.
Proof. intros Hm. by eapply traced_impl; [| |exact Hm]. Qed.

Definition disciplined {E A} (n : nat) (allowed : Xch → Prop) (Q : A → Prop) (m : st CW E A) : Prop :=
  traced (at_most n allowed) (λ a _, Q a) m.

(** A form posted to [url], to an address the SSRF filter admits, with a body that satisfies [B]. *)
Definition form_allowed (f : SsrfFilter) (url : Url) (B : list Z → Prop) (x : Xch) : Prop :=
  request_safe f (url, x_addr x) ∧
  ∃ host proof body, x_request x = form_request url host proof body ∧ B body.

Context (allowed : Xch → Prop).

Lemma at_most_nil n : at_most n allowed [].
Proof. split; [simpl; lia|done]. Qed.

Lemma at_most_app n k l1 l2 : at_most n allowed l1 → at_most k allowed l2 → at_most (n + k) allowed (l1 ++ l2).
Proof. intros [H1 F1] [H2 F2]. split; [rewrite length_app; lia|by apply Forall_app]. Qed.

Lemma at_most_weaken n k l : (n ≤ k)%nat → at_most n allowed l → at_most k allowed l.
Proof. intros Hnk [Hl Hf]. split; [lia|done]. Qed.

Lemma disciplined_quiet {E A} n (m : st CW E A) (Q : A → Prop) :
  (∀ w, cw_world (m w).1 = cw_world w ∧ cw_log (m w).1 = cw_log w ∧ ∀ a, (m w).2 = Ok a → Q a) →
  disciplined n allowed Q m.
Proof. intros Hm. apply traced_quiet; [apply at_most_nil|done]. Qed.

Lemma disciplined_ret {E A} n (a : A) (Q : A → Prop) :
  Q a → disciplined (E := E) n allowed Q (mret a).
Proof. intros HQ. apply disciplined_quiet. intros w. cbn. split_and!; [done..|]. by intros x [= <-]. Qed.

Lemma disciplined_lift {E A} n (r : result E A) (Q : A → Prop) :
  (∀ a, r = Ok a → Q a) → disciplined n allowed Q (lift r).
Proof. intros HQ. by apply disciplined_quiet. Qed.

Lemma disciplined_bind {E A B} n k (m : st CW E A) (g : A → st CW E B) (Q : A → Prop) (R : B → Prop) :
  disciplined n allowed Q m → (∀ a, Q a → disciplined k allowed R (g a)) →
  disciplined (n + k) allowed R (m ≫= g).
Proof.
  intros Hm Hg. eapply traced_bind; [exact Hm|intros l; apply at_most_weaken; lia|].
  intros a l1 Hl Ha. eapply traced_impl; [| |exact (Hg a Ha)]; [|done]. intros l2. by apply at_most_app.
Qed.

Lemma disciplined_map_err {E F A} n (h : E → F) (m : st CW E A) (Q : A → Prop) :
  disciplined n allowed Q m → disciplined n allowed Q (st_map_err h m).
Proof. apply traced_map_err. Qed.

Lemma disciplined_pinned `{!FirstKeyLaws fk} n f url :
  disciplined n allowed (λ a, request_safe f (url, fst a)) (pinned_client fk env f url).
Proof.
  eapply traced_impl; [| |apply traced_pinned; apply _]; [intros l ->; apply at_most_nil|]. by intros a l _ [_ ?].
Qed.

Lemma disciplined_send addr req :
  (∀ res, allowed (mkXch req addr res)) → disciplined 1 allowed (λ _, True) (send env addr req).
Proof.
  intros Ha. eapply traced_impl; [| |apply traced_send]; [|done]. intros l [res ->].
  split; [simpl; lia|by repeat constructor].
Qed.

Lemma disciplined_remember {E} n origin resp :
  disciplined (E := E) n allowed (λ _, True) (remember_nonce origin resp).
Proof. eapply traced_impl; [| |apply traced_remember]; [intros l ->; apply at_most_nil|done]. Qed.

Context `{Base64} `{Sha2} `{P256} `{SerdeJson} `{UnicodeUpper}.

(** Making a proof or an assertion only reads the clock and draws bytes. *)
Lemma make_proof_world key htm htu nonce ath w :
  cw_world (make_proof env key htm htu nonce ath w).1 = cw_world w ∧
  cw_log (make_proof env key htm htu nonce ath w).1 = cw_log w.
Proof. done. Qed.

Lemma make_client_assertion_world key cid aud w :
  cw_world (make_client_assertion env key cid aud w).1 = cw_world w ∧
  cw_log (make_client_assertion env key cid aud w).1 = cw_log w.
Proof. done. Qed.

Lemma make_proof_quiet n key htm htu nonce ath :
  disciplined n allowed (λ _, True) (make_proof env key htm htu nonce ath).
Proof. apply disciplined_quiet. intros w. by destruct (make_proof_world key htm htu nonce ath w). Qed.

Lemma make_client_assertion_quiet n key cid aud :
  disciplined n allowed (λ _, True) (make_client_assertion env key cid aud).
Proof. apply disciplined_quiet. intros w. by destruct (make_client_assertion_world key cid aud w). Qed.
End traces.
