(* ===== verification/Par.v ===== *)
(** * Par: pushed authorization requests (src/src/par.rs)

    Parameters and their form encoding, the authorization URL, and the exchange with the PAR endpoint
    with its single retry on a nonce challenge. *)
From S2P Require Import Prelude Errors Strs Externals Instances IpFilter Net.
From S2P Require Import Ssrf Fetch Identity Crypto Nonces Htu Dpop Exchange.
Open Scope Z_scope.

Definition CLIENT_ASSERTION_TYPE_JWT_BEARER : string :=
  "urn:ietf:params:oauth:client-assertion-type:jwt-bearer".

(** ** Parameters *)
Record ParParameters := mkPar {
  client_id : string;
  redirect_uri : string;
  par_scope : string;
  par_state : string;
  code_challenge : string;
  code_challenge_method : string;
  response_type : string;
  login_hint : option string;
  client_assertion_type : option string;
  client_assertion : option string
}.

Definition par_new (client_id redirect_uri scope state code_challenge : string) : ParParameters :=
  mkPar client_id redirect_uri scope state code_challenge "S256" "code" None None None.

Definition with_login_hint (p : ParParameters) (hint : string) : ParParameters :=
  mkPar (client_id p) (redirect_uri p) (par_scope p) (par_state p) (code_challenge p)
    (code_challenge_method p) (response_type p) (Some hint) (client_assertion_type p) (client_assertion p).

Definition with_client_assertion (p : ParParameters) (assertion_type assertion : string) : ParParameters :=
  mkPar (client_id p) (redirect_uri p) (par_scope p) (par_state p) (code_challenge p)
    (code_challenge_method p) (response_type p) (login_hint p) (Some assertion_type) (Some assertion).

Definition optional_pair (key : string) (o : option string) : list (string * string) :=
  match o with Some v => [(key, v)] | None => [] end.

Definition encode_pairs (p : ParParameters) : list (string * string) :=
  [("client_id", client_id p); ("response_type", response_type p); ("redirect_uri", redirect_uri p);
   ("scope", par_scope p); ("state", par_state p); ("code_challenge", code_challenge p);
   ("code_challenge_method", code_challenge_method p)]
  ++ optional_pair "login_hint" (login_hint p)
  ++ optional_pair "client_assertion_type" (client_assertion_type p)
  ++ optional_pair "client_assertion" (client_assertion p).

Definition to_form_urlencoded `{FormCrate} (p : ParParameters) : string := form_serialize "" (encode_pairs p).

Record ParResponse := mkParResponse { request_uri : string; par_expires_in : Z }.

(** ** Responses *)
Definition par_error {A} (e : ParError) : result AtprotoOAuthError A := Err (AtprotoOAuthError_Par e).

Definition parse_par_response `{SerdeJson} (bytes : list Z) : result AtprotoOAuthError ParResponse :=
  parsed ← map_err (λ e, AtprotoOAuthError_Par (ParError_Json e)) (json_from_slice bytes);
  request_uri ← ok_or (get_str parsed "request_uri") (AtprotoOAuthError_Par (ParError_MissingField "request_uri"));
  _ ← fail_if (str_is_empty (trim request_uri))
        (AtprotoOAuthError_Par (ParError_InvalidRequestUri "Empty request_uri"));
  expires_in ← ok_or (json_get parsed "expires_in" ≫= as_u64)
                 (AtprotoOAuthError_Par (ParError_MissingField "expires_in"));
  Ok (mkParResponse request_uri expires_in).

Definition parse_par_error_fields (j : option json) : string * option string :=
  error_fields "par_request_failed" j.

Definition par_request_failed {A} (status : Z) (j : option json) : result AtprotoOAuthError A :=
  let '(error, description) := parse_par_error_fields j in
  par_error (ParError_RequestFailed status error description).

Definition par_no_redirect (status : Z) : ParError :=
  ParError_RequestFailed status "invalid_request" (Some "Redirects are not permitted for PAR endpoints").

(** [read_bounded_body(resp, MAX_OAUTH_RESPONSE_BYTES).await.map_err(|e| ParError::Http(e.to_string()))]. *)
Definition par_read_body (resp : DpopResponse) : result AtprotoOAuthError (list Z) :=
  map_err (λ e, AtprotoOAuthError_Par (ParError_Http (SsrfError_display e)))
    (read_bounded_body (dr_response resp) MAX_OAUTH_RESPONSE_BYTES).

(** The end of a successful exchange, the same on the first and on the second attempt. *)
Definition par_finish `{SerdeJson} (resp : DpopResponse) : result AtprotoOAuthError ParResponse :=
  _ ← map_err (λ e, AtprotoOAuthError_Par (ParError_DPoP e)) (require_dpop_nonce (dr_dpop_nonce resp));
  body_bytes ← par_read_body resp;
  parse_par_response body_bytes.

(** ** The authorization URL *)
Definition build_authorization_url `{UrlEdit} (authorization_endpoint client_id request_uri : string)
    : result AtprotoOAuthError Url :=
  url ← map_err (λ e, AtprotoOAuthError_Par (ParError_InvalidEndpoint
                   ("Invalid authorization endpoint '" +:+ authorization_endpoint +:+ "': " +:+ e)))
          (url_parse authorization_endpoint);
  Ok (url_append_pairs url [("client_id", client_id); ("request_uri", request_uri)]).

(** ** The exchange *)
Section exchange.
Context (fk : gmap string IpAddr → option string) `{UrlParts} (env : Env).
Context `{Base64} `{Sha2} `{P256} `{SerdeJson} `{UnicodeUpper} `{FormCrate}.
Local Abbreviation CW := (@CW _).

(** The body with a fresh client assertion, for a confidential client [(key, audience)]. *)
Definition asserted_form (params : ParParameters) (auth : SigningKey * string)
    : st CW AtprotoOAuthError string :=
  assertion ← make_client_assertion env (fst auth) (client_id params) (snd auth);
  mret (to_form_urlencoded (with_client_assertion params CLIENT_ASSERTION_TYPE_JWT_BEARER assertion)).

Definition par_pinned (f : SsrfFilter) (url : Url) : st CW AtprotoOAuthError (SocketAddr * string) :=
  st_map_err (λ e, AtprotoOAuthError_Par (ParError_Ssrf e)) (pinned_client fk env f url).

(** Send, and cache the nonce of the answer. *)
Definition par_send (server_origin : string) (addr : SocketAddr) (req : HttpRequest)
    : st CW AtprotoOAuthError DpopResponse :=
  resp ← st_map_err (λ e, AtprotoOAuthError_Par (ParError_Http e)) (send env addr req);
  _ ← remember_nonce server_origin resp;
  mret resp.

(** The second attempt, after a challenge with status [status]. *)
Definition par_retry (f : SsrfFilter) (par_endpoint : string) (params : ParParameters)
    (dpop_key : SigningKey) (client_auth : option (SigningKey * string)) (parsed_url : Url)
    (form_body : string) (status : Z) : st CW AtprotoOAuthError ParResponse :=
  let server_origin := url_origin parsed_url in
  cached ← cached_nonce server_origin;
  fresh_nonce ← lift (ok_or cached (AtprotoOAuthError_Par (ParError_RequestFailed status "use_dpop_nonce"
                        (Some "Missing DPoP-Nonce header in challenge response"))));
  retry_proof ← make_proof env dpop_key "POST" par_endpoint (Some fresh_nonce) None;
  retry_form_body ← match client_auth with
                    | Some auth => asserted_form params auth
                    | None => mret form_body
                    end;
  '(retry_addr, retry_host_header) ← par_pinned f parsed_url;
  retry_resp ← par_send server_origin retry_addr
                 (form_request parsed_url retry_host_header retry_proof (as_bytes retry_form_body));
  let retry_status := dr_status retry_resp in
  lift (
    if is_redirection retry_status then par_error (par_no_redirect retry_status)
    else if is_success retry_status then par_finish retry_resp
    else
      err_bytes ← par_read_body retry_resp;
      let err_json := result_ok (json_from_slice err_bytes) in
      if is_use_dpop_nonce_error err_json
      then Err (AtprotoOAuthError_DPoP DPoPError_NonceRetryLimitExceeded)
      else par_request_failed retry_status err_json).

Definition execute_par_request_with_client_key (f : SsrfFilter) (par_endpoint : string)
    (params : ParParameters) (dpop_key : SigningKey) (client_auth : option (SigningKey * string))
    : st CW AtprotoOAuthError ParResponse :=
  parsed_url ← lift (map_err (λ e, AtprotoOAuthError_Par (ParError_InvalidEndpoint
                       ("Invalid PAR endpoint URL '" +:+ par_endpoint +:+ "': " +:+ e)))
                       (url_parse par_endpoint));
  '(addr, host_header) ← par_pinned f parsed_url;
  let server_origin := url_origin parsed_url in
  form_body ← match client_auth with
              | Some auth => asserted_form params auth
              | None => mret (to_form_urlencoded params)
              end;
  initial_nonce ← cached_nonce server_origin;
  proof ← make_proof env dpop_key "POST" par_endpoint initial_nonce None;
  resp ← par_send server_origin addr (form_request parsed_url host_header proof (as_bytes form_body));
  let status := dr_status resp in
  if is_redirection status then lift (par_error (par_no_redirect status))
  else if is_400_or_401 status then
    resp_bytes ← lift (par_read_body resp);
    let json_err := result_ok (json_from_slice resp_bytes) in
    if is_use_dpop_nonce_error json_err
    then par_retry f par_endpoint params dpop_key client_auth parsed_url form_body status
    else lift (par_request_failed status json_err)
  else if negb (is_success status) then
    err_bytes ← lift (par_read_body resp);
    lift (par_request_failed status (result_ok (json_from_slice err_bytes)))
  else lift (par_finish resp).

Definition execute_par_request (f : SsrfFilter) (par_endpoint : string) (params : ParParameters)
    (dpop_key : SigningKey) : st CW AtprotoOAuthError ParResponse :=
  execute_par_request_with_client_key f par_endpoint params dpop_key None.
End exchange.

(** ** Facts *)
Section facts.
Context (fk : gmap string IpAddr → option string) `{!FirstKeyLaws fk} `{UrlParts} (env : Env).
Context `{Base64} `{Sha2} `{P256} `{SerdeJson} `{UnicodeUpper} `{FormCrate}.
Local Abbreviation execute_par := (execute_par_request_with_client_key fk env).

(** The bodies a pushed request may have: the parameters, with or without a client assertion. *)
Definition par_body (params : ParParameters) (body : list Z) : Prop :=
  ∃ p, (p = params ∨ ∃ a, p = with_client_assertion params CLIENT_ASSERTION_TYPE_JWT_BEARER a) ∧
    body = as_bytes (to_form_urlencoded p).

Lemma form_quiet allowed n params auth (form : string) :
  par_body params (as_bytes form) →
  disciplined n allowed (λ b, par_body params (as_bytes b))
    (match auth with Some a => asserted_form env params a | None => mret form end).
Proof.
  intros Hf. destruct auth as [auth|]; [|by apply disciplined_ret].
  apply (disciplined_bind _ 0 n _ _ (λ _, True)); [apply make_client_assertion_quiet|].
  intros a _. apply disciplined_ret. eexists. split; [right; by exists a|done].
Qed.

Lemma par_send_one f url addr host proof body origin (B : list Z → Prop) :
  request_safe f (url, addr) → B body →
  disciplined 1 (form_allowed f url B) (λ _, True) (par_send env origin addr (form_request url host proof body)).
Proof.
  intros Hs HB. apply (disciplined_bind _ 1 0 _ _ (λ _, True)).
  { apply disciplined_map_err, disciplined_send. intros res. split; [done|]. by exists host, proof, body. }
  intros resp _. apply (disciplined_bind _ 0 0 _ _ (λ _, True)); [apply disciplined_remember|].
  intros _ _; by apply disciplined_ret.
Qed.

Lemma par_pinned_safe allowed n f url :
  disciplined n allowed (λ a, request_safe f (url, fst a)) (par_pinned fk env f url).
Proof. apply disciplined_map_err, disciplined_pinned. apply _. Qed.

(** What a response the client accepts satisfies. *)
Definition par_valid (r : ParResponse) : Prop := trim (request_uri r) ≠ "" ∧ u64_valid (par_expires_in r).

Lemma parse_par_response_Ok bytes r : parse_par_response bytes = Ok r → par_valid r.
Proof.
  unfold parse_par_response, par_valid, str_is_empty. intros E. apply bind_Ok in E as (v & _ & E).
  apply bind_Ok in E as (u & _ & E). rewrite bind_unit, fail_if_Ok, String.eqb_neq in E.
  destruct E as [Hu E]. apply bind_Ok in E as (n & En%ok_or_Ok & [= <-]). split; [done|]. cbn.
  apply bind_Some in En as (j & _ & En). unfold as_u64 in En. destruct j; try done. case_if; [|done].
  injection En as <-. b2p. done.
Qed.

Lemma par_finish_Ok resp r : par_finish resp = Ok r → par_valid r.
Proof.
  unfold par_finish. intros E. rewrite bind_unit in E. destruct E as [_ E].
  apply bind_Ok in E as (b & _ & E). by eapply parse_par_response_Ok.
Qed.

Lemma par_request_failed_not_ok {A} status j (r : A) : par_request_failed status j ≠ Ok r.
Proof. unfold par_request_failed. by destruct (parse_par_error_fields j). Qed.

Lemma par_retry_disciplined f ep params key auth url form status :
  par_body params (as_bytes form) →
  disciplined 1 (form_allowed f url (par_body params)) par_valid
    (par_retry fk env f ep params key auth url form status).
Proof.
  intros Hf. unfold par_retry. apply (disciplined_bind _ 0 1 _ _ (λ _, True)); [by apply disciplined_quiet|]. intros c _.
  apply (disciplined_bind _ 0 1 _ _ (λ _, True)); [by apply disciplined_lift|]. intros n _.
  apply (disciplined_bind _ 0 1 _ _ (λ _, True)); [apply make_proof_quiet|]. intros proof _.
  apply (disciplined_bind _ 0 1 _ _ _ _ (form_quiet _ 0 params auth form Hf)). intros body Hb.
  apply (disciplined_bind _ 0 1 _ _ _ _ (par_pinned_safe _ 0 f url)). intros [addr host] Hs.
  apply (disciplined_bind _ 1 0 _ _ (λ _, True)); [by apply par_send_one|]. intros resp _.
  apply disciplined_lift. intros r. destruct (is_redirection _); [done|].
  destruct (is_success _); [apply par_finish_Ok|]. intros E. apply bind_Ok in E as (b & _ & E).
  destruct (is_use_dpop_nonce_error _); [done|]. by apply par_request_failed_not_ok in E.
Qed.

Lemma execute_par_disciplined f ep params key auth url :
  url_parse ep = Ok url →
  disciplined 2 (form_allowed f url (par_body params)) par_valid (execute_par f ep params key auth).
Proof.
  intros Hurl. unfold execute_par_request_with_client_key. rewrite Hurl.
  apply (disciplined_bind _ 0 2 _ _ (λ u, u = url)); [by apply disciplined_lift; intros ? [= <-]|]. intros ? ->.
  apply (disciplined_bind _ 0 2 _ _ _ _ (par_pinned_safe _ 0 f url)). intros [addr host] Hs.
  assert (par_body params (as_bytes (to_form_urlencoded params))) as Hf by (exists params; auto).
  apply (disciplined_bind _ 0 2 _ _ _ _ (form_quiet _ 0 params auth _ Hf)). intros body Hb.
  apply (disciplined_bind _ 0 2 _ _ (λ _, True)); [by apply disciplined_quiet|]. intros n _.
  apply (disciplined_bind _ 0 2 _ _ (λ _, True)); [apply make_proof_quiet|]. intros proof _.
  apply (disciplined_bind _ 1 1 _ _ (λ _, True)); [by apply par_send_one|]. intros resp _.
  destruct (is_redirection _); [by apply disciplined_lift|]. destruct (is_400_or_401 _).
  { apply (disciplined_bind _ 0 1 _ _ (λ _, True)); [by apply disciplined_lift|]. intros b _.
    destruct (is_use_dpop_nonce_error _); [by apply par_retry_disciplined|].
    apply disciplined_lift. intros r E. by apply par_request_failed_not_ok in E. }
  destruct (is_success _); simpl; [apply disciplined_lift; apply par_finish_Ok|].
  apply (disciplined_bind _ 0 1 _ _ (λ _, True)); [by apply disciplined_lift|]. intros b _.
  apply disciplined_lift. intros r E. by apply par_request_failed_not_ok in E.
Qed.

(** The response returned is the one the last exchange carried: an answer of the server with a status of
    success and a nonce, whose body parses to it. *)
Definition par_answer (resp : DpopResponse) (r : ParResponse) : Prop :=
  is_success (dr_status resp) = true ∧ par_finish resp = Ok r.

Lemma par_send_traced origin addr req :
  traced (λ l, ∃ res, l = [mkXch req addr res]) (λ resp l, l = [mkXch req addr (Ok resp)]) (par_send env origin addr req).
Proof.
  eapply traced_bind; [apply traced_map_err, traced_send|done|]. intros resp l1 _ ->.
  eapply traced_bind; [apply traced_remember|intros l ->; by eexists|]. intros u l2 -> _. cbn.
  apply traced_quiet; [by eexists|]. intros w. cbn. split_and!; [done..|]. by intros a [= <-].
Qed.

(** What follows a request: a pure reading of its answer. *)
Lemma par_send_answered origin addr req (g : DpopResponse → result AtprotoOAuthError ParResponse) :
  (∀ resp r, g resp = Ok r → par_answer resp r) →
  traced (λ _, True) (answered par_answer) (resp ← par_send env origin addr req; lift (g resp)).
Proof.
  intros Hg. eapply traced_bind; [apply par_send_traced|done|]. intros resp l1 _ ->.
  apply traced_quiet; [done|]. intros w. cbn. split_and!; [done..|]. intros r Hr.
  exists [], (mkXch req addr (Ok resp)), resp. split_and!; [done..|by apply Hg].
Qed.

Ltac answered_step := apply answered_bind; [|intros].
Ltac destruct_addr := match goal with a : SocketAddr * string |- _ => destruct a as [addr host] end.

Lemma par_retry_answered f ep params key auth url form status :
  traced (λ _, True) (answered par_answer) (par_retry fk env f ep params key auth url form status).
Proof.
  unfold par_retry. answered_step; [by apply traced_quiet|]. answered_step; [by apply traced_quiet|].
  answered_step; [eapply traced_any, (make_proof_quiet env (λ _, False) 0)|].
  answered_step; [destruct auth as [a'|]; [|by apply traced_quiet]|].
  { eapply traced_any, (form_quiet (λ _, False) 0 params (Some a') (to_form_urlencoded params)). exists params; auto. }
  answered_step; [eapply traced_any, (par_pinned_safe (λ _, False) 0 f url)|]. destruct_addr.
  apply par_send_answered. intros resp r. destruct (is_redirection _); [done|].
  destruct (is_success _) eqn:Es; [done|]. intros E. apply bind_Ok in E as (b & _ & E).
  destruct (is_use_dpop_nonce_error _); [done|]. by apply par_request_failed_not_ok in E.
Qed.

Lemma execute_par_answered f ep params key auth :
  traced (λ _, True) (answered par_answer) (execute_par f ep params key auth).
Proof.
  unfold execute_par_request_with_client_key. answered_step; [by apply traced_quiet|].
  match goal with u : Url |- _ => rename u into url end.
  answered_step; [eapply traced_any, (par_pinned_safe (λ _, False) 0 f url)|]. destruct_addr.
  answered_step; [eapply traced_any, (form_quiet (λ _, False) 0 params auth (to_form_urlencoded params)); exists params; auto|].
  answered_step; [by apply traced_quiet|]. answered_step; [eapply traced_any, (make_proof_quiet env (λ _, False) 0)|].
  eapply traced_bind; [apply par_send_traced|done|]. intros resp l1 _ ->.
  assert (∀ m : st CW AtprotoOAuthError ParResponse, traced (λ _, True) (answered par_answer) m →
    traced (λ _, True) (λ r l2, answered par_answer r ([mkXch (form_request url host a1 (as_bytes a)) addr (Ok resp)] ++ l2)) m)
    as Hlater.
  { intros m Hm. eapply traced_impl; [| |exact Hm]; [done|]. intros r l2 _ (before & x & resp' & -> & Hx & HP).
    by exists (mkXch (form_request url host a1 (as_bytes a)) addr (Ok resp) :: before), x, resp'. }
  destruct (is_redirection _); [by apply traced_quiet|]. destruct (is_400_or_401 _).
  { apply Hlater. answered_step; [by apply traced_quiet|]. destruct (is_use_dpop_nonce_error _); [apply par_retry_answered|].
    apply traced_quiet; [done|]. intros w. cbn. split_and!; [done..|]. intros r E. by apply par_request_failed_not_ok in E. }
  destruct (is_success _) eqn:Es; cbn [negb].
  - apply traced_quiet; [done|]. intros w. cbn. split_and!; [done..|]. intros r Hr.
    by exists [], (mkXch (form_request url host a1 (as_bytes a)) addr (Ok resp)), resp.
  - apply Hlater. answered_step; [by apply traced_quiet|]. apply traced_quiet; [done|]. intros w. cbn. split_and!; [done..|].
    intros r E. by apply par_request_failed_not_ok in E.
Qed.

(** A parse error of the endpoint costs nothing. *)
Lemma execute_par_any f ep params key auth :
  disciplined 2 (λ x, ∃ url, url_parse ep = Ok url ∧ form_allowed f url (par_body params) x) par_valid
    (execute_par f ep params key auth).
Proof.
  destruct (url_parse ep) as [url|e] eqn:Hurl.
  - eapply traced_impl; [| |by apply execute_par_disciplined]; [|done]. intros l [Hl Hf]. split; [done|].
    eapply Forall_impl; [exact Hf|]. intros x Hx. by exists url.
  - apply disciplined_quiet. intros w. unfold execute_par_request_with_client_key. rewrite Hurl. done.
Qed.

(** Whatever the server, DNS and other tasks do, a pushed authorization request sends at most two
    HTTP requests; each is a POST to the endpoint's URL, carries a DPoP proof, has the parameters (with
    at most a client assertion added) as its form, and goes to an address the SSRF filter admits; no
    redirect is followed; and a response it returns has a non-empty
    request_uri and an unsigned lifetime. *)
Theorem par_request_bounded f ep params key auth w w' res :
  resolver_wf (w_resolver (cw_world w)) → execute_par f ep params key auth w = (w', res) →
  (∃ more, cw_log w' = cw_log w ++ more ∧ (length more ≤ 2)%nat ∧
     Forall (λ x, ∃ url, url_parse ep = Ok url ∧ form_allowed f url (par_body params) x) more) ∧
  resolver_wf (w_resolver (cw_world w')) ∧
  (∀ r, res = Ok r → trim (request_uri r) ≠ "" ∧ u64_valid (par_expires_in r)).
Proof.
  intros Hw E. destruct (execute_par_any f ep params key auth w Hw) as (more & (Hr & El & _) & [Hl Hf] & HQ).
  rewrite E in Hr, El, HQ. cbn [fst snd] in *. split_and!; [by exists more|done|done].
Qed.
End facts.

(** ** Progress against a conforming server *)
Section progress.
Context (fk : gmap string IpAddr → option string) `{UrlParts} (env : Env).
Context `{Base64Laws} `{!Base64Alphabet} `{Sha2} `{P256Laws} `{DpopSerdeLaws}
  `{!SerdeJsonLaws} `{SubtleLaws} `{!UrlLaws} `{!UrlReparse} `{UnicodeUpperLaws} `{FormCrate}
  `{!DpopSerdeTyped}.

(** A server of [endpoint] that demands the nonce [n]: it verifies the proof of the request and
    answers with [ok_body], or challenges with [challenge_body]; either way it supplies [n]. *)
Definition nonce_server (v : DPoPVerifier) (endpoint n : string) (ok_body challenge_body : list Z)
    (clock : nat → Z) : nat → HttpRequest → result string DpopResponse := λ k req,
  let accepted :=
    match assoc "dpop" (rq_headers req) with
    | Some proof =>
        is_ok (verify_proof_no_replay v proof "POST" endpoint (Some n) None (Some (clock k)) (clock k))
    | None => false
    end in
  Ok (if accepted then mkDpopResponse (mkResponse 201 None None [(Ok ok_body, None)]) (Some n) []
      else mkDpopResponse (mkResponse 400 None None [(Ok challenge_body, None)]) (Some n) []).

Context (v : DPoPVerifier) (ep n nrm : string) (ok_body challenge_body : list Z) (clock : nat → Z)
  (f : SsrfFilter) (url : Url).

(** The world works: the endpoint's name resolves, clocks agree within the verifier's tolerances,
    identifiers are drawn, nobody else touches the nonce cache. *)
Record fair_world : Prop := {
  fw_url : url_parse ep = Ok url;
  fw_htu : normalize_htu ep = Ok nrm;
  fw_dns : ∀ k, is_ok (resolve_and_pin f url (e_dns env k)) = true;
  fw_server : e_server env = nonce_server v ep n ok_body challenge_body clock;
  fw_others : ∀ k c, e_others env k c = c;
  fw_random : ∀ k, base64url_encode (e_random env k) ≠ "" ∧ str_len (base64url_encode (e_random env k)) ≤ 256;
  fw_clock : ∀ k, 0 ≤ e_clock env k ∧ u64_valid (e_clock env k / 1000000000);
  fw_server_clock : ∀ k, 0 ≤ clock k ∧ u64_valid (clock k / 1000000000);
  fw_window : ∀ k j, e_clock env k / 1000000000 ≤ clock j / 1000000000 + as_secs (max_clock_skew v) ∧
    clock j / 1000000000 ≤ e_clock env k / 1000000000 + as_secs (max_proof_age v);
  fw_verifier : config_typed v;
  fw_nonce : trim n = n ∧ n ≠ "";
  fw_challenge : json_from_slice challenge_body = Ok (JObject [("error", JString "use_dpop_nonce")]);
  fw_sizes : zlen ok_body ≤ MAX_OAUTH_RESPONSE_BYTES ∧ zlen challenge_body ≤ MAX_OAUTH_RESPONSE_BYTES
}.
Context (FW : fair_world).

Lemma unix_secs_ok t : 0 ≤ t → unix_secs t = Some (t / 1000000000).
Proof. intros Ht. unfold unix_secs. by rewrite (proj2 (Z.ltb_ge _ _) Ht). Qed.

Lemma make_proof_runs key nonce w :
  ∃ w' jwt, make_proof env key "POST" ep nonce None w = (w', Ok jwt) ∧ cw_nonces w' = cw_nonces w ∧
    (nonce = Some n → ∀ k, is_ok (verify_proof_no_replay v jwt "POST" ep (Some n) None (Some (clock k)) (clock k)) = true).
Proof.
  destruct (fw_clock FW (cw_tick w)) as [Hc Hcv]. destruct (fw_random FW (S (cw_tick w))) as [Hr Hrl].
  assert (∀ k, ∃ jwt, create_proof key "POST" ep nonce None (e_clock env (cw_tick w)) (e_random env (S (cw_tick w))) = Ok jwt ∧
    (nonce = Some n → is_ok (verify_proof_no_replay v jwt "POST" ep (Some n) None (Some (clock k)) (clock k)) = true)) as Hk.
  { intros k. destruct (fw_server_clock FW k), (fw_window FW (cw_tick w) k).
    destruct (created_proof_accepted v key "POST" ep nonce None (e_clock env (cw_tick w) / 1000000000) None
      (e_random env (S (cw_tick w))) "POST" (clock k) (clock k) nrm) as (jwt & Ej & Ev); try done; try apply FW.
    { unfold proof_jti. by rewrite base64url_encode_trim. }
    exists jwt. split; [unfold create_proof; by rewrite unix_secs_ok|]. intros ->.
    assert (trimmed_claim (Some n) = Some n) as Hn.
    { destruct (fw_nonce FW) as [Et Hne]. unfold trimmed_claim, str_is_empty. cbn [mbind option_bind].
      rewrite Et. by rewrite (proj2 (String.eqb_neq _ _) Hne). }
    rewrite Hn in Ev. change (trimmed_claim None) with (@None string) in Ev. by rewrite Ev. }
  destruct (Hk 0%nat) as (jwt & Ej & _). eexists _, jwt. split.
  { unfold make_proof, mbind, st_bind, now_, random_, lift. cbn. by rewrite Ej. }
  split; [done|]. intros Hn k. destruct (Hk k) as (jwt' & Ej' & Hv). rewrite Ej in Ej'. injection Ej' as <-. by apply Hv.
Qed.

Lemma make_client_assertion_runs key cid aud w :
  ∃ w' a, make_client_assertion env key cid aud w = (w', Ok a) ∧ cw_nonces w' = cw_nonces w.
Proof.
  destruct (fw_clock FW (cw_tick w)) as [Hc Hcv].
  destruct (sign_compact_Ok key
    (JObject [("alg", JString "ES256"); ("kid", JString (key_thumbprint key)); ("typ", JString "jwt")])
    (JObject [("aud", JString aud); ("exp", JInt (u64_saturating_add (e_clock env (cw_tick w) / 1000000000) 60));
              ("iat", JInt (e_clock env (cw_tick w) / 1000000000)); ("iss", JString cid);
              ("jti", JString (base64url_encode (e_random env (S (cw_tick w))))); ("sub", JString cid)]))
    as (hs & ps & sg & Es & _); try done.
  { assert (u64_valid (u64_saturating_add (e_clock env (cw_tick w) / 1000000000) 60)) as He
      by (apply u64_saturating_add_valid; [done|unfold u64_valid, u64_max; lia]).
    cbn -[Z.leb String.ltb i64_max u64_max Z.sub u64_saturating_add Z.div]. unfold u64_valid in *.
    rewrite !(proj2 (Z.leb_le _ _)) by (unfold i64_max; lia). done. }
  eexists _, _. split.
  { unfold make_client_assertion, mbind, st_bind, now_, random_, lift. cbn -[sign_compact].
    unfold create_client_assertion. rewrite unix_secs_ok by done. cbn [ok_or mbind result_bind].
    unfold create_client_assertion_internal. rewrite Es. reflexivity. }
  done.
Qed.

Lemma form_runs params auth (form : string) w :
  ∃ w' b, (match auth with Some a => asserted_form env params a | None => mret form end) w = (w', Ok b) ∧
    cw_nonces w' = cw_nonces w.
Proof.
  destruct auth as [[ck aud]|]; [|by exists w, form]. unfold asserted_form. cbn [fst snd].
  destruct (make_client_assertion_runs ck (client_id params) aud w) as (w' & a & E & Hn).
  eexists w', _. split; [|done]. apply st_bind_Ok. by exists w', a.
Qed.

Lemma par_pinned_runs w :
  ∃ w' a, par_pinned fk env f url w = (w', Ok a) ∧ cw_nonces w' = cw_nonces w.
Proof.
  unfold par_pinned, st_map_err, pinned_client, build_pinned_client.
  pose proof (fw_dns FW (cw_tick w)) as Hd. rewrite (fw_others FW).
  destruct (resolve_and_pin _ _ _) as [[a hh]|e]; [|done]. by eexists _, _.
Qed.

(** An exchange with the server ends with its nonce cached. *)
Lemma par_send_runs w addr host proof body :
  ∃ w' resp, par_send env (url_origin url) addr (form_request url host proof body) w = (w', Ok resp) ∧
    get_nonce (cw_nonces w') (url_origin url) = Some n ∧ dr_dpop_nonce resp = Some n ∧
    dr_response resp =
      if is_ok (verify_proof_no_replay v proof "POST" ep (Some n) None (Some (clock (cw_tick w))) (clock (cw_tick w)))
      then mkResponse 201 None None [(Ok ok_body, None)]
      else mkResponse 400 None None [(Ok challenge_body, None)].
Proof.
  assert (extract_dpop_nonce (Some n) = Some n) as Hx.
  { destruct (fw_nonce FW) as [Et Hne]. unfold extract_dpop_nonce, str_is_empty. cbn [mbind option_bind].
    rewrite Et. by rewrite (proj2 (String.eqb_neq _ _) Hne). }
  unfold par_send, mbind, st_bind, st_map_err, send, remember_nonce. rewrite (fw_server FW), (fw_others FW).
  unfold nonce_server at 1. cbn [map_err rq_headers form_request assoc].
  change (("host" =? "dpop")%string) with false. change (("content-type" =? "dpop")%string) with false.
  change (("accept" =? "dpop")%string) with false. change (("dpop" =? "dpop")%string) with true. cbn iota.
  destruct (is_ok _); cbn [dr_dpop_nonce]; rewrite Hx; eexists _, _; (split; [reflexivity|]);
    (split_and!; [|done..]); cbn; unfold get_nonce, set_nonce; apply lookup_insert_eq.
Qed.

Lemma read_single b cl max : zlen b ≤ max → max ≤ u64_max →
  read_bounded_body (mkResponse cl None None [(Ok b, None)]) max = Ok b.
Proof.
  intros Hb Hm. unfold read_bounded_body. cbn. unfold u64_saturating_add. change (zlen []) with 0.
  rewrite Z.gtb_ltb, (proj2 (Z.ltb_ge _ _)) by (unfold zlen in *; lia). done.
Qed.

Lemma par_finish_runs resp r :
  dr_dpop_nonce resp = Some n → dr_response resp = mkResponse 201 None None [(Ok ok_body, None)] →
  parse_par_response ok_body = Ok r → par_finish resp = Ok r.
Proof.
  intros Hn Hr Hp. destruct (fw_sizes FW) as [Hs _]. destruct (fw_nonce FW) as [Et Hne].
  unfold par_finish, par_read_body, require_dpop_nonce, str_is_empty. rewrite Hn, Hr, Et.
  rewrite (proj2 (String.eqb_neq _ _) Hne). cbn [negb map_err mbind result_bind].
  rewrite read_single; [|done|by vm_compute]. done.
Qed.

(** C23. Liveness: against an authorization server that demands a DPoP nonce and verifies proofs, a
    pushed authorization request succeeds, whatever nonce was cached before, with or without a client
    key: the first request either carries the right nonce or is challenged, and the retry carries
    the nonce of the challenge and is accepted. *)
Theorem par_request_succeeds params key auth w r :
  parse_par_response ok_body = Ok r →
  ∃ w', execute_par_request_with_client_key fk env f ep params key auth w = (w', Ok r) ∧
    get_nonce (cw_nonces w') (url_origin url) = Some n.
Proof.
  intros Hparse. unfold execute_par_request_with_client_key.
  destruct (par_pinned_runs w) as (w1 & [addr host] & E1 & _).
  destruct (form_runs params auth (to_form_urlencoded params) w1) as (w2 & form & E2 & _).
  destruct (make_proof_runs key (get_nonce (cw_nonces w2) (url_origin url)) w2) as (w3 & proof & E3 & _ & _).
  destruct (par_send_runs w3 addr host proof (as_bytes form)) as (w4 & resp & E4 & Hn4 & Hd4 & Hr4).
  unfold mbind, st_bind. rewrite (fw_url FW). cbn [map_err lift]. rewrite E1, E2. cbn [cached_nonce].
  rewrite E3, E4. unfold dr_status. rewrite Hr4. destruct (is_ok _) in Hr4 |- *.
  - cbn. exists w4. split; [|done]. unfold lift. by rewrite (par_finish_runs resp r Hd4 Hr4 Hparse).
  - cbn [status]. change (is_redirection 400) with false. change (is_400_or_401 400) with true. cbn iota.
    destruct (fw_sizes FW) as [_ Hs]. unfold lift at 1. unfold par_read_body at 1. rewrite Hr4.
    rewrite read_single; [|done|by vm_compute]. cbn [map_err]. rewrite (fw_challenge FW). cbn [result_ok].
    change (is_use_dpop_nonce_error (Some (JObject [("error", JString "use_dpop_nonce")]))) with true. cbn iota.
    unfold par_retry, mbind, st_bind. cbn [cached_nonce]. rewrite Hn4. cbn [ok_or lift].
    destruct (make_proof_runs key (Some n) w4) as (w5 & proof' & E5 & _ & Hv). rewrite E5.
    destruct (form_runs params auth form w5) as (w6 & form' & E6 & _). rewrite E6.
    destruct (par_pinned_runs w6) as (w7 & [addr' host'] & E7 & _). rewrite E7.
    destruct (par_send_runs w7 addr' host' proof' (as_bytes form')) as (w8 & resp' & E8 & Hn8 & Hd8 & Hr8). rewrite E8.
    rewrite (Hv eq_refl) in Hr8. unfold dr_status. rewrite Hr8. cbn [status].
    change (is_redirection 201) with false. change (is_success 201) with true. cbn iota.
    exists w8. split; [|done]. unfold lift. by rewrite (par_finish_runs resp' r Hd8 Hr8 Hparse).
Qed.
End progress.

(** ** Concrete runs *)
Module ParExamples.
#[local] Existing Instances nibble_base64 nibble_laws nibble_alphabet zero_sha2 unit_p256 unit_p256_laws
  plain_subtle plain_subtle_laws ascii_upper_case ascii_upper_laws numbered_json numbered_json_laws numbered_form
  HtuExamples.url_example HtuExamples.url_example_laws HtuExamples.url_example_reparse
  DpopExamples.object_serde DpopExamples.object_serde_laws DpopExamples.object_serde_typed
  SsrfExamples.fst_key_laws.
#[local] Instance table_parts : @UrlParts HtuExamples.url_example :=
  {| url_username := λ _, ""; url_password := λ _, None; url_query := λ _, None; url_fragment := λ _, None;
     url_origin := λ u, HtuExamples.p_scheme u +:+ "://" +:+ default "" (HtuExamples.p_host u) |}.
Definition ep : string := "https://example.com/xrpc".
Definition url : @Url HtuExamples.url_example := HtuExamples.mkParsed "https" (Some "example.com") None "/xrpc".
Definition text (v : json) : list Z := match json_to_string v with Ok s => as_bytes s | Err _ => [] end.
Definition ok_body : list Z := text (JObject [("expires_in", JInt 60); ("request_uri", JString "urn:r:1")]).
Definition challenge : list Z := text (JObject [("error", JString "use_dpop_nonce")]).
Definition secs (k : nat) : Z := 1000000000000.
(** The server demands the nonce "n1", the cache holds a stale one. *)
Definition env : @Env HtuExamples.url_example :=
  mkEnv (λ _ _, DnsAddrs [(SsrfExamples.public, 443)])
    (nonce_server verifier_new ep "n1" ok_body challenge secs) secs (λ _, [1; 2]) (λ _ c, c).
Definition f : SsrfFilter := mkFilter false.
Definition w0 : @CW HtuExamples.url_example :=
  mkCW (mkWorld (resolver_new false) 0 [] []) (set_nonce ∅ "https://example.com" "old") 0 [].
Definition key0 : @SigningKey unit_p256 := tt.
Definition params : ParParameters := par_new "https://app.example/client.json" "https://app.example/cb" "atproto" "s1" "c1".

Lemma fair : fair_world env verifier_new ep "n1" "https://example.com/xrpc" ok_body challenge secs f url.
Proof.
  constructor.
  - reflexivity.
  - vm_compute. reflexivity.
  - intros k. vm_compute. reflexivity.
  - reflexivity.
  - reflexivity.
  - intros k. vm_compute. split; discriminate.
  - intros k. vm_compute. repeat split; discriminate.
  - intros k. vm_compute. repeat split; discriminate.
  - intros k j. vm_compute. repeat split; discriminate.
  - vm_compute. repeat split; discriminate.
  - vm_compute. split; [reflexivity|discriminate].
  - vm_compute. reflexivity.
  - vm_compute. split; discriminate.
Qed.

Lemma par_request_succeeds_witness :
  ∃ w', execute_par_request_with_client_key SsrfExamples.fst_key env f ep params key0 None w0 =
    (w', Ok (mkParResponse "urn:r:1" 60)).
Proof.
  destruct (par_request_succeeds SsrfExamples.fst_key env verifier_new ep "n1" "https://example.com/xrpc" ok_body
    challenge secs f url fair params key0 None w0 (mkParResponse "urn:r:1" 60)) as (w' & E & _);
    [vm_compute; reflexivity|]. exists w'. exact E.
Defined.

(** A request_uri is not checked against the form it is documented to have. *)
Example request_uri_not_checked :
  parse_par_response (text (JObject [("expires_in", JInt 60); ("request_uri", JString "javascript:x")])) =
  Ok (mkParResponse "javascript:x" 60).
Proof. vm_compute. reflexivity. Qed.

(** The stale nonce costs one retry. *)
Definition ran := execute_par_request_with_client_key SsrfExamples.fst_key env f ep params key0 None w0.
Lemma par_request_bounded_witness :
  length (cw_log ran.1) = 2%nat ∧
  ∃ more, cw_log ran.1 = cw_log w0 ++ more ∧ (length more ≤ 2)%nat.
Proof.
  split; [vm_compute; reflexivity|].
  destruct (par_request_bounded SsrfExamples.fst_key env f ep params key0 None w0 ran.1 ran.2)
    as ((more & E & Hl & _) & _ & _); [apply resolver_new_wf|exact (surjective_pairing ran)|].
  exists more. exact (conj E Hl).
Defined.
End ParExamples.
