(* ===== verification/TokenRequest.v ===== *)
(** * TokenRequest: DPoP requests of the client (src/src/client.rs, second half)

    The token endpoint exchange ([send_dpop_token_request_inner]), requests to protected resources
    ([send_dpop_request], [send_xrpc_request]) and the classification of nonce challenges.  Decoding
    a [TokenResponse] is serde's ([TokenSerde]). *)
From S2P Require Import Prelude Errors Strs Externals Instances IpFilter Net Ssrf Fetch.
From S2P Require Import Identity Crypto Nonces Nsid Htu Dpop Session Exchange Par.
Open Scope Z_scope.

Record TokenResponse := mkTokenResponse {
  tr_access_token : string;
  tr_token_type : string;
  tr_expires_in : option Z;
  tr_refresh_token : option string;
  tr_scope : option string;
  tr_sub : string
}.
Class TokenSerde := { token_response_from_slice : list Z → result string TokenResponse }.
(** [expires_in] is a [u64]. *)
Class TokenSerdeTyped `{TokenSerde} : Prop := {
  token_expires_u64 b t e : token_response_from_slice b = Ok t → tr_expires_in t = Some e → u64_valid e
}.

(** [TokenResponse::into_parts]. *)
Definition into_parts (t : TokenResponse)
    : string * string * option string * string * option string * option Z :=
  (tr_sub t, tr_access_token t, tr_refresh_token t, tr_token_type t, tr_scope t, tr_expires_in t).

Definition token_err {A} (e : TokenError) : result AtprotoOAuthError A := Err (AtprotoOAuthError_Token e).

Definition parse_oauth_error_fields (j : option json) : string * option string :=
  error_fields "token_request_failed" j.

Definition token_request_failed {A} (status : Z) (j : option json) : result AtprotoOAuthError A :=
  let '(error_code, error_desc) := parse_oauth_error_fields j in
  token_err (TokenError_RequestFailed status error_code error_desc).

(** One parameter of a challenge: [error="use_dpop_nonce"]. *)
Definition is_nonce_error_param (param : string) : bool :=
  match split_once_char "=" (trim param) with
  | None => false
  | Some (key, value) =>
      eq_ignore_ascii_case (trim key) "error"
      && eq_ignore_ascii_case (trim_matches "034" (trim value)) "use_dpop_nonce"
  end.

(** One [WWW-Authenticate] header; [split_at(find(' '))] keeps the space in the second part. *)
Definition is_dpop_challenge (challenge : string) : bool :=
  match split_once_char " " (trim challenge) with
  | None => false
  | Some (scheme, rest) =>
      eq_ignore_ascii_case scheme "DPoP"
      && existsb is_nonce_error_param (split_char "," (trim_start (String " " rest)))
  end.
Definition is_rs_dpop_nonce_challenge (headers : list string) : bool := existsb is_dpop_challenge headers.

Definition token_read_body (resp : DpopResponse) : result AtprotoOAuthError (list Z) :=
  map_err (λ e, AtprotoOAuthError_Token (TokenError_Http (SsrfError_display e)))
    (read_bounded_body (dr_response resp) MAX_OAUTH_RESPONSE_BYTES).

Definition read_bounded_json `{SerdeJson} (resp : DpopResponse) : result AtprotoOAuthError (option json) :=
  bytes ← token_read_body resp; Ok (result_ok (json_from_slice bytes)).

Definition token_no_redirect (status : Z) : TokenError :=
  TokenError_RequestFailed status "invalid_request" (Some "Redirects are not permitted for token endpoints").

(** The end of a successful exchange. *)
Definition token_finish `{TokenSerde} (resp : DpopResponse) : result AtprotoOAuthError TokenResponse :=
  _ ← map_err (λ e, AtprotoOAuthError_Token (TokenError_DPoP e)) (require_dpop_nonce (dr_dpop_nonce resp));
  bytes ← token_read_body resp;
  map_err (λ e, AtprotoOAuthError_Token (TokenError_Json e)) (token_response_from_slice bytes).

Section requests.
Context (fk : gmap string IpAddr → option string) `{UrlParts} (env : Env).
Context `{Base64} `{Sha2} `{P256} `{SerdeJson} `{UnicodeUpper} `{FormCrate} `{TokenSerde}.
Local Abbreviation CW := (@CW _).

(** Client credentials: key, client id, audience. *)
Definition ClientAuth : Type := SigningKey * string * string.

Definition build_token_form_body (base_form_body : string) (client_auth : option ClientAuth)
    : st CW AtprotoOAuthError (list Z) :=
  match client_auth with
  | Some (ckey, client_id, audience) =>
      assertion ← make_client_assertion env ckey client_id audience;
      mret (as_bytes (form_serialize base_form_body
        [("client_assertion_type", CLIENT_ASSERTION_TYPE_JWT_BEARER); ("client_assertion", assertion)]))
  | None => mret (as_bytes base_form_body)
  end.

Definition token_pinned (f : SsrfFilter) (url : Url) : st CW AtprotoOAuthError (SocketAddr * string) :=
  st_map_err (λ e, AtprotoOAuthError_Token (TokenError_Ssrf e)) (pinned_client fk env f url).

Definition token_send (server_origin : string) (addr : SocketAddr) (req : HttpRequest)
    : st CW AtprotoOAuthError DpopResponse :=
  resp ← st_map_err (λ e, AtprotoOAuthError_Token (TokenError_Http e)) (send env addr req);
  _ ← remember_nonce server_origin resp;
  mret resp.

(** ** The token endpoint *)
Definition token_retry (f : SsrfFilter) (token_endpoint : string) (dpop_key : SigningKey)
    (base_form_body : string) (client_auth : option ClientAuth) (parsed_url : Url) (status : Z)
    : st CW AtprotoOAuthError TokenResponse :=
  let server_origin := url_origin parsed_url in
  cached ← cached_nonce server_origin;
  fresh_nonce ← lift (ok_or cached (AtprotoOAuthError_Token (TokenError_RequestFailed status "use_dpop_nonce"
                        (Some "Missing DPoP-Nonce header in challenge response"))));
  retry_proof ← make_proof env dpop_key "POST" token_endpoint (Some fresh_nonce) None;
  retry_body_bytes ← build_token_form_body base_form_body client_auth;
  '(retry_addr, retry_host_header) ← token_pinned f parsed_url;
  retry_resp ← token_send server_origin retry_addr
                 (form_request parsed_url retry_host_header retry_proof retry_body_bytes);
  let retry_status := dr_status retry_resp in
  lift (
    if is_redirection retry_status then token_err (token_no_redirect retry_status)
    else if is_success retry_status then token_finish retry_resp
    else
      err_json ← read_bounded_json retry_resp;
      if is_use_dpop_nonce_error err_json
      then Err (AtprotoOAuthError_DPoP DPoPError_NonceRetryLimitExceeded)
      else token_request_failed retry_status err_json).

Definition send_dpop_token_request_inner (f : SsrfFilter) (token_endpoint : string) (dpop_key : SigningKey)
    (base_form_body : string) (client_auth : option ClientAuth) : st CW AtprotoOAuthError TokenResponse :=
  parsed_url ← lift (map_err (λ e, AtprotoOAuthError_Token (TokenError_Http
                       ("Invalid token endpoint URL '" +:+ token_endpoint +:+ "': " +:+ e)))
                       (url_parse token_endpoint));
  '(addr, host_header) ← token_pinned f parsed_url;
  let server_origin := url_origin parsed_url in
  body_bytes ← build_token_form_body base_form_body client_auth;
  initial_nonce ← cached_nonce server_origin;
  proof ← make_proof env dpop_key "POST" token_endpoint initial_nonce None;
  resp ← token_send server_origin addr (form_request parsed_url host_header proof body_bytes);
  let status := dr_status resp in
  if is_redirection status then lift (token_err (token_no_redirect status))
  else if is_400_or_401 status then
    json_err ← lift (read_bounded_json resp);
    if is_use_dpop_nonce_error json_err
    then token_retry f token_endpoint dpop_key base_form_body client_auth parsed_url status
    else lift (token_request_failed status json_err)
  else if negb (is_success status) then
    err_json ← lift (read_bounded_json resp);
    lift (token_request_failed status err_json)
  else lift (token_finish resp).

(** ** Protected resources *)

(** What the caller receives: the response itself, or the response with its body already read. *)
Inductive CallerResponse :=
| Streamed (resp : DpopResponse)
| Buffered (resp : DpopResponse) (bytes : list Z).

Definition resource_request (method : string) (url : Url) (host_header proof : string)
    (access_token : option string) (body_bytes : option (list Z)) (content_type : option string)
    : HttpRequest :=
  mkRequest method url
    ([("host", host_header); ("dpop", proof)]
     ++ match access_token with Some token => [("authorization", "DPoP " +:+ token)] | None => [] end
     ++ match content_type with Some ct => [("content-type", ct)] | None => [] end)
    body_bytes.

(** Whether a 400 or 401 is a nonce challenge: by its headers, else by its body, which is then read
    ([Some bytes]). *)
Definition classify_challenge (resp : DpopResponse)
    : result AtprotoOAuthError (bool * option (list Z)) :=
  if is_rs_dpop_nonce_challenge (dr_www_authenticate resp) then Ok (true, None)
  else
    bytes ← token_read_body resp;
    Ok (is_use_dpop_nonce_error (result_ok (json_from_slice bytes)), Some bytes).

Definition rebuilt (resp : DpopResponse) (bytes : option (list Z)) : CallerResponse :=
  match bytes with Some b => Buffered resp b | None => Streamed resp end.

Definition dpop_retry (f : SsrfFilter) (dpop_key : SigningKey) (method url_str : string)
    (access_token : option string) (body_bytes : option (list Z)) (content_type : option string)
    (parsed_url : Url) (status : Z) : st CW AtprotoOAuthError CallerResponse :=
  let server_origin := url_origin parsed_url in
  let ath := compute_access_token_hash <$> access_token in
  cached ← cached_nonce server_origin;
  fresh_nonce ← lift (ok_or cached (AtprotoOAuthError_Token (TokenError_RequestFailed status "use_dpop_nonce"
                        (Some "Missing DPoP-Nonce header"))));
  retry_proof ← make_proof env dpop_key method url_str (Some fresh_nonce) ath;
  '(retry_addr, retry_host_header) ← token_pinned f parsed_url;
  retry_resp ← token_send server_origin retry_addr
                 (resource_request method parsed_url retry_host_header retry_proof access_token
                    body_bytes content_type);
  let retry_status := dr_status retry_resp in
  lift (
    if is_400_or_401 retry_status then
      '(challenged, bytes) ← classify_challenge retry_resp;
      if challenged : bool then Err (AtprotoOAuthError_DPoP DPoPError_NonceRetryLimitExceeded)
      else Ok (rebuilt retry_resp bytes)
    else
      _ ← (if is_success retry_status
           then map_err AtprotoOAuthError_DPoP (require_dpop_nonce (dr_dpop_nonce retry_resp))
           else Ok tt);
      Ok (Streamed retry_resp)).

Definition send_dpop_request (f : SsrfFilter) (dpop_key : SigningKey) (method url_str : string)
    (access_token : option string) (body_bytes : option (list Z)) (content_type : option string)
    : st CW AtprotoOAuthError CallerResponse :=
  parsed_url ← lift (map_err (λ e, AtprotoOAuthError_Token (TokenError_Http
                       ("Invalid URL '" +:+ url_str +:+ "': " +:+ e))) (url_parse url_str));
  '(addr, host_header) ← token_pinned f parsed_url;
  let server_origin := url_origin parsed_url in
  let ath := compute_access_token_hash <$> access_token in
  initial_nonce ← cached_nonce server_origin;
  proof ← make_proof env dpop_key method url_str initial_nonce ath;
  resp ← token_send server_origin addr
           (resource_request method parsed_url host_header proof access_token body_bytes content_type);
  let status := dr_status resp in
  if is_400_or_401 status then
    '(challenged, bytes) ← lift (classify_challenge resp);
    if challenged : bool
    then dpop_retry f dpop_key method url_str access_token body_bytes content_type parsed_url status
    else mret (rebuilt resp bytes)
  else
    _ ← lift (map_err AtprotoOAuthError_DPoP (require_dpop_nonce (dr_dpop_nonce resp)));
    mret (Streamed resp).

(** ** XRPC *)
Definition validate_xrpc_nsid (nsid : string) : result TokenError unit :=
  if is_valid_nsid nsid then Ok tt else Err (TokenError_InvalidNsid nsid).

(** The URL of an XRPC method on a PDS. *)
Definition xrpc_url `{!UrlEdit} (pds_endpoint nsid : string) (query_params : list (string * string))
    : result AtprotoOAuthError Url :=
  url ← map_err (λ e, AtprotoOAuthError_Token (TokenError_Http ("Invalid PDS endpoint: " +:+ e)))
          (url_parse pds_endpoint);
  let trimmed_nsid := trim_start_matches "/" nsid in
  let base_path := trim_end_matches "/" (url_path url) in
  let url := url_set_path url (base_path +:+ "/xrpc/" +:+ trimmed_nsid) in
  Ok (match query_params with [] => url | _ => url_append_pairs url query_params end).

Definition send_xrpc_request `{!UrlEdit} (f : SsrfFilter) (session : OAuthSession) (nsid : string)
    (query_params : list (string * string)) : st CW AtprotoOAuthError CallerResponse :=
  _ ← lift (map_err AtprotoOAuthError_Token (validate_xrpc_nsid nsid));
  pds_endpoint ← lift (ok_or (ses_pds_endpoint session)
                    (AtprotoOAuthError_Token (TokenError_MissingField "pds_endpoint")));
  url ← lift (xrpc_url pds_endpoint nsid query_params);
  send_dpop_request f (dpop_key session) "GET" (url_as_str url) (Some (access_token session)) None None.
End requests.

(** ** Facts *)
Section facts.
Context (fk : gmap string IpAddr → option string) `{!FirstKeyLaws fk} `{UrlParts} (env : Env).
Context `{Base64} `{Sha2} `{P256} `{SerdeJson} `{UnicodeUpper} `{FormCrate} `{TokenSerde}.

Lemma token_pinned_safe allowed n f url :
  disciplined n allowed (λ a, request_safe f (url, fst a)) (token_pinned fk env f url).
Proof. apply disciplined_map_err, disciplined_pinned. apply _. Qed.

(** The bodies of a token request: the base form, with or without a client assertion. *)
Definition token_body (base : string) (body : list Z) : Prop :=
  body = as_bytes base ∨
  ∃ a, body = as_bytes (form_serialize base
         [("client_assertion_type", CLIENT_ASSERTION_TYPE_JWT_BEARER); ("client_assertion", a)]).

Lemma token_form_quiet allowed n base auth :
  disciplined n allowed (token_body base) (build_token_form_body env base auth).
Proof.
  destruct auth as [[[ck cid] aud]|]; cbn; [|by apply disciplined_ret; left].
  apply (disciplined_bind _ 0 n _ _ (λ _, True)); [apply make_client_assertion_quiet|].
  intros a _. apply disciplined_ret. right. by exists a.
Qed.

Lemma token_send_traced origin addr req :
  traced (λ l, ∃ res, l = [mkXch req addr res]) (λ resp l, l = [mkXch req addr (Ok resp)])
    (token_send env origin addr req).
Proof.
  eapply traced_bind; [apply traced_map_err, traced_send|done|]. intros resp l1 _ ->.
  eapply traced_bind; [apply traced_remember|intros l ->; by eexists|]. intros u l2 -> _. cbn.
  apply traced_quiet; [by eexists|]. intros w. cbn. split_and!; [done..|]. by intros a [= <-].
Qed.

Lemma token_send_one f url addr host proof body origin (B : list Z → Prop) :
  request_safe f (url, addr) → B body →
  disciplined 1 (form_allowed f url B) (λ _, True) (token_send env origin addr (form_request url host proof body)).
Proof.
  intros Hs HB. eapply traced_impl; [| |apply token_send_traced]; [|done]. intros l [res ->].
  split; [simpl; lia|]. constructor; [|done]. split; [done|]. by exists host, proof, body.
Qed.

Lemma token_request_failed_not_ok {A} status j (r : A) : token_request_failed status j ≠ Ok r.
Proof. unfold token_request_failed. by destruct (parse_oauth_error_fields j). Qed.

(** The responses the exchange returns come from a body that decodes. *)
Definition decoded (t : TokenResponse) : Prop := ∃ b, token_response_from_slice b = Ok t.

Lemma token_finish_Ok resp t : token_finish resp = Ok t → decoded t.
Proof.
  unfold token_finish. intros E. rewrite bind_unit in E. destruct E as [_ E].
  apply bind_Ok in E as (b & _ & E%map_err_Ok). by exists b.
Qed.

Lemma token_retry_disciplined f ep key base auth url status :
  disciplined 1 (form_allowed f url (token_body base)) decoded (token_retry fk env f ep key base auth url status).
Proof.
  unfold token_retry. apply (disciplined_bind _ 0 1 _ _ (λ _, True)); [by apply disciplined_quiet|]. intros c _.
  apply (disciplined_bind _ 0 1 _ _ (λ _, True)); [by apply disciplined_lift|]. intros n _.
  apply (disciplined_bind _ 0 1 _ _ (λ _, True)); [apply make_proof_quiet|]. intros proof _.
  apply (disciplined_bind _ 0 1 _ _ _ _ (token_form_quiet _ 0 base auth)). intros body Hb.
  apply (disciplined_bind _ 0 1 _ _ _ _ (token_pinned_safe _ 0 f url)). intros [addr host] Hs.
  apply (disciplined_bind _ 1 0 _ _ (λ _, True)); [by apply token_send_one|]. intros resp _.
  apply disciplined_lift. intros r. destruct (is_redirection _); [done|].
  destruct (is_success _); [apply token_finish_Ok|]. intros E. apply bind_Ok in E as (b & _ & E).
  destruct (is_use_dpop_nonce_error _); [done|]. by apply token_request_failed_not_ok in E.
Qed.

Lemma token_request_disciplined f ep key base auth url :
  url_parse ep = Ok url →
  disciplined 2 (form_allowed f url (token_body base)) decoded (send_dpop_token_request_inner fk env f ep key base auth).
Proof.
  intros Hurl. unfold send_dpop_token_request_inner. rewrite Hurl.
  apply (disciplined_bind _ 0 2 _ _ (λ u, u = url)); [by apply disciplined_lift; intros ? [= <-]|]. intros ? ->.
  apply (disciplined_bind _ 0 2 _ _ _ _ (token_pinned_safe _ 0 f url)). intros [addr host] Hs.
  apply (disciplined_bind _ 0 2 _ _ _ _ (token_form_quiet _ 0 base auth)). intros body Hb.
  apply (disciplined_bind _ 0 2 _ _ (λ _, True)); [by apply disciplined_quiet|]. intros n _.
  apply (disciplined_bind _ 0 2 _ _ (λ _, True)); [apply make_proof_quiet|]. intros proof _.
  apply (disciplined_bind _ 1 1 _ _ (λ _, True)); [by apply token_send_one|]. intros resp _.
  destruct (is_redirection _); [by apply disciplined_lift|]. destruct (is_400_or_401 _).
  { apply (disciplined_bind _ 0 1 _ _ (λ _, True)); [by apply disciplined_lift|]. intros b _.
    destruct (is_use_dpop_nonce_error _); [apply token_retry_disciplined|].
    apply disciplined_lift. intros r E. by apply token_request_failed_not_ok in E. }
  destruct (is_success _); simpl; [apply disciplined_lift; apply token_finish_Ok|].
  apply (disciplined_bind _ 0 1 _ _ (λ _, True)); [by apply disciplined_lift|]. intros b _.
  apply disciplined_lift. intros r E. by apply token_request_failed_not_ok in E.
Qed.

(** A parse error of the endpoint costs nothing. *)
Lemma token_request_any f ep key base auth :
  disciplined 2 (λ x, ∃ url, url_parse ep = Ok url ∧ form_allowed f url (token_body base) x) decoded
    (send_dpop_token_request_inner fk env f ep key base auth).
Proof.
  destruct (url_parse ep) as [url|e] eqn:Hurl.
  - eapply traced_impl; [| |by apply token_request_disciplined]; [|done]. intros l [Hl Hf]. split; [done|].
    eapply Forall_impl; [exact Hf|]. intros x Hx. by exists url.
  - apply disciplined_quiet. intros w. unfold send_dpop_token_request_inner. rewrite Hurl. done.
Qed.

(** ** Requests to protected resources *)

(** The exchange is a nonce challenge: status 400 or 401, and the headers or the body say so. *)
Definition nonce_challenge (x : Xch) : Prop :=
  ∃ resp b, x_response x = Ok resp ∧ is_400_or_401 (dr_status resp) = true ∧
    classify_challenge resp = Ok (true, b).

Section resource.
Context (f : SsrfFilter) (key : SigningKey) (method url_str : string) (token : option string)
  (body : option (list Z)) (ct : option string) (url : Url).

Definition resource_ok (x : Xch) : Prop :=
  request_safe f (url, x_addr x) ∧
  ∃ host proof, x_request x = resource_request method url host proof token body ct.

Definition resource_trace (l : list Xch) : Prop :=
  match l with
  | [] => True
  | [x] => resource_ok x
  | [x; y] => resource_ok x ∧ resource_ok y ∧ nonce_challenge x
  | _ => False
  end.

(** Silent steps in a trace proof. *)
Lemma traced_silent {E A B} (m : st CW E A) (g : A → st CW E B) (P : list Xch → Prop) :
  disciplined 0 (λ _, False) (λ _, True) m → P [] → (∀ a, traced P (λ _ _, True) (g a)) →
  traced P (λ _ _, True) (m ≫= g).
Proof.
  intros Hm HP Hg. eapply traced_bind; [exact Hm| |]; intros.
  - match goal with Hl : at_most _ _ ?l |- _ => destruct Hl as [Hl _]; destruct l; [done|simpl in Hl; lia] end.
  - match goal with Hl : at_most _ _ ?l |- _ => destruct Hl as [Hl _]; destruct l; [|simpl in Hl; lia] end.
    apply Hg.
Qed.

Lemma traced_final {E A} (r : result E A) (P : list Xch → Prop) : P [] → traced P (λ _ _, True) (lift r).
Proof. intros HP. by apply traced_quiet. Qed.

Lemma traced_pinned_then {B} (g : SocketAddr * string → st CW AtprotoOAuthError B) (P : list Xch → Prop) :
  P [] → (∀ a, request_safe f (url, fst a) → traced P (λ _ _, True) (g a)) →
  traced P (λ _ _, True) (token_pinned fk env f url ≫= g).
Proof.
  intros HP Hg. eapply traced_bind; [apply traced_map_err, traced_pinned; apply _|by intros l ->|].
  intros a l1 -> [_ Ha]. by apply Hg.
Qed.

Lemma dpop_retry_traced status x :
  resource_ok x → nonce_challenge x →
  traced (λ l, resource_trace (x :: l)) (λ _ _, True)
    (dpop_retry fk env f key method url_str token body ct url status).
Proof.
  intros Hx Hc. unfold dpop_retry. apply traced_silent; [by apply disciplined_quiet|done|]. intros c.
  apply traced_silent; [by apply disciplined_lift|done|]. intros n.
  apply traced_silent; [apply make_proof_quiet|done|]. intros proof.
  apply traced_pinned_then; [done|]. intros [addr host] Hs.
  assert (∀ res, resource_ok (mkXch (resource_request method url host proof token body ct) addr res)) as Hok
    by (intros; split; [done|by exists host, proof]).
  eapply traced_bind; [apply token_send_traced|intros l [res ->]; done|].
  intros resp l1 [res ->] E. injection E as ->. apply traced_quiet; done.
Qed.

Lemma send_dpop_request_traced :
  url_parse url_str = Ok url →
  traced resource_trace (λ _ _, True) (send_dpop_request fk env f key method url_str token body ct).
Proof.
  intros Hurl. unfold send_dpop_request. rewrite Hurl.
  change (lift (map_err _ (Ok url)) : st CW AtprotoOAuthError Url) with (mret url : st CW AtprotoOAuthError Url).
  eapply traced_bind with (P1 := λ l, l = []) (Q1 := λ u l, u = url).
  { apply traced_quiet; [done|]. intros w. cbn. split_and!; [done..|]. by intros a [= <-]. }
  { by intros l ->. }
  intros u l1 -> ->. cbn. apply traced_pinned_then; [done|]. intros [addr host] Hs.
  apply traced_silent; [by apply disciplined_quiet|done|]. intros n.
  apply traced_silent; [apply make_proof_quiet|done|]. intros proof.
  assert (∀ res, resource_ok (mkXch (resource_request method url host proof token body ct) addr res)) as Hok
    by (intros; split; [done|by exists host, proof]).
  eapply traced_bind; [apply token_send_traced|intros l [res ->]; apply Hok|].
  intros resp l1 [res ->] E. injection E as ->. cbn.
  destruct (is_400_or_401 (dr_status resp)) eqn:Es.
  - destruct (classify_challenge resp) as [[[] b]|e] eqn:Ec.
    + unfold mbind, st_bind, lift. cbn. apply dpop_retry_traced; [done|]. by exists resp, b.
    + apply traced_quiet; [apply Hok|]. intros w. unfold mbind, st_bind, lift. done.
    + apply traced_quiet; [apply Hok|]. intros w. unfold mbind, st_bind, lift. done.
  - apply traced_silent; [by apply disciplined_lift|apply Hok|]. intros _. apply traced_quiet; [apply Hok|done].
Qed.
End resource.

(** The answer demands a nonce, in its headers or in its JSON body. *)
Definition asks_for_nonce (resp : DpopResponse) : Prop :=
  (dr_status resp = 400 ∨ dr_status resp = 401) ∧
  (is_rs_dpop_nonce_challenge (dr_www_authenticate resp) = true ∨
   ∃ bytes j, read_bounded_body (dr_response resp) MAX_OAUTH_RESPONSE_BYTES = Ok bytes ∧
     json_from_slice bytes = Ok j ∧ get_str j "error" = Some "use_dpop_nonce").

Lemma classify_challenge_true resp b :
  is_400_or_401 (dr_status resp) = true → classify_challenge resp = Ok (true, b) → asks_for_nonce resp.
Proof.
  unfold is_400_or_401, asks_for_nonce, classify_challenge. rewrite orb_true_iff, !Z.eqb_eq. intros Hs Hc. split; [done|].
  destruct (is_rs_dpop_nonce_challenge _); [by left|]. right.
  apply bind_Ok in Hc as (bytes & Hb%map_err_Ok & [= Hn _]). exists bytes.
  unfold is_use_dpop_nonce_error in Hn. apply bool_decide_eq_true in Hn. apply bind_Some in Hn as (j & Hj & Hn).
  exists j. split_and!; [done| |done]. by destruct (json_from_slice bytes); [injection Hj as ->|].
Qed.

(** A request to a protected resource is repeated only when the server asked for it.  Whatever
    the server, DNS and other tasks do, [send_dpop_request] sends nothing, one request, or the same
    request twice (method, URL, body and access token unchanged, a new proof); the second only after
    an answer of 400 or 401 whose WWW-Authenticate header or JSON body names [use_dpop_nonce]; and
    every address is one the SSRF filter admits. *)
Theorem resource_request_retry f key method url_str token body ct url w w' res :
  resolver_wf (w_resolver (cw_world w)) → url_parse url_str = Ok url →
  send_dpop_request fk env f key method url_str token body ct w = (w', res) →
  ∃ l, cw_log w' = cw_log w ++ l ∧ (length l ≤ 2)%nat ∧
    Forall (λ x, request_safe f (url, x_addr x) ∧
      ∃ host proof, x_request x = resource_request method url host proof token body ct) l ∧
    (∀ x y, l = [x; y] → ∃ resp, x_response x = Ok resp ∧ asks_for_nonce resp).
Proof.
  intros Hw Hurl E. destruct (send_dpop_request_traced f key method url_str token body ct url Hurl w Hw)
    as (l & (_ & El & _) & Ht & _). rewrite E in El. exists l. split; [done|].
  destruct l as [|x [|y [|z l]]]; simpl in *; try done.
  - split_and!; [lia|constructor|done].
  - split_and!; [lia|by apply Forall_singleton|done].
  - destruct Ht as (Hx & Hy & resp & b & Er & Hs & Hc).
    split_and!; [lia|by apply Forall_cons; split; [|apply Forall_singleton]|].
    intros ? ? [= <- <-]. exists resp. split; [done|]. by eapply classify_challenge_true.
Qed.
End facts.

(** ** A concrete run: a server that challenges the first request and accepts the second. *)
Module TokenExamples.
#[local] Existing Instances nibble_base64 zero_sha2 unit_p256 ascii_upper_case numbered_json
  HtuExamples.url_example ParExamples.table_parts SsrfExamples.fst_key_laws.
Definition env : @Env HtuExamples.url_example :=
  mkEnv (λ _ _, DnsAddrs [(SsrfExamples.public, 443)])
    (λ k _, Ok (if (k <? 5)%nat
                then mkDpopResponse (mkResponse 401 None None []) (Some "n1") ["DPoP error=" +:+ String "034" "use_dpop_nonce" +:+ String "034" ""]
                else mkDpopResponse (mkResponse 200 None None []) (Some "n1") []))
    ParExamples.secs (λ _, [1; 2]) (λ _ c, c).
Abbreviation ran := (send_dpop_request SsrfExamples.fst_key env ParExamples.f ParExamples.key0 "GET" ParExamples.ep
  (Some "at1") None None ParExamples.w0).

Lemma resource_request_retry_witness :
  length (cw_log (fst ran)) = 2%nat ∧
  ∃ l, cw_log (fst ran) = cw_log ParExamples.w0 ++ l ∧ (length l ≤ 2)%nat.
Proof.
  split; [vm_compute; reflexivity|].
  destruct (resource_request_retry SsrfExamples.fst_key env ParExamples.f ParExamples.key0 "GET" ParExamples.ep
    (Some "at1") None None ParExamples.url ParExamples.w0 (fst ran) (snd ran)) as (l & E & Hl & _).
  - apply resolver_new_wf.
  - vm_compute. reflexivity.
  - exact (surjective_pairing ran).
  - exists l. exact (conj E Hl).
Defined.
End TokenExamples.
