(* ===== verification/ClientConfig.v ===== *)
(** * ClientConfig: configuration of the OAuth client (src/src/client.rs, first half)

    Client metadata and its published document, the builder, and the table of per-subject mutexes
    that serialises refreshes ([RefreshSingleFlight]). *)
From S2P Require Import Prelude Errors Strs Externals Instances IpFilter Net.
From S2P Require Import Ssrf Fetch Identity Crypto Store Nonces Htu Dpop.
Open Scope Z_scope.

(** ** Client metadata *)
Section metadata.
Context `{Base64} `{Sha2} `{P256}.

Record OAuthClientMetadata := mkMetadata {
  md_client_id : string;
  md_redirect_uri : string;
  md_scope : string;
  client_name : option string;
  client_key : option SigningKey
}.

Definition metadata_new (client_id redirect_uri : string) : OAuthClientMetadata :=
  mkMetadata client_id redirect_uri "atproto" None None.
Definition with_scope (m : OAuthClientMetadata) (scope : string) : OAuthClientMetadata :=
  mkMetadata (md_client_id m) (md_redirect_uri m) scope (client_name m) (client_key m).
Definition with_client_name (m : OAuthClientMetadata) (name : string) : OAuthClientMetadata :=
  mkMetadata (md_client_id m) (md_redirect_uri m) (md_scope m) (Some name) (client_key m).
Definition with_client_key (m : OAuthClientMetadata) (key : SigningKey) : OAuthClientMetadata :=
  mkMetadata (md_client_id m) (md_redirect_uri m) (md_scope m) (client_name m) (Some key).
Definition is_confidential (m : OAuthClientMetadata) : bool := bool_decide (is_Some (client_key m)).

Definition to_json_value (m : OAuthClientMetadata) : json :=
  let p := json_insert "client_id" (JString (md_client_id m)) [] in
  let p := match client_name m with Some name => json_insert "client_name" (JString name) p | None => p end in
  let p := json_insert "client_uri" (JString (md_client_id m)) p in
  let p := json_insert "redirect_uris" (JArray [JString (md_redirect_uri m)]) p in
  let p := json_insert "grant_types"
             (JArray [JString "authorization_code"; JString "refresh_token"]) p in
  let p := json_insert "response_types" (JArray [JString "code"]) p in
  let p := json_insert "scope" (JString (md_scope m)) p in
  let p := match client_key m with
           | Some key =>
               let p := json_insert "token_endpoint_auth_method" (JString "private_key_jwt") p in
               let p := json_insert "token_endpoint_auth_signing_alg" (JString "ES256") p in
               json_insert "jwks" (JObject [("keys", JArray [public_client_jwk key])]) p
           | None => json_insert "token_endpoint_auth_method" (JString "none") p
           end in
  JObject (json_insert "dpop_bound_access_tokens" (JBool true) p).

(** The published client metadata document is well formed (its keys strictly ordered), announces
    DPoP-bound tokens, exactly the configured redirect URI, scope and client id, and the
    authentication method the client uses: [private_key_jwt] with ES256 and its public key when it has
    one, [none] and no key set otherwise. *)
Theorem client_metadata_document m :
  let d := to_json_value m in
  json_wf d = true ∧ json_get d "dpop_bound_access_tokens" = Some (JBool true) ∧
  get_str d "client_id" = Some (md_client_id m) ∧ get_str d "scope" = Some (md_scope m) ∧
  json_get d "redirect_uris" = Some (JArray [JString (md_redirect_uri m)]) ∧
  match client_key m with
  | Some key => get_str d "token_endpoint_auth_method" = Some "private_key_jwt" ∧
      get_str d "token_endpoint_auth_signing_alg" = Some "ES256" ∧
      json_get d "jwks" = Some (JObject [("keys", JArray [public_client_jwk key])])
  | None => get_str d "token_endpoint_auth_method" = Some "none" ∧ json_get d "jwks" = None ∧
      json_get d "token_endpoint_auth_signing_alg" = None
  end.
Proof. destruct m as [c r s [nm|] [key|]]; cbv zeta; cbn [client_key]; split_and!; reflexivity. Qed.
End metadata.

(** ** Refresh coordination *)

(** A mutex is named by a number; the table maps subjects to mutexes, [next] is the next fresh name.
    [strong_count] is the number of [Arc]s of a mutex: more than one when somebody besides the table
    holds it. *)
Definition MAX_TRACKED_REFRESH_SUBJECTS : Z := 4096.
Record RefreshSingleFlight := mkFlight { locks : gmap string nat; next : nat }.
Definition flight_new : RefreshSingleFlight := mkFlight ∅ 0.

Section flight.
Context (first_key : gmap string nat → option string).

(** The part of [lock_for] under the write lock. *)
Definition install_lock (strong_count : nat → Z) (t : RefreshSingleFlight) (sub : string)
    : RefreshSingleFlight * nat :=
  match locks t !! sub with
  | Some existing => (t, existing)
  | None =>
      let guard := locks t in
      let guard :=
        if Z.of_nat (size guard) >=? MAX_TRACKED_REFRESH_SUBJECTS then
          let guard := retain (λ m, strong_count m >? 1) guard in
          if Z.of_nat (size guard) >=? MAX_TRACKED_REFRESH_SUBJECTS
          then match first_key guard with Some victim => delete victim guard | None => guard end
          else guard
        else guard in
      (mkFlight (<[sub := next t]> guard) (S (next t)), next t)
  end.

(** [between]: what other tasks do to the table between the read and the write lock. *)
Definition lock_for (between : RefreshSingleFlight → RefreshSingleFlight) (strong_count : nat → Z)
    (t : RefreshSingleFlight) (sub : string) : RefreshSingleFlight * nat :=
  match locks t !! sub with
  | Some existing => (t, existing)
  | None => install_lock strong_count (between t) sub
  end.

(** One call, as an event of a run: the subject, and the counts it sees. *)
Definition flight_step (t : RefreshSingleFlight) (ev : string * (nat → Z)) : RefreshSingleFlight * nat :=
  install_lock (snd ev) t (fst ev).

Class FlightKeyLaws : Prop := {
  flight_key_in m k : first_key m = Some k → is_Some (m !! k);
  flight_key_some m : m ≠ ∅ → is_Some (first_key m)
}.

(** The table is bounded, its mutexes are distinct and older than [next]. *)
Record flight_wf (t : RefreshSingleFlight) : Prop := {
  fl_bound : Z.of_nat (size (locks t)) ≤ MAX_TRACKED_REFRESH_SUBJECTS;
  fl_old : ∀ s m, locks t !! s = Some m → (m < next t)%nat;
  fl_inj : ∀ s s' m, locks t !! s = Some m → locks t !! s' = Some m → s = s'
}.

Lemma flight_new_wf : flight_wf flight_new.
Proof. split; simpl; [done|intros s m; by rewrite lookup_empty..]. Qed.

(** What is evicted to make room. *)
Definition made_room (strong_count : nat → Z) (guard : gmap string nat) : gmap string nat :=
  if Z.of_nat (size guard) >=? MAX_TRACKED_REFRESH_SUBJECTS then
    let guard := retain (λ m, strong_count m >? 1) guard in
    if Z.of_nat (size guard) >=? MAX_TRACKED_REFRESH_SUBJECTS
    then match first_key guard with Some victim => delete victim guard | None => guard end
    else guard
  else guard.

Lemma made_room_subseteq cnt g : made_room cnt g ⊆ g.
Proof.
  unfold made_room. case_if; [|done]. etrans; [|apply retain_subseteq]. case_if; [|done].
  case_match; [apply delete_subseteq|done].
Qed.

Lemma made_room_size `{!FlightKeyLaws} cnt g :
  Z.of_nat (size g) ≤ MAX_TRACKED_REFRESH_SUBJECTS →
  Z.of_nat (size (made_room cnt g)) < MAX_TRACKED_REFRESH_SUBJECTS.
Proof.
  intros Hg. unfold made_room. destruct (Z.of_nat (size g) >=? _) eqn:E; b2p; [|lia].
  pose proof (retain_size (λ m, cnt m >? 1) g) as Hr.
  destruct (MAX_TRACKED_REFRESH_SUBJECTS <=? Z.of_nat (size (retain (λ m, cnt m >? 1) g))) eqn:E'; b2p; [|lia].
  unfold MAX_TRACKED_REFRESH_SUBJECTS in *.
  destruct (flight_key_some (retain (λ m, cnt m >? 1) g)) as [k Hk].
  { intros Hn. rewrite Hn, map_size_empty in E'. lia. }
  rewrite Hk, map_size_delete_Some by (by apply flight_key_in). lia.
Qed.

Lemma install_lock_eq cnt t sub :
  install_lock cnt t sub =
  match locks t !! sub with
  | Some m => (t, m)
  | None => (mkFlight (<[sub := next t]> (made_room cnt (locks t))) (S (next t)), next t)
  end.
Proof. reflexivity. Qed.

Lemma install_lock_wf `{!FlightKeyLaws} cnt t sub :
  flight_wf t → flight_wf (install_lock cnt t sub).1.
Proof.
  intros Ht. rewrite install_lock_eq. destruct (locks t !! sub) eqn:E; [done|]. simpl.
  pose proof (made_room_size cnt (locks t) (fl_bound _ Ht)).
  pose proof (made_room_subseteq cnt (locks t)) as Hsub. split; simpl.
  - pose proof (map_size_insert_le (made_room cnt (locks t)) sub (next t)). lia.
  - intros s m. rewrite lookup_insert_Some. intros [[_ <-]|[_ Hm]]; [lia|].
    pose proof (fl_old _ Ht s m (lookup_weaken _ _ _ _ Hm Hsub)). lia.
  - intros s s' m. rewrite !lookup_insert_Some.
    assert (∀ s, made_room cnt (locks t) !! s ≠ Some (next t)) as Hfresh.
    { intros s0 Hs. pose proof (lookup_weaken _ _ _ _ Hs Hsub) as Hs'. apply (fl_old _ Ht) in Hs'. lia. }
    intros [[-> <-]|[_ H1]] [[-> Heq]|[_ H2]]; try done.
    + by apply Hfresh in H2.
    + subst. by apply Hfresh in H1.
    + eapply (fl_inj _ Ht); by eapply lookup_weaken.
Qed.

(** A mutex somebody holds stays in the table while fewer than the maximum are held. *)
Lemma install_lock_keeps cnt t sub s m :
  locks t !! s = Some m → cnt m > 1 →
  Z.of_nat (size (retain (λ m, cnt m >? 1) (locks t))) < MAX_TRACKED_REFRESH_SUBJECTS →
  locks (install_lock cnt t sub).1 !! s = Some m.
Proof.
  intros Hs Hm Hsize. rewrite install_lock_eq. destruct (locks t !! sub) eqn:E; [done|]. simpl.
  rewrite lookup_insert_ne by congruence. unfold made_room. case_if; [|done].
  rewrite Z.geb_leb, (proj2 (Z.leb_gt _ _)) by lia. apply retain_lookup. split; [done|]. b2p. lia.
Qed.

Lemma install_lock_result cnt t sub : locks (install_lock cnt t sub).1 !! sub = Some (install_lock cnt t sub).2.
Proof. rewrite install_lock_eq. destruct (locks t !! sub) eqn:E; [done|]. apply lookup_insert_eq. Qed.

(** Conditions under which a run keeps the mutex [m]: whenever a call is made, [m] is held, and fewer
    mutexes than the table's capacity are. *)
Fixpoint held_throughout (m : nat) (t : RefreshSingleFlight) (evs : list (string * (nat → Z))) : Prop :=
  match evs with
  | [] => True
  | ev :: evs' =>
      snd ev m > 1 ∧
      Z.of_nat (size (retain (λ m, snd ev m >? 1) (locks t))) < MAX_TRACKED_REFRESH_SUBJECTS ∧
      held_throughout m (flight_step t ev).1 evs'
  end.

(** Refreshes of one subject are serialised by one mutex.  In every run of [lock_for] calls the
    table stays within its capacity and gives different subjects different mutexes; and while a
    subject's mutex is held and fewer mutexes than the capacity are held, every call for that subject
    returns that very mutex, whatever other subjects come and go. *)
Theorem single_flight_stable `{!FlightKeyLaws} t evs sub m :
  flight_wf t → locks t !! sub = Some m → held_throughout m t evs →
  flight_wf (run flight_step t evs).1 ∧ locks (run flight_step t evs).1 !! sub = Some m ∧
  ∀ i c, evs !! i = Some (sub, c) → (run flight_step t evs).2 !! i = Some m.
Proof.
  revert t. induction evs as [|[s cnt] evs IH]; intros t Ht Hm Hheld; [done|].
  destruct Hheld as (Hc & Hsize & Hheld). cbn [fst snd] in *.
  pose proof (install_lock_keeps cnt t s sub m Hm Hc Hsize) as Hm'.
  destruct (IH (flight_step t (s, cnt)).1 (install_lock_wf cnt t s Ht) Hm' Hheld) as (Hwf & Hl & Hout).
  simpl. unfold flight_step in *. cbn [fst snd] in *.
  pose proof (install_lock_result cnt t s) as Hres.
  destruct (install_lock cnt t s) as [t' o]. cbn [fst snd] in *. destruct (run _ t' evs) as [t'' os]. simpl in *.
  split_and!; [done..|]. intros [|i] c; simpl; [|by apply Hout]. intros [= -> ->]. congruence.
Qed.

(** When every mutex of a full table is held, the victim is one of them: the next caller for that
    subject gets another mutex, and two refreshes of one subject can be in flight. *)
Lemma held_mutex_evicted cnt t sub v m :
  flight_wf t → locks t !! sub = None → (∀ m, cnt m > 1) →
  Z.of_nat (size (locks t)) = MAX_TRACKED_REFRESH_SUBJECTS →
  first_key (retain (λ m, cnt m >? 1) (locks t)) = Some v → locks t !! v = Some m →
  let t' := (install_lock cnt t sub).1 in locks t' !! v = None ∧ (install_lock cnt t' v).2 ≠ m.
Proof.
  intros Ht Hs Hc Hfull Hv Hm. cbv zeta. rewrite install_lock_eq, Hs. simpl.
  assert (retain (λ m, cnt m >? 1) (locks t) = locks t) as Hall.
  { apply map_eq. intros k. rewrite retain_lookup_option. destruct (locks t !! k) as [x|]; simpl; [|done].
    specialize (Hc x). by rewrite Z.gtb_ltb, (proj2 (Z.ltb_lt _ _)) by lia. }
  assert (made_room cnt (locks t) = delete v (locks t)) as Hroom.
  { unfold made_room. rewrite Hv, Hall, Hfull. done. }
  assert (<[sub:=next t]> (made_room cnt (locks t)) !! v = None) as Hnone.
  { rewrite Hroom, lookup_insert_ne by congruence. apply lookup_delete_eq. }
  split; [done|]. rewrite install_lock_eq. cbn [locks]. rewrite Hnone. simpl.
  apply (fl_old _ Ht) in Hm. lia.
Qed.
End flight.
Arguments FlightKeyLaws : clear implicits.

(** ** Concrete runs *)
Module ConfigExamples.
#[local] Instance fst_flight_laws : FlightKeyLaws SsrfExamples.fst_key.
Proof. split; [apply SsrfExamples.fst_key_in|apply SsrfExamples.fst_key_some]. Qed.

Definition table : RefreshSingleFlight := (install_lock SsrfExamples.fst_key (λ _, 1) flight_new "did:plc:a").1.
Definition evs : list (string * (nat → Z)) := [("did:plc:b", λ _, 2); ("did:plc:a", λ _, 2)].
Lemma single_flight_stable_witness :
  locks table !! "did:plc:a" = Some 0%nat ∧ (run (flight_step SsrfExamples.fst_key) table evs).2 !! 1%nat = Some 0%nat.
Proof.
  assert (locks table !! "did:plc:a" = Some 0%nat) as E by reflexivity. split; [exact E|].
  refine (proj2 (proj2 (single_flight_stable SsrfExamples.fst_key table evs "did:plc:a" 0 _ E _)) 1%nat (λ _, 2) eq_refl).
  - apply install_lock_wf; [apply _|apply flight_new_wf].
  - vm_compute. repeat split.
Defined.

(** A full table whose every mutex is held exists. *)
Definition full : RefreshSingleFlight :=
  mkFlight (list_to_map ((λ n, (pretty n, n)) <$> seq 0 4096)) 4096.
Lemma full_size : Z.of_nat (size (locks full)) = MAX_TRACKED_REFRESH_SUBJECTS.
Proof.
  unfold full. cbn [locks]. rewrite map_size_list_to_map.
  - by rewrite length_fmap, length_seq.
  - rewrite <-list_fmap_compose. apply (NoDup_fmap_2 (λ n : nat, pretty n)), NoDup_seq.
Qed.
End ConfigExamples.
