(* ===== verification/Client.v ===== *)
(** * Client: the flows of the OAuth client (src/src/client.rs)

    Login initiation, the redirect callback, code exchange and token refresh, over discovery (Discovery),
    pushed requests (Par), token requests (TokenRequest), the state store (Store) and sessions
    (Session).  [CS] is what the flows share: the network side ([CW]) and the state store; [instants]
    and [keygen] supply the monotonic clock and fresh keys.  The nonce cache and the store are
    handles shared by all clones of a client, hence state; the rest of a client is configuration. *)
From S2P Require Import Prelude Errors Strs Externals Instances IpFilter Net Ssrf Fetch Identity Discovery.
From S2P Require Import Crypto Store Nonces Pkce Nsid Htu Dpop Session Exchange Par TokenRequest ClientConfig.
Open Scope Z_scope.

(** ** Data *)
Section data.
Context `{P256} `{UrlCrate}.

Record StoredStateEntry := mkEntry {
  en_state : string;
  en_client_id : string;
  en_code_verifier : string;
  en_dpop_key : SigningKey;
  en_issuer : string;
  en_did : option string;
  en_handle : option string;
  en_redirect_uri : string;
  en_pds_endpoint : string;
  en_token_endpoint : string;
  en_scopes : string;
  en_created_at : Z;
  en_expires_in_secs : Z
}.

(** [StoredStateEntry::is_expired]; a clock before the creation counts as expired. *)
Definition entry_is_expired (e : StoredStateEntry) (now : Z) : bool :=
  let max_age := from_secs (en_expires_in_secs e) in
  if now <? en_created_at e then true else now - en_created_at e >? max_age.

Record OAuthLoginPreview := mkPreview {
  lp_did : string; lp_handle : option string; lp_pds_endpoint : string; lp_pds_host : string;
  lp_auth_server_issuer : string; lp_auth_server_host : string; lp_authorization_endpoint : string
}.

Record AuthorizationRequest := mkAuthorizationRequest {
  authorization_url : Url;
  ar_state : string;
  ar_request_uri : string;
  ar_expires_in : Z;
  stored_state : StoredStateEntry
}.

Record CallbackParams := mkCallback { cb_code : string; cb_state : string; cb_iss : option string }.
Definition callback_new (code state : string) : CallbackParams := mkCallback code state None.
Definition with_iss (p : CallbackParams) (iss : string) : CallbackParams :=
  mkCallback (cb_code p) (cb_state p) (Some iss).

Record AtprotoOAuthClient := mkClient {
  cl_metadata : OAuthClientMetadata;
  cl_resolver : IdentityResolver;
  cl_filter : SsrfFilter;
  cl_state_ttl : Z
}.

(** ** Construction *)
Record AtprotoOAuthClientBuilder := mkBuilder {
  b_metadata : option OAuthClientMetadata;
  b_resolver : option IdentityResolver;
  b_nonce_cache : option DPoPNonceCache;
  b_ssrf_filter : SsrfFilter;
  b_state_store : option (OAuthStateStore StoredStateEntry);
  b_state_ttl : Z
}.

Definition client_builder_new : AtprotoOAuthClientBuilder :=
  mkBuilder None None None (mkFilter false) None DEFAULT_STATE_TTL.
Definition set_metadata (b : AtprotoOAuthClientBuilder) (m : OAuthClientMetadata) :=
  mkBuilder (Some m) (b_resolver b) (b_nonce_cache b) (b_ssrf_filter b) (b_state_store b) (b_state_ttl b).
Definition set_identity_resolver (b : AtprotoOAuthClientBuilder) (r : IdentityResolver) :=
  mkBuilder (b_metadata b) (Some r) (b_nonce_cache b) (b_ssrf_filter b) (b_state_store b) (b_state_ttl b).
Definition set_nonce_cache (b : AtprotoOAuthClientBuilder) (c : DPoPNonceCache) :=
  mkBuilder (b_metadata b) (b_resolver b) (Some c) (b_ssrf_filter b) (b_state_store b) (b_state_ttl b).
Definition set_ssrf_filter (b : AtprotoOAuthClientBuilder) (f : SsrfFilter) :=
  mkBuilder (b_metadata b) (b_resolver b) (b_nonce_cache b) f (b_state_store b) (b_state_ttl b).
Definition set_allow_insecure_localhost (b : AtprotoOAuthClientBuilder) (allow : bool) :=
  mkBuilder (b_metadata b) (b_resolver b) (b_nonce_cache b) (mkFilter allow) (b_state_store b) (b_state_ttl b).
Definition set_state_store (b : AtprotoOAuthClientBuilder) (s : OAuthStateStore StoredStateEntry) :=
  mkBuilder (b_metadata b) (b_resolver b) (b_nonce_cache b) (b_ssrf_filter b) (Some s) (b_state_ttl b).
Definition set_state_ttl (b : AtprotoOAuthClientBuilder) (ttl : Z) :=
  mkBuilder (b_metadata b) (b_resolver b) (b_nonce_cache b) (b_ssrf_filter b) (b_state_store b) ttl.

(** What [build] creates: the client, its shared handles, and the interval of the background pruner,
    which it starts when it created the store itself and a runtime is running. *)
Record Built := mkBuilt {
  bt_client : AtprotoOAuthClient;
  bt_nonces : DPoPNonceCache;
  bt_store : OAuthStateStore StoredStateEntry;
  bt_pruner : option Z
}.

Definition build (runtime : bool) (b : AtprotoOAuthClientBuilder) : result AtprotoOAuthError Built :=
  _ ← fail_if (negb (b_state_ttl b mod NANOS_PER_SEC =? 0))
        (AtprotoOAuthError_Token (TokenError_InvalidStateTtl (b_state_ttl b)));
  metadata ← ok_or (b_metadata b) (AtprotoOAuthError_Par (ParError_MissingField "client_metadata"));
  let resolver := default (builder_ssrf_filter builder_default (b_ssrf_filter b)) (b_resolver b) in
  let nonce_cache := default nonce_cache_new (b_nonce_cache b) in
  let default_store_created := bool_decide (b_state_store b = None) in
  let state_store := default (Store.new (b_state_ttl b)) (b_state_store b) in
  let pruner := if default_store_created && runtime
                then Some (Z.max (b_state_ttl b) (60 * NANOS_PER_SEC)) else None in
  Ok (mkBuilt (mkClient metadata resolver (b_ssrf_filter b) (b_state_ttl b)) nonce_cache state_store pruner).

Definition client_new (client_id redirect_uri : string) : Built :=
  mkBuilt
    (mkClient (metadata_new client_id redirect_uri)
       (builder_ssrf_filter builder_default (mkFilter false)) (mkFilter false) DEFAULT_STATE_TTL)
    nonce_cache_new store_default None.
End data.

(** ** Flows *)
Section flows.
Context (fk : gmap string IpAddr → option string) `{UrlParts} `{!UrlEdit} (status_display : Z → string).
Context (answers : nat → nat → Round) `{IdentitySerde} `{DiscoverySerde}.
Context (doh_client : result string unit) (doh : string → nat → result string Response).
Context `{Base64} `{Sha2} `{P256} `{SerdeJson} `{UnicodeUpper} `{FormCrate} `{TokenSerde}.
Context (hash : string → Z) (env : Env) (instants : nat → Z) (keygen : nat → SigningKey).
Local Abbreviation World := (@World _).
Local Abbreviation CW := (@CW _).

Record CS := mkCS { cs_cw : CW; cs_store : OAuthStateStore StoredStateEntry }.

Definition on_cw {E A} (m : st CW E A) : st CS E A := λ s,
  let '(w, r) := m (cs_cw s) in (mkCS w (cs_store s), r).
Definition on_world {E A} (m : st World E A) : st CS E A := λ s,
  let w := cs_cw s in
  let '(w', r) := m (cw_world w) in (mkCS (mkCW w' (cw_nonces w) (cw_tick w) (cw_log w)) (cs_store s), r).

Definition fresh_key {E} : st CW E SigningKey := λ w,
  (mkCW (cw_world w) (cw_nonces w) (S (cw_tick w)) (cw_log w), Ok (keygen (cw_tick w))).

(** The store's operations; [insert_state] reads the monotonic clock twice. *)
Definition store_insert (state : string) (e : StoredStateEntry) (ttl : Z) : st CS AtprotoOAuthError unit := λ s,
  let k := cw_tick (cs_cw s) in
  let '(store, r) := insert_state_sync hash (cs_store s) state e ttl (instants k) (instants (S k)) in
  (mkCS (mkCW (cw_world (cs_cw s)) (cw_nonces (cs_cw s)) (S (S k)) (cw_log (cs_cw s))) store,
   map_err AtprotoOAuthError_Store r).
Definition store_take (state : string) : st CS AtprotoOAuthError (option StoredStateEntry) := λ s,
  let k := cw_tick (cs_cw s) in
  let '(store, r) := take_state_sync hash (cs_store s) state (instants k) in
  (mkCS (mkCW (cw_world (cs_cw s)) (cw_nonces (cs_cw s)) (S k) (cw_log (cs_cw s))) store, Ok r).

Definition discover (cl : AtprotoOAuthClient) (handle_or_did : string)
    : st CS AtprotoOAuthError DiscoveredAuthEndpoints :=
  on_world (st_map_err AtprotoOAuthError_Discovery
    (discover_oauth_endpoints fk status_display answers doh_client doh (cl_resolver cl) handle_or_did)).

Definition preview_login (cl : AtprotoOAuthClient) (handle_or_did : string)
    : st CS AtprotoOAuthError OAuthLoginPreview :=
  endpoints ← discover cl handle_or_did;
  let host := default (dae_pds_endpoint endpoints) (pds_host endpoints) in
  let as_host := default (auth_server_issuer endpoints) (auth_server_host endpoints) in
  mret (mkPreview (dae_did endpoints) (dae_handle endpoints) (dae_pds_endpoint endpoints) host
          (auth_server_issuer endpoints) as_host (dae_authorization_endpoint endpoints)).

(** ** Login *)
Definition initiate_login_with_scope (cl : AtprotoOAuthClient) (handle_or_did scope : string)
    : st CS AtprotoOAuthError (AuthorizationRequest * StoredStateEntry) :=
  endpoints ← discover cl handle_or_did;
  entropy ← on_cw (random_ env);
  let pkce := generate entropy in
  state_bytes ← on_cw (random_ env);
  let state := base64url_encode state_bytes in
  dpop_key ← on_cw fresh_key;
  let md := cl_metadata cl in
  let params := par_new (md_client_id md) (md_redirect_uri md) scope state (challenge pkce) in
  let params := match dae_handle endpoints with
                | Some handle => with_login_hint params handle
                | None => with_login_hint params (dae_did endpoints)
                end in
  let client_auth := (λ k, (k, auth_server_issuer endpoints)) <$> client_key md in
  par_res ← on_cw (execute_par_request_with_client_key fk env (cl_filter cl) (par_endpoint endpoints)
                     params dpop_key client_auth);
  auth_url ← lift (build_authorization_url (dae_authorization_endpoint endpoints) (md_client_id md)
                     (request_uri par_res));
  created_at ← on_cw (now_ env);
  let stored_state :=
    mkEntry state (md_client_id md) (verifier pkce) dpop_key (auth_server_issuer endpoints)
      (Some (dae_did endpoints)) (dae_handle endpoints) (md_redirect_uri md) (dae_pds_endpoint endpoints)
      (dae_token_endpoint endpoints) scope created_at (as_secs (cl_state_ttl cl)) in
  _ ← store_insert state stored_state (cl_state_ttl cl);
  mret (mkAuthorizationRequest auth_url state (request_uri par_res) (par_expires_in par_res) stored_state,
        stored_state).

Definition initiate_login (cl : AtprotoOAuthClient) (handle_or_did : string)
    : st CS AtprotoOAuthError (AuthorizationRequest * StoredStateEntry) :=
  initiate_login_with_scope cl handle_or_did (md_scope (cl_metadata cl)).

Definition authorize (cl : AtprotoOAuthClient) (handle_or_did : string)
    : st CS AtprotoOAuthError AuthorizationRequest :=
  '(req, _) ← initiate_login cl handle_or_did; mret req.

(** ** Code exchange *)
Definition send_dpop_token_request (cl : AtprotoOAuthClient) (token_endpoint : string) (dpop_key : SigningKey)
    (base_form_body : string) (client_auth : option ClientAuth) : st CW AtprotoOAuthError TokenResponse :=
  send_dpop_token_request_inner fk env (cl_filter cl) token_endpoint dpop_key base_form_body client_auth.

Definition has_atproto (scope : string) : bool := str_mem "atproto" (split_whitespace scope).

(** The checks on a token response for [state_entry]; they return the scope. *)
Definition check_token_response (e : StoredStateEntry) (t : TokenResponse) : result AtprotoOAuthError unit :=
  _ ← fail_if (negb (eq_ignore_ascii_case (tr_token_type t) "DPoP"))
        (AtprotoOAuthError_Token (TokenError_InvalidTokenType (tr_token_type t)));
  _ ← fail_if (str_is_empty (trim (tr_sub t))) (AtprotoOAuthError_Token TokenError_MissingDid);
  _ ← match en_did e with
      | Some expected_did =>
          fail_if (negb (tr_sub t =? expected_did)%string)
            (AtprotoOAuthError_Token (TokenError_SubMismatch expected_did (tr_sub t)))
      | None => Ok tt
      end;
  scope_str ← ok_or (tr_scope t) (AtprotoOAuthError_Token TokenError_MissingScope);
  fail_if (negb (has_atproto scope_str)) (AtprotoOAuthError_Token (TokenError_MissingAtprotoScope scope_str)).

Definition exchange_code (cl : AtprotoOAuthClient) (code : string) (e : StoredStateEntry)
    : st CW AtprotoOAuthError OAuthSession :=
  let form_pairs :=
    [("grant_type", "authorization_code"); ("code", code); ("redirect_uri", en_redirect_uri e);
     ("client_id", en_client_id e); ("code_verifier", en_code_verifier e)] in
  form_body ← lift (map_err (λ m, AtprotoOAuthError_Token (TokenError_Http m)) (form_to_string form_pairs));
  let client_auth := (λ k, (k, en_client_id e, en_issuer e)) <$> client_key (cl_metadata cl) in
  resp ← send_dpop_token_request cl (en_token_endpoint e) (en_dpop_key e) form_body client_auth;
  _ ← lift (check_token_response e resp);
  let '(sub, access_token, refresh_token, token_type, scope, expires_in) := into_parts resp in
  now ← now_ env;
  lift (session_new sub access_token refresh_token token_type scope expires_in (en_dpop_key e)
          (Some (en_pds_endpoint e)) (Some (en_issuer e)) (Some (en_token_endpoint e)) now).

(** ** The callback *)
Definition issuer_form (s : string) : string := trim_end_matches "/" (trim s).

Definition handle_callback_with_entry (cl : AtprotoOAuthClient) (p : CallbackParams) (e : StoredStateEntry)
    : st CW AtprotoOAuthError OAuthSession :=
  _ ← lift (fail_if (negb (cb_state p =? en_state e)%string)
              (AtprotoOAuthError_Token (TokenError_InvalidState
                 ("Callback state '" +:+ cb_state p +:+ "' does not match expected state '"
                  +:+ en_state e +:+ "'"))));
  now ← now_ env;
  _ ← lift (fail_if (entry_is_expired e now) (AtprotoOAuthError_Token TokenError_StateExpired));
  callback_iss ← lift (ok_or (cb_iss p) (AtprotoOAuthError_Token TokenError_MissingCallbackIssuer));
  _ ← lift (fail_if (negb (issuer_form callback_iss =? issuer_form (en_issuer e))%string)
              (AtprotoOAuthError_Token (TokenError_IssuerMismatch (en_issuer e) callback_iss)));
  exchange_code cl (cb_code p) e.

Definition handle_callback (cl : AtprotoOAuthClient) (p : CallbackParams) : st CS AtprotoOAuthError OAuthSession :=
  taken ← store_take (cb_state p);
  state_entry ← lift (ok_or taken (AtprotoOAuthError_Token (TokenError_InvalidState
                   ("State token '" +:+ cb_state p +:+ "' not found, expired, or already consumed"))));
  on_cw (handle_callback_with_entry cl p state_entry).

(** ** Refresh *)

(** The words of [new_scope] that were not granted. *)
Definition expanded_scopes (granted_scope new_scope : string) : list string :=
  List.filter (λ s, negb (str_mem s (split_whitespace granted_scope))) (split_whitespace new_scope).

Definition check_refresh_response (s : OAuthSession) (t : TokenResponse) : result AtprotoOAuthError unit :=
  _ ← fail_if (negb (eq_ignore_ascii_case (tr_token_type t) "DPoP"))
        (AtprotoOAuthError_Token (TokenError_InvalidTokenType (tr_token_type t)));
  _ ← fail_if (str_is_empty (tr_sub t))
        (AtprotoOAuthError_Token (TokenError_RequestFailed 200 "invalid_request"
           (Some "Refresh response is missing mandatory `sub` claim (review H4: fail-closed)")));
  _ ← fail_if (negb (tr_sub t =? sub s)%string)
        (AtprotoOAuthError_Token (TokenError_SubMismatch (sub s) (tr_sub t)));
  let granted_scope := default "" (ses_scope s) in
  match tr_scope t with
  | None => Ok tt
  | Some new_scope =>
      _ ← fail_if (negb (has_atproto new_scope))
            (AtprotoOAuthError_Token (TokenError_MissingAtprotoScope new_scope));
      if negb (str_is_empty granted_scope) then
        fail_if (negb (bool_decide (expanded_scopes granted_scope new_scope = [])))
          (AtprotoOAuthError_Token (TokenError_ScopeExpansion granted_scope new_scope))
      else Ok tt
  end.

(** [refresh_session_locked]: the session after the call is the one returned, or, on an error, the
    session unchanged. *)
Definition refresh_session_locked (cl : AtprotoOAuthClient) (session : OAuthSession)
    : st CW AtprotoOAuthError OAuthSession :=
  refresh_token ← lift (ok_or (refresh_token session) (AtprotoOAuthError_Token TokenError_MissingRefreshToken));
  token_endpoint ← lift (ok_or (ses_token_endpoint session)
                           (AtprotoOAuthError_Token (TokenError_MissingField "token_endpoint")));
  let form_pairs :=
    [("grant_type", "refresh_token"); ("refresh_token", refresh_token);
     ("client_id", md_client_id (cl_metadata cl))] in
  form_body ← lift (map_err (λ m, AtprotoOAuthError_Token (TokenError_Http m)) (form_to_string form_pairs));
  let resolved_issuer :=
    match ses_auth_server_issuer session with
    | Some iss => iss
    | None => match url_parse token_endpoint with Ok u => url_origin u | Err _ => "" end
    end in
  let client_auth := (λ k, (k, md_client_id (cl_metadata cl), resolved_issuer)) <$> client_key (cl_metadata cl) in
  resp ← send_dpop_token_request cl token_endpoint (dpop_key session) form_body client_auth;
  _ ← lift (check_refresh_response session resp);
  let '(_, new_access_token, new_refresh_token, _, scope, expires_in) := into_parts resp in
  now ← now_ env;
  mret (rotate_tokens_with_scope session new_access_token new_refresh_token expires_in scope now).

(** [refresh_session] runs it on the caller's session under the subject's mutex (see SharedRefresh),
    [refresh_token] on a clone. *)
Definition refresh_session (cl : AtprotoOAuthClient) (session : OAuthSession) : st CW AtprotoOAuthError OAuthSession :=
  refresh_session_locked cl session.
Definition client_refresh_token (cl : AtprotoOAuthClient) (session : OAuthSession)
    : st CW AtprotoOAuthError OAuthSession :=
  refresh_session cl session.

(** The two readings of the shared session in [refresh_shared_session]: before the subject's mutex is
    taken, and under it, where a token other than the one observed means that another task has
    refreshed meanwhile. *)
Definition shared_observe (shared : OAuthSession) : result AtprotoOAuthError (string * string) :=
  rt ← ok_or (refresh_token shared) (AtprotoOAuthError_Token TokenError_MissingRefreshToken);
  Ok (sub shared, rt).

Definition already_rotated `{Subtle} (observed_rt : string) (shared : OAuthSession) : bool :=
  match refresh_token shared with
  | Some current_rt => negb (constant_time_eq (as_bytes current_rt) (as_bytes observed_rt))
  | None => false
  end.
End flows.
