(* ===== verification/ClientFacts.v ===== *)
(** * ClientFacts: what the client's flows guarantee

    The callback is single-use and bound to the login it answers; a login binds the pushed request to
    the stored state; a refresh never changes identity or widens the scope. *)
From S2P Require Import Prelude Errors Strs Externals Instances IpFilter Net Ssrf Fetch Identity Discovery Crypto.
From S2P Require Import Store Nonces Pkce Nsid Htu Dpop Session Exchange Par TokenRequest ClientConfig Client.
Open Scope Z_scope.

(** ** What one exchange with the token endpoint does *)
Section exchanges.
Context (fk : gmap string IpAddr → option string) `{!FirstKeyLaws fk} `{UrlParts} (env : Env).
Context `{Base64} `{Sha2} `{P256} `{SerdeJson} `{UnicodeUpper} `{FormCrate} `{TokenSerde}.
Local Abbreviation exchange := (exchange_code fk env).
Local Abbreviation callback_entry := (handle_callback_with_entry fk env).
Local Abbreviation refresh := (refresh_session_locked fk env).

(** ** Code exchange *)
Definition response_for (e : StoredStateEntry) (t : TokenResponse) : Prop :=
  eq_ignore_ascii_case (tr_token_type t) "DPoP" = true ∧ trim (tr_sub t) ≠ "" ∧
  (∀ d, en_did e = Some d → tr_sub t = d) ∧
  ∃ sc, tr_scope t = Some sc ∧ "atproto" ∈ split_whitespace sc.

Lemma check_token_response_Ok e t : check_token_response e t = Ok tt ↔ response_for e t.
Proof.
  unfold check_token_response, response_for, str_is_empty, has_atproto.
  rewrite !bind_unit, !fail_if_Ok, negb_false_iff, String.eqb_neq, bind_Ok.
  setoid_rewrite ok_or_Ok. setoid_rewrite fail_if_Ok. setoid_rewrite negb_false_iff. setoid_rewrite str_mem_spec.
  assert (match en_did e with
          | Some d => fail_if (negb (tr_sub t =? d)%string) (AtprotoOAuthError_Token (TokenError_SubMismatch d (tr_sub t)))
          | None => Ok tt end = Ok tt ↔ (∀ d, en_did e = Some d → tr_sub t = d)) as Hd.
  { destruct (en_did e) as [d|]; [|naive_solver]. rewrite fail_if_Ok, negb_false_iff, String.eqb_eq. naive_solver. }
  rewrite Hd. done.
Qed.

(** The session a code exchange for [e] may yield. *)
Definition session_for (e : StoredStateEntry) (s : OAuthSession) : Prop :=
  dpop_bound s ∧ trim (sub s) ≠ "" ∧ (∀ d, en_did e = Some d → sub s = d) ∧
  (∃ sc, ses_scope s = Some sc ∧ "atproto" ∈ split_whitespace sc) ∧
  dpop_key s = en_dpop_key e ∧ ses_pds_endpoint s = Some (en_pds_endpoint e) ∧
  ses_auth_server_issuer s = Some (en_issuer e) ∧ ses_token_endpoint s = Some (en_token_endpoint e).

(** A request to the token endpoint [ep] with base form [base]. *)
Definition token_allowed (cl : AtprotoOAuthClient) (ep base : string) (x : Xch) : Prop :=
  ∃ url, url_parse ep = Ok url ∧ form_allowed (cl_filter cl) url (token_body base) x.

Definition code_form (code : string) (e : StoredStateEntry) : list (string * string) :=
  [("grant_type", "authorization_code"); ("code", code); ("redirect_uri", en_redirect_uri e);
   ("client_id", en_client_id e); ("code_verifier", en_code_verifier e)].

Lemma exchange_disciplined cl code e :
  disciplined 2 (λ x, ∃ base, form_to_string (code_form code e) = Ok base ∧
                   token_allowed cl (en_token_endpoint e) base x) (session_for e) (exchange cl code e).
Proof.
  unfold exchange_code. fold (code_form code e). destruct (form_to_string (code_form code e)) as [base|m] eqn:Eb.
  2: { by apply disciplined_quiet. }
  apply (disciplined_bind _ 0 2 _ _ (λ b, b = base)); [by apply disciplined_lift; intros ? [= <-]|]. intros ? ->.
  apply (disciplined_bind _ 2 0 _ _ decoded).
  { eapply traced_impl; [| |apply (token_request_any fk env)]; [|done]. intros l [Hl Hf]. split; [done|].
    eapply Forall_impl; [exact Hf|]. intros x Hx. by exists base. }
  intros t _. apply (disciplined_bind _ 0 0 _ _ (λ _, response_for e t)).
  { apply disciplined_lift. intros [] Hc. by apply check_token_response_Ok. }
  intros _ (Hty & Hne & Hd & sc & Esc & Hsc). cbn [into_parts].
  apply (disciplined_bind _ 0 0 _ _ (λ _, True)); [by apply disciplined_quiet|]. intros now _.
  apply disciplined_lift. intros s (_ & _ & ->)%session_new_Ok.
  split_and!; try done. by exists sc.
Qed.

(** ** The callback *)

(** What is checked before anything is sent. *)
Definition callback_for (p : CallbackParams) (e : StoredStateEntry) (now : Z) : Prop :=
  cb_state p = en_state e ∧ entry_is_expired e now = false ∧
  ∃ iss, cb_iss p = Some iss ∧ issuer_form iss = issuer_form (en_issuer e).

Lemma callback_entry_cases cl p e w :
  (callback_for p e (e_clock env (cw_tick w)) ∧
   callback_entry cl p e w = exchange cl (cb_code p) e (now_ (E := AtprotoOAuthError) env w).1) ∨
  ∃ err w', callback_entry cl p e w = (w', Err err) ∧ cw_log w' = cw_log w ∧ cw_world w' = cw_world w ∧
    ¬ callback_for p e (e_clock env (cw_tick w)).
Proof.
  unfold handle_callback_with_entry, mbind, st_bind, lift, callback_for.
  destruct (cb_state p =? en_state e)%string eqn:E1; simpl; b2p.
  2: { right. eexists _, _. split_and!; [done..|]. by intros (? & _). }
  destruct (entry_is_expired e (e_clock env (cw_tick w))) eqn:E2; simpl.
  { right. eexists _, _. split_and!; [done..|]. by intros (_ & ? & _). }
  destruct (cb_iss p) as [iss|] eqn:E3; simpl.
  2: { right. eexists _, _. split_and!; [done..|]. by intros (_ & _ & ? & ? & _). }
  destruct (issuer_form iss =? issuer_form (en_issuer e))%string eqn:E4; simpl; b2p.
  - left. split; [|done]. split_and!; [done..|]. by exists iss.
  - right. eexists _, _. split_and!; [done..|]. by intros (_ & _ & ? & [= <-] & ?).
Qed.

(** The exchanges a callback for [e] may make. *)
Definition code_exchange (cl : AtprotoOAuthClient) (code : string) (e : StoredStateEntry) (x : Xch) : Prop :=
  ∃ base, form_to_string (code_form code e) = Ok base ∧ token_allowed cl (en_token_endpoint e) base x.

Lemma callback_entry_run cl p e w :
  resolver_wf (w_resolver (cw_world w)) →
  ∃ l, extends l w (callback_entry cl p e w).1 ∧ at_most 2 (code_exchange cl (cb_code p) e) l ∧
    (l ≠ [] ∨ is_ok (callback_entry cl p e w).2 = true → callback_for p e (e_clock env (cw_tick w))) ∧
    ∀ ses, (callback_entry cl p e w).2 = Ok ses → session_for e ses.
Proof.
  intros Hw. destruct (callback_entry_cases cl p e w) as [[Hc ->]|(err & w' & -> & El & Ew & _)].
  - destruct (exchange_disciplined cl (cb_code p) e (now_ (E := AtprotoOAuthError) env w).1 Hw) as (l & He & Hl & HQ).
    exists l. split_and!; done.
  - exists []. split_and!; [|apply at_most_nil|by intros [|]|done].
    unfold extends. cbn [fst]. rewrite El, Ew. simpl. by rewrite !app_nil_r.
Qed.

(** ** Refresh *)

(** Scope words of an optional scope. *)
Definition scope_words (o : option string) : list string := split_whitespace (default "" o).

(** What a refresh may make of a session. *)
Definition refreshed (s s' : OAuthSession) : Prop :=
  same_identity s s' ∧
  (default "" (ses_scope s) ≠ "" → scope_words (ses_scope s') ⊆ scope_words (ses_scope s)) ∧
  ("atproto" ∈ scope_words (ses_scope s) → "atproto" ∈ scope_words (ses_scope s')).

Lemma expanded_nil granted new :
  expanded_scopes granted new = [] ↔ split_whitespace new ⊆ split_whitespace granted.
Proof using.
  clear fk FirstKeyLaws0.
  unfold expanded_scopes. induction (split_whitespace new) as [|w ws IH]; simpl; [split; [set_solver|done]|].
  destruct (str_mem w (split_whitespace granted)) eqn:E; simpl.
  - apply str_mem_spec in E. rewrite IH. set_solver.
  - split; [done|]. intros Hs. assert (w ∈ split_whitespace granted) as Hw by set_solver.
    apply str_mem_spec in Hw. congruence.
Qed.

(** A response that keeps the grant of [s]: it is for the same subject, of DPoP type, and a scope it
    names has atproto and, for a session with a scope, no word the session does not have. *)
Definition grant_kept (s : OAuthSession) (t : TokenResponse) : Prop :=
  tr_sub t = sub s ∧ tr_sub t ≠ "" ∧ eq_ignore_ascii_case (tr_token_type t) "DPoP" = true ∧
  ∀ sc, tr_scope t = Some sc → "atproto" ∈ split_whitespace sc ∧
    (default "" (ses_scope s) ≠ "" → split_whitespace sc ⊆ scope_words (ses_scope s)).

(** The checks accept exactly those responses. *)
Lemma check_refresh_response_Ok s t : check_refresh_response s t = Ok tt ↔ grant_kept s t.
Proof using.
  clear fk FirstKeyLaws0.
  unfold check_refresh_response, grant_kept, str_is_empty, has_atproto, scope_words.
  rewrite !bind_unit, !fail_if_Ok, !negb_false_iff, String.eqb_neq, String.eqb_eq.
  assert (∀ sc, (_ ← fail_if (negb (str_mem "atproto" (split_whitespace sc))) (AtprotoOAuthError_Token (TokenError_MissingAtprotoScope sc));
    if negb (default "" (ses_scope s) =? "")%string
    then fail_if (negb (bool_decide (expanded_scopes (default "" (ses_scope s)) sc = [])))
           (AtprotoOAuthError_Token (TokenError_ScopeExpansion (default "" (ses_scope s)) sc)) else Ok tt) = Ok tt ↔
    "atproto" ∈ split_whitespace sc ∧
    (default "" (ses_scope s) ≠ "" → split_whitespace sc ⊆ split_whitespace (default "" (ses_scope s)))) as Hsc.
  { intros sc. rewrite bind_unit, fail_if_Ok, negb_false_iff, str_mem_spec.
    destruct (String.eqb_spec (default "" (ses_scope s)) "") as [E|E]; simpl; [naive_solver|].
    rewrite fail_if_Ok, negb_false_iff, bool_decide_eq_true, expanded_nil. naive_solver. }
  destruct (tr_scope t) as [sc|]; [|naive_solver]. rewrite Hsc. naive_solver.
Qed.

Lemma rotated_refreshed s t now :
  grant_kept s t →
  refreshed s (rotate_tokens_with_scope s (tr_access_token t) (tr_refresh_token t) (tr_expires_in t) (tr_scope t) now).
Proof.
  intros (_ & _ & _ & Hsc). split; [apply rotate_same_identity|].
  unfold scope_words. cbn [ses_scope rotate_tokens_with_scope]. destruct (tr_scope t) as [sc|]; [|done].
  destruct (Hsc sc eq_refl) as [Ha Hx]. done.
Qed.

Definition refresh_form (cl : AtprotoOAuthClient) (rt : string) : list (string * string) :=
  [("grant_type", "refresh_token"); ("refresh_token", rt); ("client_id", md_client_id (cl_metadata cl))].

(** The exchanges a refresh of [s] may make. *)
Definition refresh_exchange (cl : AtprotoOAuthClient) (s : OAuthSession) (x : Xch) : Prop :=
  ∃ rt ep base, refresh_token s = Some rt ∧ ses_token_endpoint s = Some ep ∧
    form_to_string (refresh_form cl rt) = Ok base ∧ token_allowed cl ep base x.

Lemma refresh_disciplined cl s :
  disciplined 2 (refresh_exchange cl s) (λ s', refreshed s s' ∧ ∃ t, decoded t ∧ refresh_token s' = tr_refresh_token t)
    (refresh cl s).
Proof.
  unfold refresh_session_locked.
  destruct (refresh_token s) as [rt|] eqn:Ert; [|by apply disciplined_quiet].
  destruct (ses_token_endpoint s) as [ep|] eqn:Eep; [|by apply disciplined_quiet].
  apply (disciplined_bind _ 0 2 _ _ (λ b, b = rt)); [by apply disciplined_lift; intros ? [= <-]|]. intros ? ->.
  apply (disciplined_bind _ 0 2 _ _ (λ b, b = ep)); [by apply disciplined_lift; intros ? [= <-]|]. intros ? ->.
  fold (refresh_form cl rt). destruct (form_to_string (refresh_form cl rt)) as [base|m] eqn:Eb; [|by apply disciplined_quiet].
  apply (disciplined_bind _ 0 2 _ _ (λ b, b = base)); [by apply disciplined_lift; intros ? [= <-]|]. intros ? ->.
  apply (disciplined_bind _ 2 0 _ _ decoded).
  { eapply traced_impl; [| |apply (token_request_any fk env)]; [|done]. intros l [Hl Hf]. split; [done|].
    eapply Forall_impl; [exact Hf|]. intros x Hx. by exists rt, ep, base. }
  intros t Ht. apply (disciplined_bind _ 0 0 _ _ (λ _, grant_kept s t)).
  { apply disciplined_lift. intros [] Hc. by apply check_refresh_response_Ok. }
  intros _ Hc. cbn [into_parts]. apply (disciplined_bind _ 0 0 _ _ (λ _, True)); [by apply disciplined_quiet|].
  intros now _. apply disciplined_ret. split; [by apply rotated_refreshed|]. by exists t.
Qed.

(** C27. A refresh keeps the grant.  Whatever the server answers, a refresh that succeeds leaves the
    subject, DPoP key, issuer, PDS and token endpoint of the session as they were, never adds a scope
    to a non-empty grant, and keeps the atproto scope; and success or not, it sends at most two
    requests, all to the session's own token endpoint at addresses the SSRF filter admits, with the
    session's refresh token as form; a session without a refresh token or a token endpoint sends
    nothing. *)
Theorem refresh_sound cl s w w' res :
  resolver_wf (w_resolver (cw_world w)) → refresh cl s w = (w', res) →
  (∃ l, cw_log w' = cw_log w ++ l ∧ (length l ≤ 2)%nat ∧ Forall (refresh_exchange cl s) l) ∧
  (∀ s', res = Ok s' → same_identity s s' ∧
     (default "" (ses_scope s) ≠ "" → scope_words (ses_scope s') ⊆ scope_words (ses_scope s)) ∧
     ("atproto" ∈ scope_words (ses_scope s) → "atproto" ∈ scope_words (ses_scope s'))).
Proof.
  intros Hw E. destruct (refresh_disciplined cl s w Hw) as (l & (_ & El & _) & [Hl Hf] & HQ).
  rewrite E in El, HQ. split; [by exists l|]. intros s' ->. by destruct (HQ s' eq_refl) as [? _].
Qed.
End exchanges.

(** ** The callback and the state store *)
Section callbacks.
Context (fk : gmap string IpAddr → option string) `{UrlParts} (hash : string → Z) (env : Env) (instants : nat → Z).
Context `{Base64} `{Sha2} `{P256} `{SerdeJson} `{UnicodeUpper} `{FormCrate} `{TokenSerde}.
Local Abbreviation callback_entry := (handle_callback_with_entry fk env).
Local Abbreviation callback := (handle_callback fk hash env instants).

Lemma store_take_spec st s :
  store_wf hash (cs_store s) →
  ∃ s', store_take hash instants st s =
          (s', Ok (r ← store_lookup hash (cs_store s) st;
                   if is_expired r (instants (cw_tick (cs_cw s))) then None else Some (entry r))) ∧
    store_lookup hash (cs_store s') st = None ∧ store_wf hash (cs_store s') ∧
    cw_world (cs_cw s') = cw_world (cs_cw s) ∧ cw_log (cs_cw s') = cw_log (cs_cw s) ∧
    cw_tick (cs_cw s') = S (cw_tick (cs_cw s)).
Proof.
  intros Hwf. unfold store_take.
  pose proof (take_state_sync_result hash (cs_store s) st (instants (cw_tick (cs_cw s)))) as Hr.
  pose proof (store_lookup_take hash (cs_store s) st (instants (cw_tick (cs_cw s))) st Hwf) as Hl.
  pose proof (take_state_sync_wf hash (cs_store s) st (instants (cw_tick (cs_cw s))) Hwf) as Hw.
  destruct (take_state_sync _ _ _ _) as [store r]. cbn [fst snd] in *. rewrite decide_True in Hl by done.
  eexists. split; [by rewrite Hr|]. done.
Qed.

(** The lookup a callback makes: the record of its state, unless it expired. *)
Definition live_entry (s : CS) (st : string) : option StoredStateEntry :=
  r ← store_lookup hash (cs_store s) st;
  if is_expired r (instants (cw_tick (cs_cw s))) then None else Some (entry r).

Definition unknown_state (st : string) : AtprotoOAuthError :=
  AtprotoOAuthError_Token (TokenError_InvalidState
    ("State token '" +:+ st +:+ "' not found, expired, or already consumed")).

(** A callback is the take followed by the checks on the entry taken. *)
Lemma handle_callback_unfold cl p s :
  store_wf hash (cs_store s) →
  ∃ s1, store_lookup hash (cs_store s1) (cb_state p) = None ∧ store_wf hash (cs_store s1) ∧
    cw_world (cs_cw s1) = cw_world (cs_cw s) ∧ cw_log (cs_cw s1) = cw_log (cs_cw s) ∧
    cw_tick (cs_cw s1) = S (cw_tick (cs_cw s)) ∧
    callback cl p s =
      match live_entry s (cb_state p) with
      | Some e => on_cw (callback_entry cl p e) s1
      | None => (s1, Err (unknown_state (cb_state p)))
      end.
Proof.
  intros Hwf. destruct (store_take_spec (cb_state p) s Hwf) as (s1 & E & Hl & Hw & Hworld & Hlog & Ht).
  exists s1. split_and!; try done. unfold handle_callback, mbind at 1, st_bind. rewrite E. fold (live_entry s (cb_state p)).
  by destruct (live_entry s (cb_state p)).
Qed.

(** C2. The callback answers a login.  Whatever the parameters of the redirect and whatever DNS and
    the server answer: the state is gone from the store afterwards, success or not; if a request was
    sent, or a session returned, the store held an unexpired entry under the callback's state, that
    entry is for this state and unexpired on the wall clock too, and the [iss] parameter was present
    and names the entry's issuer; at most two requests are sent, all POSTs to the entry's token
    endpoint, at addresses the SSRF filter admits, with the code, the entry's redirect URI, client
    id and PKCE verifier as form; and a session returned is bound to the entry: its DPoP key, issuer,
    PDS and token endpoint, for the DID of the login, with the atproto scope. *)
Theorem callback_sound `{!FirstKeyLaws fk} cl p s s' res :
  store_wf hash (cs_store s) → resolver_wf (w_resolver (cw_world (cs_cw s))) → callback cl p s = (s', res) →
  store_lookup hash (cs_store s') (cb_state p) = None ∧
  ∃ l, cw_log (cs_cw s') = cw_log (cs_cw s) ++ l ∧ (length l ≤ 2)%nat ∧
    (l ≠ [] ∨ is_ok res = true →
       ∃ e, live_entry s (cb_state p) = Some e ∧ callback_for p e (e_clock env (S (cw_tick (cs_cw s)))) ∧
         Forall (code_exchange cl (cb_code p) e) l ∧ ∀ ses, res = Ok ses → session_for e ses).
Proof.
  intros Hwf Hr E. destruct (handle_callback_unfold cl p s Hwf) as (s1 & Hl & _ & Hworld & Hlog & Ht & E').
  rewrite E in E'. rewrite <-Hworld in Hr. destruct (live_entry s (cb_state p)) as [e|].
  - unfold on_cw in E'. destruct (callback_entry_run fk env cl p e (cs_cw s1) Hr) as (l & (_ & El & _) & [Hn Hf] & Hc & HQ).
    destruct (callback_entry cl p e (cs_cw s1)) as [w r]. injection E' as -> ->. cbn [cs_store cs_cw fst snd] in *.
    split; [done|]. exists l. split_and!; [by rewrite El, Hlog|done|]. intros Hany. exists e. rewrite <-Ht. auto.
  - injection E' as -> ->. split; [done|]. exists []. rewrite Hlog, app_nil_r. split_and!; [done|simpl; lia|by intros [|]].
Qed.

(** A login is answered once.  After a callback, successful or not, and any run of the store's
    critical sections by other tasks in which no new login is stored under the same state, a second
    callback with that state is refused with InvalidState before anything is sent, whatever its other
    parameters and whatever happened to the network side in between. *)
Theorem callback_single_use cl p s s1 res ops w p' :
  store_wf hash (cs_store s) → callback cl p s = (s1, res) →
  count (stored (cb_state p)) ops (run (store_step hash) (cs_store s1) ops).2 = 0%nat →
  cb_state p' = cb_state p →
  ∃ s2, callback cl p' (mkCS w (run (store_step hash) (cs_store s1) ops).1) = (s2, Err (unknown_state (cb_state p))) ∧
    cw_log (cs_cw s2) = cw_log w ∧ w_sent (cw_world (cs_cw s2)) = w_sent (cw_world w).
Proof.
  intros Hwf E Hc Hp. destruct (handle_callback_unfold cl p s Hwf) as (s0 & Hl & Hw & _ & _ & _ & E').
  rewrite E in E'. assert (cs_store s1 = cs_store s0) as Hs.
  { destruct (live_entry s (cb_state p)) as [e|]; [|congruence]. unfold on_cw in E'.
    destruct (callback_entry cl p e (cs_cw s0)). by injection E' as -> _. }
  rewrite Hs in *. pose proof (exec_wf hash ops _ Hw) as Hw2.
  pose proof (exec_balance hash (cb_state p) ops _ Hw) as Hb. rewrite Hl, Hc in Hb. simpl in Hb.
  destruct (handle_callback_unfold cl p' (mkCS w _) Hw2) as (s2 & _ & _ & Hworld & Hlog & _ & E2).
  unfold live_entry in E2. cbn [cs_store cs_cw] in *. rewrite Hp in E2.
  destruct (store_lookup hash (run (store_step hash) (cs_store s0) ops).1 (cb_state p)) as [r|]; [simpl in Hb; lia|].
  exists s2. split; [done|]. by rewrite Hlog, Hworld.
Qed.

End callbacks.

(** ** Login *)
Section logins.
Context (fk : gmap string IpAddr → option string) `{!FirstKeyLaws fk} `{UrlParts} `{!UrlEdit} (status_display : Z → string).
Context (answers : nat → nat → Round) `{IdentitySerde} `{DiscoverySerde}.
Context (doh_client : result string unit) (doh : string → nat → result string Response).
Context `{Base64} `{Sha2} `{P256} `{SerdeJson} `{UnicodeUpper} `{FormCrate} `{TokenSerde}.
Context (hash : string → Z) (env : Env) (instants : nat → Z) (keygen : nat → SigningKey).
Local Abbreviation discover_ := (discover fk status_display answers doh_client doh).
Local Abbreviation callback := (handle_callback fk hash env instants).
Local Abbreviation login := (initiate_login_with_scope fk status_display answers doh_client doh hash env instants keygen).

(** The discovery of a login that starts in [s] is bound to the identifier. *)
Definition bound_to_identifier (cl : AtprotoOAuthClient) (s : CS) (x : string) (d : DiscoveredAuthEndpoints) : Prop :=
  discovery_bound fk status_display answers doh_client doh (cl_resolver cl) (cw_world (cs_cw s)) x d.

Lemma discover_run cl x s s' d :
  discover_ cl x s = (s', Ok d) → resolver_wf (w_resolver (cw_world (cs_cw s))) →
  bound_to_identifier cl s x d ∧ resolver_wf (w_resolver (cw_world (cs_cw s'))) ∧
  cw_log (cs_cw s') = cw_log (cs_cw s) ∧ cs_store s' = cs_store s.
Proof.
  unfold discover, on_world. intros E Hw.
  destruct (discover_confined fk status_display answers doh_client doh (cl_resolver cl) x _ Hw) as [Hr _].
  destruct (st_map_err _ _ _) as [w' r] eqn:Ed in E. injection E as <- ->.
  apply st_map_err_Ok in Ed. rewrite Ed in Hr. split_and!; try done. by eapply discover_Ok.
Qed.

(** The parameters a login pushes. *)
Definition login_params (cl : AtprotoOAuthClient) (scope : string) (d : DiscoveredAuthEndpoints) (e : StoredStateEntry)
    : ParParameters :=
  with_login_hint
    (par_new (md_client_id (cl_metadata cl)) (md_redirect_uri (cl_metadata cl)) scope (en_state e)
       (derive_s256_challenge (en_code_verifier e)))
    (default (dae_did d) (dae_handle d)).

(** The entry of a login is for these endpoints. *)
Definition entry_for (cl : AtprotoOAuthClient) (scope : string) (d : DiscoveredAuthEndpoints) (e : StoredStateEntry) : Prop :=
  en_client_id e = md_client_id (cl_metadata cl) ∧ en_redirect_uri e = md_redirect_uri (cl_metadata cl) ∧
  en_issuer e = auth_server_issuer d ∧ en_did e = Some (dae_did d) ∧ en_pds_endpoint e = dae_pds_endpoint d ∧
  en_token_endpoint e = dae_token_endpoint d ∧ en_scopes e = scope ∧
  en_expires_in_secs e = as_secs (cl_state_ttl cl).

Lemma login_run cl x scope s s' req e :
  store_wf hash (cs_store s) → resolver_wf (w_resolver (cw_world (cs_cw s))) →
  login cl x scope s = (s', Ok (req, e)) →
  ∃ d l t, bound_to_identifier cl s x d ∧ entry_for cl scope d e ∧ stored_state req = e ∧ ar_state req = en_state e ∧
    store_lookup hash (cs_store s') (en_state e) = Some (record_new e (cl_state_ttl cl) (instants t)) ∧
    store_wf hash (cs_store s') ∧ resolver_wf (w_resolver (cw_world (cs_cw s'))) ∧
    cw_log (cs_cw s') = cw_log (cs_cw s) ++ l ∧
    at_most 2 (λ y, ∃ url, url_parse (par_endpoint d) = Ok url ∧
                 form_allowed (cl_filter cl) url (par_body (login_params cl scope d e)) y) l ∧
    build_authorization_url (dae_authorization_endpoint d) (en_client_id e) (ar_request_uri req) =
      Ok (authorization_url req) ∧
    answered par_answer (mkParResponse (ar_request_uri req) (ar_expires_in req)) l.
Proof.
  intros Hwf Hr E. unfold initiate_login_with_scope in E.
  apply st_bind_Ok in E as (s1 & d & Ed & E). apply discover_run in Ed as (Hd & Hr1 & Hl1 & Hs1); [|done].
  apply st_bind_Ok in E as (s2 & entropy & E2 & E). injection E2 as <- <-.
  apply st_bind_Ok in E as (s3 & bytes & E3 & E). injection E3 as <- <-.
  apply st_bind_Ok in E as (s4 & key & E4 & E). injection E4 as <- <-.
  apply st_bind_Ok in E as (s5 & r & E5 & E). unfold on_cw in E5.
  match type of E5 with (let '(_, _) := execute_par_request_with_client_key _ _ ?f ?ep ?ps ?k ?a ?w in _) = _ =>
    destruct (execute_par_any fk env f ep ps k a w Hr1) as (l & (Hr5 & Hl5 & _) & Hl & _);
    destruct (execute_par_answered fk env f ep ps k a w Hr1) as (l' & (_ & Hl5' & _) & _ & Hans);
    assert (l' = l) as -> by (rewrite Hl5 in Hl5'; by apply app_inv_head in Hl5');
    destruct (execute_par_request_with_client_key fk env f ep ps k a w) as [w5 r5] end.
  injection E5 as <- ->. cbn [fst snd cs_cw cs_store] in *.
  apply st_bind_Ok in E as (s6 & u & E6 & E). apply lift_Ok in E6 as [<- Eu].
  apply st_bind_Ok in E as (s7 & created & E7 & E). injection E7 as <- <-.
  apply st_bind_Ok in E as (s8 & [] & E8 & E). injection E as <- <- <-.
  unfold store_insert in E8. cbn [cs_cw cs_store cw_tick cw_log cw_world] in E8.
  destruct (insert_state_sync _ _ _ _ _ _ _) as [st r8] eqn:Ei. injection E8 as <- Er.
  apply map_err_Ok in Er as ->. rewrite Hs1 in *.
  pose proof (store_lookup_insert_ok hash _ _ _ _ _ _ _ Hwf Ei) as Hlk.
  match type of Ei with insert_state_sync _ _ ?k ?e ?ttl ?t1 ?t2 = _ =>
    pose proof (insert_state_sync_wf hash (cs_store s) k e ttl t1 t2 Hwf) as Hwf'; rewrite Ei in Hwf' end.
  exists d, l. eexists. split_and!; [exact Hd|done|done|done|exact Hlk|exact Hwf'|exact Hr5| | |exact Eu|].
  - cbn [cs_cw cw_log]. by rewrite Hl5, Hl1.
  - unfold login_params. cbn. by destruct (dae_handle d).
  - cbn. destruct r as [ru ex]. by apply Hans.
Qed.

(** C7. A login binds the pushed request to the stored state.  When [initiate_login_with_scope]
    succeeds, the identity and endpoints it used are a discovery bound to the identifier asked for; it
    pushed the request: one or two POSTs (the first may have been a nonce challenge), all to the
    discovered PAR endpoint and at addresses the SSRF filter admits, each with the client's id and
    redirect URI, the state, and the S256 challenge of the verifier that was stored; the last one was
    answered with success by the server, and the request_uri and lifetime it returns are those of that
    answer; the store holds, under that state, the entry with the verifier, the issuer, the DID and
    the token endpoint of that discovery; and the user is sent to the discovered authorization
    endpoint with the client's id and the request_uri of that answer. *)
Theorem login_binds_request cl x scope s s' req e :
  store_wf hash (cs_store s) → resolver_wf (w_resolver (cw_world (cs_cw s))) →
  login cl x scope s = (s', Ok (req, e)) →
  stored_state req = e ∧ ar_state req = en_state e ∧
  (entry <$> store_lookup hash (cs_store s') (ar_state req)) = Some e ∧
  ∃ d pre pushed resp, bound_to_identifier cl s x d ∧ entry_for cl scope d e ∧
    build_authorization_url (dae_authorization_endpoint d) (en_client_id e) (ar_request_uri req) =
      Ok (authorization_url req) ∧
    cw_log (cs_cw s') = cw_log (cs_cw s) ++ pre ++ [pushed] ∧ (length pre ≤ 1)%nat ∧
    Forall (λ y, ∃ url, url_parse (par_endpoint d) = Ok url ∧
              form_allowed (cl_filter cl) url (par_body (login_params cl scope d e)) y) (pre ++ [pushed]) ∧
    x_response pushed = Ok resp ∧ is_success (dr_status resp) = true ∧
    par_finish resp = Ok (mkParResponse (ar_request_uri req) (ar_expires_in req)).
Proof.
  intros Hwf Hr E. destruct (login_run cl x scope s s' req e Hwf Hr E)
    as (d & l & t & Hd & He & Hst & Hs & Hlk & _ & _ & Hl & [Hn Hf] & Hu & (pre & pushed & resp & -> & Hx & Hok & Hfin)).
  split_and!; [done|done|by rewrite Hs, Hlk|]. exists d, pre, pushed, resp.
  rewrite length_app in Hn. simpl in Hn. split_and!; try done. lia.
Qed.

(** C26. Login and callback fit together: between a login and its callback other tasks run any
    critical sections on the store that leave the state alone, and the record does not expire; a
    callback with the login's state and the issuer's name (trailing slashes and surrounding blanks
    aside) is then not refused: it runs the code exchange with exactly the entry of that login, once
    the state has been consumed. *)
Theorem login_callback_roundtrip cl x scope s s1 req e r ops w p :
  store_wf hash (cs_store s) → resolver_wf (w_resolver (cw_world (cs_cw s))) →
  login cl x scope s = (s1, Ok (req, e)) →
  store_lookup hash (cs_store s1) (ar_state req) = Some r →
  spares_all hash (ar_state req) ops (run (store_step hash) (cs_store s1) ops).2 →
  Forall (λ op, ∀ t, prune_time op = Some t → is_expired r t = false) ops →
  is_expired r (instants (cw_tick w)) = false →
  entry_is_expired e (e_clock env (S (cw_tick w))) = false →
  cb_state p = ar_state req → issuer_form <$> cb_iss p = Some (issuer_form (en_issuer e)) →
  ∃ s2, callback cl p (mkCS w (run (store_step hash) (cs_store s1) ops).1) = on_cw (exchange_code fk env cl (cb_code p) e) s2 ∧
    cw_log (cs_cw s2) = cw_log w ∧ cw_world (cs_cw s2) = cw_world w ∧
    store_lookup hash (cs_store s2) (ar_state req) = None.
Proof.
  intros Hwf Hr E Hlk Hsp Hp Hlive Hwall Hst Hiss.
  destruct (login_run cl x scope s s1 req e Hwf Hr E) as (d & l & t & _ & _ & _ & Hs & Hlk' & Hwf1 & _).
  rewrite Hs in *. rewrite Hlk' in Hlk. injection Hlk as <-.
  pose proof (store_lookup_spared hash _ ops _ _ Hwf1 Hlk' Hsp Hp) as Hfound.
  destruct (handle_callback_unfold fk hash env instants cl p (mkCS w _) (exec_wf hash ops _ Hwf1)) as (s2 & Hl2 & _ & Hw2 & Hlog & Ht & E2).
  unfold live_entry in E2. cbn [cs_store cs_cw] in *. rewrite Hst, Hfound in E2. cbn [mbind option_bind] in E2.
  rewrite Hlive in E2. cbn [entry record_new] in E2.
  apply fmap_Some in Hiss as (iss & Hiss & Heq).
  destruct (callback_entry_cases fk env cl p e (cs_cw s2)) as [[_ Ec]|(err & w' & _ & _ & _ & Hno)].
  - exists (mkCS (now_ (E := AtprotoOAuthError) env (cs_cw s2)).1 (cs_store s2)). rewrite E2. unfold on_cw. rewrite Ec.
    rewrite Hst in Hl2. done.
  - exfalso. apply Hno. unfold callback_for. rewrite Ht. split_and!; [done..|]. by exists iss.
Qed.

End logins.

(** ** Concrete runs *)
Module ClientExamples.
Import SsrfExamples IdentityExamples DiscoveryExamples.
#[local] Existing Instances nibble_base64 zero_sha2 unit_p256 plain_subtle ascii_upper_case numbered_json numbered_form
  bare_urls bare_parts fixed_serde fixed_documents fst_key_laws.
#[local] Instance bare_edit : @UrlEdit bare_urls :=
  {| url_append_pairs := λ u _, u; url_set_path := λ u p, (fst u, p) |}.
Definition grant : TokenResponse :=
  mkTokenResponse "at2" "DPoP" (Some 3600) (Some "rt2") (Some "atproto") "did:web:pds.example.com".
#[local] Instance fixed_tokens : TokenSerde := {| token_response_from_slice := λ _, Ok grant |}.
Definition pushed_body : list Z := ParExamples.text (JObject [("expires_in", JInt 60); ("request_uri", JString "urn:r:1")]).
Definition secs (k : nat) : Z := 1000000000000.
(** Every server answers 201 with a nonce; the PAR answer doubles as the body of a token response. *)
Definition env : @Env bare_urls :=
  mkEnv (λ _ _, DnsAddrs [(public, 443)])
    (λ _ _, Ok (mkDpopResponse (mkResponse 201 None None [(Ok pushed_body, None)]) (Some "n1") []))
    secs (λ _, [1; 2]) (λ _ c, c).
Definition key0 : @SigningKey unit_p256 := tt.
Definition hash0 (_ : string) : Z := 7.
Definition cl : @AtprotoOAuthClient unit_p256 :=
  mkClient (metadata_new "https://app.example/client.json" "https://app.example/cb") ir (mkFilter false) DEFAULT_STATE_TTL.
Definition s0 : @CS bare_urls unit_p256 := mkCS (mkCW world nonce_cache_new 0 []) store_default.
Abbreviation login0 := (initiate_login_with_scope fst_key pretty one_round (Err "offline") (λ _ _, Err "offline") hash0 env
  secs (λ _, key0) cl "alice" "atproto").
Abbreviation s1 := (fst (login0 s0)).

(** The entry of the login, and a callback for it. *)
Definition e0 : StoredStateEntry :=
  mkEntry "ABAC" "https://app.example/client.json" "ABAC" key0 "https://auth.example.com"
    (Some "did:web:pds.example.com") (Some "alice.bsky.social") "https://app.example/cb" "https://pds.example.com"
    "https://auth.example.com/token" "atproto" 1000000000000 300.
Definition req0 : AuthorizationRequest :=
  mkAuthorizationRequest (H0 := bare_urls) ("auth.example.com", "authorize") "ABAC" "urn:r:1" 60 e0.
Lemma logged_snd : snd (login0 s0) = Ok (req0, e0).
Proof. vm_compute. reflexivity. Qed.
Lemma logged_ok : login0 s0 = (s1, Ok (req0, e0)).
Proof. exact (eq_trans (surjective_pairing (login0 s0)) (f_equal (pair s1) logged_snd)). Qed.
Lemma s0_wf : store_wf hash0 (cs_store s0).
Proof. apply new_wf. Qed.
Lemma s0_resolver : resolver_wf (w_resolver (cw_world (cs_cw s0))).
Proof. apply resolver_new_wf. Qed.
Lemma logged_wf s req e :
  login0 s0 = (s, Ok (req, e)) → store_wf hash0 (cs_store s) ∧ resolver_wf (w_resolver (cw_world (cs_cw s))).
Proof.
  intros E. destruct (login_run fst_key pretty one_round (Err "offline") (λ _ _, Err "offline") hash0 env secs (λ _, key0)
    cl "alice" "atproto" s0 s req e s0_wf s0_resolver E) as (d & l & t & _ & _ & _ & _ & _ & Hw & Hr & _). exact (conj Hw Hr).
Qed.
Lemma s1_wf : store_wf hash0 (cs_store s1) ∧ resolver_wf (w_resolver (cw_world (cs_cw s1))).
Proof. exact (logged_wf s1 req0 e0 logged_ok). Qed.

Lemma login_binds_request_witness :
  snd (login0 s0) = Ok (req0, e0) ∧ (entry <$> store_lookup hash0 (cs_store s1) (ar_state req0)) = Some e0.
Proof.
  split; [exact logged_snd|].
  exact (proj1 (proj2 (proj2 (login_binds_request fst_key pretty one_round (Err "offline") (λ _ _, Err "offline") hash0 env
    secs (λ _, key0) cl "alice" "atproto" s0 s1 req0 e0 s0_wf s0_resolver logged_ok)))).
Defined.

Definition p0 : CallbackParams := mkCallback "code1" "ABAC" (Some "https://auth.example.com/").
Abbreviation called := (handle_callback fst_key hash0 env secs cl p0 s1).

(** The callback gives a session, after one request. *)
Lemma callback_sound_witness :
  sub <$> snd called = Ok "did:web:pds.example.com" ∧
  ∃ e ses, snd called = Ok ses ∧ live_entry hash0 secs s1 "ABAC" = Some e ∧ dpop_key ses = en_dpop_key e.
Proof.
  split; [vm_compute; reflexivity|].
  destruct (snd called) as [ses|err] eqn:E; [|vm_compute in E; discriminate E].
  destruct (callback_sound fst_key hash0 env secs cl p0 s1 (fst called) (Ok ses)) as (_ & l & _ & _ & Hs).
  - exact (proj1 s1_wf).
  - exact (proj2 s1_wf).
  - rewrite <-E. exact (surjective_pairing called).
  - destruct (Hs (or_intror eq_refl)) as (e & Ee & _ & _ & Hses). exists e, ses. split_and!; [reflexivity|exact Ee|].
    apply (Hses ses eq_refl).
Defined.

(** A second callback with the same state, after another task's prune, is refused. *)
Definition later : list (store_op StoredStateEntry) := [OpPruneShard 7 0; OpContains "ABAC" 0].
Definition w1 : @CW bare_urls := mkCW world nonce_cache_new 40 [].
Lemma callback_single_use_witness :
  ∃ s2, handle_callback fst_key hash0 env secs cl (mkCallback "code2" "ABAC" None)
          (mkCS w1 (Prelude.run (store_step hash0) (cs_store (fst called)) later).1) = (s2, Err (unknown_state "ABAC")) ∧
    cw_log (cs_cw s2) = [].
Proof.
  destruct (callback_single_use fst_key hash0 env secs cl p0 s1 (fst called) (snd called) later w1
    (mkCallback "code2" "ABAC" None)) as (s2 & E & El & _).
  - exact (proj1 s1_wf).
  - exact (surjective_pairing called).
  - vm_compute. reflexivity.
  - reflexivity.
  - exists s2. exact (conj E El).
Defined.

Definition r0 : StoredStateRecord StoredStateEntry := record_new e0 DEFAULT_STATE_TTL 1000000000000.
Lemma login_callback_roundtrip_witness :
  ∃ s2, handle_callback fst_key hash0 env secs cl p0 (mkCS w1 (Prelude.run (store_step hash0) (cs_store s1) later).1) =
    on_cw (exchange_code fst_key env cl "code1" e0) s2.
Proof.
  destruct (login_callback_roundtrip fst_key pretty one_round (Err "offline") (λ _ _, Err "offline") hash0 env
    secs (λ _, key0) cl "alice" "atproto" s0 s1 req0 e0 r0 later w1 p0 s0_wf s0_resolver logged_ok) as (s2 & E & _).
  - vm_compute. reflexivity.
  - unfold spares_all, later. vm_compute. repeat constructor.
  - unfold later. apply Forall_cons; split; [|apply Forall_singleton]; intros t; [intros [= <-]; reflexivity|discriminate].
  - reflexivity.
  - reflexivity.
  - reflexivity.
  - reflexivity.
  - exists s2. exact E.
Defined.

(** A session refreshed once. *)
Definition ses0 : @OAuthSession unit_p256 :=
  mkSession "did:web:pds.example.com" "at1" (Some "rt1") "DPoP" (Some "atproto transition:generic") None key0
    (Some "https://pds.example.com") (Some "https://auth.example.com") (Some "https://auth.example.com/token") 0.
Abbreviation rotated := (refresh_session_locked fst_key env cl ses0 w1).
Lemma refresh_sound_witness :
  (λ s, (access_token s, refresh_token s, ses_scope s)) <$> snd rotated = Ok ("at2", Some "rt2", Some "atproto") ∧
  ∃ s, snd rotated = Ok s ∧ same_identity ses0 s.
Proof.
  split; [vm_compute; reflexivity|].
  destruct (snd rotated) as [s|err] eqn:E; [|vm_compute in E; discriminate E].
  destruct (refresh_sound fst_key env cl ses0 w1 (fst rotated) (Ok s)) as [_ Hs].
  - apply resolver_new_wf.
  - rewrite <-E. exact (surjective_pairing rotated).
  - exists s. split; [reflexivity|]. apply (Hs s eq_refl).
Defined.
End ClientExamples.
