(* ===== verification/Progress.v ===== *)
(** * Progress: the client's flows succeed against a conforming server

    Par has the pushed request; this file has the token endpoint (src/src/client.rs): against a
    server that demands a DPoP nonce and verifies proofs ([nonce_server], [fair_world] of Par), the
    code exchange, the callback and the refresh return what the server granted, whatever nonce was
    cached before. *)
From S2P Require Import Prelude Errors Strs Externals Instances IpFilter Net Ssrf Fetch Identity Discovery Crypto.
From S2P Require Import Store Nonces Pkce Nsid Htu Dpop Session Exchange Par TokenRequest ClientConfig Client ClientFacts.
Open Scope Z_scope.

Section progress.
Context (fk : gmap string IpAddr → option string) `{UrlParts} (env : Env).
Context `{Base64Laws} `{!Base64Alphabet} `{Sha2} `{P256Laws} `{DpopSerdeLaws}
  `{!SerdeJsonLaws} `{SubtleLaws} `{!UrlLaws} `{!UrlReparse} `{UnicodeUpperLaws} `{FormCrate}
  `{!DpopSerdeTyped} `{TokenSerde}.
Context (v : DPoPVerifier) (ep n nrm : string) (ok_body challenge_body : list Z) (clock : nat → Z)
  (f : SsrfFilter) (url : Url).
Context (FW : fair_world env v ep n nrm ok_body challenge_body clock f url).

(** ** One request to the token endpoint *)
Lemma token_pinned_runs w :
  ∃ w' a, token_pinned fk env f url w = (w', Ok a) ∧ cw_nonces w' = cw_nonces w.
Proof.
  unfold token_pinned, st_map_err, pinned_client, build_pinned_client.
  pose proof (fw_dns _ _ _ _ _ _ _ _ _ _ FW (cw_tick w)) as Hd. rewrite (fw_others _ _ _ _ _ _ _ _ _ _ FW).
  destruct (resolve_and_pin _ _ _) as [[a hh]|e]; [|done]. by eexists _, _.
Qed.

Lemma token_form_runs base auth w :
  ∃ w' b, build_token_form_body env base auth w = (w', Ok b) ∧ cw_nonces w' = cw_nonces w.
Proof.
  destruct auth as [[[ck cid] aud]|]; [|by eexists _, _]. cbn [build_token_form_body].
  destruct (make_client_assertion_runs env v ep n nrm ok_body challenge_body clock f url FW ck cid aud w)
    as (w' & a & E & Hn).
  eexists w', _. split; [|done]. apply st_bind_Ok. by exists w', a.
Qed.

(** Posting a form to the endpoint is the same exchange as in Par, up to the kind of error. *)
Lemma token_send_runs w addr host proof body :
  ∃ w' resp, token_send env (url_origin url) addr (form_request url host proof body) w = (w', Ok resp) ∧
    get_nonce (cw_nonces w') (url_origin url) = Some n ∧ dr_dpop_nonce resp = Some n ∧
    dr_response resp =
      if is_ok (verify_proof_no_replay v proof "POST" ep (Some n) None (Some (clock (cw_tick w))) (clock (cw_tick w)))
      then mkResponse 201 None None [(Ok ok_body, None)]
      else mkResponse 400 None None [(Ok challenge_body, None)].
Proof.
  destruct (par_send_runs env v ep n nrm ok_body challenge_body clock f url FW w addr host proof body)
    as (w' & resp & E & Hn & Hd & Hr).
  exists w', resp. split_and!; [|done..]. revert E.
  unfold par_send, token_send, mbind, st_bind, st_map_err, send. cbn [fst snd].
  by destruct (e_server env (cw_tick w) (form_request url host proof body)).
Qed.

Lemma token_finish_runs resp t :
  dr_dpop_nonce resp = Some n → dr_response resp = mkResponse 201 None None [(Ok ok_body, None)] →
  token_response_from_slice ok_body = Ok t → token_finish resp = Ok t.
Proof.
  intros Hn Hr Hp. destruct (fw_sizes _ _ _ _ _ _ _ _ _ _ FW) as [Hs _].
  destruct (fw_nonce _ _ _ _ _ _ _ _ _ _ FW) as [Et Hne].
  unfold token_finish, token_read_body, require_dpop_nonce, str_is_empty. rewrite Hn, Hr, Et.
  rewrite (proj2 (String.eqb_neq _ _) Hne). cbn [negb map_err mbind result_bind].
  rewrite read_single; [|done|by vm_compute]. cbn [map_err mbind result_bind]. by rewrite Hp.
Qed.

Lemma token_retry_runs key base auth status w t :
  token_response_from_slice ok_body = Ok t → get_nonce (cw_nonces w) (url_origin url) = Some n →
  ∃ w', token_retry fk env f ep key base auth url status w = (w', Ok t) ∧
    get_nonce (cw_nonces w') (url_origin url) = Some n.
Proof.
  intros Hparse Hn. unfold token_retry, mbind, st_bind. cbn [cached_nonce]. rewrite Hn. cbn [ok_or lift].
  destruct (make_proof_runs env v ep n nrm ok_body challenge_body clock f url FW key (Some n) w)
    as (w1 & proof & E1 & _ & Hv). rewrite E1.
  destruct (token_form_runs base auth w1) as (w2 & body & E2 & _). rewrite E2.
  destruct (token_pinned_runs w2) as (w3 & [addr host] & E3 & _). rewrite E3.
  destruct (token_send_runs w3 addr host proof body) as (w4 & resp & E4 & Hn4 & Hd4 & Hr4). rewrite E4.
  rewrite (Hv eq_refl) in Hr4. unfold dr_status. rewrite Hr4. cbn [Ssrf.status].
  change (is_redirection 201) with false. change (is_success 201) with true. cbn iota.
  exists w4. split; [|done]. unfold lift. by rewrite (token_finish_runs resp t Hd4 Hr4 Hparse).
Qed.

Lemma token_request_runs key base auth w t :
  token_response_from_slice ok_body = Ok t →
  ∃ w', send_dpop_token_request_inner fk env f ep key base auth w = (w', Ok t) ∧
    get_nonce (cw_nonces w') (url_origin url) = Some n.
Proof.
  intros Hparse. unfold send_dpop_token_request_inner.
  destruct (token_pinned_runs w) as (w1 & [addr host] & E1 & _).
  destruct (token_form_runs base auth w1) as (w2 & body & E2 & _).
  destruct (make_proof_runs env v ep n nrm ok_body challenge_body clock f url FW key
    (get_nonce (cw_nonces w2) (url_origin url)) w2) as (w3 & proof & E3 & _ & _).
  destruct (token_send_runs w3 addr host proof body) as (w4 & resp & E4 & Hn4 & Hd4 & Hr4).
  unfold mbind, st_bind. rewrite (fw_url _ _ _ _ _ _ _ _ _ _ FW). cbn [map_err lift]. rewrite E1, E2.
  cbn [cached_nonce]. rewrite E3, E4. unfold dr_status. rewrite Hr4. destruct (is_ok _) in Hr4 |- *.
  - cbn. exists w4. split; [|done]. unfold lift. by rewrite (token_finish_runs resp t Hd4 Hr4 Hparse).
  - cbn [Ssrf.status]. change (is_redirection 400) with false. change (is_400_or_401 400) with true. cbn iota.
    destruct (fw_sizes _ _ _ _ _ _ _ _ _ _ FW) as [_ Hs]. unfold lift at 1, read_bounded_json at 1, token_read_body at 1.
    rewrite Hr4, read_single; [|done|by vm_compute]. cbn [map_err mbind result_bind].
    rewrite (fw_challenge _ _ _ _ _ _ _ _ _ _ FW). cbn [result_ok].
    change (is_use_dpop_nonce_error (Some (JObject [("error", JString "use_dpop_nonce")]))) with true. cbn iota.
    by apply token_retry_runs.
Qed.

(** ** The flows *)
Context `{!FormLaws}.

(** The lifetime the server grants fits the clock. *)
Definition lifetime_fits (t : TokenResponse) : Prop :=
  ∀ k, expiry (tr_expires_in t) (e_clock env k) = None → tr_expires_in t = None.

(** The session a grant [t] for the entry [e] makes at [now]. *)
Definition granted_session (e : StoredStateEntry) (t : TokenResponse) (now : Z) : OAuthSession :=
  mkSession (tr_sub t) (tr_access_token t) (tr_refresh_token t) (tr_token_type t) (tr_scope t)
    (expiry (tr_expires_in t) now) (en_dpop_key e) (Some (en_pds_endpoint e)) (Some (en_issuer e))
    (Some (en_token_endpoint e)) now.

Lemma exchange_code_runs cl code e w t :
  cl_filter cl = f → en_token_endpoint e = ep → token_response_from_slice ok_body = Ok t →
  response_for e t → lifetime_fits t →
  ∃ w' k, exchange_code fk env cl code e w = (w', Ok (granted_session e t (e_clock env k))).
Proof.
  intros Hf He Ht Hr Hlife. unfold exchange_code, mbind, st_bind. rewrite form_to_string_ok. cbn [map_err lift].
  unfold send_dpop_token_request. rewrite Hf, He.
  match goal with |- context [send_dpop_token_request_inner fk env f ep ?k ?b ?a w] =>
    destruct (token_request_runs k b a w t Ht) as (w1 & E1 & _) end.
  rewrite E1. rewrite (proj2 (check_token_response_Ok e t) Hr). cbn [into_parts lift now_].
  eexists _, (cw_tick w1). unfold lift. f_equal. apply session_new_Ok.
  split_and!; [apply Hr|apply Hlife|unfold granted_session; by rewrite He].
Qed.

Lemma refresh_runs cl ses rt w t :
  cl_filter cl = f → refresh_token ses = Some rt → ses_token_endpoint ses = Some ep →
  token_response_from_slice ok_body = Ok t → grant_kept ses t →
  ∃ w' k, refresh_session_locked fk env cl ses w =
    (w', Ok (rotate_tokens_with_scope ses (tr_access_token t) (tr_refresh_token t) (tr_expires_in t)
               (tr_scope t) (e_clock env k))).
Proof.
  intros Hf Hrt Hep Ht Hc. unfold refresh_session_locked, mbind, st_bind. rewrite Hrt, Hep.
  cbn [ok_or lift]. rewrite form_to_string_ok. cbn [map_err lift]. unfold send_dpop_token_request. rewrite Hf.
  match goal with |- context [send_dpop_token_request_inner fk env f ep ?k ?b ?a w] =>
    destruct (token_request_runs k b a w t Ht) as (w1 & E1 & _) end.
  rewrite E1, (proj2 (check_refresh_response_Ok ses t) Hc). by eexists _, _.
Qed.

(**  Liveness of the callback: when the redirect names a state whose entry is still live and the
    issuer of that entry, and the entry's token endpoint is served by a server that demands a DPoP
    nonce, verifies proofs and grants a response that answers the login, the callback returns
    exactly the session of that grant, bound to the login's DPoP key, issuer, PDS and token endpoint,
    whatever nonce was cached before; the state is consumed. *)
Theorem callback_succeeds (hash : string → Z) (instants : nat → Z) cl p s e t :
  store_wf hash (cs_store s) → live_entry hash instants s (cb_state p) = Some e →
  callback_for p e (e_clock env (S (cw_tick (cs_cw s)))) →
  cl_filter cl = f → en_token_endpoint e = ep → token_response_from_slice ok_body = Ok t →
  response_for e t → lifetime_fits t →
  ∃ s' k, handle_callback fk hash env instants cl p s = (s', Ok (granted_session e t (e_clock env k))) ∧
    store_lookup hash (cs_store s') (cb_state p) = None.
Proof.
  intros Hwf Hlive Hcb Hf He Ht Hr Hlife.
  destruct (handle_callback_unfold fk hash env instants cl p s Hwf) as (s1 & Hl1 & _ & _ & _ & Htick & E).
  rewrite Hlive in E. rewrite E. unfold on_cw.
  destruct (callback_entry_cases fk env cl p e (cs_cw s1)) as [[_ ->]|(err & w' & _ & _ & _ & Hno)].
  - destruct (exchange_code_runs cl (cb_code p) e (now_ (E := AtprotoOAuthError) env (cs_cw s1)).1 t Hf He Ht Hr Hlife)
      as (w' & k & ->). by eexists _, k.
  - exfalso. apply Hno. by rewrite Htick.
Qed.

(** C28.  Liveness of the refresh: a session with a refresh token whose token endpoint is served by
    such a server, which grants a DPoP token for the session's subject, with a scope (where it names one)
    that has atproto and does not exceed a non-empty scope of the session, is rotated to the tokens of
    that response: the call returns, with the response's access and refresh token and scope, and the
    identity of the session as it was. *)
Theorem refresh_succeeds cl ses rt w t :
  cl_filter cl = f → refresh_token ses = Some rt → ses_token_endpoint ses = Some ep →
  token_response_from_slice ok_body = Ok t →
  tr_sub t = sub ses → tr_sub t ≠ "" → eq_ignore_ascii_case (tr_token_type t) "DPoP" = true →
  (∀ sc, tr_scope t = Some sc → "atproto" ∈ split_whitespace sc ∧
     (default "" (ses_scope ses) ≠ "" → split_whitespace sc ⊆ scope_words (ses_scope ses))) →
  ∃ w' ses', refresh_session_locked fk env cl ses w = (w', Ok ses') ∧
    access_token ses' = tr_access_token t ∧ refresh_token ses' = tr_refresh_token t ∧
    ses_scope ses' = (match tr_scope t with Some sc => Some sc | None => ses_scope ses end) ∧
    same_identity ses ses'.
Proof.
  intros Hf Hrt Hep Ht Hs Hne Hty Hsc.
  destruct (refresh_runs cl ses rt w t Hf Hrt Hep Ht (conj Hs (conj Hne (conj Hty Hsc)))) as (w' & k & ->).
  eexists _, _. split_and!; [done..|]. apply rotate_same_identity.
Qed.
End progress.

(** ** Concrete runs: the server of Par's example grants a session, and a rotation of it. *)
Module ProgressExamples.
#[local] Existing Instances nibble_base64 nibble_laws nibble_alphabet zero_sha2 unit_p256 unit_p256_laws
  plain_subtle plain_subtle_laws ascii_upper_case ascii_upper_laws numbered_json numbered_json_laws numbered_form
  numbered_form_laws HtuExamples.url_example HtuExamples.url_example_laws HtuExamples.url_example_reparse
  DpopExamples.object_serde DpopExamples.object_serde_laws DpopExamples.object_serde_typed
  ParExamples.table_parts.
Definition grant : TokenResponse :=
  mkTokenResponse "at2" "DPoP" (Some 3600) (Some "rt2") (Some "atproto") "did:web:pds.example.com".
#[local] Instance granting : TokenSerde := {| token_response_from_slice := λ _, Ok grant |}.
Definition e0 : @StoredStateEntry unit_p256 :=
  mkEntry "ABAC" "https://app.example/client.json" "ABAC" ParExamples.key0 "https://auth.example.com"
    (Some "did:web:pds.example.com") None "https://app.example/cb" "https://pds.example.com"
    ParExamples.ep "atproto" 1000000000000 300.
Definition cl : @AtprotoOAuthClient unit_p256 :=
  mkClient (metadata_new "https://app.example/client.json" "https://app.example/cb") IdentityExamples.ir
    (mkFilter false) DEFAULT_STATE_TTL.
Definition hash0 (_ : string) : Z := 7.
Definition s0 : @CS HtuExamples.url_example unit_p256 :=
  mkCS ParExamples.w0 (insert_state_sync hash0 store_default "ABAC" e0 DEFAULT_STATE_TTL 0 0).1.
Definition p0 : CallbackParams := mkCallback "code1" "ABAC" (Some "https://auth.example.com/").

Lemma callback_succeeds_witness :
  ∃ s' k, handle_callback SsrfExamples.fst_key hash0 ParExamples.env (λ _, 1) cl p0 s0 =
    (s', Ok (granted_session e0 grant (e_clock ParExamples.env k))).
Proof.
  destruct (callback_succeeds SsrfExamples.fst_key ParExamples.env verifier_new ParExamples.ep "n1"
    "https://example.com/xrpc" ParExamples.ok_body ParExamples.challenge ParExamples.secs ParExamples.f
    ParExamples.url ParExamples.fair hash0 (λ _, 1) cl p0 s0 e0 grant) as (s' & k & E & _).
  - apply insert_state_sync_wf, new_wf.
  - reflexivity.
  - unfold callback_for. split_and!; [reflexivity|reflexivity|]. eexists. split; reflexivity.
  - reflexivity.
  - reflexivity.
  - reflexivity.
  - unfold response_for. split_and!; [reflexivity|discriminate|intros d [= <-]; reflexivity|].
    eexists. split; [reflexivity|]. left.
  - intros k. vm_compute. discriminate.
  - exists s', k. exact E.
Defined.

Definition ses0 : @OAuthSession unit_p256 :=
  mkSession "did:web:pds.example.com" "at1" (Some "rt1") "DPoP" (Some "atproto transition:generic") None
    ParExamples.key0 (Some "https://pds.example.com") (Some "https://auth.example.com") (Some ParExamples.ep) 0.
Lemma refresh_succeeds_witness :
  ∃ w' ses', refresh_session_locked SsrfExamples.fst_key ParExamples.env cl ses0 ParExamples.w0 = (w', Ok ses') ∧
    access_token ses' = "at2".
Proof.
  destruct (refresh_succeeds SsrfExamples.fst_key ParExamples.env verifier_new ParExamples.ep "n1"
    "https://example.com/xrpc" ParExamples.ok_body ParExamples.challenge ParExamples.secs ParExamples.f
    ParExamples.url ParExamples.fair cl ses0 "rt1" ParExamples.w0 grant) as (w' & ses' & E & Ha & _);
    [reflexivity..|discriminate|reflexivity| |].
  - intros sc [= <-]. assert (split_whitespace "atproto" = ["atproto"]) as -> by reflexivity.
    assert (scope_words (ses_scope ses0) = ["atproto"; "transition:generic"]) as -> by reflexivity. set_solver.
  - exists w', ses'. exact (conj E Ha).
Defined.
End ProgressExamples.
