(* ===== verification/SharedRefresh.v ===== *)
(** * SharedRefresh: concurrent refreshes of one session (src/src/client.rs, refresh_shared_session)

    Tasks that share one session and the mutex of its subject, as a step relation: each task reads the
    session, waits for the mutex, reads the session again, and either returns it or refreshes a copy
    and writes the copy back ([move]).  The steps of different tasks interleave in any order; the network
    a refresh runs against is any well-formed one, and the server may exchange the token of a call that
    fails.  A caller may drop a call at any of its awaits: a lock, the request in flight, the write
    lock at the end ([drop_call]).  Only these calls write the session. *)
From S2P Require Import Prelude Errors Strs Externals Instances IpFilter Net Ssrf Fetch Identity Discovery Crypto.
From S2P Require Import Store Nonces Pkce Nsid Htu Dpop Session Exchange Par TokenRequest ClientConfig Client ClientFacts.
From stdpp Require Import relations.
Open Scope Z_scope.

Section shared.
Context (fk : gmap string IpAddr → option string) `{!FirstKeyLaws fk} `{UrlParts} (env : Env).
Context `{Base64} `{Sha2} `{P256} `{SerdeJson} `{UnicodeUpper} `{FormCrate} `{TokenSerde} `{SubtleLaws}.
Context (cl : AtprotoOAuthClient).

(** Where a call of [refresh_shared_session] stands. *)
Inductive Task :=
| TNew
| TWaiting (observed_rt : string)
| THolding (observed_rt : string)
| TRefreshing (observed_rt : string) (working : OAuthSession)
| TWriting (observed_rt : string) (working : OAuthSession)
| TDone (res : result AtprotoOAuthError OAuthSession)
| TDropped.

(** [holder] is the task that has the mutex.  Four ghost fields: [spent] lists the exchanges the server
    made, with the task that submitted the token; [written] the tokens whose exchange reached the
    shared session; [lost] the tokens whose exchange never did, because the call failed or was dropped
    after it; [issued] the refresh tokens the server handed out. *)
Record Sys := mkSys {
  shared_session : OAuthSession;
  holder : option nat;
  tasks : list Task;
  spent : list (nat * string);
  written : list string;
  lost : list string;
  issued : list string
}.

Definition in_section (t : Task) : bool :=
  match t with THolding _ | TRefreshing _ _ | TWriting _ _ => true | _ => false end.

Definition set_task (σ : Sys) (i : nat) (t : Task) (h : option nat) : Sys :=
  mkSys (shared_session σ) h (<[i := t]> (tasks σ)) (spent σ) (written σ) (lost σ) (issued σ).

(** The end of a refresh that did not reach the session.  [x] is what the server did with the token:
    nothing, or an exchange whose grant carried the refresh token [o], if any. *)
Definition abandon (σ : Sys) (i : nat) (rt : string) (t : Task) (x : option (option string)) : Sys :=
  match x with
  | None => set_task σ i t None
  | Some o => mkSys (shared_session σ) None (<[i := t]> (tasks σ)) (spent σ ++ [(i, rt)]) (written σ)
                (lost σ ++ [rt]) (issued σ ++ option_list o)
  end.

(** The server can exchange only what was sent to it. *)
Definition exchangeable (working : OAuthSession) (x : option (option string)) : Prop :=
  is_Some x → ∃ w w' r, resolver_wf (w_resolver (cw_world w)) ∧
    refresh_session_locked fk env cl working w = (w', r) ∧ cw_log w' ≠ cw_log w.

(** A call goes on. *)
Inductive move (σ : Sys) : Sys → Prop :=
| move_observe i :
    tasks σ !! i = Some TNew →
    move σ (set_task σ i match shared_observe (shared_session σ) with
                         | Ok (_, rt) => TWaiting rt
                         | Err e => TDone (Err e)
                         end (holder σ))
| move_lock i rt :
    tasks σ !! i = Some (TWaiting rt) → holder σ = None → move σ (set_task σ i (THolding rt) (Some i))
| move_coalesce i rt :
    tasks σ !! i = Some (THolding rt) → already_rotated rt (shared_session σ) = true →
    move σ (set_task σ i (TDone (Ok (shared_session σ))) None)
| move_copy i rt :
    tasks σ !! i = Some (THolding rt) → already_rotated rt (shared_session σ) = false →
    move σ (set_task σ i (TRefreshing rt (shared_session σ)) (holder σ))
| move_granted i rt working w w' working' :
    tasks σ !! i = Some (TRefreshing rt working) → resolver_wf (w_resolver (cw_world w)) →
    refresh_session_locked fk env cl working w = (w', Ok working') →
    move σ (mkSys (shared_session σ) (holder σ) (<[i := TWriting rt working']> (tasks σ)) (spent σ ++ [(i, rt)])
              (written σ) (lost σ) (issued σ ++ option_list (refresh_token working')))
| move_refused i rt working w w' e x :
    tasks σ !! i = Some (TRefreshing rt working) → resolver_wf (w_resolver (cw_world w)) →
    refresh_session_locked fk env cl working w = (w', Err e) → exchangeable working x →
    move σ (abandon σ i rt (TDone (Err e)) x)
| move_write i rt working :
    tasks σ !! i = Some (TWriting rt working) →
    move σ (mkSys working None (<[i := TDone (Ok working)]> (tasks σ)) (spent σ) (written σ ++ [rt]) (lost σ) (issued σ)).

(** The caller drops the future of a call, which is at an await: one of the two readings of the session,
    the mutex, the request, or the write lock.  The guard of the mutex is dropped with it. *)
Inductive drop_call (σ : Sys) : Sys → Prop :=
| drop_at_lock i t :
    tasks σ !! i = Some t → match t with TNew | TWaiting _ | THolding _ => True | _ => False end →
    drop_call σ (set_task σ i TDropped (if in_section t then None else holder σ))
| drop_in_flight i rt working x :
    tasks σ !! i = Some (TRefreshing rt working) → exchangeable working x →
    drop_call σ (abandon σ i rt TDropped x)
| drop_at_write i rt working :
    tasks σ !! i = Some (TWriting rt working) →
    drop_call σ (mkSys (shared_session σ) None (<[i := TDropped]> (tasks σ)) (spent σ) (written σ) (lost σ ++ [rt]) (issued σ)).

Definition step (σ σ' : Sys) : Prop := move σ σ' ∨ drop_call σ σ'.

Definition initial (s : OAuthSession) (n : nat) : Sys :=
  mkSys s None (replicate n TNew) [] [] [] (option_list (refresh_token s)).

(** ** Termination *)
Definition task_left (t : Task) : nat :=
  match t with TNew => 5 | TWaiting _ => 4 | THolding _ => 3 | TRefreshing _ _ => 2 | TWriting _ _ => 1
  | TDone _ | TDropped => 0 end.
Definition steps_left (σ : Sys) : nat := sum_list_with task_left (tasks σ).
Definition is_done (t : Task) : bool := match t with TDone _ | TDropped => true | _ => false end.
Definition finished (σ : Sys) : Prop := Forall (λ t, is_done t = true) (tasks σ).

Lemma steps_left_insert ts i t t' :
  ts !! i = Some t → (task_left t' < task_left t)%nat →
  (sum_list_with task_left (<[i := t']> ts) < sum_list_with task_left ts)%nat.
Proof.
  revert i. induction ts as [|u ts IH]; intros [|i] E Ht; simpl in *; try done; [injection E as ->; lia|].
  specialize (IH i E Ht). lia.
Qed.

Lemma abandon_tasks σ i rt t x : tasks (abandon σ i rt t x) = <[i := t]> (tasks σ).
Proof. by destruct x. Qed.

Lemma step_decreases σ σ' : step σ σ' → (steps_left σ' < steps_left σ)%nat.
Proof.
  unfold steps_left. intros [[]|[]]; rewrite ?abandon_tasks; simpl; eapply steps_left_insert; try done; simpl; try lia.
  - destruct (shared_observe _) as [[? ?]|?]; simpl; lia.
  - match goal with t : Task |- _ => destruct t; simpl in *; done || lia end.
Qed.

Lemma nsteps_bound n σ σ' : nsteps step n σ σ' → (n + steps_left σ' ≤ steps_left σ)%nat.
Proof. induction 1 as [|n σ1 σ2 σ3 Hs _ IH]; [lia|]. apply step_decreases in Hs. lia. Qed.

(** ** The invariant *)
Definition no_writer (σ : Sys) : Prop := ∀ i rt s, tasks σ !! i ≠ Some (TWriting rt s).

(** The session as the last granted refresh left it, a copy being written or the shared one, with the
    token whose exchange is being written. *)
Definition latest (σ : Sys) (s : OAuthSession) (pending : list string) : Prop :=
  (∃ i rt, tasks σ !! i = Some (TWriting rt s) ∧ pending = [rt]) ∨ (no_writer σ ∧ s = shared_session σ ∧ pending = []).

(** Every exchange was written, is being written, or was lost; and the tokens of the first two kinds,
    with the token of the session, are different hand-outs of the server. *)
Definition accounted (σ : Sys) (s : OAuthSession) (pending : list string) : Prop :=
  (spent σ).*2 ≡ₚ written σ ++ pending ++ lost σ ∧
  written σ ++ pending ++ option_list (refresh_token s) ⊆+ issued σ.

Record inv (s0 : OAuthSession) (σ : Sys) : Prop := {
  inv_mutex i t : tasks σ !! i = Some t → in_section t = true ↔ holder σ = Some i;
  inv_holder i : holder σ = Some i → is_Some (tasks σ !! i);
  inv_copy i rt s : tasks σ !! i = Some (TRefreshing rt s) →
    s = shared_session σ ∧ already_rotated rt s = false;
  inv_tokens : ∃ s pending, latest σ s pending ∧ accounted σ s pending;
  inv_identity : same_identity s0 (shared_session σ);
  inv_written i rt s : tasks σ !! i = Some (TWriting rt s) →
    same_identity s0 s ∧ refresh_token (shared_session σ) = Some rt;
  inv_done i s : tasks σ !! i = Some (TDone (Ok s)) → same_identity s0 s
}.

Lemma initial_inv s n : inv s (initial s n).
Proof.
  assert (∀ i t, replicate n TNew !! i = Some t → t = TNew) as Hnew.
  { intros i t [-> _]%lookup_replicate. done. }
  split; simpl; try (intros i *; intros E%Hnew; try done; by subst); try done.
  exists s, []. split; [|done]. right. split; [|done]. intros i rt s' E%Hnew. done.
Qed.

Lemma nodup_handed_out (l k : list string) : NoDup k → l ⊆+ k → NoDup l.
Proof. intros Hk [r Hr]%submseteq_Permutation. rewrite Hr in Hk. by apply NoDup_app in Hk as [? _]. Qed.

(** Tasks outside the one that moves. *)
Ltac other_task := rewrite list_lookup_insert_Some; intros [(<- & Heq & _)|[? ?]].

Definition is_writing (t : Task) : bool := match t with TWriting _ _ => true | _ => false end.

Lemma no_writer_set σ i t h :
  no_writer σ → is_writing t = false → no_writer (set_task σ i t h).
Proof.
  intros Hno Ht j rt s'. simpl. rewrite list_lookup_insert_Some. intros [(_ & -> & _)|[_ Hj]]; [done|]. by eapply Hno.
Qed.

(** A move of task [i] that neither begins nor ends a write and changes no ghost field. *)
Lemma inv_move s0 σ i t t' h :
  inv s0 σ → tasks σ !! i = Some t → is_writing t = false → is_writing t' = false →
  (in_section t' = true ↔ h = Some i) → (∀ j, j ≠ i → h = Some j ↔ holder σ = Some j) →
  (∀ rt s, t' = TRefreshing rt s → s = shared_session σ ∧ already_rotated rt s = false) →
  (∀ s, t' = TDone (Ok s) → same_identity s0 s) →
  inv s0 (set_task σ i t' h).
Proof.
  intros I Hi Ht Ht' Hh Hother Hcopy Hdone. split; simpl.
  - intros j u. other_task; [by subst|]. rewrite Hother by done. by eapply inv_mutex.
  - intros j Hj. destruct (decide (j = i)) as [->|Hne].
    + rewrite list_lookup_insert_eq; [done|]. by eapply lookup_lt_Some.
    + rewrite list_lookup_insert_ne by done. eapply inv_holder; [done|]. by apply Hother.
  - intros j rt s. other_task; [by eapply Hcopy|by eapply inv_copy].
  - destruct (inv_tokens _ _ I) as (s & p & Hl & E). exists s, p. split; [|done].
    destruct Hl as [(j & rt & Hj & ->)|(Hno & -> & ->)].
    + left. exists j, rt. split; [|done]. simpl. rewrite list_lookup_insert_ne; [done|]. intros ->.
      rewrite Hi in Hj. by injection Hj as ->.
    + right. split; [by apply no_writer_set|done].
  - apply I.
  - intros j rt s. other_task; [by subst|by eapply inv_written].
  - intros j s. other_task; [by apply Hdone|by eapply inv_done].
Qed.

(** Only the holder is in the critical section. *)
Lemma inv_alone s0 σ i t j u :
  inv s0 σ → tasks σ !! i = Some t → in_section t = true → tasks σ !! j = Some u → in_section u = true → i = j.
Proof.
  intros I Hi Ht Hj Hu. apply (inv_mutex _ _ I i t Hi) in Ht. apply (inv_mutex _ _ I j u Hj) in Hu. congruence.
Qed.

Lemma inv_holds s0 σ i t : inv s0 σ → tasks σ !! i = Some t → in_section t = true → holder σ = Some i.
Proof. intros I Hi Ht. by apply (inv_mutex _ _ I i t Hi). Qed.

(** The holder leaves: nobody else held the mutex. *)
Lemma release_other s0 σ i t j :
  inv s0 σ → tasks σ !! i = Some t → in_section t = true → j ≠ i → None = Some j ↔ holder σ = Some j.
Proof. intros I Hi Ht Hj. rewrite (inv_holds _ _ _ _ I Hi Ht). split; congruence. Qed.

(** The holder finishes or is dropped, whatever it leaves in the session and in the ghost fields. *)
Lemma inv_leave s0 σ i t t' sh sp wr lo iss :
  inv s0 σ → tasks σ !! i = Some t → in_section t = true → is_done t' = true →
  same_identity s0 sh → (∀ s, t' = TDone (Ok s) → same_identity s0 s) →
  sp.*2 ≡ₚ wr ++ lo → wr ++ option_list (refresh_token sh) ⊆+ iss →
  inv s0 (mkSys sh None (<[i := t']> (tasks σ)) sp wr lo iss).
Proof.
  intros I Hi Ht Ht' Hid Hdone Hsp Hiss.
  assert (∀ j u, tasks σ !! j = Some u → i ≠ j → in_section u = false) as Hothers.
  { intros j u Hj Hne. apply not_true_iff_false. intros Hu. apply Hne. by eapply inv_alone. }
  assert (∀ u, is_done u = true → in_section u = false) as Hout by (by intros []).
  split; simpl.
  - intros j u. other_task; [subst; by rewrite Hout|]. by rewrite (Hothers j u).
  - done.
  - intros j rt s. other_task; [by subst|]. by specialize (Hothers j (TRefreshing rt s) ltac:(done) ltac:(done)).
  - exists sh, []. split; [|done]. right. split; [|done]. intros j rt s. simpl. other_task; [by subst|].
    by specialize (Hothers j (TWriting rt s) ltac:(done) ltac:(done)).
  - done.
  - intros j rt s. other_task; [by subst|]. by specialize (Hothers j (TWriting rt s) ltac:(done) ltac:(done)).
  - intros j s. other_task; [by apply Hdone|by eapply inv_done].
Qed.

Lemma refresh_granted s w w' s' :
  resolver_wf (w_resolver (cw_world w)) → refresh_session_locked fk env cl s w = (w', Ok s') →
  same_identity s s' ∧ is_Some (refresh_token s).
Proof.
  intros Hw E. destruct (refresh_disciplined fk env cl s w Hw) as (l & _ & _ & HQ). rewrite E in HQ.
  destruct (HQ s' eq_refl) as [[? _] _]. split; [done|]. unfold refresh_session_locked in E.
  apply st_bind_Ok in E as (? & rt & E & _). apply lift_Ok in E as [_ E%ok_or_Ok]. by rewrite E.
Qed.

(** What was exchanged was the token of the copy. *)
Lemma exchanged_token s x : exchangeable s x → is_Some x → is_Some (refresh_token s).
Proof.
  intros Hx Hs. destruct (Hx Hs) as (w & w' & r & _ & E & Hne). destruct (refresh_token s) as [rt|] eqn:Er; [by eexists|].
  unfold refresh_session_locked in E. rewrite Er in E. by injection E as <- _.
Qed.

(** A task refreshes with the token it observed. *)
Lemma observed_current s0 σ i rt s :
  inv s0 σ → tasks σ !! i = Some (TRefreshing rt s) → is_Some (refresh_token s) → refresh_token s = Some rt.
Proof.
  intros I Hi [cur E]. destruct (inv_copy _ _ I i rt s Hi) as [_ Hr]. unfold already_rotated in Hr. rewrite E in Hr.
  rewrite negb_false_iff, constant_time_eq_spec in Hr. apply as_bytes_inj in Hr. congruence.
Qed.

Lemma same_identity_trans s1 s2 s3 : same_identity s1 s2 → same_identity s2 s3 → same_identity s1 s3.
Proof. unfold same_identity. intuition congruence. Qed.

(** While a task is in the section without writing, the latest session is the shared one. *)
Lemma section_accounted s0 σ i t :
  inv s0 σ → tasks σ !! i = Some t → in_section t = true → is_writing t = false →
  no_writer σ ∧ accounted σ (shared_session σ) [].
Proof.
  intros I Hi Ht Hw. assert (no_writer σ) as Hno.
  { intros j rt s Hj. assert (i = j) as <- by (by eapply inv_alone). rewrite Hi in Hj. by injection Hj as ->. }
  split; [done|]. destruct (inv_tokens _ _ I) as (s & p & [(j & rt & Hj & _)|(_ & -> & ->)] & E); [by apply Hno in Hj|done].
Qed.

Lemma writing_accounted s0 σ i rt s :
  inv s0 σ → tasks σ !! i = Some (TWriting rt s) → accounted σ s [rt].
Proof.
  intros I Hi. destruct (inv_tokens _ _ I) as (s' & p & [(j & rt' & Hj & ->)|(Hno & _)] & E); [|by apply Hno in Hi].
  assert (i = j) as <- by (by eapply inv_alone). rewrite Hi in Hj. by injection Hj as -> ->.
Qed.

Lemma granted_inv s0 σ i rt s w w' s' :
  inv s0 σ → tasks σ !! i = Some (TRefreshing rt s) → resolver_wf (w_resolver (cw_world w)) →
  refresh_session_locked fk env cl s w = (w', Ok s') →
  inv s0 (mkSys (shared_session σ) (holder σ) (<[i := TWriting rt s']> (tasks σ)) (spent σ ++ [(i, rt)])
            (written σ) (lost σ) (issued σ ++ option_list (refresh_token s'))).
Proof.
  intros I Hi Hw E. destruct (refresh_granted _ _ _ _ Hw E) as [Hid Hsome].
  pose proof (observed_current _ _ _ _ _ I Hi Hsome) as Hrt.
  destruct (section_accounted _ _ _ _ I Hi eq_refl eq_refl) as [Hno [Hsp Hiss]].
  destruct (inv_copy _ _ I i rt s Hi) as [-> _]. pose proof (lookup_lt_Some _ _ _ Hi) as Hlt.
  pose proof (same_identity_trans _ _ _ (inv_identity _ _ I) Hid) as Hid'. split; simpl.
  - intros j u. other_task; [|by eapply inv_mutex]. subst. by rewrite (inv_holds _ _ _ _ I Hi eq_refl).
  - intros j Hj. destruct (decide (j = i)) as [->|Hne]; [by rewrite list_lookup_insert_eq|].
    rewrite list_lookup_insert_ne by done. by eapply inv_holder.
  - intros j rt' u. other_task; [done|by eapply inv_copy].
  - exists s', [rt]. split; [left; exists i, rt; simpl; by rewrite list_lookup_insert_eq|]. split; simpl.
    + rewrite fmap_app, Hsp. simpl. by rewrite <-Permutation_cons_append, <-Permutation_middle.
    + rewrite Hrt in Hiss. simpl in Hiss. rewrite (cons_middle rt), app_assoc. by apply submseteq_app.
  - apply I.
  - intros j rt' u. other_task; [by injection Heq as <- <-|by eapply inv_written].
  - intros j u. other_task; [done|by eapply inv_done].
Qed.

(** A refresh that did not reach the session, whatever the server did. *)
Lemma abandon_inv s0 σ i rt s t x :
  inv s0 σ → tasks σ !! i = Some (TRefreshing rt s) → exchangeable s x → is_done t = true →
  (∀ s', t = TDone (Ok s') → same_identity s0 s') → inv s0 (abandon σ i rt t x).
Proof.
  intros I Hi Hx Ht Hdone. destruct (section_accounted _ _ _ _ I Hi eq_refl eq_refl) as [_ [Hsp Hiss]].
  pose proof (inv_identity _ _ I). destruct x as [o|]; simpl.
  - eapply inv_leave; try done.
    + rewrite fmap_app, Hsp. simpl. by rewrite app_assoc.
    + by apply submseteq_inserts_r.
  - eapply inv_leave; try done.
Qed.

Lemma move_inv s0 σ σ' : inv s0 σ → move σ σ' → inv s0 σ'.
Proof.
  intros I [i Hi|i rt Hi Hh|i rt Hi Hr|i rt Hi Hr|i rt s w w' s' Hi Hw E|i rt s w w' e x Hi Hw E Hx|i rt s Hi].
  - eapply inv_move; try done; destruct (shared_observe _) as [[? ?]|?]; try done;
      simpl; by rewrite <-(inv_mutex _ _ I i TNew Hi).
  - eapply inv_move; try done. rewrite Hh. split; congruence.
  - eapply inv_move; try done; [by intros; eapply release_other|]. intros s [= <-]. apply I.
  - eapply inv_move; try done; [by rewrite (inv_holds _ _ _ _ I Hi eq_refl)|]. by intros ? ? [= <- <-].
  - by eapply granted_inv.
  - by eapply abandon_inv.
  - destruct (writing_accounted _ _ _ _ _ I Hi) as [Hsp Hiss]. destruct (inv_written _ _ I _ _ _ Hi) as [Hid _].
    eapply inv_leave; try done; [by intros ? [= <-]|by rewrite <-app_assoc|by rewrite <-app_assoc].
Qed.

Lemma drop_inv s0 σ σ' : inv s0 σ → drop_call σ σ' → inv s0 σ'.
Proof.
  intros I [i t Hi Ht|i rt s x Hi Hx|i rt s Hi].
  - eapply inv_move; try done; destruct t; try done; simpl; intros; try by eapply release_other.
    all: by rewrite <-(inv_mutex _ _ I i _ Hi).
  - by eapply abandon_inv.
  - destruct (writing_accounted _ _ _ _ _ I Hi) as [Hsp Hiss]. destruct (inv_written _ _ I _ _ _ Hi) as [_ Hrt].
    eapply inv_leave; try done; [apply I| |].
    + rewrite Hsp. simpl. by rewrite <-Permutation_cons_append.
    + rewrite Hrt. simpl. etrans; [|exact Hiss]. apply submseteq_app; [done|]. apply submseteq_skip, submseteq_nil_l.
Qed.

Lemma step_inv s0 σ σ' : inv s0 σ → step σ σ' → inv s0 σ'.
Proof. intros I [?|?]; [by eapply move_inv|by eapply drop_inv]. Qed.

Lemma reachable_inv s n σ : rtc step (initial s n) σ → inv s σ.
Proof.
  intros Hr. remember (initial s n) as σ0 eqn:E. assert (inv s σ0) as I by (subst; apply initial_inv). clear E.
  induction Hr as [|σ1 σ2 σ3 Hs _ IH]; [done|]. apply IH. by eapply step_inv.
Qed.

(** When the grant came without a new refresh token, the session has none, and a task that waited is
    not handed the refreshed session: it fails. *)
Lemma waiter_without_token rt s w :
  refresh_token s = None →
  already_rotated rt s = false ∧
  refresh_session_locked fk env cl s w = (w, Err (AtprotoOAuthError_Token TokenError_MissingRefreshToken)).
Proof. intros E. unfold already_rotated, refresh_session_locked. by rewrite E. Qed.

(** A lost exchange makes another call submit the exchanged token again.  Whatever lost it (an answer the
    client rejected or never got, a call dropped in flight or at the write lock), a task that waits
    having observed the same token finds it unchanged, and refreshes with it. *)
Lemma lost_grant_resubmitted s n σ σ' j rt :
  rtc step (initial s n) σ → tasks σ !! j = Some (TWaiting rt) → step σ σ' → lost σ' = lost σ ++ [rt] →
  ∃ σ'', rtc move σ' σ'' ∧ tasks σ'' !! j = Some (TRefreshing rt (shared_session σ'')) ∧
    refresh_token (shared_session σ'') = Some rt ∧ rt ∈ (spent σ'').*2.
Proof.
  intros Hr Hj Hst Hl. pose proof (reachable_inv _ _ _ Hr) as I.
  assert (lost σ ≠ lost σ ++ [rt]) as Hgrow.
  { intros E. apply (f_equal length) in E. rewrite length_app in E. simpl in E. lia. }
  assert (holder σ' = None ∧ tasks σ' !! j = Some (TWaiting rt) ∧ refresh_token (shared_session σ') = Some rt ∧
    rt ∈ (spent σ').*2) as (Hh & Hj' & Hrt & Hin).
  { assert (∀ i t rt' u x, tasks σ !! i = Some (TRefreshing rt' u) → exchangeable u x → lost (abandon σ i rt' t x) = lost σ ++ [rt] →
      holder (abandon σ i rt' t x) = None ∧ tasks (abandon σ i rt' t x) !! j = Some (TWaiting rt) ∧
      refresh_token (shared_session (abandon σ i rt' t x)) = Some rt ∧ rt ∈ (spent (abandon σ i rt' t x)).*2) as Hab.
    { intros i t rt' u x Hi Hx E. destruct x as [o|]; [|by apply Hgrow in E]. simpl in *. apply app_inv_head in E as [= ->].
      destruct (inv_copy _ _ I i rt u Hi) as [-> _].
      rewrite list_lookup_insert_ne by (intros ->; congruence). split_and!; [done..| |].
      - eapply observed_current; [exact I|exact Hi|]. by eapply exchanged_token.
      - rewrite fmap_app. set_solver. }
    revert Hl. destruct Hst as [[]|[]]; cbn [lost set_task]; intros Hl; try (by apply Hgrow in Hl); [by eapply Hab..|].
    match goal with Hi : tasks σ !! ?i = Some (TWriting ?r ?u) |- _ => rename Hi into Hw end.
    apply app_inv_head in Hl as [= ->]. destruct (inv_written _ _ I _ _ _ Hw) as [_ Hrt].
    destruct (writing_accounted _ _ _ _ _ I Hw) as [Hsp _]. simpl.
    rewrite list_lookup_insert_ne by (intros ->; congruence). split_and!; [done..|]. rewrite Hsp. set_solver. }
  assert (already_rotated rt (shared_session σ') = false) as Hnr.
  { unfold already_rotated. rewrite Hrt, negb_false_iff. by apply constant_time_eq_spec. }
  pose proof (lookup_lt_Some _ _ _ Hj') as Hlt. eexists. split.
  - eapply rtc_l; [by apply (move_lock _ j rt)|].
    eapply rtc_l; [apply (move_copy _ j rt); [|exact Hnr]|apply rtc_refl].
    simpl. by rewrite list_lookup_insert_eq.
  - simpl. rewrite list_lookup_insert_eq by (by rewrite !length_insert). done.
Qed.

(** ** Progress *)
Lemma section_moves σ i t : tasks σ !! i = Some t → in_section t = true → ∃ σ', move σ σ'.
Proof.
  intros Hi Ht. destruct t as [| |rt|rt s|rt s| |]; try done.
  - destruct (already_rotated rt (shared_session σ)) eqn:E; eexists; [by eapply move_coalesce|by eapply move_copy].
  - set (w := mkCW (mkWorld (resolver_new false) 0 [] []) nonce_cache_new 0 []).
    destruct (refresh_session_locked fk env cl s w) as [w' [s'|e]] eqn:E; eexists;
      [eapply move_granted|eapply (move_refused _ _ _ _ _ _ _ None)]; try done; try apply resolver_new_wf. by intros [].
  - eexists. by eapply move_write.
Qed.

Lemma unfinished_moves s0 σ : inv s0 σ → ¬ finished σ → ∃ σ', move σ σ'.
Proof.
  intros I Hn. unfold finished in Hn. apply (not_Forall_Exists _) in Hn.
  apply Exists_exists in Hn as (t & (i & Hi)%list_elem_of_lookup & Ht).
  destruct (holder σ) as [j|] eqn:Eh.
  - destruct (inv_holder _ _ I j Eh) as [u Hj]. eapply section_moves; [exact Hj|]. by apply (inv_mutex _ _ I j u Hj).
  - destruct (in_section t) eqn:Es; [by eapply section_moves|]. destruct t; try done;
      [eexists; by eapply move_observe|eexists; by eapply move_lock|by destruct Ht..].
Qed.

(** ** Properties *)

(** C4. Concurrent refreshes do not reuse a refresh token whose exchange reached the session.  In every
    interleaving of any number of tasks that call [refresh_shared_session] on one session under one
    mutex, any of which may fail, or be dropped at any of its awaits, with the server free to have
    exchanged the token: at most one task is past the mutex; a task that refreshes works on the session
    as it then is, with the token it observed; a session returned has the identity of the first one; and
    if the server hands out no refresh token twice, the token a task refreshes with is not one whose
    exchange was written to the session, and was exchanged before only if that exchange was lost (its
    call failed or was dropped after it).  So as long as no exchange is lost, no refresh token is
    exchanged twice.  ([lost_grant_resubmitted]: after a lost exchange it is.) *)
Theorem refresh_token_not_reused s n σ :
  rtc step (initial s n) σ → NoDup (issued σ) →
  (∀ i j t u, tasks σ !! i = Some t → tasks σ !! j = Some u → in_section t = true → in_section u = true → i = j) ∧
  (∀ i rt working, tasks σ !! i = Some (TRefreshing rt working) →
     working = shared_session σ ∧
     ∀ cur, refresh_token working = Some cur → cur = rt ∧ (cur ∉ written σ) ∧ (cur ∈ (spent σ).*2 → cur ∈ lost σ)) ∧
  (∀ i rt, (i, rt) ∈ spent σ → rt ∈ written σ ∨ rt ∈ lost σ ∨ ∃ j s', tasks σ !! j = Some (TWriting rt s')) ∧
  (lost σ = [] → NoDup (spent σ).*2) ∧
  (∀ i s', tasks σ !! i = Some (TDone (Ok s')) → same_identity s s').
Proof.
  intros Hr Hnd. apply reachable_inv in Hr as I. destruct (inv_tokens _ _ I) as (s' & p & Hl & Hsp & Hiss).
  pose proof (nodup_handed_out _ _ Hnd Hiss) as Hnd'. split_and!.
  - intros. by eapply inv_alone.
  - intros i rt working Hi. destruct (inv_copy _ _ I i rt working Hi) as [Hc _]. split; [done|]. intros cur Hcur.
    pose proof (observed_current _ _ _ _ _ I Hi ltac:(by rewrite Hcur)) as Hrt. split; [congruence|].
    destruct (section_accounted _ _ _ _ I Hi eq_refl eq_refl) as [_ [Hsp' Hiss']]. rewrite <-Hc, Hcur in Hiss'.
    pose proof (nodup_handed_out _ _ Hnd Hiss') as (_ & Hd & _)%NoDup_app.
    assert (cur ∉ written σ) as Hnw by (intros Hin; apply (Hd cur Hin); set_solver).
    split; [done|]. rewrite Hsp'. set_solver.
  - intros i rt Hin. assert (rt ∈ (spent σ).*2) as Hin' by (apply list_elem_of_fmap; by exists (i, rt)).
    rewrite Hsp, !elem_of_app in Hin'. destruct Hin' as [?|[Hp|?]]; [by left| |by right; left]. right. right.
    destruct Hl as [(j & rt' & Hj & ->)|(_ & _ & ->)]; [|set_solver].
    apply list_elem_of_singleton in Hp as ->. by exists j, s'.
  - intros El. rewrite Hsp, El, app_nil_r. rewrite app_assoc in Hnd'. by apply NoDup_app in Hnd' as [? _].
  - intros. by eapply inv_done.
Qed.

(** C22. Every call returns: [n] concurrent calls of [refresh_shared_session] take at most [5 * n]
    steps together, in every interleaving, and an interleaving in which no call can go on by itself has
    finished every call that was not dropped and left the mutex free, so none of them deadlocks, wherever
    others fail or are dropped. *)
Theorem refresh_shared_terminates s n :
  (∀ k σ, nsteps step k (initial s n) σ → (k ≤ 5 * n)%nat) ∧
  (∀ σ, rtc step (initial s n) σ → (∀ σ', ¬ move σ σ') →
     Forall (λ t, t = TDropped ∨ ∃ res, t = TDone res) (tasks σ) ∧ holder σ = None).
Proof.
  split.
  - intros k σ Hk%nsteps_bound. assert (steps_left (initial s n) = 5 * n)%nat as E; [|lia].
    unfold steps_left, initial. simpl. clear. induction n as [|n IH]; simpl; lia.
  - intros σ Hr Hstuck. apply reachable_inv in Hr as I.
    assert (finished σ) as Hf.
    { destruct (decide (finished σ)) as [|Hn]; [done|]. destruct (unfinished_moves _ _ I Hn) as [σ' Hs]. by apply Hstuck in Hs. }
    split; [eapply Forall_impl; [exact Hf|]; intros []; naive_solver|].
    destruct (holder σ) as [i|] eqn:Eh; [|done]. destruct (inv_holder _ _ I i Eh) as [t Hi].
    apply (inv_mutex _ _ I i t Hi) in Eh. unfold finished in Hf. rewrite Forall_lookup in Hf. apply Hf in Hi. by destruct t.
Qed.
End shared.

(** ** A concrete run: two tasks observe one expired session, one refreshes it *)
Module SharedExamples.
Import ClientExamples.
#[local] Existing Instances nibble_base64 zero_sha2 unit_p256 plain_subtle plain_subtle_laws ascii_upper_case numbered_json numbered_form
  IdentityExamples.bare_urls DiscoveryExamples.bare_parts fixed_tokens SsrfExamples.fst_key_laws.
Definition ses1 : @OAuthSession unit_p256 :=
  mkSession "did:web:pds.example.com" "at2" (Some "rt2") "DPoP" (Some "atproto") (Some 4600000000000) key0
    (Some "https://pds.example.com") (Some "https://auth.example.com") (Some "https://auth.example.com/token") 0.
Lemma rotated_snd : snd rotated = Ok ses1.
Proof. vm_compute. reflexivity. Qed.
Lemma rotated_ok : rotated = (fst rotated, Ok ses1).
Proof. exact (eq_trans (surjective_pairing rotated) (f_equal (pair (fst rotated)) rotated_snd)). Qed.
Abbreviation step0 := (step SsrfExamples.fst_key env cl).
Abbreviation move0 := (move SsrfExamples.fst_key env cl).
Definition final : @Sys unit_p256 :=
  mkSys ses1 None [TDone (Ok ses1); TDone (Ok ses1)] [(0%nat, "rt1")] ["rt1"] [] ["rt1"; "rt2"].

Lemma two_tasks : rtc step0 (initial ses0 2) final.
Proof.
  eapply rtc_l; [left; apply (move_observe _ _ _ _ 0); reflexivity|]. cbn.
  eapply rtc_l; [left; apply (move_observe _ _ _ _ 1); reflexivity|]. cbn.
  eapply rtc_l; [left; eapply (move_lock _ _ _ _ 0); reflexivity|]. cbn.
  eapply rtc_l; [left; eapply (move_copy _ _ _ _ 0); reflexivity|]. cbn.
  eapply rtc_l; [left; eapply (move_granted _ _ _ _ 0 _ _ w1); [reflexivity|apply resolver_new_wf|exact rotated_ok]|]. cbn.
  eapply rtc_l; [left; eapply (move_write _ _ _ _ 0); reflexivity|]. cbn.
  eapply rtc_l; [left; eapply (move_lock _ _ _ _ 1); reflexivity|]. cbn.
  eapply rtc_l; [left; eapply (move_coalesce _ _ _ _ 1); reflexivity|]. cbn. apply rtc_refl.
Qed.

Lemma refresh_token_not_reused_witness : rtc step0 (initial ses0 2) final ∧ NoDup (spent final).*2.
Proof.
  split; [exact two_tasks|].
  refine (proj1 (proj2 (proj2 (proj2 (refresh_token_not_reused SsrfExamples.fst_key env cl ses0 2 final two_tasks _)))) eq_refl).
  apply NoDup_ListNoDup. repeat constructor; simpl; intros Hin; intuition discriminate.
Defined.

(** The first task is granted and dropped at the write lock; the second submits the same token. *)
Definition resubmitting : @Sys unit_p256 :=
  mkSys ses0 (Some 1%nat) [TDropped; TRefreshing "rt1" ses0] [(0%nat, "rt1")] [] ["rt1"] ["rt1"; "rt2"].
Example dropped_at_write : rtc step0 (initial ses0 2) resubmitting.
Proof.
  eapply rtc_l; [left; apply (move_observe _ _ _ _ 0); reflexivity|]. cbn.
  eapply rtc_l; [left; apply (move_observe _ _ _ _ 1); reflexivity|]. cbn.
  eapply rtc_l; [left; eapply (move_lock _ _ _ _ 0); reflexivity|]. cbn.
  eapply rtc_l; [left; eapply (move_copy _ _ _ _ 0); reflexivity|]. cbn.
  eapply rtc_l; [left; eapply (move_granted _ _ _ _ 0 _ _ w1); [reflexivity|apply resolver_new_wf|exact rotated_ok]|]. cbn.
  eapply rtc_l; [right; eapply (drop_at_write _ _ _ _ 0); reflexivity|]. cbn.
  eapply rtc_l; [left; eapply (move_lock _ _ _ _ 1); reflexivity|]. cbn.
  eapply rtc_l; [left; eapply (move_copy _ _ _ _ 1); reflexivity|]. cbn. apply rtc_refl.
Qed.

Lemma refresh_shared_terminates_witness :
  rtc step0 (initial ses0 2) final ∧ (∀ k σ, nsteps step0 k (initial ses0 2) σ → (k ≤ 10)%nat) ∧ holder final = None.
Proof.
  split; [exact two_tasks|]. split; [exact (proj1 (refresh_shared_terminates SsrfExamples.fst_key env cl ses0 2))|].
  refine (proj2 (proj2 (refresh_shared_terminates SsrfExamples.fst_key env cl ses0 2) final two_tasks _)).
  intros σ' Hm. unfold final in Hm.
  inversion Hm; subst; simpl in *;
    match goal with Hi : _ !! ?i = Some _ |- _ => destruct i as [|[|i]]; simpl in Hi; discriminate Hi end.
Defined.
End SharedExamples.
