(* ===== verification/Callbacks.v ===== *)
(** * Callbacks: concurrent and cancelled callbacks (src/src/client.rs, handle_callback)

    Any number of [handle_callback] calls on one client, as a step relation over the state store they
    share with everything else: other tasks log in, prune, look up, clear and take in between, in any
    order.  A call is the critical section that takes its state, and then, without the store, the
    checks and the code exchange against any network.  The caller may drop the future of a call at
    any [await]: before the take ([cstep_drop_early]), or in flight, when only a prefix of what the
    exchange would send has been sent ([cstep_drop]). *)
From S2P Require Import Prelude Errors Strs Externals Instances IpFilter Net Ssrf Fetch Identity Discovery Crypto.
From S2P Require Import Store Nonces Pkce Nsid Htu Dpop Session Exchange Par TokenRequest ClientConfig Client ClientFacts.
From stdpp Require Import relations.
Open Scope Z_scope.

Section callback_race.
Context (fk : gmap string IpAddr → option string) `{!FirstKeyLaws fk} `{UrlParts} (hash : string → Z) (env : Env).
Context `{Base64} `{Sha2} `{P256} `{SerdeJson} `{UnicodeUpper} `{FormCrate} `{TokenSerde}.
Context (cl : AtprotoOAuthClient).

(** Where a call stands. *)
Inductive Call :=
| CNew
| CTaken (e : StoredStateEntry)
| CDone (res : result AtprotoOAuthError OAuthSession)
| CDropped.

(** [parameters] are those of the calls, by index.  Ghost fields: [inserted] lists the successful
    insertions into the store, [redeemed] the calls that took an entry, [exchanged] what each call
    that came to an end had sent. *)
Record CSys := mkCSys {
  c_store : OAuthStateStore StoredStateEntry;
  calls : list Call;
  inserted : list (string * StoredStateEntry);
  redeemed : list (nat * (string * StoredStateEntry));
  exchanged : list (nat * list Xch)
}.

Definition recorded_insert (op : store_op StoredStateEntry) (out : store_out StoredStateEntry)
    : list (string * StoredStateEntry) :=
  match op, out with OpInsert k e _ _ _, OutInsert (Ok _) => [(k, e)] | _, _ => [] end.

(** The first critical section of a call: [take_state], then the entry or the error. *)
Definition after_take (p : CallbackParams) (taken : option StoredStateEntry) : Call :=
  match taken with Some e => CTaken e | None => CDone (Err (unknown_state (cb_state p))) end.

Inductive cstep (parameters : list CallbackParams) (σ : CSys) : CSys → Prop :=
| cstep_other op :
    cstep parameters σ
      (mkCSys (store_step hash (c_store σ) op).1 (calls σ)
         (inserted σ ++ recorded_insert op (store_step hash (c_store σ) op).2) (redeemed σ) (exchanged σ))
| cstep_take i p now store taken :
    calls σ !! i = Some CNew → parameters !! i = Some p →
    take_state_sync hash (c_store σ) (cb_state p) now = (store, taken) →
    cstep parameters σ
      (mkCSys store (<[i := after_take p taken]> (calls σ)) (inserted σ)
         (redeemed σ ++ match taken with Some e => [(i, (cb_state p, e))] | None => [] end) (exchanged σ))
| cstep_finish i p e w w' res l :
    calls σ !! i = Some (CTaken e) → parameters !! i = Some p → resolver_wf (w_resolver (cw_world w)) →
    handle_callback_with_entry fk env cl p e w = (w', res) → cw_log w' = cw_log w ++ l →
    cstep parameters σ
      (mkCSys (c_store σ) (<[i := CDone res]> (calls σ)) (inserted σ) (redeemed σ) (exchanged σ ++ [(i, l)]))
| cstep_drop_early i :
    calls σ !! i = Some CNew →
    cstep parameters σ (mkCSys (c_store σ) (<[i := CDropped]> (calls σ)) (inserted σ) (redeemed σ) (exchanged σ))
| cstep_drop i p e w w' res l sent :
    calls σ !! i = Some (CTaken e) → parameters !! i = Some p → resolver_wf (w_resolver (cw_world w)) →
    handle_callback_with_entry fk env cl p e w = (w', res) → cw_log w' = cw_log w ++ l → sent `prefix_of` l →
    cstep parameters σ
      (mkCSys (c_store σ) (<[i := CDropped]> (calls σ)) (inserted σ) (redeemed σ) (exchanged σ ++ [(i, sent)])).

Definition cinitial (ttl : Z) (n : nat) : CSys := mkCSys (Store.new ttl) (replicate n CNew) [] [] [].

(** ** Counting *)
Definition times (k : string) (l : list string) : nat := length (filter (λ x, x = k) l).
Lemma times_app k l1 l2 : times k (l1 ++ l2) = (times k l1 + times k l2)%nat.
Proof. unfold times. by rewrite filter_app, length_app. Qed.
Lemma times_elem k l : k ∈ l → (1 ≤ times k l)%nat.
Proof.
  intros Hk. unfold times. destruct (filter (λ x, x = k) l) as [|x r] eqn:E; [|simpl; lia].
  exfalso. apply (not_elem_of_nil k). rewrite <-E. by apply list_elem_of_filter.
Qed.

Definition states (l : list (nat * (string * StoredStateEntry))) : list string := (λ x, x.2.1) <$> l.

Lemma states_app l1 l2 : states (l1 ++ l2) = states l1 ++ states l2.
Proof. apply fmap_app. Qed.
Lemma times_one k x : times k [x] = if decide (x = k) then 1%nat else 0%nat.
Proof. unfold times. rewrite filter_cons, filter_nil. by case_decide. Qed.

Lemma times_nodup k l : NoDup l → (times k l ≤ 1)%nat.
Proof.
  induction 1 as [|x l Hx _ IH]; [cbn; lia|]. change (x :: l) with ([x] ++ l). rewrite times_app, times_one.
  case_decide; [subst x|lia]. assert (times k l = 0%nat) as ->; [|done]. unfold times.
  destruct (filter (λ y, y = k) l) as [|y r] eqn:E; [done|]. exfalso. apply Hx.
  assert (y ∈ filter (λ y, y = k) l) as Hy by (rewrite E; by left). by apply list_elem_of_filter in Hy as [-> ?].
Qed.

(** A list with distinct first components is a function. *)
Lemma NoDup_fmap_pair {A B} (l : list (A * B)) a b b' : NoDup l.*1 → (a, b) ∈ l → (a, b') ∈ l → b = b'.
Proof.
  induction l as [|[a0 b0] l IH]; [by intros _ ?%elem_of_nil|]. rewrite fmap_cons. intros [Hn Hnd]%NoDup_cons.
  assert (∀ b1, (a0, b1) ∈ l → False) as Hno. { intros b1 Hin. apply Hn, list_elem_of_fmap. by exists (a0, b1). }
  intros [E|Hb]%elem_of_cons [E'|Hb']%elem_of_cons; simplify_eq; [done|by apply Hno in Hb'|by apply Hno in Hb|auto].
Qed.

(** Two entries of a list under one state make its count two. *)
Lemma times_two l i j k e e' :
  (i, (k, e)) ∈ l → (j, (k, e')) ∈ l → i ≠ j → (2 ≤ times k (states l))%nat.
Proof.
  intros Hi Hj Hn. apply list_elem_of_split in Hi as (l1 & l2 & ->). unfold states. rewrite fmap_app, fmap_cons.
  rewrite times_app. replace (_ :: _) with ([k] ++ ((λ x, x.2.1) <$> l2)) by done. rewrite times_app.
  assert (times k [k] = 1%nat) as -> by (unfold times; by rewrite filter_cons_True, filter_nil).
  assert (∀ l', (j, (k, e')) ∈ l' → (1 ≤ times k ((λ x : nat * (string * StoredStateEntry), x.2.1) <$> l'))%nat) as Hc.
  { intros l' Hin. apply times_elem, list_elem_of_fmap. by exists (j, (k, e')). }
  apply elem_of_app in Hj as [Hj%Hc|Hj]; [lia|]. apply elem_of_cons in Hj as [[= ? ?]|Hj%Hc]; [done|lia].
Qed.

(** ** The invariant *)
Definition came_to_end (t : Call) : Prop := match t with CDone _ | CDropped => True | _ => False end.

Record cinv (parameters : list CallbackParams) (σ : CSys) : Prop := {
  ci_wf : store_wf hash (c_store σ);
  ci_balance k : (times k (states (redeemed σ)) + held (store_lookup hash (c_store σ) k) ≤ times k (inserted σ).*1)%nat;
  ci_stored k r : store_lookup hash (c_store σ) k = Some r → (k, entry r) ∈ inserted σ;
  ci_redeemed i k e : (i, (k, e)) ∈ redeemed σ →
    (k, e) ∈ inserted σ ∧ (∃ p, parameters !! i = Some p ∧ cb_state p = k) ∧ ∃ t, calls σ !! i = Some t ∧ t ≠ CNew;
  ci_once : NoDup (redeemed σ).*1;
  ci_taken i e : calls σ !! i = Some (CTaken e) → ∃ p, parameters !! i = Some p ∧ (i, (cb_state p, e)) ∈ redeemed σ;
  ci_exchanged i l : (i, l) ∈ exchanged σ → (∃ t, calls σ !! i = Some t ∧ came_to_end t) ∧
    ∃ p e, parameters !! i = Some p ∧ (i, (cb_state p, e)) ∈ redeemed σ ∧ (length l ≤ 2)%nat ∧
      (l ≠ [] → en_state e = cb_state p) ∧ Forall (code_exchange cl (cb_code p) e) l;
  ci_exchanged_once : NoDup (exchanged σ).*1;
  ci_done i ses : calls σ !! i = Some (CDone (Ok ses)) →
    ∃ p e, parameters !! i = Some p ∧ (i, (cb_state p, e)) ∈ redeemed σ ∧ session_for e ses
}.

Lemma cinv_initial parameters ttl : cinv parameters (cinitial ttl (length parameters)).
Proof.
  split; cbn [cinitial c_store calls inserted redeemed exchanged].
  - apply new_wf.
  - intros k. unfold store_lookup. rewrite shard_at_new, lookup_empty. cbn. lia.
  - intros k r. unfold store_lookup. by rewrite shard_at_new, lookup_empty.
  - by intros i k e ?%elem_of_nil.
  - constructor.
  - intros i e [? ?]%lookup_replicate. done.
  - by intros i l ?%elem_of_nil.
  - constructor.
  - intros i ses [? ?]%lookup_replicate. done.
Qed.

(** What a critical section does to the record of a token, in terms of the ghost list. *)
Lemma other_step st op k :
  store_wf hash st →
  (held (store_lookup hash (store_step hash st op).1 k) ≤
     held (store_lookup hash st k) + times k (recorded_insert op (store_step hash st op).2).*1)%nat ∧
  ∀ r, store_lookup hash (store_step hash st op).1 k = Some r →
    (k, entry r) ∈ recorded_insert op (store_step hash st op).2 ∨ store_lookup hash st k = Some r.
Proof.
  intros Hwf. pose proof (store_step_token hash st op k Hwf) as Hs.
  pose proof (token_step_balance hash k _ _ _ _ Hs) as Hb.
  assert (times k (recorded_insert op (store_step hash st op).2).*1 =
          if stored k op (store_step hash st op).2 then 1%nat else 0%nat) as Ht.
  { unfold times, recorded_insert, stored. destruct op; try done. destruct (store_step _ _ _).2 as [[]| | | |]; try done.
    rewrite fmap_cons, fmap_nil, filter_cons, filter_nil. cbn [fst]. by case_bool_decide; case_decide. }
  rewrite Ht. split; [destruct (took k op _); lia|]. intros r Hr. rewrite Hr in Hs. clear Hb Ht.
  remember (store_step hash st op).2 as out. clear Heqout Hr. inversion Hs; subst.
  - left. cbn. by apply list_elem_of_singleton.
  - by right.
Qed.

Lemma other_preserves parameters σ op :
  cinv parameters σ →
  cinv parameters (mkCSys (store_step hash (c_store σ) op).1 (calls σ)
    (inserted σ ++ recorded_insert op (store_step hash (c_store σ) op).2) (redeemed σ) (exchanged σ)).
Proof.
  intros I. pose proof (ci_wf _ _ I) as Hwf. split; cbn [c_store calls inserted redeemed exchanged].
  - by apply store_step_wf.
  - intros k. destruct (other_step (c_store σ) op k Hwf) as [Hh _]. pose proof (ci_balance _ _ I k).
    rewrite fmap_app, times_app. lia.
  - intros k r Hr. destruct (other_step (c_store σ) op k Hwf) as [_ Hp]. apply elem_of_app.
    destruct (Hp r Hr) as [|Hold]; [by right|left; by apply (ci_stored _ _ I)].
  - intros i k e Hin. destruct (ci_redeemed _ _ I i k e Hin) as (? & ? & ?). split_and!; [|done..].
    apply elem_of_app. by left.
  - apply I.
  - apply I.
  - apply I.
  - apply I.
  - apply I.
Qed.

(** A call moves on: what the invariant says of the calls by their status. *)
Lemma calls_insert (cs : list Call) i t j u :
  <[i := t]> cs !! j = Some u → is_Some (cs !! i) → j = i ∧ u = t ∨ j ≠ i ∧ cs !! j = Some u.
Proof.
  intros Hj [v Hi]. destruct (decide (i = j)) as [<-|Hn].
  - rewrite list_lookup_insert_eq in Hj by (by eapply lookup_lt_Some). left. naive_solver.
  - rewrite list_lookup_insert_ne in Hj by done. right. naive_solver.
Qed.

(** A call that moved on is still past the take if it was. *)
Lemma still_taken (cs : list Call) i t j :
  t ≠ CNew → is_Some (cs !! i) → (j = i ∨ ∃ u, cs !! j = Some u ∧ u ≠ CNew) →
  ∃ u, <[i := t]> cs !! j = Some u ∧ u ≠ CNew.
Proof.
  intros Ht [v Hi] Hj. destruct (decide (i = j)) as [<-|Hn].
  - exists t. by rewrite list_lookup_insert_eq by (by eapply lookup_lt_Some).
  - rewrite list_lookup_insert_ne by done. by destruct Hj as [->|].
Qed.

Lemma take_preserves parameters σ i p now store taken :
  cinv parameters σ → calls σ !! i = Some CNew → parameters !! i = Some p →
  take_state_sync hash (c_store σ) (cb_state p) now = (store, taken) →
  cinv parameters (mkCSys store (<[i := after_take p taken]> (calls σ)) (inserted σ)
    (redeemed σ ++ match taken with Some e => [(i, (cb_state p, e))] | None => [] end) (exchanged σ)).
Proof.
  intros I Hi Hp E. pose proof (ci_wf _ _ I) as Hwf.
  assert (is_Some (calls σ !! i)) as Hsome by eauto.
  assert (after_take p taken ≠ CNew) as Hnew by (by destruct taken).
  assert (∀ j x, (j, x) ∈ redeemed σ → j ≠ i) as Hfresh.
  { intros j [k e] Hin ->. destruct (ci_redeemed _ _ I i k e Hin) as (_ & _ & t & Ht & ?). congruence. }
  pose proof (take_state_sync_wf hash (c_store σ) (cb_state p) now Hwf) as Hw.
  pose proof (take_state_sync_result hash (c_store σ) (cb_state p) now) as Hres.
  assert (∀ k, store_lookup hash store k = if decide (k = cb_state p) then None else store_lookup hash (c_store σ) k) as Hl.
  { intros k. pose proof (store_lookup_take hash (c_store σ) (cb_state p) now k Hwf) as Hl. rewrite E in Hl. cbn in Hl.
    rewrite Hl. repeat case_decide; congruence. }
  rewrite E in Hw, Hres. cbn in Hw, Hres.
  assert (∀ e, taken = Some e → (cb_state p, e) ∈ inserted σ ∧ held (store_lookup hash (c_store σ) (cb_state p)) = 1%nat) as He.
  { intros e ->. destruct (store_lookup hash (c_store σ) (cb_state p)) as [r|] eqn:Er; [|done]. cbn in Hres.
    split; [|done]. destruct (is_expired r now); [done|]. injection Hres as ->. by apply (ci_stored _ _ I). }
  split; cbn [cinitial c_store calls inserted redeemed exchanged].
  - done.
  - intros k. pose proof (ci_balance _ _ I k) as Hb. rewrite states_app, times_app, Hl.
    destruct taken as [e|].
    + destruct (He e eq_refl) as [_ Hh]. change (states [_]) with [cb_state p]. rewrite times_one.
      repeat case_decide; subst; cbn [held] in *; try done; lia.
    + change (times k (states [])) with 0%nat. case_decide; cbn [held]; lia.
  - intros k r Hr. rewrite Hl in Hr. case_decide; [done|]. by apply (ci_stored _ _ I).
  - intros j k e Hin. apply elem_of_app in Hin as [Hin|Hin].
    + destruct (ci_redeemed _ _ I j k e Hin) as (? & ? & ?). split_and!; [done..|]. apply still_taken; auto.
    + destruct taken as [e'|]; [|by apply elem_of_nil in Hin]. apply list_elem_of_singleton in Hin as [= -> -> ->].
      split_and!; [by apply He|by exists p|apply still_taken; auto].
  - rewrite fmap_app. apply NoDup_app. split_and!; [apply I| |destruct taken; repeat constructor; set_solver].
    intros j Hin Hin2. apply list_elem_of_fmap in Hin as ([j' x] & -> & Hin). apply Hfresh in Hin.
    destruct taken; cbn in Hin2; [by apply list_elem_of_singleton in Hin2|by apply elem_of_nil in Hin2].
  - intros j e Hj. apply calls_insert in Hj as [[-> Ht]|[Hn Hj]]; [| |done].
    + destruct taken as [e'|]; [|done]. injection Ht as <-. exists p. split; [done|]. apply elem_of_app. right. by apply list_elem_of_singleton.
    + destruct (ci_taken _ _ I j e Hj) as (q & ? & ?). exists q. split; [done|]. apply elem_of_app. by left.
  - intros j l Hin. destruct (ci_exchanged _ _ I j l Hin) as ((t & Ht & Hend) & q & e & Hq & Hr & Hrest).
    split.
    + exists t. split; [|done]. rewrite list_lookup_insert_ne; [done|]. intros <-. rewrite Hi in Ht. by injection Ht as <-.
    + exists q, e. split_and!; [done| |by apply Hrest..]. apply elem_of_app. by left.
  - apply I.
  - intros j ses Hj. apply calls_insert in Hj as [[-> Ht]|[Hn Hj]]; [by destruct taken| |done].
    destruct (ci_done _ _ I j ses Hj) as (q & e & ? & ? & ?). exists q, e. split_and!; [done| |done]. apply elem_of_app. by left.
Qed.

(** A call that holds an entry comes to an end, having sent [l]. *)
Lemma end_preserves parameters σ i p e t l :
  cinv parameters σ → calls σ !! i = Some (CTaken e) → parameters !! i = Some p → came_to_end t →
  (length l ≤ 2)%nat → (l ≠ [] → en_state e = cb_state p) → Forall (code_exchange cl (cb_code p) e) l →
  (∀ ses, t = CDone (Ok ses) → session_for e ses) →
  cinv parameters (mkCSys (c_store σ) (<[i := t]> (calls σ)) (inserted σ) (redeemed σ) (exchanged σ ++ [(i, l)])).
Proof.
  intros I Hi Hp Hend Hlen Hstate Hl Hses. assert (is_Some (calls σ !! i)) as Hsome by eauto.
  assert (t ≠ CNew) as Hnew by (by destruct t).
  destruct (ci_taken _ _ I i e Hi) as (p' & Hp' & Hr). assert (p' = p) as -> by congruence.
  assert (∀ j u, calls σ !! j = Some u → came_to_end u → j ≠ i) as Hother.
  { intros j u Hj Hu ->. rewrite Hi in Hj. by injection Hj as <-. }
  split; cbn [c_store calls inserted redeemed exchanged]; try apply I.
  - intros j k e' Hin. destruct (ci_redeemed _ _ I j k e' Hin) as (? & ? & ?). split_and!; [done..|]. apply still_taken; auto.
  - intros j e' Hj. apply calls_insert in Hj as [[-> Ht]|[Hn Hj]]; [by subst t|by apply (ci_taken _ _ I)|done].
  - intros j l' [Hin|[= -> ->]%list_elem_of_singleton]%elem_of_app.
    + destruct (ci_exchanged _ _ I j l' Hin) as ((u & Hu & Hue) & Hrest). split; [|done]. exists u. split; [|done].
      rewrite list_lookup_insert_ne; [done|]. intros <-. by eapply Hother.
    + split; [|by exists p, e]. exists t. by rewrite list_lookup_insert_eq by (by eapply lookup_lt_Some).
  - rewrite fmap_app. apply NoDup_app. split_and!; [apply I| |apply NoDup_singleton].
    intros j Hin ->%list_elem_of_singleton. apply list_elem_of_fmap in Hin as ([j' l'] & Ej & Hin). cbn in Ej. subst j'.
    destruct (ci_exchanged _ _ I _ l' Hin) as ((u & Hu & Hue) & _). by eapply Hother.
  - intros j ses Hj. apply calls_insert in Hj as [[-> Ht]|[Hn Hj]]; [|by apply (ci_done _ _ I)|done].
    exists p, e. split_and!; [done..|by apply Hses].
Qed.

Lemma drop_early_preserves parameters σ i :
  cinv parameters σ → calls σ !! i = Some CNew →
  cinv parameters (mkCSys (c_store σ) (<[i := CDropped]> (calls σ)) (inserted σ) (redeemed σ) (exchanged σ)).
Proof.
  intros I Hi. assert (is_Some (calls σ !! i)) as Hsome by eauto.
  split; cbn [c_store calls inserted redeemed exchanged]; try apply I.
  - intros j k e' Hin. destruct (ci_redeemed _ _ I j k e' Hin) as (? & ? & ?). split_and!; [done..|]. apply still_taken; auto.
  - intros j e' Hj. apply calls_insert in Hj as [[-> Ht]|[Hn Hj]]; [done|by apply (ci_taken _ _ I)|done].
  - intros j l Hin. destruct (ci_exchanged _ _ I j l Hin) as ((u & Hu & Hue) & Hrest). split; [|done]. exists u. split; [|done].
    rewrite list_lookup_insert_ne; [done|]. intros <-. rewrite Hi in Hu. by injection Hu as <-.
  - intros j ses Hj. apply calls_insert in Hj as [[-> Ht]|[Hn Hj]]; [done|by apply (ci_done _ _ I)|done].
Qed.

(** What a call may have sent when it is over, or dropped on the way. *)
Lemma entry_run_prefix p e w w' res l sent :
  resolver_wf (w_resolver (cw_world w)) → handle_callback_with_entry fk env cl p e w = (w', res) →
  cw_log w' = cw_log w ++ l → sent `prefix_of` l →
  (length sent ≤ 2)%nat ∧ (sent ≠ [] → en_state e = cb_state p) ∧ Forall (code_exchange cl (cb_code p) e) sent ∧
  ∀ ses, res = Ok ses → session_for e ses.
Proof.
  intros Hw E El [rest ->].
  destruct (callback_entry_run fk env cl p e w Hw) as (l & (_ & El' & _) & [Hn Hf] & Hc & HQ).
  rewrite E in El', Hc, HQ. cbn [fst snd] in El', Hc, HQ. rewrite El in El'. apply app_inv_head in El'. subst l.
  rewrite length_app in Hn. apply Forall_app in Hf as [Hf _]. split_and!; [lia| |done|done].
  intros Hne. destruct Hc as [Hs _]; [|done]. left. by intros [? _]%app_nil.
Qed.

Lemma cstep_preserves parameters σ σ' : cinv parameters σ → cstep parameters σ σ' → cinv parameters σ'.
Proof.
  intros I [op|i p now store taken Hi Hp E|i p e w w' res l Hi Hp Hw E El|i Hi|i p e w w' res l sent Hi Hp Hw E El Hpre].
  - by apply other_preserves.
  - by eapply take_preserves.
  - destruct (entry_run_prefix p e w w' res l l Hw E El) as (? & ? & ? & Hs); [done|].
    apply (end_preserves parameters σ i p e); try done. intros ses [= ->]. by apply Hs.
  - by apply drop_early_preserves.
  - destruct (entry_run_prefix p e w w' res l sent Hw E El Hpre) as (? & ? & ? & _).
    by apply (end_preserves parameters σ i p e).
Qed.

Lemma reachable_cinv parameters ttl σ :
  rtc (cstep parameters) (cinitial ttl (length parameters)) σ → cinv parameters σ.
Proof.
  intros Hr. pose proof (cinv_initial parameters ttl) as I. revert I.
  induction Hr as [|σ1 σ2 σ3 Hs _ IH]; [done|]. intros I. apply IH. by eapply cstep_preserves.
Qed.

(** ** Properties *)

(** C5. Concurrent callbacks answer a login once.  In every interleaving of any number of
    [handle_callback] calls with each other and with any use of the store, some of the calls dropped
    at any [await]: a state is redeemed at most as often as it was stored; a call that sent
    anything, or returned a session, had redeemed an entry stored under its own state, sent at
    most two requests, each the exchange of its code for that entry, and the session is for that
    entry; and if no state was stored twice, of the calls for one state at most one sent anything,
    even when that one was dropped on the way. *)
Theorem callbacks_redeem_once parameters ttl σ :
  rtc (cstep parameters) (cinitial ttl (length parameters)) σ →
  (∀ k, (times k (states (redeemed σ)) ≤ times k (inserted σ).*1)%nat) ∧
  (∀ i l, (i, l) ∈ exchanged σ → ∃ p e, parameters !! i = Some p ∧ (cb_state p, e) ∈ inserted σ ∧
     (length l ≤ 2)%nat ∧ (l ≠ [] → en_state e = cb_state p) ∧ Forall (code_exchange cl (cb_code p) e) l) ∧
  (∀ i ses, calls σ !! i = Some (CDone (Ok ses)) → ∃ p e, parameters !! i = Some p ∧
     (cb_state p, e) ∈ inserted σ ∧ session_for e ses) ∧
  (NoDup (inserted σ).*1 → ∀ i j p q l l', (i, l) ∈ exchanged σ → (j, l') ∈ exchanged σ →
     parameters !! i = Some p → parameters !! j = Some q → cb_state p = cb_state q → i = j ∧ l = l').
Proof.
  intros Hr%reachable_cinv. rename Hr into I. split_and!.
  - intros k. pose proof (ci_balance _ _ I k). lia.
  - intros i l Hin. destruct (ci_exchanged _ _ I i l Hin) as (_ & p & e & Hp & Hred & Hrest).
    exists p, e. split_and!; [done|by apply (ci_redeemed _ _ I) in Hred as [? _]|apply Hrest..].
  - intros i ses Hd. destruct (ci_done _ _ I i ses Hd) as (p & e & Hp & Hred & Hs).
    exists p, e. split_and!; [done|by apply (ci_redeemed _ _ I) in Hred as [? _]|done].
  - intros Hnd i j p q l l' Hi Hj Hp Hq Hs.
    destruct (ci_exchanged _ _ I i l Hi) as (_ & p' & e & Hp' & Hred & _).
    destruct (ci_exchanged _ _ I j l' Hj) as (_ & q' & e' & Hq' & Hred' & _).
    assert (p' = p) as -> by congruence. assert (q' = q) as -> by congruence.
    assert (i = j) as <-.
    { destruct (decide (i = j)) as [|Hn]; [done|]. rewrite <-Hs in Hred'.
      pose proof (times_two _ _ _ _ _ _ Hred Hred' Hn). pose proof (ci_balance _ _ I (cb_state p)).
      pose proof (times_nodup (cb_state p) _ Hnd). lia. }
    split; [done|]. pose proof (ci_exchanged_once _ _ I) as Ho.
    by apply (NoDup_fmap_pair (exchanged σ) i).
Qed.
End callback_race.

(** ** A concrete run: of three calls for one login one gets the session, one is refused, one is dropped *)
Module CallbackExamples.
Import ClientExamples.
#[local] Existing Instances nibble_base64 zero_sha2 unit_p256 ascii_upper_case numbered_json numbered_form
  IdentityExamples.bare_urls DiscoveryExamples.bare_parts fixed_tokens SsrfExamples.fst_key_laws.
Definition parameters : list CallbackParams := [p0; mkCallback "code2" "ABAC" None; p0].
Abbreviation cstep0 := (cstep SsrfExamples.fst_key hash0 env cl parameters).
Definition login_op : store_op (@StoredStateEntry unit_p256) := OpInsert "ABAC" e0 300000000000 0 0.
Definition store1 := (store_step hash0 (Store.new DEFAULT_STATE_TTL) login_op).1.
Definition store2 := (take_state_sync hash0 store1 "ABAC" 1).1.
Abbreviation ran := (handle_callback_with_entry SsrfExamples.fst_key env cl p0 e0 w1).
Definition final : @CSys IdentityExamples.bare_urls unit_p256 :=
  mkCSys store2 [CDone (snd ran); CDone (Err (unknown_state "ABAC")); CDropped] [("ABAC", e0)]
    [(0%nat, ("ABAC", e0))] [(0%nat, cw_log (fst ran))].

Lemma three_calls : rtc cstep0 (cinitial DEFAULT_STATE_TTL 3) final.
Proof.
  eapply rtc_l; [apply (cstep_other _ _ _ _ _ _ login_op)|].
  eapply rtc_l; [eapply (cstep_take _ _ _ _ _ _ 0 p0 1 store2 (Some e0)); [reflexivity|reflexivity|vm_compute; reflexivity]|].
  eapply rtc_l; [eapply (cstep_take _ _ _ _ _ _ 1 (mkCallback "code2" "ABAC" None) 2 store2 None);
    [reflexivity|reflexivity|vm_compute; reflexivity]|].
  eapply rtc_l; [eapply (cstep_drop_early _ _ _ _ _ _ 2); reflexivity|].
  eapply rtc_l; [eapply (cstep_finish _ _ _ _ _ _ 0 p0 e0 w1 (fst ran) (snd ran) (cw_log (fst ran)));
    [reflexivity|reflexivity|apply resolver_new_wf|apply surjective_pairing|reflexivity]|].
  apply rtc_refl.
Qed.

Lemma callbacks_redeem_once_witness :
  is_ok (snd ran) = true ∧ length (cw_log (fst ran)) = 1%nat ∧
  rtc cstep0 (cinitial DEFAULT_STATE_TTL 3) final ∧ (times "ABAC" (states (redeemed final)) ≤ 1)%nat ∧
  Forall (code_exchange cl "code1" e0) (cw_log (fst ran)).
Proof.
  destruct (callbacks_redeem_once SsrfExamples.fst_key hash0 env cl parameters DEFAULT_STATE_TTL final three_calls)
    as (Ht & Hx & _ & _).
  split_and!; [vm_compute; reflexivity|vm_compute; reflexivity|exact three_calls|exact (Ht "ABAC")|].
  destruct (Hx 0%nat (cw_log (fst ran))) as (p & e & Hp & Hin & _ & _ & Hf); [by apply list_elem_of_singleton|].
  injection Hp as <-. apply list_elem_of_singleton in Hin. injection Hin as ->. exact Hf.
Defined.
End CallbackExamples.
