(* ===== verification/Validator.v ===== *)
(** * Validator: access-token validators (src/src/integrations/validator.rs)

    [JwtAccessTokenValidator] checks RFC 9068 tokens bound to a DPoP key; [InMemoryTokenValidator]
    keeps a registry of tokens by digest.  Both implement the trait [AccessTokenValidator], the class
    the authentication middleware is verified against.  Decoding the claims struct is serde's; so is
    the text of a JSON value, and the [Debug] text of a string is the standard library's (only error
    texts use them). *)
From S2P Require Import Prelude Errors Strs Externals Instances Crypto.
Open Scope Z_scope.

(** ** Data *)
Record AuthenticatedUser := mkUser {
  user_did : string; user_access_token : string; user_dpop_thumbprint : string; user_scope : option string
}.

Record CnfClaim := mkCnf { jkt : string }.
Record JwtAccessTokenClaims := mkAccessClaims {
  at_iss : string; at_sub : string; at_client_id : string; at_aud : option json; at_exp : Z;
  at_nbf : option Z; at_iat : Z; at_jti : string; at_scope : option string; at_cnf : CnfClaim
}.

Class AccessTokenSerde := {
  access_claims_from_slice : list Z → result string JwtAccessTokenClaims;
  json_display : json → string;
  debug_opt_str : option string → string
}.
(** The numeric fields are [u64]s. *)
Class AccessTokenSerdeTyped `{AccessTokenSerde} : Prop := {
  access_claims_u64 b c : access_claims_from_slice b = Ok c → u64_valid (at_exp c)
}.

Definition token_error {A} (e : TokenError) : result IntegrationError A := Err (IntegrationError_Token e).
Definition malformed_token {A} (m : string) : result IntegrationError A :=
  token_error (TokenError_MalformedToken m).
Definition as_malformed {E A} (show : E → string) (r : result E A) : result IntegrationError A :=
  map_err (λ e, IntegrationError_Token (TokenError_MalformedToken (show e))) r.

(** ** The JWT validator *)
Section jwt.
Context `{Base64} `{Sha2} `{P256} `{SerdeJson} `{Subtle} `{AccessTokenSerde}.

Record JwtAccessTokenValidator := mkJwtValidator {
  trusted_keys : gmap string VerifyingKey;
  default_key : option VerifyingKey;
  expected_issuer : option string;
  expected_audience : option string;
  expected_subject : option string;
  required_scopes : list string;
  clock_skew_leeway : Z   (* nanoseconds *)
}.

Definition jwt_validator_new : JwtAccessTokenValidator :=
  mkJwtValidator ∅ None None None None [] (60 * 1000000000).
Definition with_trusted_key (v : JwtAccessTokenValidator) (kid : string) (key : VerifyingKey) :=
  mkJwtValidator (<[kid := key]> (trusted_keys v)) (default_key v) (expected_issuer v)
    (expected_audience v) (expected_subject v) (required_scopes v) (clock_skew_leeway v).
Definition with_verifying_key (v : JwtAccessTokenValidator) (key : VerifyingKey) :=
  mkJwtValidator (trusted_keys v) (Some key) (expected_issuer v) (expected_audience v)
    (expected_subject v) (required_scopes v) (clock_skew_leeway v).
Definition with_expected_issuer (v : JwtAccessTokenValidator) (issuer : string) :=
  mkJwtValidator (trusted_keys v) (default_key v) (Some issuer) (expected_audience v)
    (expected_subject v) (required_scopes v) (clock_skew_leeway v).
Definition with_expected_audience (v : JwtAccessTokenValidator) (audience : string) :=
  mkJwtValidator (trusted_keys v) (default_key v) (expected_issuer v) (Some audience)
    (expected_subject v) (required_scopes v) (clock_skew_leeway v).
Definition with_expected_subject (v : JwtAccessTokenValidator) (subject : string) :=
  mkJwtValidator (trusted_keys v) (default_key v) (expected_issuer v) (expected_audience v)
    (Some subject) (required_scopes v) (clock_skew_leeway v).
Definition with_required_scope (v : JwtAccessTokenValidator) (scope : string) :=
  mkJwtValidator (trusted_keys v) (default_key v) (expected_issuer v) (expected_audience v)
    (expected_subject v) (required_scopes v ++ [scope]) (clock_skew_leeway v).
Definition with_clock_skew (v : JwtAccessTokenValidator) (leeway : Z) :=
  mkJwtValidator (trusted_keys v) (default_key v) (expected_issuer v) (expected_audience v)
    (expected_subject v) (required_scopes v) leeway.

Definition at_jwt_typ (typ : option string) : bool :=
  match typ with
  | Some t => eq_ignore_ascii_case t "at+jwt" || eq_ignore_ascii_case t "application/at+jwt"
  | None => false
  end.

Definition select_key (v : JwtAccessTokenValidator) (kid : option string) : option VerifyingKey :=
  match kid with
  | Some k =>
      match trusted_keys v !! k with
      | Some key => Some key
      | None => if bool_decide (trusted_keys v = ∅) then default_key v else None
      end
  | None =>
      match default_key v with
      | Some default_k => Some default_k
      | None => if Z.of_nat (size (trusted_keys v)) =? 1
                then snd <$> head (map_to_list (trusted_keys v)) else None
      end
  end.

Definition audience_matches (aud : option json) (exp_aud : string) : bool :=
  match aud with
  | Some (JString s) => (s =? exp_aud)%string
  | Some (JArray arr) =>
      existsb (λ item, match as_str item with Some s => (s =? exp_aud)%string | None => false end) arr
  | _ => false
  end.

Definition misconfigured_issuer : string :=
  "Validator misconfigured: an expected issuer is required before any access token can be accepted (RFC 9068 § 4 / RFC 9449 § 7.2)".
Definition misconfigured_audience : string :=
  "Validator misconfigured: an expected audience is required before any access token can be accepted (RFC 9068 § 4)".

(** The checks on verified claims, in the order of the code. *)
Definition check_access_claims (v : JwtAccessTokenValidator) (claims : JwtAccessTokenClaims)
    (now_secs : Z) (dpop_thumbprint : string) : result IntegrationError unit :=
  let leeway_secs := clock_skew_leeway v / 1000000000 in
  _ ← fail_if (u64_saturating_add now_secs leeway_secs >=? at_exp claims)
        (IntegrationError_Token (TokenError_Expired (at_exp claims) now_secs));
  _ ← (match at_nbf claims with
       | Some nbf => fail_if (nbf >? u64_saturating_add now_secs leeway_secs)
                       (IntegrationError_Token (TokenError_NotYetValid nbf now_secs))
       | None => Ok tt
       end);
  _ ← fail_if (str_is_empty (trim (at_iss claims))) (IntegrationError_Token TokenError_MissingIssuer);
  exp_iss ← ok_or (expected_issuer v) (IntegrationError_AuthFailed misconfigured_issuer);
  _ ← fail_if (negb (at_iss claims =? exp_iss)%string)
        (IntegrationError_Token (TokenError_IssuerMismatch exp_iss (at_iss claims)));
  _ ← fail_if (bool_decide (at_aud claims = None)) (IntegrationError_Token TokenError_MissingAudience);
  exp_aud ← ok_or (expected_audience v) (IntegrationError_AuthFailed misconfigured_audience);
  _ ← fail_if (negb (audience_matches (at_aud claims) exp_aud))
        (IntegrationError_Token (TokenError_AudienceMismatch exp_aud
           (match at_aud claims with Some a => json_display a | None => "none" end)));
  _ ← fail_if (str_is_empty (trim (at_sub claims))) (IntegrationError_Token TokenError_MissingDid);
  _ ← (match expected_subject v with
       | Some exp_sub => fail_if (negb (at_sub claims =? exp_sub)%string)
                           (IntegrationError_Token (TokenError_SubMismatch exp_sub (at_sub claims)))
       | None => Ok tt
       end);
  let granted_scopes := split_whitespace (default "" (at_scope claims)) in
  _ ← fail_if (existsb (λ required, negb (existsb (String.eqb required) granted_scopes)) (required_scopes v))
        (IntegrationError_Token (TokenError_MissingAtprotoScope (default "" (at_scope claims))));
  fail_if (negb (constant_time_eq (as_bytes (jkt (at_cnf claims))) (as_bytes dpop_thumbprint)))
    (IntegrationError_Token (TokenError_CnfThumbprintMismatch (jkt (at_cnf claims)) dpop_thumbprint)).

(** [sys_now] is the reading of [SystemTime::now()]. *)
Definition verify_token_sync (v : JwtAccessTokenValidator) (token dpop_thumbprint : string)
    (sys_now : Z) : result IntegrationError AuthenticatedUser :=
  match split_char "." (trim token) with
  | [p0; p1; p2] =>
      header_bytes ← as_malformed CryptoError_display (base64url_decode p0);
      payload_bytes ← as_malformed CryptoError_display (base64url_decode p1);
      signature_bytes ← as_malformed CryptoError_display (base64url_decode p2);
      header_val ← as_malformed id (json_from_slice header_bytes);
      alg ← ok_or (get_str header_val "alg")
              (IntegrationError_Token (TokenError_MalformedToken "Missing alg header"));
      _ ← fail_if (negb (alg =? "ES256")%string) (IntegrationError_Token (TokenError_MalformedToken
            ("Unsupported alg in access token: expected 'ES256', got '" +:+ alg +:+ "'")));
      let typ := get_str header_val "typ" in
      _ ← fail_if (negb (at_jwt_typ typ)) (IntegrationError_Token (TokenError_MalformedToken
            ("Unsupported typ in access token: expected 'at+jwt', got " +:+ debug_opt_str typ)));
      verifying_key ← ok_or (select_key v (get_str header_val "kid"))
        (IntegrationError_AuthFailed "No matching trusted verifying key found for access token");
      _ ← map_err (λ _, IntegrationError_Token TokenError_InvalidSignature)
            (verify_p256_raw verifying_key (as_bytes (p0 +:+ "." +:+ p1)) signature_bytes);
      claims ← as_malformed id (access_claims_from_slice payload_bytes);
      now_secs ← ok_or (unix_secs sys_now)
                   (IntegrationError_Internal "second time provided was later than self");
      _ ← check_access_claims v claims now_secs dpop_thumbprint;
      Ok (mkUser (at_sub claims) token dpop_thumbprint (at_scope claims))
  | parts => malformed_token ("Expected 3 parts in compact JWT, got " +:+ pretty (zlen parts))
  end.

(** ** What an accepted token satisfies *)

(** The claims are signed by the key the header selects. *)
Definition signed_claims (v : JwtAccessTokenValidator) (token : string) (claims : JwtAccessTokenClaims)
    : Prop :=
  ∃ p0 p1 p2 hb pb sb header key,
    split_char "." (trim token) = [p0; p1; p2] ∧
    base64url_decode p0 = Ok hb ∧ base64url_decode p1 = Ok pb ∧ base64url_decode p2 = Ok sb ∧
    json_from_slice hb = Ok header ∧ get_str header "alg" = Some "ES256" ∧
    (∃ typ, get_str header "typ" = Some typ ∧
       (to_ascii_lowercase typ = "at+jwt" ∨ to_ascii_lowercase typ = "application/at+jwt")) ∧
    select_key v (get_str header "kid") = Some key ∧
    verify_p256_raw key (as_bytes (p0 +:+ "." +:+ p1)) sb = Ok tt ∧
    access_claims_from_slice pb = Ok claims.

Definition audience_includes (aud : option json) (a : string) : Prop :=
  aud = Some (JString a) ∨ ∃ arr, aud = Some (JArray arr) ∧ JString a ∈ arr.

Record access_claims_valid (v : JwtAccessTokenValidator) (c : JwtAccessTokenClaims) (now : Z)
    (thumbprint : string) : Prop := {
  av_exp : now + clock_skew_leeway v / 1000000000 < at_exp c;
  av_nbf n : at_nbf c = Some n → n ≤ u64_saturating_add now (clock_skew_leeway v / 1000000000);
  av_iss : expected_issuer v = Some (at_iss c) ∧ trim (at_iss c) ≠ "";
  av_aud : ∃ a, expected_audience v = Some a ∧ audience_includes (at_aud c) a;
  av_sub : trim (at_sub c) ≠ "" ∧ ∀ s, expected_subject v = Some s → at_sub c = s;
  av_scopes : ∀ r, r ∈ required_scopes v → r ∈ split_whitespace (default "" (at_scope c));
  av_jkt : jkt (at_cnf c) = thumbprint
}.

Lemma audience_matches_spec aud a : audience_matches aud a = true ↔ audience_includes aud a.
Proof.
  unfold audience_includes. destruct aud as [[]|]; simpl; try naive_solver.
  - b2p. naive_solver.
  - rewrite existsb_exists. split.
    + intros (item & Hin%list_elem_of_In & Hi). right. eexists. split; [done|].
      destruct item; simpl in Hi; try done. b2p. by subst.
    + intros [|(arr & [= <-] & Hin)]; [done|]. exists (JString a).
      split; [by apply list_elem_of_In|]. simpl. apply String.eqb_refl.
Qed.

Lemma check_access_claims_Ok `{!SubtleLaws} v c now t u :
  u64_valid (at_exp c) → check_access_claims v c now t = Ok u ↔ access_claims_valid v c now t.
Proof.
  intros He. unfold check_access_claims. set (l := clock_skew_leeway v / 1000000000). destruct u. split.
  - intros E. res_inv. b2p.
    repeat match goal with x : () |- _ => destruct x end.
    split; fold l.
    + unfold u64_saturating_add, u64_valid in *. lia.
    + intros n En. rewrite En in *. res_inv. b2p. done.
    + unfold str_is_empty in *. b2p. naive_solver.
    + eexists. split; [done|]. by apply audience_matches_spec.
    + unfold str_is_empty in *. b2p. split; [done|]. intros s Es. rewrite Es in *. res_inv. by b2p.
    + intros r Hr. match goal with Hx : existsb _ (required_scopes v) = false |- _ => rename Hx into Hs end.
      destruct (existsb (String.eqb r) (split_whitespace (default "" (at_scope c)))) eqn:Ex.
      * apply existsb_exists in Ex as (y & Hy%list_elem_of_In & Ey). b2p. by subst.
      * exfalso. apply not_true_iff_false in Hs. apply Hs. apply existsb_exists. exists r.
        split; [by apply list_elem_of_In|]. by rewrite Ex.
    + by apply as_bytes_inj, constant_time_eq_spec.
  - intros [V1 V2 [V3 V3'] (a & V4 & V4') [V5 V5'] V6 V7]. fold l in V1, V2.
    assert ((u64_saturating_add now l >=? at_exp c) = false) as -> by (unfold u64_saturating_add; b2p; lia).
    assert ((match at_nbf c with
       | Some nbf => fail_if (nbf >? u64_saturating_add now l) (IntegrationError_Token (TokenError_NotYetValid nbf now))
       | None => Ok tt end) = Ok tt) as Hnbf.
    { destruct (at_nbf c) as [n|]; [|done]. apply fail_if_Ok. specialize (V2 n eq_refl). b2p. lia. }
    simpl. rewrite Hnbf, V3, V4. unfold str_is_empty. apply String.eqb_neq in V3', V5. rewrite V3', V5.
    simpl. rewrite String.eqb_refl. simpl.
    assert (at_aud c ≠ None) as Hna by (destruct V4' as [->|(? & -> & _)]; done).
    rewrite bool_decide_false by done. simpl. apply audience_matches_spec in V4'. rewrite V4'. simpl.
    assert ((match expected_subject v with
       | Some exp_sub => fail_if (negb (at_sub c =? exp_sub)%string) (IntegrationError_Token (TokenError_SubMismatch exp_sub (at_sub c)))
       | None => Ok tt end) = Ok tt) as ->.
    { destruct (expected_subject v) as [x|]; [|done]. rewrite (V5' x eq_refl). by rewrite String.eqb_refl. }
    simpl. assert (existsb (λ required, negb (existsb (String.eqb required) (split_whitespace (default "" (at_scope c)))))
      (required_scopes v) = false) as ->.
    { apply not_true_iff_false. rewrite existsb_exists. intros (r & Hr%list_elem_of_In & Hx). b2p.
      apply V6 in Hr. apply not_true_iff_false in Hx. apply Hx, existsb_exists. exists r.
      split; [by apply list_elem_of_In|apply String.eqb_refl]. }
    simpl. apply fail_if_Ok. rewrite V7. by rewrite (proj2 (constant_time_eq_spec _ _) eq_refl).
Qed.
End jwt.

Lemma at_jwt_typ_spec typ : at_jwt_typ typ = true ↔
  ∃ t, typ = Some t ∧ (to_ascii_lowercase t = "at+jwt" ∨ to_ascii_lowercase t = "application/at+jwt").
Proof.
  unfold at_jwt_typ, eq_ignore_ascii_case. destruct typ as [t|]; [|naive_solver]. b2p.
  change (to_ascii_lowercase "at+jwt") with "at+jwt".
  change (to_ascii_lowercase "application/at+jwt") with "application/at+jwt". naive_solver.
Qed.

(** ** The registry *)
Record RegisteredToken := mkRegistered {
  rt_did : string; rt_dpop_thumbprint : string; rt_scope : option string; rt_expires_at : option Z
}.
Abbreviation InMemoryTokenValidator := (gmap (list Z) RegisteredToken).

Section registry.
Context `{Sha2} `{Subtle}.

Definition registry_new : InMemoryTokenValidator := ∅.

Definition register_token (m : InMemoryTokenValidator) (token : list Z) (did dpop_thumbprint : string)
    (scope : option string) (expires_at : option Z) : InMemoryTokenValidator :=
  <[sha256_digest token := mkRegistered did dpop_thumbprint scope expires_at]> m.

Definition revoke_token (m : InMemoryTokenValidator) (token : string) : InMemoryTokenValidator :=
  delete (sha256_digest (as_bytes token)) m.

Definition unexpired_at (now : Z) (e : RegisteredToken) : bool :=
  match rt_expires_at e with Some exp => exp >? now | None => true end.

Definition registry_prune_expired (m : InMemoryTokenValidator) (now : Z) : InMemoryTokenValidator * Z :=
  let m' := base.filter (λ kv, unexpired_at now (snd kv) = true) m in
  (m', Z.of_nat (size m) - Z.of_nat (size m')).

Definition registry_len (m : InMemoryTokenValidator) : Z := Z.of_nat (size m).

Definition validate_sync (m : InMemoryTokenValidator) (token dpop_thumbprint : string) (now : Z)
    : result IntegrationError AuthenticatedUser :=
  entry ← ok_or (m !! sha256_digest (as_bytes token))
            (IntegrationError_Token (TokenError_MalformedToken
               "Access token is not registered or has been revoked"));
  _ ← (match rt_expires_at entry with
       | Some exp => fail_if (now >? exp)
                       (IntegrationError_Token (TokenError_Expired (unix_secs_or_zero exp) (unix_secs_or_zero now)))
       | None => Ok tt
       end);
  _ ← fail_if (negb (constant_time_eq (as_bytes (rt_dpop_thumbprint entry)) (as_bytes dpop_thumbprint)))
        (IntegrationError_Token (TokenError_CnfThumbprintMismatch (rt_dpop_thumbprint entry) dpop_thumbprint));
  Ok (mkUser (rt_did entry) token dpop_thumbprint (rt_scope entry)).

Lemma validate_sync_Ok `{!SubtleLaws} m token t now u :
  validate_sync m token t now = Ok u ↔
  ∃ e, m !! sha256_digest (as_bytes token) = Some e ∧ (∀ x, rt_expires_at e = Some x → now ≤ x) ∧
    rt_dpop_thumbprint e = t ∧ u = mkUser (rt_did e) token t (rt_scope e).
Proof.
  unfold validate_sync. split.
  - intros E. res_inv. match goal with Hm : m !! _ = Some ?x |- _ => exists x end. b2p.
    split_and!; [done| |by apply as_bytes_inj, constant_time_eq_spec|done].
    intros exp Ee. rewrite Ee in *. res_inv. by b2p.
  - intros (e & Hm & Hx & <- & ->). rewrite Hm. simpl. destruct (rt_expires_at e) as [x|].
    + specialize (Hx x eq_refl). assert ((now >? x) = false) as -> by (b2p; lia). simpl.
      by rewrite (proj2 (constant_time_eq_spec _ _) eq_refl).
    + simpl. by rewrite (proj2 (constant_time_eq_spec _ _) eq_refl).
Qed.
End registry.

(** ** The interface of the middleware

    [validate_access_token] at a clock reading; [bound_to] is what a validator knows of a token: it
    belongs to this DID, with these scopes, and is bound to the key with this thumbprint. *)
Class AccessTokenValidator (V : Type) := {
  validate_access_token : V → string → string → Z → result IntegrationError AuthenticatedUser;
  bound_to : V → string → string → option string → string → Z → Prop
}.
Class AccessTokenValidatorLaws (V : Type) `{AccessTokenValidator V} : Prop := {
  validate_sound v token thumbprint now u :
    validate_access_token v token thumbprint now = Ok u →
    user_access_token u = token ∧ user_dpop_thumbprint u = thumbprint ∧
    bound_to v token (user_did u) (user_scope u) thumbprint now
}.

Section implementations.
Context `{Base64} `{Sha2} `{P256} `{SerdeJson} `{SubtleLaws} `{AccessTokenSerde} `{!AccessTokenSerdeTyped}.

Lemma verify_token_sync_Ok v token t sys now u :
  unix_secs sys = Some now →
  verify_token_sync v token t sys = Ok u ↔
  ∃ c, signed_claims v token c ∧ access_claims_valid v c now t ∧ u = mkUser (at_sub c) token t (at_scope c).
Proof.
  intros Hnow. unfold verify_token_sync, signed_claims. split.
  - destruct (split_char "." (trim token)) as [|p0 [|p1 [|p2 [|]]]]; try done. intros E. unfold as_malformed in E.
    res_inv. b2p. repeat match goal with x : () |- _ => destruct x end.
    match goal with Hc : access_claims_from_slice _ = Ok ?c, Hk : check_access_claims _ ?c ?n _ = _ |- _ =>
      exists c; assert (n = now) as -> by congruence;
      apply check_access_claims_Ok in Hk; [|by eapply access_claims_u64] end.
    split_and!; [|done..]. subst. do 8 eexists. split_and!; try done. by apply at_jwt_typ_spec.
  - intros (c & (p0 & p1 & p2 & hb & pb & sb & hd & key & Hs & G0 & G1 & G2 & Hj & Ha & Ht & Hk & Hv & Hc) & Hok & ->).
    rewrite Hs. unfold as_malformed. step_ok G0. step_ok G1. step_ok G2. step_ok Hj. step_ok Ha.
    apply at_jwt_typ_spec in Ht. rewrite String.eqb_refl. cbn [negb fail_if mbind result_bind]. rewrite Ht.
    cbn [negb fail_if mbind result_bind]. step_ok Hk. step_ok Hv. step_ok Hc. step_ok Hnow.
    apply (check_access_claims_Ok _ _ _ _ tt) in Hok; [|by eapply access_claims_u64].
    by rewrite Hok.
Qed.

#[export] Instance jwt_access_token_validator : AccessTokenValidator JwtAccessTokenValidator := {|
  validate_access_token := verify_token_sync;
  bound_to v token did scope t sys := ∃ now c, unix_secs sys = Some now ∧ signed_claims v token c ∧
    access_claims_valid v c now t ∧ did = at_sub c ∧ scope = at_scope c
|}.
#[export] Instance jwt_access_token_validator_laws : AccessTokenValidatorLaws JwtAccessTokenValidator.
Proof.
  split. intros v token t sys u Hu. cbn [validate_access_token jwt_access_token_validator] in Hu.
  assert (∃ now, unix_secs sys = Some now) as [now Hnow].
  { unfold verify_token_sync in Hu. destruct (split_char _ _) as [|? [|? [|? [|]]]]; try done.
    unfold as_malformed in Hu. res_inv. eauto. }
  destruct (proj1 (verify_token_sync_Ok v token t sys now u Hnow) Hu) as (c & Hs & Hv & ->).
  split_and!; [done..|]. by exists now, c.
Qed.

#[export] Instance in_memory_token_validator : AccessTokenValidator InMemoryTokenValidator := {|
  validate_access_token := validate_sync;
  bound_to m token did scope t now := ∃ e, m !! sha256_digest (as_bytes token) = Some e ∧
    (∀ x, rt_expires_at e = Some x → now ≤ x) ∧ rt_dpop_thumbprint e = t ∧ did = rt_did e ∧ scope = rt_scope e
|}.
#[export] Instance in_memory_token_validator_laws : AccessTokenValidatorLaws InMemoryTokenValidator.
Proof.
  split. intros m token t now u (e & Hm & Hx & Ht & ->)%validate_sync_Ok. split_and!; [done..|]. by exists e.
Qed.

(** C20. The JWT validator accepts exactly the tokens that are signed (ES256, [at+jwt]) by the key
    their header selects among the trusted ones, expire later than now plus the configured leeway,
    are already valid, come from exactly the configured issuer (no trimming or slash normalisation, as
    the comment in the code says and against the rustdoc of [with_expected_issuer]) for the configured
    audience, name a subject
    (the configured one, if any), grant every required scope, and are bound by [cnf.jkt] to the
    presented DPoP key; the user it returns carries that subject, token, thumbprint and scope.
    Without a configured issuer or audience it accepts nothing. *)
Theorem access_token_accepts_exactly v token t sys now u :
  unix_secs sys = Some now →
  (verify_token_sync v token t sys = Ok u ↔
   ∃ c, signed_claims v token c ∧ access_claims_valid v c now t ∧
        u = mkUser (at_sub c) token t (at_scope c)) ∧
  (expected_issuer v = None ∨ expected_audience v = None → verify_token_sync v token t sys ≠ Ok u).
Proof.
  intros Hnow. split; [by apply verify_token_sync_Ok|]. intros Hnone E.
  destruct (proj1 (verify_token_sync_Ok v token t sys now u Hnow) E)
    as (c & _ & [_ _ [Hi _] (a & Ha & _) _ _ _] & _).
  destruct Hnone; congruence.
Qed.

(** A token has one set of signed claims. *)
Lemma signed_claims_unique v token c c' : signed_claims v token c → signed_claims v token c' → c' = c.
Proof.
  intros (p0 & p1 & p2 & hb & pb & sb & hd & key & Hp & _ & Hb & _ & _ & _ & _ & _ & _ & Hc)
    (q0 & q1 & q2 & hb' & pb' & sb' & hd' & key' & Hp' & _ & Hb' & _ & _ & _ & _ & _ & _ & Hc').
  rewrite Hp in Hp'. simplify_eq. congruence.
Qed.

(** The leeway shortens a token's life instead of extending it. *)
Lemma leeway_expires_early v token t sys now u c :
  unix_secs sys = Some now → signed_claims v token c → now < at_exp c →
  at_exp c ≤ now + clock_skew_leeway v / 1000000000 → verify_token_sync v token t sys ≠ Ok u.
Proof.
  intros Hnow Hs Hlt Hle E.
  destruct (proj1 (verify_token_sync_Ok v token t sys now u Hnow) E) as (c' & Hs' & [V1 _ _ _ _ _ _] & _).
  assert (c' = c) as -> by (by eapply signed_claims_unique). lia.
Qed.

(** The issuer is compared as it is: a trailing slash or a blank too many is a different issuer. *)
Lemma issuer_compared_exactly v token t sys now u c iss :
  unix_secs sys = Some now → signed_claims v token c → expected_issuer v = Some iss → at_iss c ≠ iss →
  verify_token_sync v token t sys ≠ Ok u.
Proof.
  intros Hnow Hs Hiss Hne E.
  destruct (proj1 (verify_token_sync_Ok v token t sys now u Hnow) E) as (c' & Hs' & [_ _ [V3 _] _ _ _ _] & _).
  assert (c' = c) as -> by (by eapply signed_claims_unique). congruence.
Qed.

(** A pruned token may still be valid: the sweep drops an entry in the instant it expires, the
    validation accepts it in that instant. *)
Lemma prune_drops_valid_token m token t now e :
  m !! sha256_digest (as_bytes token) = Some e → rt_expires_at e = Some now → rt_dpop_thumbprint e = t →
  validate_sync m token t now = Ok (mkUser (rt_did e) token t (rt_scope e)) ∧
  (registry_prune_expired m now).1 !! sha256_digest (as_bytes token) = None.
Proof.
  intros Hm He Ht. split.
  - apply validate_sync_Ok. exists e. split_and!; try done. intros x Hx. rewrite He in Hx. injection Hx as <-. lia.
  - simpl. apply map_lookup_filter_None. right. intros e' He'. rewrite Hm in He'. injection He' as <-. simpl.
    unfold unexpired_at. rewrite He. apply not_true_iff_false. b2p. lia.
Qed.
End implementations.

Module ValidatorExamples.
#[local] Existing Instance nibble_base64.
#[local] Existing Instance zero_sha2.
#[local] Existing Instance unit_p256.
#[local] Existing Instance plain_subtle.
#[local] Existing Instance plain_subtle_laws.
#[local] Instance at_json : SerdeJson :=
  {| json_from_slice := λ _, Ok (JObject [("alg", JString "ES256"); ("typ", JString "AT+JWT")]);
     json_to_string := λ _, Ok "" |}.
Definition claims : JwtAccessTokenClaims :=
  mkAccessClaims "https://as.example.com" "did:plc:alice" "app" (Some (JArray [JString "rs"])) 1100 None 900 "j"
    (Some "atproto transition:generic") (mkCnf "thumb").
#[local] Instance at_serde : AccessTokenSerde :=
  {| access_claims_from_slice := λ _, Ok claims; json_display := λ _, ""; debug_opt_str := λ _, "" |}.
#[local] Instance at_serde_typed : AccessTokenSerdeTyped.
Proof. split. intros b c [= <-]. vm_compute. split; discriminate. Qed.
Definition token : string := "AA.AA." +:+ nibble_encode (replicate 64 0).
Definition validator : JwtAccessTokenValidator :=
  with_required_scope (with_expected_audience (with_expected_issuer
    (with_verifying_key jwt_validator_new (tt : @VerifyingKey unit_p256)) "https://as.example.com") "rs") "atproto".
Definition user : AuthenticatedUser := mkUser "did:plc:alice" token "thumb" (Some "atproto transition:generic").

(** Accepted at 1039 s, refused from 1040 s on: the leeway of 60 s counts against the token. *)
Lemma access_token_accepts_exactly_witness :
  verify_token_sync validator token "thumb" 1039000000000 = Ok user ∧
  verify_token_sync validator token "thumb" 1040000000000 = token_error (TokenError_Expired 1100 1040) ∧
  ∃ c, signed_claims validator token c ∧ access_claims_valid validator c 1039 "thumb".
Proof.
  split; [vm_compute; reflexivity|]. split; [vm_compute; reflexivity|].
  destruct (proj1 (proj1 (access_token_accepts_exactly validator token "thumb" 1039000000000 1039 user eq_refl)))
    as (c & Hs & Hv & _); [vm_compute; reflexivity|]. exists c. split; [exact Hs|exact Hv].
Defined.
End ValidatorExamples.
