(* ===== verification/Issuer.v ===== *)
(** * Issuer: access tokens from the issuing side (src/src/integrations/validator.rs)

    Building and signing the claims of an access token, and registering a session's token, with the
    round trips through the validators of Validator.  Encoding the claims struct is serde's. *)
From S2P Require Import Prelude Errors Strs Externals Instances Crypto Htu Dpop Session Validator.
Open Scope Z_scope.

Class AccessTokenWrite := { access_claims_to_string : JwtAccessTokenClaims → result string string }.
(** The fields have their Rust types: integers are [u64]s, the audience is a JSON value.  A null audience
    is left out: it is written as [null], which the reader takes for an absent one. *)
Definition access_claims_typed (c : JwtAccessTokenClaims) : Prop :=
  u64_valid (at_exp c) ∧ u64_valid (at_iat c) ∧ (∀ n, at_nbf c = Some n → u64_valid n) ∧
  (∀ a, at_aud c = Some a → a ≠ JNull ∧ json_wf a = true ∧ float_free a = true).
Class AccessTokenWriteLaws `{AccessTokenSerde} `{AccessTokenWrite} : Prop := {
  access_claims_roundtrip c : access_claims_typed c →
    ∃ s, access_claims_to_string c = Ok s ∧ access_claims_from_slice (as_bytes s) = Ok c
}.

Section issuing.
Context `{Base64} `{Sha2} `{P256} `{SerdeJson} `{AccessTokenWrite}.

(** [JwtAccessTokenClaims::new] reads the clock ([sys_now]) and draws 16 bytes ([raw]). *)
Definition access_claims_new (iss sub : string) (exp : Z) (dpop_thumbprint : string) (sys_now : Z) (raw : list Z)
    : JwtAccessTokenClaims :=
  mkAccessClaims iss sub "https://app.example.com/client-metadata.json" None exp None
    (unix_secs_or_zero sys_now) (base64url_encode raw) None (mkCnf dpop_thumbprint).
Definition with_audience (c : JwtAccessTokenClaims) (aud : string) : JwtAccessTokenClaims :=
  mkAccessClaims (at_iss c) (at_sub c) (at_client_id c) (Some (JString aud)) (at_exp c) (at_nbf c) (at_iat c)
    (at_jti c) (at_scope c) (at_cnf c).
Definition claims_with_scope (c : JwtAccessTokenClaims) (scope : string) : JwtAccessTokenClaims :=
  mkAccessClaims (at_iss c) (at_sub c) (at_client_id c) (at_aud c) (at_exp c) (at_nbf c) (at_iat c)
    (at_jti c) (Some scope) (at_cnf c).
Definition with_nbf (c : JwtAccessTokenClaims) (nbf : Z) : JwtAccessTokenClaims :=
  mkAccessClaims (at_iss c) (at_sub c) (at_client_id c) (at_aud c) (at_exp c) (Some nbf) (at_iat c)
    (at_jti c) (at_scope c) (at_cnf c).

Definition access_header (kid : option string) : json :=
  let m := json_insert "alg" (JString "ES256") [] in
  let m := json_insert "typ" (JString "at+jwt") m in
  JObject (match kid with Some k => json_insert "kid" (JString k) m | None => m end).

Definition sign_jwt (c : JwtAccessTokenClaims) (signing_key : SigningKey) (kid : option string)
    : result CryptoError string :=
  header_str ← map_err CryptoError_Json (json_to_string (access_header kid));
  payload_str ← map_err CryptoError_Json (access_claims_to_string c);
  let header_b64 := base64url_encode (as_bytes header_str) in
  let payload_b64 := base64url_encode (as_bytes payload_str) in
  let signing_input := header_b64 +:+ "." +:+ payload_b64 in
  signature_bytes ← sign_p256_raw signing_key (as_bytes signing_input);
  Ok (signing_input +:+ "." +:+ base64url_encode signature_bytes).

(** [InMemoryTokenValidator::register_session] and [is_empty]. *)
Definition register_session (m : InMemoryTokenValidator) (s : OAuthSession) : InMemoryTokenValidator :=
  register_token m (as_bytes (access_token s)) (sub s) (key_thumbprint (dpop_key s)) (ses_scope s) (ses_expires_at s).
Definition registry_is_empty (m : InMemoryTokenValidator) : bool := registry_len m =? 0.
End issuing.

(** ** Round trips *)
Section accepted.
Context `{Base64Laws} `{!Base64Alphabet} `{Sha2} `{P256Laws} `{SerdeJsonLaws} `{SubtleLaws} `{AccessTokenSerde}
  `{!AccessTokenSerdeTyped} `{!AccessTokenWrite} `{!AccessTokenWriteLaws}.

Lemma access_header_facts kid :
  json_wf (access_header kid) = true ∧ float_free (access_header kid) = true ∧
  get_str (access_header kid) "alg" = Some "ES256" ∧ get_str (access_header kid) "typ" = Some "at+jwt" ∧
  get_str (access_header kid) "kid" = kid.
Proof. by destruct kid. Qed.

(** A signed token carries its claims, for every validator that selects the signer's key. *)
Lemma signed_token_claims c key kid :
  access_claims_typed c →
  ∃ token, sign_jwt c key kid = Ok token ∧
    ∀ v, select_key v kid = Some (sk_verifying_key key) → ∀ c', signed_claims v token c' ↔ c' = c.
Proof.
  intros Hc. destruct (access_header_facts kid) as (W & F & Ha & Ht & Hk).
  destruct (json_roundtrip _ W F) as (hs & Eh & Dh). destruct (access_claims_roundtrip c Hc) as (ps & Ep & Dp).
  destruct (sign_verify_raw key
    (as_bytes (base64url_encode (as_bytes hs) +:+ "." +:+ base64url_encode (as_bytes ps)))) as (sg & Es & _ & Hsg & Hv).
  eexists. split; [unfold sign_jwt; step_ok Eh; step_ok Ep; step_ok Es; reflexivity|].
  intros v Hsel c'. unfold signed_claims. split.
  - intros (p0 & p1 & p2 & hb & pb & sb & hd & k & Hp & _ & Hb & _ & _ & _ & _ & _ & _ & Hcl).
    rewrite compact_parts in Hp. injection Hp as <- <- <-.
    rewrite base64url_roundtrip in Hb by apply as_bytes_valid. injection Hb as <-. congruence.
  - intros ->. do 8 eexists. split; [apply compact_parts|].
    do 3 (split; [apply base64url_roundtrip; (apply as_bytes_valid || done)|]).
    split; [exact Dh|]. split; [exact Ha|]. split; [by exists "at+jwt"; split; [|left]|].
    split; [rewrite Hk; exact Hsel|]. split; [exact Hv|exact Dp].
Qed.

(** C25. A token issued with [sign_jwt] is accepted by a validator that trusts the signer's key exactly when
    its claims satisfy the validator's policy at that time, and yields the subject and scope that were
    signed. *)
Theorem issued_token_accepted c key kid v sys now :
  access_claims_typed c → select_key v kid = Some (sk_verifying_key key) → unix_secs sys = Some now →
  ∃ token, sign_jwt c key kid = Ok token ∧
    ∀ t u, verify_token_sync v token t sys = Ok u ↔
      access_claims_valid v c now t ∧ u = mkUser (at_sub c) token t (at_scope c).
Proof.
  intros Hc Hsel Hnow. destruct (signed_token_claims c key kid Hc) as (token & E & Hs). exists token. split; [done|].
  intros t u. rewrite (verify_token_sync_Ok v token t sys now u Hnow). split.
  - intros (c' & ->%(Hs v Hsel) & Hv & ->). done.
  - intros [Hv ->]. exists c. split; [by apply Hs|done].
Qed.

(** A registered session's token is accepted with the session's key until the session expires; revoking
    it ends that. *)
Lemma registered_session_accepted m s now :
  (∀ x, ses_expires_at s = Some x → now ≤ x) →
  validate_sync (register_session m s) (access_token s) (key_thumbprint (dpop_key s)) now =
    Ok (mkUser (sub s) (access_token s) (key_thumbprint (dpop_key s)) (ses_scope s)) ∧
  is_ok (validate_sync (revoke_token (register_session m s) (access_token s)) (access_token s)
           (key_thumbprint (dpop_key s)) now) = false.
Proof.
  intros Hx. split.
  - apply validate_sync_Ok. eexists. split; [apply lookup_insert_eq|]. done.
  - unfold validate_sync, revoke_token. by rewrite lookup_delete_eq.
Qed.
End accepted.

(** ** Concrete runs *)
Module IssuerExamples.
#[local] Existing Instances nibble_base64 nibble_laws nibble_alphabet zero_sha2 unit_p256 unit_p256_laws
  plain_subtle plain_subtle_laws numbered_json numbered_json_laws.

(** Claims as a numbering of their fields; reading checks the expiry's type. *)
#[local] Instance numbered_claims : AccessTokenWrite :=
  {| access_claims_to_string c := Ok (pos_string (encode
       (at_iss c, at_sub c, at_client_id c, json_tree <$> at_aud c, at_exp c,
        (at_nbf c, at_iat c, at_jti c, at_scope c, jkt (at_cnf c))))) |}.
#[local] Instance numbered_serde : AccessTokenSerde :=
  {| access_claims_from_slice b :=
       match decode (bytes_pos b) with
       | Some (i, s, ci, a, e, (n, ia, j, sc, k)) =>
           if bool_decide (0 ≤ e ≤ u64_max)
           then Ok (mkAccessClaims i s ci (tree_json <$> a) e n ia j sc (mkCnf k)) else Err "invalid value"
       | None => Err "expected value"
       end;
     json_display := λ _, ""; debug_opt_str := λ _, "" |}.
#[local] Instance numbered_typed : AccessTokenSerdeTyped.
Proof.
  split. intros b c. cbn. destruct (decode _) as [[[[[[i s] ci] a] e] [[[[n ia] j] sc] k]]|]; [|done].
  case_bool_decide as He; [|done]. by intros [= <-].
Qed.
#[local] Instance numbered_laws : AccessTokenWriteLaws.
Proof.
  split. intros [i s ci a e n ia j sc [k]] ([He1 He2] & _). eexists. split; [reflexivity|]. cbn in *.
  rewrite bytes_pos_string, decode_encode, bool_decide_true by done. do 2 f_equal.
  destruct a as [v|]; cbn; [by rewrite tree_json_tree|done].
Qed.

Definition key0 : @SigningKey unit_p256 := tt.
Definition claims : JwtAccessTokenClaims :=
  claims_with_scope (with_audience (access_claims_new "https://as.example.com" "did:plc:alice" 2000 "thumb"
    1000000000000 [5; 6]) "rs") "atproto".
Definition validator : JwtAccessTokenValidator :=
  with_required_scope (with_expected_audience (with_expected_issuer
    (with_trusted_key jwt_validator_new "k1" (tt : @VerifyingKey unit_p256)) "https://as.example.com") "rs") "atproto".
Definition token : string := default "" (result_ok (sign_jwt claims key0 (Some "k1"))).

Lemma issued_token_accepted_witness :
  verify_token_sync validator token "thumb" 1900000000000 = Ok (mkUser "did:plc:alice" token "thumb" (Some "atproto")) ∧
  ∃ t, sign_jwt claims key0 (Some "k1") = Ok t ∧
    ∀ th u, verify_token_sync validator t th 1900000000000 = Ok u ↔
      access_claims_valid validator claims 1900 th ∧ u = mkUser "did:plc:alice" t th (Some "atproto").
Proof.
  split; [vm_compute; reflexivity|].
  apply (issued_token_accepted claims key0 (Some "k1") validator 1900000000000 1900).
  - split_and!; [split; vm_compute; discriminate..|discriminate|]. intros a [= <-]. split; [discriminate|split; reflexivity].
  - reflexivity.
  - reflexivity.
Defined.
End IssuerExamples.
