(* ===== verification/Tower.v ===== *)
(** * Tower: the authentication middleware (src/src/integrations/tower.rs)

    [OAuthAuthService::call] as one function: the header checks, the target URI, the deferred DPoP
    verification, the server nonce, the token validator (any implementation of the interface of
    Validator), the commit of the replay admission, the wrapped service, and the nonce of a
    successful response.  The replay cache and the nonce source are shared with other requests; what
    those do while this one awaits the validator or the wrapped service is an argument.  [http]'s
    URI and header-value types are parameters. *)
From S2P Require Import Prelude Errors Strs Externals Instances Crypto Replay Nonces Htu Dpop Validator.
Open Scope Z_scope.

(** ** http *)
Class HttpCrate := {
  Uri : Type;
  Scheme : Type;
  scheme_https : Scheme;
  scheme_is_https : Scheme → bool;
  scheme_is_http : Scheme → bool;
  scheme_display : Scheme → string;
  scheme_from_str : string → option Scheme;
  uri_scheme_str : Uri → option string;
  uri_path_and_query : Uri → option string;
  uri_host : Uri → option string;
  uri_port_u16 : Uri → option Z;
  (** The authority: its text, host and port. *)
  uri_authority : Uri → option (string * string * option Z);
  (** [HeaderValue::from_str] succeeds. *)
  header_value_ok : string → bool
}.

Record HttpResponse := mkResp { rstatus : Z; rheaders : list (string * string) }.
Definition header_insert (name value : string) (r : HttpResponse) : HttpResponse :=
  mkResp (rstatus r) ((name, value) :: List.filter (λ kv, negb (fst kv =? name)%string) (rheaders r)).

Section tower.
Context `{Base64} `{Sha2} `{P256} `{SerdeJson} `{DpopSerde} `{Subtle} `{UrlCrate} `{UnicodeUpper} `{HttpCrate}.
Context (hash : string → Z).
Context {V : Type} `{AccessTokenValidator V} {InnerError : Type}.

Definition insert_checked (name value : string) (r : HttpResponse) : HttpResponse :=
  if header_value_ok value then header_insert name value r else r.

Definition unauthorized_response (error_code : string) (description nonce : option string) : HttpResponse :=
  let auth_header_val :=
    match description with
    | Some desc => "DPoP error=" +:+ quoted error_code +:+ ", error_description=" +:+ quoted desc
    | None => "DPoP error=" +:+ quoted error_code
    end in
  let resp := insert_checked "www-authenticate" auth_header_val (mkResp 401 []) in
  match nonce with Some n => insert_checked "dpop-nonce" n resp | None => resp end.

Definition service_unavailable_response : HttpResponse := header_insert "retry-after" "1" (mkResp 503 []).

(** ** The target URI *)
Definition default_htu_from_uri (scheme : Scheme) (uri : Uri) : option string :=
  let path_and_query := default "/" (uri_path_and_query uri) in
  let is_default p := (scheme_is_https scheme && bool_decide (p = Some 443))
                      || (scheme_is_http scheme && bool_decide (p = Some 80)) in
  match uri_authority uri, uri_scheme_str uri with
  | Some (authority, host, port), Some _ =>
      let authority_str := if is_default port then host else authority in
      Some (scheme_display scheme +:+ "://" +:+ authority_str +:+ path_and_query)
  | _, _ =>
      host ← uri_host uri;
      let host_repr := match uri_port_u16 uri with
                       | Some p => if is_default (Some p) then host else host +:+ ":" +:+ pretty p
                       | None => host
                       end in
      Some (scheme_display scheme +:+ "://" +:+ host_repr +:+ path_and_query)
  end.

Record OAuthAuthService := mkService {
  verifier : DPoPVerifier;
  token_validator : V;
  require_ath : bool;
  htu_override : option (Uri → string)
}.

Definition request_htu (svc : OAuthAuthService) (uri : Uri) : option string :=
  match htu_override svc with
  | Some f => Some (f uri)
  | None =>
      let scheme := default scheme_https (uri_scheme_str uri ≫= scheme_from_str) in
      if negb (scheme_is_https scheme) && negb (scheme_is_http scheme) then None
      else default_htu_from_uri scheme uri
  end.

(** ** One request *)

(** Headers: absent, not visible ASCII, or their text. *)
Record Request := mkRequest {
  authorization : option (option string); dpop_header : option (option string);
  method : string; req_uri : Uri
}.

(** Shared state: the verifier's replay cache and the nonce source, where configured. *)
Record TowerState := mkTower {
  ts_cache : option DPoPReplayCache; ts_nonces : option InMemoryServerNonceSource
}.

(** Clock readings and random bytes, in the order the call takes them. *)
Record Inputs := mkInputs {
  in_sys_now : Z; in_t_admit : Z; in_t_nonce : Z; in_t_challenge : Z; in_raw_challenge : list Z;
  in_t_token : Z; in_t_response : Z; in_raw_response : list Z
}.

Definition fresh_nonce (st : TowerState) (now : Z) (raw : list Z)
    : TowerState * option (result DPoPError string) :=
  match ts_nonces st with
  | Some ns => let '(ns, r) := generate_nonce base64url_encode ns now raw in
               (mkTower (ts_cache st) (Some ns), Some r)
  | None => (st, None)
  end.

(** A refusal that offers a fresh nonce where there is a source for it. *)
Definition challenge (st : TowerState) (inp : Inputs) (code : string) (desc : option string)
    : TowerState * HttpResponse :=
  let '(st, r) := fresh_nonce st (in_t_challenge inp) (in_raw_challenge inp) in
  (st, match r with
       | Some (Ok nonce) => unauthorized_response code desc (Some nonce)
       | Some (Err DPoPError_NonceCacheSaturated) => service_unavailable_response
       | Some (Err _) | None => unauthorized_response code desc None
       end).

(** The synchronous half: everything before the validator is awaited. *)
Inductive Gate :=
| Refused (r : HttpResponse)
| Passed (access_token : string) (claims : DPoPProofClaims) (jwk : JwkEc) (a : ReplayAdmission).

Definition check_server_nonce (st : TowerState) (now : Z) (claims : DPoPProofClaims) : TowerState * bool :=
  match ts_nonces st with
  | Some ns =>
      match nonce claims with
      | Some n => let '(ns, ok) := verify_nonce ns now n in (mkTower (ts_cache st) (Some ns), ok)
      | None => (st, false)
      end
  | None => (st, true)
  end.

Definition gate (svc : OAuthAuthService) (st : TowerState) (req : Request) (inp : Inputs) : TowerState * Gate :=
  match authorization req with
  | None => (st, Refused (unauthorized_response "missing_token" None None))
  | Some None => (st, Refused (unauthorized_response "invalid_token" None None))
  | Some (Some auth_header) =>
      match split_once_char " " auth_header with
      | Some (scheme, cred) =>
          if negb (eq_ignore_ascii_case scheme "DPoP")
          then (st, Refused (unauthorized_response "invalid_scheme" None None))
          else
            let access_token := trim cred in
            match dpop_header req with
            | Some None => (st, Refused (unauthorized_response "invalid_dpop_proof" None None))
            | None =>
                if str_is_empty (trim auth_header)
                then (st, Refused (unauthorized_response "missing_dpop_proof" None None))
                else let '(st, r) := challenge st inp "missing_dpop_proof" None in (st, Refused r)
            | Some (Some proof) =>
                match request_htu svc (req_uri req) with
                | None => (st, Refused (unauthorized_response "invalid_dpop_proof" None None))
                | Some htu =>
                    let ath := if require_ath svc then Some (compute_access_token_hash access_token) else None in
                    match verify_proof_deferred (verifier svc) proof (method req) htu None ath None
                            (in_sys_now inp) (in_t_admit inp) with
                    | Err (DPoPError_ReplayDetected _) =>
                        (st, Refused (unauthorized_response "invalid_dpop_proof"
                                        (Some "DPoP proof replay detected") None))
                    | Err DPoPError_ReplayCacheSaturated => (st, Refused service_unavailable_response)
                    | Err _ => let '(st, r) := challenge st inp "invalid_dpop_proof" None in (st, Refused r)
                    | Ok (claims, jwk, admission) =>
                        let '(st, valid_nonce) := check_server_nonce st (in_t_nonce inp) claims in
                        if negb valid_nonce then
                          let '(st, r) := challenge st inp "use_dpop_nonce"
                                            (Some "Resource server requires fresh DPoP nonce") in
                          (st, Refused r)
                        else (st, Passed access_token claims jwk admission)
                    end
                end
            end
      | None => (st, Refused (unauthorized_response "invalid_scheme" None None))
      end
  end.

(** The nonce of a successful response. *)
Definition attach_nonce (st : TowerState) (inp : Inputs) (response : HttpResponse)
    : TowerState * HttpResponse :=
  let '(st, r) := fresh_nonce st (in_t_response inp) (in_raw_response inp) in
  (st, match r with
       | Some (Ok nonce) => insert_checked "dpop-nonce" nonce response
       | Some (Err _) => service_unavailable_response
       | None => response
       end).

(** The wrapped service, called with the authenticated user in the request's extensions. *)
Context (inner : Request → AuthenticatedUser → result InnerError HttpResponse).
(** What other requests do to the shared state during the two awaits. *)
Context (during_validation during_inner : TowerState → TowerState).

(** The result names the user the wrapped service was called with, if it was. *)
Definition call (svc : OAuthAuthService) (st : TowerState) (req : Request) (inp : Inputs)
    : TowerState * option AuthenticatedUser * result InnerError HttpResponse :=
  let '(st, g) := gate svc st req inp in
  match g with
  | Refused r => (st, None, Ok r)
  | Passed access_token claims jwk admission =>
      let dpop_thumbprint := jwk_thumbprint jwk in
      let st := during_validation st in
      match validate_access_token (token_validator svc) access_token dpop_thumbprint (in_t_token inp) with
      | Err _ => (st, None, Ok (unauthorized_response "invalid_token" None None))
      | Ok user =>
          let '(cache, committed) := commit_replay_admission hash (ts_cache st) admission in
          let st := mkTower cache (ts_nonces st) in
          match committed with
          | Err DPoPError_ReplayCacheSaturated => (st, None, Ok service_unavailable_response)
          | Err _ => (st, None, Ok (unauthorized_response "invalid_dpop_proof"
                                      (Some "DPoP proof replay detected") None))
          | Ok _ =>
              let res := inner req user in
              let st := during_inner st in
              match res with
              | Ok response =>
                  if bool_decide (200 ≤ rstatus response ≤ 299)
                  then let '(st, response) := attach_nonce st inp response in (st, Some user, Ok response)
                  else (st, Some user, Ok response)
              | Err e => (st, Some user, Err e)
              end
          end
      end
  end.
End tower.

#[local] Arguments unauthorized_response : simpl never.

Section authentication.
Context `{Base64} `{Sha2} `{P256} `{SerdeJson} `{DpopSerde} `{!DpopSerdeTyped} `{SubtleLaws} `{UrlCrate}
  `{UnicodeUpper} `{HttpCrate} (hash : string → Z).
Context {V : Type} `{AccessTokenValidatorLaws V} {InnerError : Type}
  (inner : Request → AuthenticatedUser → result InnerError HttpResponse)
  (during_validation during_inner : TowerState → TowerState).

Lemma unauthorized_status code desc nonce : rstatus (unauthorized_response code desc nonce) = 401.
Proof.
  unfold unauthorized_response, insert_checked. destruct nonce as [n|], (header_value_ok _); try done;
    by destruct (header_value_ok _).
Qed.

Lemma challenge_status st inp code desc :
  rstatus (challenge st inp code desc).2 = 401 ∨ rstatus (challenge st inp code desc).2 = 503.
Proof.
  unfold challenge. destruct (fresh_nonce _ _ _) as [st' [[n|[]]|]]; cbn [fst snd];
    rewrite ?unauthorized_status; first [by left|by right].
Qed.

(** What the synchronous half lets through. *)
Record passes (svc : OAuthAuthService (V := V)) (st : TowerState) (req : Request) (inp : Inputs) (now : Z)
    (token : string) (claims : DPoPProofClaims) (jwk : JwkEc) : Prop := {
  ps_token : ∃ scheme cred, authorization req = Some (Some (scheme +:+ " " +:+ cred)) ∧
    to_ascii_lowercase scheme = "dpop" ∧ token = trim cred;
  ps_proof : ∃ proof htu, dpop_header req = Some (Some proof) ∧ request_htu svc (req_uri req) = Some htu ∧
    proof_valid (verifier svc) proof (method req) htu None
      (if require_ath svc then Some (compute_access_token_hash token) else None) now claims jwk;
  ps_nonce : ∀ ns, ts_nonces st = Some ns →
    ∃ n, nonce claims = Some n ∧ (verify_nonce ns (in_t_nonce inp) n).2 = true
}.

Lemma split_once_char_Some c s a b : split_once_char c s = Some (a, b) → s = a +:+ String c b.
Proof.
  revert a b. induction s as [|x s IH]; intros a b; simpl; [done|].
  destruct (Ascii.eqb_spec x c) as [->|Hx]; [by intros [= <- <-]|].
  intros ([l r] & E & [= <- <-])%bind_Some. simpl. by rewrite (IH _ _ E).
Qed.

Lemma deferred_valid v proof m u n h sys adm now claims jwk a :
  config_typed v → unix_secs sys = Some now → u64_valid now →
  verify_proof_deferred v proof m u n h None sys adm = Ok (claims, jwk, a) →
  proof_valid v proof m u n h now claims jwk ∧ adm_jkt a = jwk_thumbprint jwk ∧ adm_jti a = jti claims.
Proof.
  intros Hcfg Hnow Hu E. unfold verify_proof_deferred in E. apply bind_Ok in E as ([c j] & Ev & E).
  apply bind_Ok in E as (t & _ & E). injection E as <- <- <-. split; [|done].
  by apply (verify_proof_no_replay_Ok v proof m u n h None sys now).
Qed.

Lemma challenge_cache st inp code desc : ts_cache (challenge st inp code desc).1 = ts_cache st.
Proof.
  unfold challenge, fresh_nonce. destruct (ts_nonces st) as [ns|]; [|done]. by destruct (generate_nonce _ _ _ _).
Qed.

Definition gate_ok (svc : OAuthAuthService (V := V)) (st : TowerState) (req : Request) (inp : Inputs) (now : Z)
    (out : TowerState * Gate) : Prop :=
  ts_cache out.1 = ts_cache st ∧
  match out.2 with
  | Refused r => rstatus r = 401 ∨ rstatus r = 503
  | Passed token claims jwk a => passes svc st req inp now token claims jwk ∧
      adm_jkt a = jwk_thumbprint jwk ∧ adm_jti a = jti claims
  end.

Lemma gate_refused svc st req inp now st1 code desc n :
  ts_cache st1 = ts_cache st → gate_ok svc st req inp now (st1, Refused (unauthorized_response code desc n)).
Proof. intros Hc. split; [done|]. left. apply unauthorized_status. Qed.

Lemma gate_challenge svc st req inp now st1 code desc :
  ts_cache st1 = ts_cache st →
  gate_ok svc st req inp now (let '(st2, r) := challenge st1 inp code desc in (st2, Refused r)).
Proof.
  intros Hc. pose proof (challenge_cache st1 inp code desc) as Hcc. pose proof (challenge_status st1 inp code desc) as Hs.
  destruct (challenge st1 inp code desc) as [st2 r]. split; [|done]. simpl in *. congruence.
Qed.

Lemma check_server_nonce_spec st now claims st' ok :
  check_server_nonce st now claims = (st', ok) → ts_cache st' = ts_cache st ∧
  (ok = true → ∀ ns, ts_nonces st = Some ns → ∃ n, nonce claims = Some n ∧ (verify_nonce ns now n).2 = true).
Proof.
  unfold check_server_nonce. destruct (ts_nonces st) as [ns|]; [|by intros [= <- <-]].
  destruct (nonce claims) as [n|]; [|by intros [= <- <-]].
  destruct (verify_nonce ns now n) as [ns' b] eqn:E. intros [= <- <-]. split; [done|].
  intros -> ns0 [= <-]. exists n. by rewrite E.
Qed.

Lemma gate_spec svc st req inp now :
  config_typed (verifier svc) → unix_secs (in_sys_now inp) = Some now → u64_valid now →
  gate_ok svc st req inp now (gate svc st req inp).
Proof.
  intros Hcfg Hnow Hu64. unfold gate.
  destruct (authorization req) as [[auth|]|] eqn:Ea; [|by apply gate_refused..].
  destruct (split_once_char " " auth) as [[scheme cred]|] eqn:Esp; [|by apply gate_refused].
  destruct (eq_ignore_ascii_case scheme "DPoP") eqn:Esch; cbn [negb]; [|by apply gate_refused].
  destruct (dpop_header req) as [[proof|]|] eqn:Edp; [|by apply gate_refused|].
  2: { destruct (str_is_empty _); [by apply gate_refused|by apply gate_challenge]. }
  destruct (request_htu svc (req_uri req)) as [htu|] eqn:Ehtu; [|by apply gate_refused].
  destruct (verify_proof_deferred _ _ _ _ _ _ _ _ _) as [[[claims jwk] a]|e] eqn:Ev.
  2: { destruct e; first [by apply gate_refused|by apply gate_challenge|by split; [|right]]. }
  apply (deferred_valid _ _ _ _ _ _ _ _ now) in Ev as (Hv & Hj & Hi); [|done..].
  destruct (check_server_nonce st (in_t_nonce inp) claims) as [st1 ok] eqn:En.
  apply check_server_nonce_spec in En as [Hc Hn].
  destruct ok; cbn [negb]; [|by apply gate_challenge]. split; [done|]. split; [|done]. split.
  - exists scheme, cred. apply split_once_char_Some in Esp. subst auth. split_and!; [done| |done].
    unfold eq_ignore_ascii_case in Esch. by b2p.
  - by exists proof, htu.
  - by apply Hn.
Qed.

(** What is known when the wrapped service is called. *)
Definition authenticated (svc : OAuthAuthService (V := V)) (st : TowerState) (req : Request) (inp : Inputs) (now : Z)
    (user : AuthenticatedUser) : Prop :=
  ∃ claims jwk a st1,
    passes svc st req inp now (user_access_token user) claims jwk ∧
    user_dpop_thumbprint user = jwk_thumbprint jwk ∧
    bound_to (token_validator svc) (user_access_token user) (user_did user) (user_scope user)
      (jwk_thumbprint jwk) (in_t_token inp) ∧
    adm_jkt a = jwk_thumbprint jwk ∧ adm_jti a = jti claims ∧
    ts_cache st1 = ts_cache st ∧
    (commit_replay_admission hash (ts_cache (during_validation st1)) a).2 = Ok tt.

Lemma call_spec svc st req inp now st' who res :
  config_typed (verifier svc) → unix_secs (in_sys_now inp) = Some now → u64_valid now →
  call hash inner during_validation during_inner svc st req inp = (st', who, res) →
  match who with
  | None => ∃ r, res = Ok r ∧ (rstatus r = 401 ∨ rstatus r = 503)
  | Some user => authenticated svc st req inp now user
  end.
Proof.
  intros Hcfg Hnow Hu64. unfold call. pose proof (gate_spec svc st req inp now Hcfg Hnow Hu64) as Hg.
  destruct (gate svc st req inp) as [st1 [r|token claims jwk a]]; destruct Hg as [Hc Hg]; cbn [fst snd] in *.
  { intros [= <- <- <-]. by exists r. }
  destruct Hg as (Hp & Hj & Hi).
  destruct (validate_access_token _ token _ _) as [user|e] eqn:Et.
  2: { intros [= <- <- <-]. eexists. split; [done|]. left. apply unauthorized_status. }
  apply validate_sound in Et as (<- & Hjk & Hb).
  destruct (commit_replay_admission hash (ts_cache (during_validation st1)) a) as [cache [[]|e]] eqn:Ecm.
  2: { destruct e; intros [= <- <- <-]; (eexists; split; [done|]); first [left; apply unauthorized_status|by right]. }
  assert (authenticated svc st req inp now user) as Hall.
  { exists claims, jwk, a, st1. rewrite Ecm. split_and!; try done. }
  destruct (inner req user) as [response|e]; [|by intros [= <- <- <-]].
  destruct (bool_decide _); [|by intros [= <- <- <-]].
  destruct (attach_nonce _ _ _) as [st2 resp]. by intros [= <- <- <-].
Qed.

(** C19. The middleware fails closed and authenticates what it lets through.  If the wrapped service
    is called, then the request carried a DPoP token and a DPoP proof valid for its method and target
    URI (and for that token's hash, where required), the proof's nonce was accepted by the nonce
    source where one is configured, the validator vouched that the token belongs to the user's DID
    and is bound to the proof's key, and the proof was admitted by the replay cache.  If it is not
    called, the answer is a 401 or a 503 of the middleware's own. *)
Theorem tower_authenticates svc st req inp now st' who res :
  config_typed (verifier svc) → unix_secs (in_sys_now inp) = Some now → u64_valid now →
  call hash inner during_validation during_inner svc st req inp = (st', who, res) →
  match who with
  | None => ∃ r, res = Ok r ∧ (rstatus r = 401 ∨ rstatus r = 503)
  | Some user => ∃ claims jwk a st1,
      passes svc st req inp now (user_access_token user) claims jwk ∧
      user_dpop_thumbprint user = jwk_thumbprint jwk ∧
      bound_to (token_validator svc) (user_access_token user) (user_did user) (user_scope user)
        (jwk_thumbprint jwk) (in_t_token inp) ∧
      adm_jkt a = jwk_thumbprint jwk ∧ adm_jti a = jti claims ∧
      ts_cache st1 = ts_cache st ∧
      (commit_replay_admission hash (ts_cache (during_validation st1)) a).2 = Ok tt
  end.
Proof. apply call_spec. Qed.
End authentication.

Module TowerExamples.
Import ReplayWindowExamples.
#[local] Existing Instance nibble_base64.
#[local] Existing Instance zero_sha2.
#[local] Existing Instance unit_p256.
#[local] Existing Instance plain_subtle.
#[local] Existing Instance plain_subtle_laws.
#[local] Existing Instance ascii_upper_case.
#[local] Existing Instance HtuExamples.url_example.
#[local] Existing Instance fixed_json.
#[local] Existing Instance fixed_serde.
#[local] Existing Instance fixed_serde_typed.
#[local] Existing Instance in_memory_token_validator.
#[local] Existing Instance in_memory_token_validator_laws.
#[local] Instance path_http : HttpCrate :=
  {| Uri := string; Scheme := bool; scheme_https := true; scheme_is_https := id; scheme_is_http := negb;
     scheme_display := λ b, if b : bool then "https" else "http"; scheme_from_str := λ s, Some (s =? "https")%string;
     uri_scheme_str := λ _, None; uri_path_and_query := Some; uri_host := λ _, Some "example.com";
     uri_port_u16 := λ _, Some 443; uri_authority := λ _, None; header_value_ok := λ _, true |}.

Definition registry : InMemoryTokenValidator :=
  register_token registry_new (as_bytes "tok") "did:plc:alice" (jwk_thumbprint jwk0) None None.
Definition svc : OAuthAuthService (V := InMemoryTokenValidator) := mkService verifier_new registry false None.
Definition request (proof : option (option string)) : Request :=
  mkRequest (Some (Some "dpop tok ")) proof "GET" "/xrpc".
Definition inputs : Inputs := mkInputs (secs 1000) (secs 1000) 0 0 [] (secs 1000) 0 [].
Definition start : TowerState := mkTower (Some replay_new) None.
Definition inner (_ : Request) (_ : AuthenticatedUser) : result string HttpResponse := Ok (mkResp 200 []).
Definition serve (st : TowerState) (proof : option (option string)) :=
  call h inner id id svc st (request proof) inputs.

Lemma tower_authenticates_witness :
  let '(st', who, _) := serve start (Some (Some jwt0)) in
  user_did <$> who = Some "did:plc:alice" ∧ (serve start None).1.2 = None ∧
  (serve st' (Some (Some jwt0))).1.2 = None ∧
  ∃ user claims jwk, who = Some user ∧ passes svc start (request (Some (Some jwt0))) inputs 1000 (user_access_token user) claims jwk.
Proof.
  assert (user_did <$> (serve start (Some (Some jwt0))).1.2 = Some "did:plc:alice") as Hw by (vm_compute; reflexivity).
  assert ((serve start None).1.2 = None) as Hn by (vm_compute; reflexivity).
  assert ((serve (serve start (Some (Some jwt0))).1.1 (Some (Some jwt0))).1.2 = None) as Hr by (vm_compute; reflexivity).
  destruct (serve start (Some (Some jwt0))) as [[st' who] res] eqn:E. cbn [fst snd] in *.
  destruct who as [user|]; [|discriminate Hw].
  split; [exact Hw|]. split; [exact Hn|]. split; [exact Hr|].
  destruct (tower_authenticates h inner id id svc start (request (Some (Some jwt0))) inputs 1000 st' (Some user) res)
    as (claims & jwk & a & st1 & Hp & _).
  - vm_compute. split; discriminate.
  - reflexivity.
  - vm_compute. split; discriminate.
  - exact E.
  - exists user, claims, jwk. split; [reflexivity|exact Hp].
Defined.
End TowerExamples.
