(* ===== verification/Interop.v ===== *)
(** * Interop: a client's session and the server's middleware

    The two sides of the library meet: the headers a session makes for a request
    (src/src/session.rs) pass the authentication middleware (src/src/integrations/tower.rs), with any
    validator that vouches for the session's token. *)
From S2P Require Import Prelude Errors Strs Externals Instances Crypto Replay Nonces Htu Dpop.
From S2P Require Import Session Validator Issuer Tower.
Open Scope Z_scope.

Section interop.
Context `{Base64Laws} `{!Base64Alphabet} `{Sha2} `{P256Laws} `{DpopSerdeLaws}
  `{!SerdeJsonLaws} `{SubtleLaws} `{UrlLaws} `{!UrlReparse} `{UnicodeUpperLaws} `{!DpopSerdeTyped} `{HttpCrate}.
Context (hash : string → Z) {V : Type} `{AccessTokenValidator V} {InnerError : Type}
  (inner : Request → AuthenticatedUser → result InnerError HttpResponse)
  (during_validation during_inner : TowerState → TowerState).

(** A proof accepted for a nonce is accepted where no nonce is asked for. *)
Lemma proof_valid_weaken v jwt m u n a now c jwk :
  proof_valid v jwt m u n a now c jwk → proof_valid v jwt m u None a now c jwk.
Proof.
  intros (p0 & p1 & p2 & hb & pb & sb & hd & G1 & G2 & G3 & G4 & G5 & G6 & G7 & (C1 & C2 & C3 & C4 & _ & C6) & G9).
  exists p0, p1, p2, hb, pb, sb, hd. split_and!; try done.
Qed.
Lemma proof_valid_no_ath v jwt m u n a now c jwk :
  proof_valid v jwt m u n a now c jwk → proof_valid v jwt m u n None now c jwk.
Proof.
  intros (p0 & p1 & p2 & hb & pb & sb & hd & G1 & G2 & G3 & G4 & G5 & G6 & G7 & (C1 & C2 & C3 & C4 & C5 & _) & G9).
  exists p0, p1, p2, hb, pb, sb, hd. split_and!; try done.
Qed.

Lemma proof_valid_htu v jwt m u u' n a now c jwk :
  normalize_htu u' = normalize_htu u → proof_valid v jwt m u n a now c jwk → proof_valid v jwt m u' n a now c jwk.
Proof.
  intros Hu (p0 & p1 & p2 & hb & pb & sb & hd & G1 & G2 & G3 & G4 & G5 & G6 & G7 & (C1 & C2 & C3 & C4 & C5 & C6) & G9).
  exists p0, p1, p2, hb, pb, sb, hd. unfold claims_valid. rewrite Hu. split_and!; done.
Qed.

(** The request of session [s]: its authorization header and a proof made at [made] with random [raw]. *)
Context (svc : OAuthAuthService (V := V)) (s : OAuthSession) (htm htu seen nrm : string) (n : option string)
  (made : Z) (raw : list Z) (uri : Uri) (inp : Inputs) (st : TowerState).
Local Abbreviation now := (in_sys_now inp / 1000000000).
Local Abbreviation thumb := (key_thumbprint (dpop_key s)).

(** Both sides are in order: the server sees ([seen]) the URI the client signed, up to normalisation, the clocks agree within the
    verifier's tolerances, the proof's identifier is not empty, the access token is one word. *)
Record in_order : Prop := {
  io_htu : request_htu svc uri = Some seen;
  io_nrm : normalize_htu htu = Ok nrm ∧ normalize_htu seen = Ok nrm;
  io_jti : base64url_encode raw ≠ "" ∧ str_len (base64url_encode raw) ≤ 256;
  io_ath : compute_access_token_hash (access_token s) ≠ "";
  io_token : trim (access_token s) = access_token s;
  io_made : 0 ≤ made ∧ u64_valid (made / 1000000000);
  io_now : 0 ≤ in_sys_now inp ∧ u64_valid now;
  io_admit : 0 ≤ in_t_admit inp;
  io_cfg : config_typed (verifier svc);
  io_method : trim htm = htm ∧ is_ascii_str htm = true;
  io_window : made / 1000000000 ≤ now + as_secs (max_clock_skew (verifier svc)) ∧
    now ≤ made / 1000000000 + as_secs (max_proof_age (verifier svc))
}.
Context (IO : in_order).

Lemma trimmed_ath :
  trimmed_claim (Some (compute_access_token_hash (access_token s))) =
  Some (compute_access_token_hash (access_token s)).
Proof.
  pose proof (io_ath IO) as Ha. unfold trimmed_claim, compute_access_token_hash in *. cbn [mbind option_bind].
  rewrite base64url_encode_trim. unfold str_is_empty. by rewrite (proj2 (String.eqb_neq _ _) Ha).
Qed.

(** The proof the session makes is deferred-verified by the middleware's verifier. *)
Lemma session_proof_deferred :
  ∃ jwt claims a, session_create_dpop_proof s htm htu n made raw = Ok jwt ∧
    verify_proof_deferred (verifier svc) jwt htm seen None
      (if require_ath svc then Some (compute_access_token_hash (access_token s)) else None) None
      (in_sys_now inp) (in_t_admit inp) = Ok (claims, public_jwk (dpop_key s), a) ∧
    nonce claims = trimmed_claim n ∧ jti claims = base64url_encode raw ∧
    adm_jkt a = thumb ∧ adm_jti a = base64url_encode raw ∧ adm_now a = in_t_admit inp / 1000000000.
Proof.
  destruct (io_made IO) as [Hm Hmv], (io_now IO) as [Hn Hnv], (io_jti IO) as [Hj Hjl], (io_window IO) as [Hw1 Hw2],
    (io_method IO) as [Htm Hasc], (io_nrm IO) as [Hnrm Hseen].
  destruct (created_proof_accepted (verifier svc) (dpop_key s) htm htu n
    (Some (compute_access_token_hash (access_token s))) (made / 1000000000) None raw htm (in_sys_now inp)
    (in_sys_now inp) nrm) as (jwt & Ej & Ev); try done; try apply IO.
  { by unfold proof_jti; rewrite base64url_encode_trim. }
  { by rewrite Htm. }
  { by rewrite Htm. }
  rewrite trimmed_ath in Ev.
  assert (∀ o, unix_secs (default (in_sys_now inp) o) = unix_secs (in_sys_now inp) →
            unix_secs (default (in_sys_now inp) o) = Some now) as Hs.
  { intros o ->. unfold unix_secs. by rewrite (proj2 (Z.ltb_ge _ _) Hn). }
  apply (verify_proof_no_replay_Ok _ _ _ _ _ _ _ _ now) in Ev; [|apply IO|by apply Hs|done].
  eexists jwt, _, _. split; [unfold session_create_dpop_proof, create_proof, unix_secs; by rewrite (proj2 (Z.ltb_ge _ _) Hm)|].
  split.
  { unfold verify_proof_deferred.
    assert (verify_proof_no_replay (verifier svc) jwt htm seen None
      (if require_ath svc then Some (compute_access_token_hash (access_token s)) else None) None (in_sys_now inp) =
      Ok (mkClaims (proof_jti None raw) (to_uppercase (trim htm)) nrm (made / 1000000000) None (trimmed_claim n)
            (Some (compute_access_token_hash (access_token s))), public_jwk (dpop_key s))) as ->.
    { apply (verify_proof_no_replay_Ok _ _ _ _ _ _ _ _ now); [apply IO|by apply (Hs None)|done|].
      apply proof_valid_weaken, (proof_valid_htu _ _ _ _ seen) in Ev; [|congruence]. destruct (require_ath svc); [done|by eapply proof_valid_no_ath]. }
    cbn [mbind result_bind]. unfold unix_secs. rewrite (proj2 (Z.ltb_ge _ _) (io_admit IO)).
    cbn [ok_or mbind result_bind]. reflexivity. }
  done.
Qed.

(** The gate lets the request through. *)
Lemma gate_passes jwt claims a :
  verify_proof_deferred (verifier svc) jwt htm seen None
    (if require_ath svc then Some (compute_access_token_hash (access_token s)) else None) None
    (in_sys_now inp) (in_t_admit inp) = Ok (claims, public_jwk (dpop_key s), a) →
  (∀ ns, ts_nonces st = Some ns →
     ∃ m, nonce claims = Some m ∧ (verify_nonce ns (in_t_nonce inp) m).2 = true) →
  ∃ st1, ts_cache st1 = ts_cache st ∧
    gate svc st (mkRequest (Some (Some (dpop_auth_header s))) (Some (Some jwt)) htm uri) inp =
      (st1, Passed (access_token s) claims (public_jwk (dpop_key s)) a).
Proof.
  intros Ev Hn. unfold gate. cbn [authorization dpop_header method req_uri].
  assert (split_once_char " " (dpop_auth_header s) = Some ("DPoP", access_token s)) as -> by reflexivity.
  change (eq_ignore_ascii_case "DPoP" "DPoP") with true. cbn [negb]. rewrite (io_token IO), (io_htu IO), Ev.
  unfold check_server_nonce. destruct (ts_nonces st) as [ns|]; [|by exists st].
  destruct (Hn ns eq_refl) as (m & -> & Hv). destruct (verify_nonce ns (in_t_nonce inp) m) as [ns' b]. simpl in Hv.
  subst b. eexists. split; [|reflexivity]. done.
Qed.

Lemma admitted c a :
  adm_jkt a = thumb → adm_jti a = base64url_encode raw →
  is_live (adm_now a) (recorded hash c (composite_key thumb (base64url_encode raw))) = false →
  live_entries hash c (composite_key thumb (base64url_encode raw)) (adm_now a) < REPLAY_SHARD_CAPACITY →
  (commit_replay_admission hash (Some c) a).2 = Ok tt.
Proof.
  intros Hk Hj Hl Hc. unfold commit_replay_admission. rewrite Hk, Hj.
  destruct (check_and_record_cases hash c thumb (base64url_encode raw) (adm_expires_at a) (adm_now a))
    as [[Hx _]|(c0 & g & _ & _ & _ & [(Hx & _)|(_ & _ & E)])]; [congruence|lia|]. by rewrite E.
Qed.

(** Client and server fit together.  A request that carries the authorization header of a session and a
    proof the session made for it is authenticated by the middleware, whatever validator it uses: if
    the validator vouches for the session's token and key, the clocks agree, the server's nonce (where
    it demands one) is the one in the proof, and the proof's identifier is fresh in a replay cache
    that is not saturated, then the wrapped service is called with the user the validator names. *)
Theorem session_request_authenticated user :
  (∀ ns, ts_nonces st = Some ns →
     ∃ m, trimmed_claim n = Some m ∧ (verify_nonce ns (in_t_nonce inp) m).2 = true) →
  validate_access_token (token_validator svc) (access_token s) thumb (in_t_token inp) = Ok user →
  (∀ st1 c, ts_cache st1 = ts_cache st → ts_cache (during_validation st1) = Some c →
     is_live (in_t_admit inp / 1000000000) (recorded hash c (composite_key thumb (base64url_encode raw))) = false ∧
     live_entries hash c (composite_key thumb (base64url_encode raw)) (in_t_admit inp / 1000000000)
       < REPLAY_SHARD_CAPACITY) →
  ∃ jwt, session_create_dpop_proof s htm htu n made raw = Ok jwt ∧
    (call hash inner during_validation during_inner svc st
       (mkRequest (Some (Some (dpop_auth_header s))) (Some (Some jwt)) htm uri) inp).1.2 = Some user.
Proof.
  intros Hn Hv Hfresh. destruct session_proof_deferred as (jwt & claims & a & Ej & Ev & Hnc & _ & Hk & Hj & Ht).
  exists jwt. split; [done|]. rewrite <-Hnc in Hn. destruct (gate_passes jwt claims a Ev Hn) as (st1 & Hc & Eg).
  unfold call. rewrite Eg. cbn zeta. unfold key_thumbprint in Hv at 1. rewrite Hv.
  assert ((commit_replay_admission hash (ts_cache (during_validation st1)) a).2 = Ok tt) as Hcm.
  { destruct (ts_cache (during_validation st1)) as [c|] eqn:Ec; [|done].
    destruct (Hfresh st1 c Hc Ec). apply admitted; by rewrite ?Ht. }
  destruct (commit_replay_admission _ _ a) as [cache r]. simpl in Hcm. subst r.
  destruct (inner _ user) as [resp|e]; [|done]. destruct (bool_decide _); [|done]. by destruct (attach_nonce _ _ _).
Qed.
End interop.

(** ** A concrete run: a registered session, a server that demands a nonce *)
Module InteropExamples.
#[local] Existing Instances nibble_base64 nibble_laws nibble_alphabet zero_sha2 unit_p256 unit_p256_laws
  plain_subtle plain_subtle_laws ascii_upper_case ascii_upper_laws numbered_json numbered_json_laws
  HtuExamples.url_example HtuExamples.url_example_laws HtuExamples.url_example_reparse
  DpopExamples.object_serde DpopExamples.object_serde_laws DpopExamples.object_serde_typed
  TowerExamples.path_http in_memory_token_validator.
Import SessionExamples.
Definition hash0 (_ : string) : Z := 7.
Definition svc : OAuthAuthService (V := InMemoryTokenValidator) :=
  mkService verifier_new (register_session registry_new session) true None.
Definition issued := generate_nonce base64url_encode (nonce_source_new 300) (ReplayWindowExamples.secs 1000) [9; 9].
Definition st : TowerState := mkTower (Some replay_new) (Some (fst issued)).
Definition inputs : Inputs :=
  mkInputs (ReplayWindowExamples.secs 1030) (ReplayWindowExamples.secs 1030) (ReplayWindowExamples.secs 1030) 0 [] 0 (ReplayWindowExamples.secs 1030) [3].
Definition n : option string := result_ok (snd issued).
Definition inner (_ : Request) (_ : AuthenticatedUser) : result string HttpResponse := Ok (mkResp 200 []).
Definition user : AuthenticatedUser := mkUser "did:plc:abc" "at-1" (key_thumbprint key0) (Some "atproto").

Lemma ready : in_order svc session "GET" "https://example.com:443/xrpc" "https://example.com/xrpc" "https://example.com/xrpc"
  (ReplayWindowExamples.secs 1000) [1; 2] "/xrpc" inputs.
Proof. split; vm_compute; repeat split; try reflexivity; try discriminate. Qed.

Lemma session_request_authenticated_witness :
  ∃ jwt, session_create_dpop_proof session "GET" "https://example.com:443/xrpc" n (ReplayWindowExamples.secs 1000) [1; 2] = Ok jwt ∧
    (call hash0 inner id id svc st
       (mkRequest (Some (Some (dpop_auth_header session))) (Some (Some jwt)) "GET" "/xrpc") inputs).1.2 = Some user.
Proof.
  apply (session_request_authenticated hash0 inner id id svc session "GET" "https://example.com:443/xrpc"
    "https://example.com/xrpc" "https://example.com/xrpc" n (ReplayWindowExamples.secs 1000) [1; 2] "/xrpc" inputs st ready user).
  - intros ns [= <-]. exists (default "" n). vm_compute. split; reflexivity.
  - vm_compute. reflexivity.
  - intros st1 c E1 E2. unfold id in E2. rewrite E1 in E2. injection E2 as <-. vm_compute. split; reflexivity.
Defined.
End InteropExamples.
