(* ===== verification/EndToEnd.v ===== *)
(** * EndToEnd: from a login to an authenticated request

    The parts of the library composed: a callback (src/src/client.rs) exchanges its code at an
    authorization server that issues an access token with [sign_jwt]
    (src/src/integrations/validator.rs); the session it yields makes a request
    (src/src/session.rs, dpop.rs); and the middleware of a resource server that trusts the issuer's
    key (src/src/integrations/tower.rs) authenticates it, and nobody else who holds the token. *)
From S2P Require Import Prelude Errors Strs Externals Instances IpFilter Net Ssrf Fetch Identity Discovery Crypto.
From S2P Require Import Store Replay Nonces Pkce Nsid Htu Dpop Session Exchange Par TokenRequest ClientConfig Client.
From S2P Require Import ClientFacts Progress Validator Issuer Tower Interop.
Open Scope Z_scope.

Section end_to_end.
Context (fk : gmap string IpAddr → option string) `{UrlParts} (env : Env).
Context `{Base64Laws} `{!Base64Alphabet} `{Sha2} `{P256Laws} `{DpopSerdeLaws}
  `{!SerdeJsonLaws} `{SubtleLaws} `{!UrlLaws} `{!UrlReparse} `{UnicodeUpperLaws} `{FormCrate} `{!FormLaws}
  `{!DpopSerdeTyped} `{TokenSerde} `{HttpCrate}
  `{AccessTokenSerde} `{!AccessTokenSerdeTyped} `{!AccessTokenWrite} `{!AccessTokenWriteLaws}.

(** *** The authorization server: demands nonces, verifies proofs, grants [t]; its token is a JWT with the
    claims [c], bound to the key of the login [e], signed with [as_key] *)
Context (v : DPoPVerifier) (ep n nrm : string) (ok_body challenge_body : list Z) (clock : nat → Z)
  (f : SsrfFilter) (url : Url).
Context (FW : fair_world env v ep n nrm ok_body challenge_body clock f url).
Context (e : StoredStateEntry) (t : TokenResponse) (c : JwtAccessTokenClaims) (as_key : SigningKey) (kid : option string).

Record grants : Prop := {
  gr_endpoint : en_token_endpoint e = ep;
  gr_body : token_response_from_slice ok_body = Ok t;
  gr_response : response_for e t;
  gr_lifetime : lifetime_fits env t;
  gr_claims : access_claims_typed c;
  gr_token : sign_jwt c as_key kid = Ok (tr_access_token t);
  gr_bound : jkt (at_cnf c) = key_thumbprint (en_dpop_key e);
  gr_subject : at_sub c = tr_sub t
}.
Context (GR : grants).

(** *** The resource server: the middleware with a JWT validator that selects the issuer's key *)
Context (hash : string → Z) {InnerError : Type}
  (inner : Request → AuthenticatedUser → result InnerError HttpResponse)
  (during_validation during_inner : TowerState → TowerState)
  (svc : OAuthAuthService (V := JwtAccessTokenValidator)).
Context (Htrust : select_key (token_validator svc) kid = Some (sk_verifying_key as_key)).
Local Abbreviation thumb := (key_thumbprint (en_dpop_key e)).
Local Abbreviation serve := (call hash inner during_validation during_inner svc).

(** The token says what its issuer signed, and the validator accepts it for the login's key only. *)
Lemma granted_token_claims c' : signed_claims (token_validator svc) (tr_access_token t) c' ↔ c' = c.
Proof.
  destruct (signed_token_claims c as_key kid (gr_claims GR)) as (token & E & Hs).
  rewrite (gr_token GR) in E. injection E as <-. by apply Hs.
Qed.

Lemma granted_token_validates sys now th u :
  unix_secs sys = Some now →
  validate_access_token (token_validator svc) (tr_access_token t) th sys = Ok u ↔
    access_claims_valid (token_validator svc) c now th ∧ u = mkUser (at_sub c) (tr_access_token t) th (at_scope c).
Proof.
  intros Hnow. cbn [validate_access_token jwt_access_token_validator].
  rewrite (verify_token_sync_Ok _ _ _ sys now u Hnow). split.
  - intros (c' & ->%granted_token_claims & Hv & ->). done.
  - intros [Hv ->]. exists c. by rewrite granted_token_claims.
Qed.

(** ** Properties *)

(** C8. A login reaches the resource.  A callback for a live login at that authorization server returns
    the session of the grant; and with every request the session signs, to a resource server that trusts the issuer,
    whose policy the token satisfies and whose clock, nonce and replay cache are in order, the wrapped
    service is called with the user the authorization server named. *)
Theorem login_reaches_resource (store_hash : string → Z) (instants : nat → Z) cl p s :
  store_wf store_hash (cs_store s) → live_entry store_hash instants s (cb_state p) = Some e →
  callback_for p e (e_clock env (S (cw_tick (cs_cw s)))) → cl_filter cl = f →
  ∃ s' k, let ses := granted_session e t (e_clock env k) in
    handle_callback fk store_hash env instants cl p s = (s', Ok ses) ∧ sub ses = at_sub c ∧
    ∀ htm htu seen nr nonce made raw uri inp st now,
      in_order svc ses htm htu seen nr made raw uri inp →
      (∀ ns, ts_nonces st = Some ns →
         ∃ m, trimmed_claim nonce = Some m ∧ (verify_nonce ns (in_t_nonce inp) m).2 = true) →
      unix_secs (in_t_token inp) = Some now → access_claims_valid (token_validator svc) c now thumb →
      (∀ st1 ca, ts_cache st1 = ts_cache st → ts_cache (during_validation st1) = Some ca →
         is_live (in_t_admit inp / 1000000000) (recorded hash ca (composite_key thumb (base64url_encode raw))) = false ∧
         live_entries hash ca (composite_key thumb (base64url_encode raw)) (in_t_admit inp / 1000000000)
           < REPLAY_SHARD_CAPACITY) →
      ∃ jwt, session_create_dpop_proof ses htm htu nonce made raw = Ok jwt ∧
        (serve st (mkRequest (Some (Some (dpop_auth_header ses))) (Some (Some jwt)) htm uri) inp).1.2 =
          Some (mkUser (at_sub c) (tr_access_token t) thumb (at_scope c)).
Proof.
  intros Hwf Hlive Hcb Hf.
  destruct (callback_succeeds fk env v ep n nrm ok_body challenge_body clock f url FW store_hash instants cl p s e t
    Hwf Hlive Hcb Hf (gr_endpoint GR) (gr_body GR) (gr_response GR) (gr_lifetime GR)) as (s' & k & E & _).
  exists s', k. cbn zeta. split; [exact E|]. split; [symmetry; apply (gr_subject GR)|].
  intros htm htu seen nr nonce made raw uri inp st now IO Hn Hnow Hv Hfresh.
  apply (session_request_authenticated hash inner during_validation during_inner svc
    (granted_session e t (e_clock env k)) htm htu seen nr nonce made raw uri inp st IO); [exact Hn| |exact Hfresh].
  by apply granted_token_validates with now.
Qed.

(** C9. A stolen token is useless without the login's key.  Whatever request carries the access token of the
    grant, the middleware calls the wrapped service only if the request also carries a DPoP proof, for
    its method and URI, that verifies under a key with the thumbprint of the login's key; and then the
    user is the one the authorization server named, with the scope it signed. *)
Theorem stolen_token_refused st req inp now st' user res :
  config_typed (verifier svc) → unix_secs (in_sys_now inp) = Some now → u64_valid now →
  serve st req inp = (st', Some user, res) → user_access_token user = tr_access_token t →
  user_did user = at_sub c ∧ user_scope user = at_scope c ∧
  ∃ proof htu claims jwk, dpop_header req = Some (Some proof) ∧ request_htu svc (req_uri req) = Some htu ∧
    proof_valid (verifier svc) proof (method req) htu None
      (if require_ath svc then Some (compute_access_token_hash (tr_access_token t)) else None) now claims jwk ∧
    jwk_thumbprint jwk = thumb.
Proof.
  intros Hcfg Hnow Hu Hcall Htok.
  apply (call_spec hash inner during_validation during_inner svc st req inp now) in Hcall; [|done..].
  destruct Hcall as (claims & jwk & a & st1 & Hp & _ & Hb & _). rewrite Htok in Hp, Hb.
  destruct Hb as (now' & c' & _ & ->%granted_token_claims & Hv & -> & ->).
  destruct (ps_proof _ _ _ _ _ _ _ _ Hp) as (proof & htu & Hd & Hh & Hpv).
  split_and!; [done..|]. exists proof, htu, claims, jwk. split_and!; try done.
  rewrite <-(av_jkt _ _ _ _ Hv). apply (gr_bound GR).
Qed.
End end_to_end.

(** ** A concrete run: the worlds of Progress and Interop joined *)
Module EndToEndExamples.
#[local] Existing Instances nibble_base64 nibble_laws nibble_alphabet zero_sha2 unit_p256 unit_p256_laws
  plain_subtle plain_subtle_laws ascii_upper_case ascii_upper_laws numbered_json numbered_json_laws numbered_form
  numbered_form_laws HtuExamples.url_example HtuExamples.url_example_laws HtuExamples.url_example_reparse
  DpopExamples.object_serde DpopExamples.object_serde_laws DpopExamples.object_serde_typed
  ParExamples.table_parts TowerExamples.path_http IssuerExamples.numbered_claims IssuerExamples.numbered_serde
  IssuerExamples.numbered_typed IssuerExamples.numbered_laws.
Import ProgressExamples.
Definition secs (k : Z) : Z := k * 1000000000.
Definition claims : JwtAccessTokenClaims :=
  claims_with_scope (with_audience (access_claims_new "https://as.example.com" "did:web:pds.example.com" 2000
    (key_thumbprint ParExamples.key0) (secs 1000) [5; 6]) "rs") "atproto".
Definition token : string := default "" (result_ok (sign_jwt claims ParExamples.key0 (Some "k1"))).
Definition bound_grant : TokenResponse :=
  mkTokenResponse token "DPoP" (Some 3600) (Some "rt2") (Some "atproto") "did:web:pds.example.com".
#[local] Instance granting_jwt : TokenSerde := {| token_response_from_slice := λ _, Ok bound_grant |}.
Definition svc : OAuthAuthService (V := JwtAccessTokenValidator) :=
  mkService verifier_new IssuerExamples.validator true None.
Definition issued := generate_nonce base64url_encode (nonce_source_new 300) (secs 1000) [9; 9].
Definition st : TowerState := mkTower (Some replay_new) (Some (fst issued)).
Definition inputs : Inputs := mkInputs (secs 1030) (secs 1030) (secs 1030) 0 [] (secs 1030) (secs 1030) [3].
Definition n : option string := result_ok (snd issued).
Definition inner (_ : Request) (_ : AuthenticatedUser) : result string HttpResponse := Ok (mkResp 200 []).
Definition user : AuthenticatedUser :=
  mkUser "did:web:pds.example.com" token (key_thumbprint ParExamples.key0) (Some "atproto").

Lemma granted : grants ParExamples.env ParExamples.ep ParExamples.ok_body e0 bound_grant claims ParExamples.key0 (Some "k1").
Proof.
  split; try reflexivity.
  - unfold response_for. split_and!; [reflexivity|discriminate|intros d [= <-]; reflexivity|].
    eexists. split; [reflexivity|]. left.
  - intros k. vm_compute. discriminate.
  - split_and!; [split; vm_compute; discriminate..|discriminate|]. intros a [= <-]. split; [discriminate|split; reflexivity].
Qed.

Lemma policy : access_claims_valid (token_validator svc) claims 1030 (key_thumbprint ParExamples.key0).
Proof.
  split.
  - vm_compute. reflexivity.
  - discriminate.
  - split; [reflexivity|discriminate].
  - exists "rs". split; [reflexivity|by left].
  - split; [discriminate|by intros s [= <-]].
  - intros r Hr. apply list_elem_of_singleton in Hr. subst r. vm_compute. left.
  - reflexivity.
Qed.

Lemma in_order0 k : in_order svc (granted_session e0 bound_grant (e_clock ParExamples.env k)) "GET"
  "https://example.com:443/xrpc" "https://example.com/xrpc" "https://example.com/xrpc" (secs 1000) [1; 2] "/xrpc" inputs.
Proof. split; vm_compute; repeat split; try reflexivity; try discriminate. Qed.

Lemma login_reaches_resource_witness :
  ∃ s' k jwt, handle_callback SsrfExamples.fst_key hash0 ParExamples.env (λ _, 1) cl p0 s0 =
      (s', Ok (granted_session e0 bound_grant (e_clock ParExamples.env k))) ∧
    (call hash0 inner id id svc st
       (mkRequest (Some (Some (dpop_auth_header (granted_session e0 bound_grant (e_clock ParExamples.env k)))))
          (Some (Some jwt)) "GET" "/xrpc") inputs).1.2 = Some user.
Proof.
  destruct (login_reaches_resource SsrfExamples.fst_key ParExamples.env verifier_new ParExamples.ep "n1"
    "https://example.com/xrpc" ParExamples.ok_body ParExamples.challenge ParExamples.secs ParExamples.f
    ParExamples.url ParExamples.fair e0 bound_grant claims ParExamples.key0 (Some "k1") granted hash0 inner id id svc
    eq_refl hash0 (λ _, 1) cl p0 s0) as (s' & k & E & _ & Hreq).
  - apply insert_state_sync_wf, new_wf.
  - reflexivity.
  - unfold callback_for. split_and!; [reflexivity|reflexivity|]. eexists. split; reflexivity.
  - reflexivity.
  - destruct (Hreq "GET" "https://example.com:443/xrpc" "https://example.com/xrpc" "https://example.com/xrpc" n
      (secs 1000) [1; 2] "/xrpc" inputs st 1030 (in_order0 k)) as (jwt & _ & Hcall).
    + intros ns [= <-]. exists (default "" n). vm_compute. split; reflexivity.
    + vm_compute. reflexivity.
    + exact policy.
    + intros st1 ca E1 E2. unfold id in E2. rewrite E1 in E2. injection E2 as <-. vm_compute. split; reflexivity.
    + exists s', k, jwt. exact (conj E Hcall).
Defined.

(** The served request of that run carries a proof under the login's key. *)
Definition proof0 : string := default "" (result_ok
  (session_create_dpop_proof (granted_session e0 bound_grant 0) "GET" "https://example.com:443/xrpc" n (secs 1000) [1; 2])).
Definition request0 : Request := mkRequest (Some (Some ("DPoP " +:+ token))) (Some (Some proof0)) "GET" "/xrpc".
Abbreviation served := (call hash0 inner id id svc st request0 inputs).
Lemma stolen_token_refused_witness :
  snd (fst served) = Some user ∧
  ∃ proof htu cl' jwk, dpop_header request0 = Some (Some proof) ∧ request_htu svc "/xrpc" = Some htu ∧
    proof_valid verifier_new proof "GET" htu None (Some (compute_access_token_hash token)) 1030 cl' jwk ∧
    jwk_thumbprint jwk = key_thumbprint ParExamples.key0.
Proof.
  assert (snd (fst served) = Some user) as Es by (vm_compute; reflexivity). split; [exact Es|].
  apply (stolen_token_refused ParExamples.env ParExamples.ep ParExamples.ok_body e0 bound_grant claims
    ParExamples.key0 (Some "k1") granted hash0 inner id id svc eq_refl st request0 inputs 1030 (fst (fst served)) user
    (snd served)).
  - vm_compute. split; discriminate.
  - vm_compute. reflexivity.
  - vm_compute. split; discriminate.
  - rewrite <-Es. exact (eq_trans (surjective_pairing served) (f_equal (λ x, (x, snd served)) (surjective_pairing (fst served)))).
  - reflexivity.
Defined.
End EndToEndExamples.
