(* ===== verification/Web.v ===== *)
(** * Web: the layer's configuration and the framework adapters

    src/src/integrations/tower.rs (the layer and its builders), mod.rs (callback queries, users,
    session extensions), axum.rs and actix.rs (extractors and responses).  Decoding of query strings and
    of users is serde's; whether a text is a header value is the http crate's. *)
From S2P Require Import Prelude Errors Strs Externals Instances IpFilter Net Ssrf Fetch Identity Discovery Crypto.
From S2P Require Import Replay Nonces Htu Dpop Session Exchange Par TokenRequest ClientConfig Client Validator Tower.
Open Scope Z_scope.

(** ** The tower layer

    A configuration is a service together with the nonce source its requests share. *)
Section layer.
Context `{HttpCrate} {V : Type}.

Record OAuthAuthLayer := mkLayer {
  l_verifier : DPoPVerifier;
  l_token_validator : V;
  l_nonce_source : option InMemoryServerNonceSource;
  l_require_ath : bool;
  l_htu_override : option (Uri → string)
}.

Definition layer_new (verifier : DPoPVerifier) (token_validator : V) : OAuthAuthLayer :=
  mkLayer verifier token_validator None true None.
Definition layer_with_nonce_source (l : OAuthAuthLayer) (ns : InMemoryServerNonceSource) : OAuthAuthLayer :=
  mkLayer (l_verifier l) (l_token_validator l) (Some ns) (l_require_ath l) (l_htu_override l).
Definition layer_with_server_nonces (l : OAuthAuthLayer) (ttl : Z) : OAuthAuthLayer :=
  mkLayer (l_verifier l) (l_token_validator l) (Some (nonce_source_new (as_secs ttl))) (l_require_ath l) (l_htu_override l).
Definition layer_with_require_ath (l : OAuthAuthLayer) (require_ath : bool) : OAuthAuthLayer :=
  mkLayer (l_verifier l) (l_token_validator l) (l_nonce_source l) require_ath (l_htu_override l).
Definition layer_with_htu_override (l : OAuthAuthLayer) (f : Uri → string) : OAuthAuthLayer :=
  mkLayer (l_verifier l) (l_token_validator l) (l_nonce_source l) (l_require_ath l) (Some f).

(** [Layer::layer]; the wrapped service is an argument of [call]. *)
Definition layer (l : OAuthAuthLayer) : OAuthAuthService (V := V) * option InMemoryServerNonceSource :=
  (mkService (l_verifier l) (l_token_validator l) (l_require_ath l) (l_htu_override l), l_nonce_source l).

(** The same settings on a service. *)
Local Abbreviation Service := (OAuthAuthService (V := V) * option InMemoryServerNonceSource)%type.
Definition service_new (v : DPoPVerifier) (token_validator : V) : Service := (mkService v token_validator true None, None).
Definition service_with_nonce_source (s : Service) (ns : InMemoryServerNonceSource) : Service := (fst s, Some ns).
Definition service_with_server_nonces (s : Service) (ttl : Z) : Service := (fst s, Some (nonce_source_new (as_secs ttl))).
Definition service_with_require_ath (s : Service) (require_ath : bool) : Service :=
  (mkService (verifier (fst s)) (token_validator (fst s)) require_ath (htu_override (fst s)), snd s).
Definition service_with_htu_override (s : Service) (f : Uri → string) : Service :=
  (mkService (verifier (fst s)) (token_validator (fst s)) (require_ath (fst s)) (Some f), snd s).

(** One setting, for a layer or a service. *)
Inductive setting :=
| NonceSource (ns : InMemoryServerNonceSource)
| ServerNonces (ttl : Z)
| RequireAth (b : bool)
| HtuOverride (f : Uri → string).
Definition set_layer (l : OAuthAuthLayer) (x : setting) : OAuthAuthLayer :=
  match x with
  | NonceSource ns => layer_with_nonce_source l ns
  | ServerNonces ttl => layer_with_server_nonces l ttl
  | RequireAth b => layer_with_require_ath l b
  | HtuOverride f => layer_with_htu_override l f
  end.
Definition set_service (s : Service) (x : setting) : Service :=
  match x with
  | NonceSource ns => service_with_nonce_source s ns
  | ServerNonces ttl => service_with_server_nonces s ttl
  | RequireAth b => service_with_require_ath s b
  | HtuOverride f => service_with_htu_override s f
  end.

(** Configuring the layer and then wrapping a service, or wrapping and then configuring, is the same;
    a layer nobody touched requires the token hash and derives the target URI itself. *)
Lemma layer_settings_commute v tv xs :
  layer (foldl set_layer (layer_new v tv) xs) = foldl set_service (service_new v tv) xs.
Proof.
  change (service_new v tv) with (layer (layer_new v tv)). generalize (layer_new v tv). induction xs as [|x xs IH]; [done|].
  intros l. simpl. rewrite IH. by destruct x.
Qed.
End layer.

(** ** Callback queries *)
Record OAuthCallbackQuery := mkQuery {
  q_code : option string; q_state : option string; q_iss : option string;
  q_error : option string; q_error_description : option string
}.
Definition query_new (code state : string) : OAuthCallbackQuery := mkQuery (Some code) (Some state) None None None.
Definition query_new_error (error : string) (description : option string) : OAuthCallbackQuery :=
  mkQuery None None None (Some error) description.
Definition query_with_iss (q : OAuthCallbackQuery) (iss : string) : OAuthCallbackQuery :=
  mkQuery (q_code q) (q_state q) (Some iss) (q_error q) (q_error_description q).

Definition to_callback_params (q : OAuthCallbackQuery) : result IntegrationError CallbackParams :=
  match q_error q with
  | Some err => Err (IntegrationError_OAuthError err (default "" (q_error_description q)))
  | None =>
      code ← ok_or (q_code q) IntegrationError_MissingCode;
      state ← ok_or (q_state q) IntegrationError_MissingState;
      let params := callback_new code state in
      Ok (match q_iss q with Some iss => with_iss params iss | None => params end)
  end.

(** A query becomes callback parameters exactly when it reports no error and has a code and a state,
    and the parameters are then the query's. *)
Lemma to_callback_params_Ok q p :
  to_callback_params q = Ok p ↔
  q_error q = None ∧ q_code q = Some (cb_code p) ∧ q_state q = Some (cb_state p) ∧ q_iss q = cb_iss p.
Proof.
  unfold to_callback_params. destruct q as [[c|] [s|] [i|] [e|] d], p as [pc ps pi]; cbn; naive_solver.
Qed.

(** ** Users *)
Record RawUser := mkRawUser {
  raw_did : string; raw_access_token : option string; raw_dpop_thumbprint : string; raw_scope : option string
}.
(** serde: a user is written without its token, and read as a [RawUser]. *)
Class UserSerde := {
  user_to_string : AuthenticatedUser → string;
  raw_user_from_str : string → result string RawUser
}.
Class UserSerdeLaws `{UserSerde} : Prop := {
  user_written_without_token u : raw_user_from_str (user_to_string u) =
    Ok (mkRawUser (user_did u) None (user_dpop_thumbprint u) (user_scope u))
}.

Definition user_deserialize (raw : result string RawUser) : result string AuthenticatedUser :=
  raw ← raw;
  access_token ← ok_or (raw_access_token raw)
    "AuthenticatedUser deserialization requires a non-empty access_token; serialized views omit the token by design, so re-authenticate instead";
  _ ← fail_if (str_is_empty (trim access_token))
    "AuthenticatedUser deserialized with an empty access_token; tokens must be supplied by the validator, not from untrusted data";
  Ok (mkUser (raw_did raw) access_token (raw_dpop_thumbprint raw) (raw_scope raw)).

Definition user_new (did access_token dpop_thumbprint : string) : AuthenticatedUser :=
  mkUser did access_token dpop_thumbprint None.
Definition user_with_scope (u : AuthenticatedUser) (scope : string) : AuthenticatedUser :=
  mkUser (user_did u) (user_access_token u) (user_dpop_thumbprint u) (Some scope).
Definition user_into_parts (u : AuthenticatedUser) : string * string * string * option string :=
  (user_did u, user_access_token u, user_dpop_thumbprint u, user_scope u).

(** A serialised user is a view without credential: it never reads back as a user; and what does read
    back has a token that is not blank. *)
Lemma user_view_has_no_credential `{UserSerdeLaws} u :
  is_ok (user_deserialize (raw_user_from_str (user_to_string u))) = false ∧
  ∀ raw u', user_deserialize raw = Ok u' → trim (user_access_token u') ≠ "".
Proof.
  split; [by rewrite user_written_without_token|]. intros raw u'. unfold user_deserialize, str_is_empty.
  intros (r & _ & (t & _ & E)%bind_Ok)%bind_Ok. rewrite bind_unit, fail_if_Ok, String.eqb_neq in E.
  by destruct E as [? [= <-]].
Qed.

Section web.
Context `{Base64} `{Sha2} `{P256} `{SerdeJson} `{HttpCrate} `{UrlCrate}.

Record OAuthSessionExtension := mkExtension { ext_user : AuthenticatedUser; ext_session : option OAuthSession }.
Definition extension_new (u : AuthenticatedUser) : OAuthSessionExtension := mkExtension u None.
Definition from_session (s : OAuthSession) : OAuthSessionExtension :=
  mkExtension (mkUser (sub s) (access_token s) (key_thumbprint (dpop_key s)) (ses_scope s)) (Some s).

(** What the extractors see of a request: the extensions and the authorization header (absent, not
    visible ASCII, or its text). *)
Record Parts := mkParts {
  p_query : option string;
  p_extension : option OAuthSessionExtension;
  p_user : option AuthenticatedUser;
  p_authorization : option (option string)
}.

(** [serde_urlencoded::from_str]. *)
Context (query_from_str : string → result string OAuthCallbackQuery).

(** ** Axum *)

(** A rejection: status and JSON body. *)
Definition axum_rejection (status : Z) (error description : string) : Z * json :=
  (status, JObject [("error", JString error); ("error_description", JString description)]).

Definition axum_callback_query (parts : Parts) : result (Z * json) OAuthCallbackQuery :=
  let query_str := default "" (p_query parts) in
  map_err (λ err, axum_rejection 400 "invalid_request" ("Malformed OAuth callback query parameters: " +:+ err))
    (query_from_str query_str).

(** The scheme of the authorization header is DPoP. *)
Definition scheme_ok (auth_str : string) : bool :=
  match split_once_char " " auth_str with Some (scheme, _) => eq_ignore_ascii_case scheme "DPoP" | None => false end.

Definition axum_user (parts : Parts) : result (Z * json) AuthenticatedUser :=
  match p_extension parts, p_user parts with
  | Some ext, _ => Ok (ext_user ext)
  | None, Some user => Ok user
  | None, None =>
      _ ← match p_authorization parts with
          | Some (Some auth_str) =>
              fail_if (negb (scheme_ok auth_str))
                (axum_rejection 401 "invalid_token" "Invalid Authorization scheme: expected 'DPoP'")
          | _ => Ok tt
          end;
      Err (axum_rejection 401 "unauthorized" "Missing authenticated session extension or credentials")
  end.

(** A response with its body; building fails on a header value that is none. *)
Record WebResponse := mkWeb { web_head : HttpResponse; web_body : list Z }.
Definition response_with (status : Z) (headers : list (string * string)) (body : list Z) : option WebResponse :=
  if forallb (λ kv, header_value_ok (snd kv)) headers then Some (mkWeb (mkResp status headers) body) else None.

Definition client_metadata_response (metadata : OAuthClientMetadata) (build_error : string)
    : result IntegrationError WebResponse :=
  json_bytes ← map_err (λ e, IntegrationError_Internal ("Failed to serialize client metadata: " +:+ e))
                 (json_to_string (to_json_value metadata));
  ok_or (response_with 200 [("content-type", "application/json"); ("access-control-allow-origin", "*")] (as_bytes json_bytes))
    (IntegrationError_Internal ("Failed to construct metadata response: " +:+ build_error)).

Definition redirect_to_authorization (auth_req : AuthorizationRequest) (build_error : string)
    : result IntegrationError WebResponse :=
  ok_or (response_with 303 [("location", url_as_str (authorization_url auth_req)); ("cache-control", "no-store");
                            ("pragma", "no-cache")] [])
    (IntegrationError_Internal ("Failed to construct redirect response: " +:+ build_error)).

(** ** Actix: errors are a status and a text *)
Definition actix_callback_query (query_string : string) : result (Z * string) OAuthCallbackQuery :=
  map_err (λ err, (400, "Malformed OAuth callback query parameters: " +:+ err)) (query_from_str query_string).

Definition actix_user (parts : Parts) : result (Z * string) AuthenticatedUser :=
  match p_extension parts, p_user parts with
  | Some ext, _ => Ok (ext_user ext)
  | None, Some user => Ok user
  | None, None =>
      _ ← match p_authorization parts with
          | Some (Some auth_str) =>
              fail_if (negb (scheme_ok auth_str)) (401, "Invalid Authorization scheme: expected 'DPoP'")
          | _ => Ok tt
          end;
      Err (401, "Missing authenticated session extension or credentials")
  end.

Definition client_metadata_http_response (metadata : OAuthClientMetadata) : result IntegrationError WebResponse :=
  json_string ← map_err (λ e, IntegrationError_Internal ("Failed to serialize metadata: " +:+ e))
                  (json_to_string (to_json_value metadata));
  Ok (mkWeb (mkResp 200 [("content-type", "application/json"); ("access-control-allow-origin", "*")]) (as_bytes json_string)).

(** [on_error]: what [finish] answers after a header value was refused. *)
Definition redirect_to_authorization_http_response (auth_req : AuthorizationRequest) (on_error : WebResponse)
    : WebResponse :=
  default on_error
    (response_with 303 [("location", url_as_str (authorization_url auth_req)); ("cache-control", "no-store");
                        ("pragma", "no-cache")] []).

(** ** The two frameworks agree *)

(** The text of an axum rejection. *)
Definition rejection_text (r : Z * json) : Z * option string := (fst r, get_str (snd r) "error_description").

(** The extractors of the two frameworks agree on every request: same user, or same status and same
    description; a user comes from the request's extensions, the session extension first, and never
    from the header, whatever it holds; the refusals are 401 for a user and 400 for a query. *)
Theorem adapters_agree parts :
  (∀ u, axum_user parts = Ok u ↔ actix_user parts = Ok u) ∧
  (∀ u, axum_user parts = Ok u ↔
     (ext_user <$> p_extension parts) = Some u ∨ (p_extension parts = None ∧ p_user parts = Some u)) ∧
  (∀ r, axum_user parts = Err r → fst r = 401 ∧ actix_user parts = Err (401, default "" (snd (rejection_text r)))) ∧
  (∀ q, axum_callback_query parts = Ok q ↔ actix_callback_query (default "" (p_query parts)) = Ok q) ∧
  (∀ r, axum_callback_query parts = Err r →
     fst r = 400 ∧ actix_callback_query (default "" (p_query parts)) = Err (400, default "" (snd (rejection_text r)))).
Proof.
  unfold axum_user, actix_user, axum_callback_query, actix_callback_query, rejection_text.
  destruct parts as [q [e|] [u|] [[a|]|]]; cbn -[scheme_ok]; try (destruct (scheme_ok a));
    (destruct (query_from_str _); cbn); split_and!; naive_solver.
Qed.

(** The responses agree where the http crate accepts the header values. *)
Lemma responses_agree metadata auth_req build_error on_error :
  header_value_ok "application/json" = true → header_value_ok "*" = true →
  (∀ r, client_metadata_response metadata build_error = Ok r ↔ client_metadata_http_response metadata = Ok r) ∧
  (∀ r, redirect_to_authorization auth_req build_error = Ok r → redirect_to_authorization_http_response auth_req on_error = r).
Proof.
  intros H1' H2'. unfold client_metadata_response, client_metadata_http_response, redirect_to_authorization,
    redirect_to_authorization_http_response, response_with. split.
  - intros r. destruct (json_to_string _); [|done]. cbn. rewrite H1', H2'. done.
  - intros r. destruct (forallb _ _); [|done]. by intros [= <-].
Qed.
End web.
