(* ===== verification/Redaction.v ===== *)
(** * Redaction: what [Debug] shows of values that hold credentials, and what [zeroize] leaves

    The hand-written [Debug], [Display], [Zeroize] and [Drop] implementations of src/src/session.rs,
    client.rs, par.rs, dpop.rs, sealed.rs, store.rs and integrations/mod.rs.  A type that holds
    credentials has a public view; the class [Redacted] states that its [Debug] text is a function of
    that view.  The text of a [str], a [SystemTime] and a [Duration] under [{:?}] is the standard
    library's and depends on Unicode tables and the platform, so it is a parameter ([StdDebug]). *)
From S2P Require Import Prelude Errors Strs Externals Instances IpFilter Net Ssrf Fetch Crypto Store.
From S2P Require Import Nonces Pkce Htu Dpop Session Sealed Exchange Par TokenRequest ClientConfig Client Validator.
Open Scope Z_scope.

(** ** [std::fmt] and the zeroize crate *)
Class StdDebug := {
  str_debug : string → string;
  time_debug : Z → string;
  duration_debug : Z → string
}.
(** Escaping is invertible. *)
Class StdDebugLaws `{StdDebug} : Prop := { str_debug_inj s t : str_debug s = str_debug t → s = t }.

(** [String::zeroize] overwrites the buffer and truncates it to the empty string. *)
Class ZeroizeCrate := { zeroize_string : string → string }.
Class ZeroizeLaws `{ZeroizeCrate} : Prop := { zeroize_empty s : zeroize_string s = "" }.

(** [Formatter::debug_struct] with its fields, and the derived [Debug] of [Option], under [{:?}]. *)
Definition debug_struct (name : string) (fields : list (string * string)) : string :=
  match fields with
  | [] => name
  | _ => name +:+ " { " +:+ join_str ", " ((λ f, f.1 +:+ ": " +:+ f.2) <$> fields) +:+ " }"
  end.
Definition debug_option {A} (f : A → string) (o : option A) : string :=
  match o with Some a => "Some(" +:+ f a +:+ ")" | None => "None" end.

(** ** The interface: a text that is a function of the public view *)
Class Redacted (A : Type) := {
  View : Type;
  public_view : A → View;
  debug_fmt : A → string
}.
Definition same_view {A} `{Redacted A} (x y : A) : Prop := public_view x = public_view y.
#[export] Instance same_view_equivalence `{Redacted A} : Equivalence (same_view (A := A)).
Proof. split; unfold same_view; congruence. Qed.
Class RedactedLaws (A : Type) `{Redacted A} : Prop :=
  #[global] debug_fmt_proper :: Proper (same_view (A := A) ==> (=)) debug_fmt.

(** What [zeroize] erases: the view stays, and values with one view and the same retained part [keep]
    become equal, whatever their credentials were. *)
Class Erases (A K : Type) `{Redacted A} (keep : A → K) (zeroize : A → A) : Prop := {
  erase_view x : same_view (zeroize x) x;
  erase_forgets x y : same_view x y → keep x = keep y → zeroize x = zeroize y
}.

Section redaction.
Context `{StdDebug} `{ZeroizeCrate} `{Base64} `{Sha2} `{P256} `{SerdeJson} `{UrlCrate} `{UnicodeUpper}.

Definition redacted : string := str_debug "[REDACTED]".
(** [self.field.as_ref().map(|_| "[REDACTED]")]. *)
Definition redact_option {A} (o : option A) : string :=
  debug_option str_debug ((λ _, "[REDACTED]") <$> o).
Definition present {A} (o : option A) : bool := match o with Some _ => true | None => false end.
(** [if let Some(ref mut rt) = field { rt.zeroize() }]. *)
Definition zeroize_option (o : option string) : option string := zeroize_string <$> o.

(** *** Keys: the thumbprint of the public half *)
Definition dpop_key_debug (k : SigningKey) : string :=
  debug_struct "DPoPKey" [("thumbprint", str_debug (key_thumbprint k))].

(** *** [OAuthSession] *)
Definition session_debug (s : OAuthSession) : string :=
  debug_struct "OAuthSession"
    [("sub", str_debug (sub s)); ("access_token", redacted);
     ("refresh_token", redact_option (refresh_token s)); ("token_type", str_debug (token_type s));
     ("scope", debug_option str_debug (ses_scope s));
     ("expires_at", debug_option time_debug (ses_expires_at s)); ("dpop_key", dpop_key_debug (dpop_key s));
     ("pds_endpoint", debug_option str_debug (ses_pds_endpoint s));
     ("auth_server_issuer", debug_option str_debug (ses_auth_server_issuer s));
     ("token_endpoint", debug_option str_debug (ses_token_endpoint s));
     ("created_at", time_debug (ses_created_at s))].
Definition session_zeroize (s : OAuthSession) : OAuthSession :=
  mkSession (sub s) (zeroize_string (access_token s)) (zeroize_option (refresh_token s)) (token_type s)
    (ses_scope s) (ses_expires_at s) (dpop_key s) (ses_pds_endpoint s) (ses_auth_server_issuer s)
    (ses_token_endpoint s) (ses_created_at s).

#[export] Instance session_redacted : Redacted OAuthSession := {|
  public_view s := (sub s, present (refresh_token s), token_type s, ses_scope s, ses_expires_at s,
    key_thumbprint (dpop_key s), ses_pds_endpoint s, ses_auth_server_issuer s, ses_token_endpoint s,
    ses_created_at s);
  debug_fmt := session_debug
|}.

(** *** [StoredStateEntry] *)
Definition entry_debug (e : StoredStateEntry) : string :=
  debug_struct "StoredStateEntry"
    [("state", str_debug (en_state e)); ("client_id", str_debug (en_client_id e));
     ("code_verifier", redacted); ("dpop_key", dpop_key_debug (en_dpop_key e));
     ("issuer", str_debug (en_issuer e)); ("did", debug_option str_debug (en_did e));
     ("handle", debug_option str_debug (en_handle e)); ("redirect_uri", str_debug (en_redirect_uri e));
     ("pds_endpoint", str_debug (en_pds_endpoint e)); ("token_endpoint", str_debug (en_token_endpoint e));
     ("scopes", str_debug (en_scopes e)); ("created_at", time_debug (en_created_at e));
     ("expires_in_secs", pretty (en_expires_in_secs e))].
Definition entry_zeroize (e : StoredStateEntry) : StoredStateEntry :=
  mkEntry (en_state e) (en_client_id e) (zeroize_string (en_code_verifier e)) (en_dpop_key e)
    (en_issuer e) (en_did e) (en_handle e) (en_redirect_uri e) (en_pds_endpoint e)
    (en_token_endpoint e) (en_scopes e) (en_created_at e) (en_expires_in_secs e).

#[export] Instance entry_redacted : Redacted StoredStateEntry := {|
  public_view e := (en_state e, en_client_id e, key_thumbprint (en_dpop_key e), en_issuer e, en_did e,
    en_handle e, en_redirect_uri e, en_pds_endpoint e, en_token_endpoint e, en_scopes e,
    en_created_at e, en_expires_in_secs e);
  debug_fmt := entry_debug
|}.

(** *** [TokenResponse] *)
Definition token_response_debug (t : TokenResponse) : string :=
  debug_struct "TokenResponse"
    [("access_token", redacted); ("token_type", str_debug (tr_token_type t));
     ("expires_in", debug_option pretty (tr_expires_in t));
     ("refresh_token", redact_option (tr_refresh_token t));
     ("scope", debug_option str_debug (tr_scope t)); ("sub", str_debug (tr_sub t))].
Definition token_response_zeroize (t : TokenResponse) : TokenResponse :=
  mkTokenResponse (zeroize_string (tr_access_token t)) (tr_token_type t) (tr_expires_in t)
    (zeroize_option (tr_refresh_token t)) (tr_scope t) (tr_sub t).

#[export] Instance token_response_redacted : Redacted TokenResponse := {|
  public_view t := (tr_token_type t, tr_expires_in t, present (tr_refresh_token t), tr_scope t, tr_sub t);
  debug_fmt := token_response_debug
|}.

(** *** [AuthenticatedUser] *)
Definition user_debug (u : AuthenticatedUser) : string :=
  debug_struct "AuthenticatedUser"
    [("did", str_debug (user_did u)); ("access_token", redacted);
     ("dpop_thumbprint", str_debug (user_dpop_thumbprint u));
     ("scope", debug_option str_debug (user_scope u))].
Definition user_zeroize (u : AuthenticatedUser) : AuthenticatedUser :=
  mkUser (user_did u) (zeroize_string (user_access_token u)) (user_dpop_thumbprint u) (user_scope u).

#[export] Instance user_redacted : Redacted AuthenticatedUser := {|
  public_view u := (user_did u, user_dpop_thumbprint u, user_scope u);
  debug_fmt := user_debug
|}.

(** *** [ParParameters] and [OAuthClientMetadata] *)
Definition par_debug (p : ParParameters) : string :=
  debug_struct "ParParameters"
    [("client_id", str_debug (client_id p)); ("redirect_uri", str_debug (redirect_uri p));
     ("scope", str_debug (par_scope p)); ("state", str_debug (par_state p));
     ("code_challenge", str_debug (code_challenge p));
     ("code_challenge_method", str_debug (code_challenge_method p));
     ("response_type", str_debug (response_type p)); ("login_hint", debug_option str_debug (login_hint p));
     ("client_assertion_type", debug_option str_debug (client_assertion_type p));
     ("client_assertion", redact_option (client_assertion p))].
#[export] Instance par_redacted : Redacted ParParameters := {|
  public_view p := (client_id p, redirect_uri p, par_scope p, par_state p, code_challenge p,
    code_challenge_method p, response_type p, login_hint p, client_assertion_type p,
    present (client_assertion p));
  debug_fmt := par_debug
|}.

Definition metadata_debug (m : OAuthClientMetadata) : string :=
  debug_struct "OAuthClientMetadata"
    [("client_id", str_debug (md_client_id m)); ("redirect_uri", str_debug (md_redirect_uri m));
     ("scope", str_debug (md_scope m)); ("client_name", debug_option str_debug (client_name m));
     ("client_key", debug_option dpop_key_debug (client_key m))].
#[export] Instance metadata_redacted : Redacted OAuthClientMetadata := {|
  public_view m := (md_client_id m, md_redirect_uri m, md_scope m, client_name m,
    key_thumbprint <$> client_key m);
  debug_fmt := metadata_debug
|}.

(** *** [SealedBox] and [OAuthStateStore]: nothing of the key, nothing of the entries *)
Definition sealed_debug (b : SealedBox) : string := debug_struct "SealedBox" [("key", redacted)].
#[export] Instance sealed_redacted : Redacted SealedBox := {|
  public_view _ := tt; debug_fmt := sealed_debug
|}.
Definition store_debug (s : @OAuthStateStore StoredStateEntry) : string :=
  debug_struct "OAuthStateStore"
    [("num_shards", pretty NUM_SHARDS); ("default_ttl", duration_debug (default_ttl s))].
#[export] Instance store_redacted : Redacted (@OAuthStateStore StoredStateEntry) := {|
  public_view := default_ttl; debug_fmt := store_debug
|}.

(** ** Types with a derived [Debug] *)
Definition pkce_pair_debug (p : PkcePair) : string :=
  debug_struct "PkcePair"
    [("verifier", str_debug (verifier p)); ("challenge", str_debug (challenge p)); ("method", "S256")].
Definition callback_params_debug (p : CallbackParams) : string :=
  debug_struct "CallbackParams"
    [("code", str_debug (cb_code p)); ("state", str_debug (cb_state p));
     ("iss", debug_option str_debug (cb_iss p))].
Definition admission_debug (a : ReplayAdmission) : string :=
  debug_struct "ReplayAdmission"
    [("jkt", str_debug (adm_jkt a)); ("jti", str_debug (adm_jti a));
     ("expires_at", pretty (adm_expires_at a)); ("now", pretty (adm_now a))].
(** [Display] of a [ReplayAdmission]: the first eight bytes of the thumbprint and an ellipsis
    (U+2026, three bytes). *)
Definition admission_display (a : ReplayAdmission) : string :=
  "ReplayAdmission(jkt=" +:+ String.substring 0 (Nat.min (String.length (adm_jkt a)) 8) (adm_jkt a) +:+ "…)".

(** ** The texts are functions of the views *)
Lemma redact_option_present {A} (o : option A) :
  redact_option o = if present o then "Some(" +:+ str_debug "[REDACTED]" +:+ ")" else "None".
Proof. by destruct o. Qed.

Lemma zeroize_option_present `{!ZeroizeLaws} o : zeroize_option o = if present o then Some "" else None.
Proof. destruct o; [|done]. cbn. by rewrite zeroize_empty. Qed.

(** The optional key of the metadata shows as its optional thumbprint. *)
Lemma debug_option_key o :
  debug_option dpop_key_debug o =
  debug_option (λ t, debug_struct "DPoPKey" [("thumbprint", str_debug t)]) (key_thumbprint <$> o).
Proof. by destruct o. Qed.

(** Rewrite with the equations of the components. *)
Ltac by_components := repeat match goal with E : _ = _ |- _ => rewrite ?E; clear E end; reflexivity.

(** A text is determined by its view: unfold it, express it with the view, rewrite. *)
Ltac by_view text :=
  intros x y Hv; unfold same_view in Hv; cbn in Hv; simplify_eq;
  change (text x = text y); unfold text, dpop_key_debug;
  rewrite ?redact_option_present, ?debug_option_key; by_components.

#[export] Instance session_laws : RedactedLaws OAuthSession.
Proof. by_view session_debug. Qed.
#[export] Instance entry_laws : RedactedLaws StoredStateEntry.
Proof. by_view entry_debug. Qed.
#[export] Instance token_response_laws : RedactedLaws TokenResponse.
Proof. by_view token_response_debug. Qed.
#[export] Instance user_laws : RedactedLaws AuthenticatedUser.
Proof. by_view user_debug. Qed.
#[export] Instance par_laws : RedactedLaws ParParameters.
Proof. by_view par_debug. Qed.
#[export] Instance metadata_laws : RedactedLaws OAuthClientMetadata.
Proof. by_view metadata_debug. Qed.
#[export] Instance sealed_laws : RedactedLaws SealedBox.
Proof. by_view sealed_debug. Qed.
#[export] Instance store_laws : RedactedLaws (@OAuthStateStore StoredStateEntry).
Proof. by_view store_debug. Qed.

(** ** What [zeroize] leaves *)
Ltac by_erasure :=
  split; [by intros []; unfold same_view; cbn; rewrite ?zeroize_option_present; repeat case_match|];
  intros [] [] Hv Hk; unfold same_view in Hv; cbn in Hv, Hk; simplify_eq;
  unfold session_zeroize, entry_zeroize, token_response_zeroize, user_zeroize; cbn;
  rewrite ?zeroize_empty, ?zeroize_option_present; by_components.

#[export] Instance session_erases `{!ZeroizeLaws} : Erases OAuthSession SigningKey dpop_key session_zeroize.
Proof. by_erasure. Qed.
#[export] Instance entry_erases `{!ZeroizeLaws} : Erases StoredStateEntry SigningKey en_dpop_key entry_zeroize.
Proof. by_erasure. Qed.
#[export] Instance token_response_erases `{!ZeroizeLaws} :
  Erases TokenResponse unit (λ _, tt) token_response_zeroize.
Proof. by_erasure. Qed.
#[export] Instance user_erases `{!ZeroizeLaws} : Erases AuthenticatedUser unit (λ _, tt) user_zeroize.
Proof. by_erasure. Qed.

(** A rotation zeroizes the outgoing tokens and then overwrites them. *)
Lemma rotation_through_erasure s a r x sc now :
  rotate_tokens_with_scope (session_zeroize s) a r x sc now = rotate_tokens_with_scope s a r x sc now.
Proof. done. Qed.

(** ** Properties *)

(** C21. Credentials do not show.  The [Debug] text of a session, a stored login, a token response, an
    authenticated user, pushed parameters and a sealing box is the same for any two values that agree
    on their public view, whatever access tokens, refresh tokens, code verifiers, assertions and
    private keys they hold; after [zeroize] (hence on drop) nothing of the tokens and the verifier
    is left, and a rotated session does not depend on the tokens it had. *)
Theorem credentials_not_shown `{!ZeroizeLaws} :
  (∀ s s' : OAuthSession, same_view s s' →
     session_debug s = session_debug s' ∧
     (dpop_key s = dpop_key s' → session_zeroize s = session_zeroize s' ∧
        ∀ a r x sc now, rotate_tokens_with_scope s a r x sc now = rotate_tokens_with_scope s' a r x sc now)) ∧
  (∀ e e' : StoredStateEntry, same_view e e' →
     entry_debug e = entry_debug e' ∧ (en_dpop_key e = en_dpop_key e' → entry_zeroize e = entry_zeroize e')) ∧
  (∀ t t' : TokenResponse, same_view t t' →
     token_response_debug t = token_response_debug t' ∧ token_response_zeroize t = token_response_zeroize t') ∧
  (∀ u u' : AuthenticatedUser, same_view u u' → user_debug u = user_debug u' ∧ user_zeroize u = user_zeroize u') ∧
  (∀ p p' : ParParameters, same_view p p' → par_debug p = par_debug p') ∧
  (∀ b b' : SealedBox, sealed_debug b = sealed_debug b').
Proof.
  split_and!.
  - intros s s' Hv. split; [by apply session_laws|]. intros Hk.
    assert (session_zeroize s = session_zeroize s') as Hz by (by apply session_erases).
    split; [done|]. intros. by rewrite <-rotation_through_erasure, Hz.
  - intros e e' Hv. split; [by apply entry_laws|]. intros Hk. by apply entry_erases.
  - intros t t' Hv. split; [by apply token_response_laws|by apply token_response_erases].
  - intros u u' Hv. split; [by apply user_laws|by apply user_erases].
  - intros p p' Hv. by apply par_laws.
  - done.
Qed.

(** A derived text is not a function of such a view: a [PkcePair] shows its verifier, a
    [ReplayAdmission] the identifier its [Display] takes care to hide. *)
Lemma debug_struct_tail name f f' g rest :
  debug_struct name (f :: g :: rest) = debug_struct name (f' :: g :: rest) →
  f.1 +:+ ": " +:+ f.2 = f'.1 +:+ ": " +:+ f'.2.
Proof.
  unfold debug_struct. rewrite !fmap_cons. intros E.
  apply str_app_inj_l in E. apply str_app_inj_l in E. apply str_app_inj_r in E.
  cbn [join_str] in E. by apply str_app_inj_r in E.
Qed.
Lemma pkce_pair_debug_shows_verifier `{!StdDebugLaws} v v' c m :
  pkce_pair_debug (mkPkcePair v c m) = pkce_pair_debug (mkPkcePair v' c m) → v = v'.
Proof. intros E%debug_struct_tail. cbn [fst snd] in E. by apply str_app_inj_l, str_app_inj_l, str_debug_inj in E. Qed.
End redaction.

(** ** Concrete values *)
Module RedactionExamples.
#[local] Existing Instances nibble_base64 zero_sha2 unit_p256 numbered_json ascii_upper_case HtuExamples.url_example.
Definition quote : string := String "034" EmptyString.
#[local] Instance quoting : StdDebug :=
  {| str_debug s := quote +:+ s +:+ quote; time_debug := pretty; duration_debug := pretty |}.
#[local] Instance emptying : ZeroizeCrate := {| zeroize_string _ := "" |}.
#[local] Instance emptying_laws : ZeroizeLaws.
Proof. by split. Qed.

Definition held (access refresh : string) : @OAuthSession unit_p256 :=
  mkSession "did:plc:abc" access (Some refresh) "DPoP" (Some "atproto") None tt None None None 1000.
Definition user (access : string) : AuthenticatedUser := mkUser "did:plc:abc" access "thumb" None.

Example user_text :
  user_debug (user "at") = "AuthenticatedUser { did: " +:+ quote +:+ "did:plc:abc" +:+ quote +:+
    ", access_token: " +:+ quote +:+ "[REDACTED]" +:+ quote +:+ ", dpop_thumbprint: " +:+ quote +:+ "thumb" +:+
    quote +:+ ", scope: None }".
Proof. reflexivity. Qed.

Lemma credentials_not_shown_witness :
  session_debug (held "at-1" "rt-1") = session_debug (held "at-2" "rt-2") ∧
  session_zeroize (held "at-1" "rt-1") = session_zeroize (held "at-2" "rt-2") ∧
  user_zeroize (user "at-1") = user_zeroize (user "at-2").
Proof.
  destruct credentials_not_shown as (Hs & _ & _ & Hu & _). split_and!.
  - by apply Hs.
  - by apply Hs.
  - by apply Hu.
Defined.
End RedactionExamples.
