(* ===== verification/Harness.v ===== *)
(** * Harness: the coverage tracker and the proof harnesses' control flow

    [AntiVacuityCoverage] and [anti_vacuity_cover!] of src/src/verification/kani_harnesses.rs, and a
    monad in which a harness is written: it asserts ([assert!] and arithmetic overflow panic),
    assumes ([kani::assume] discards the execution) and reports cover points.  A value drawn with
    [kani::any()] is an argument of the harness that draws it.

    What a harness reports does not depend on what was recorded before, so a harness is its outcome
    together with the list of its cover points, and recording them is a function of that list.  The
    lock of [hit_points] cannot be poisoned: no thread panics while it holds the write guard. *)
From S2P Require Import Prelude.
Open Scope Z_scope.

(** ** [AntiVacuityCoverage] *)
Record AntiVacuityCoverage := mkCoverage {
  hit_points : gset string;
  total_assertions : Z
}.

Definition coverage_new : AntiVacuityCoverage := mkCoverage ∅ 0.

(** [fetch_add] on an [AtomicUsize] wraps around. *)
Definition usize_modulus : Z := u64_max + 1.

Definition cover (c : AntiVacuityCoverage) (tag : string) (condition : bool)
    : AntiVacuityCoverage :=
  mkCoverage (if condition then {[ tag ]} ∪ hit_points c else hit_points c)
             ((total_assertions c + 1) mod usize_modulus).

Definition covered_count (c : AntiVacuityCoverage) : Z := Z.of_nat (size (hit_points c)).

(** ** Harnesses *)
Inductive harness (A : Type) : Type :=
| Done (covers : list (string * bool)) (a : A)
| Panicked (msg : string)
| Discarded.
Arguments Done {A} covers a.
Arguments Panicked {A} msg.
Arguments Discarded {A}.

#[export] Instance harness_ret : MRet harness := λ A a, Done [] a.
#[export] Instance harness_bind : MBind harness := λ A B f h,
  match h with
  | Done cs a =>
      match f a with
      | Done cs' b => Done (cs ++ cs') b
      | Panicked m => Panicked m
      | Discarded => Discarded
      end
  | Panicked m => Panicked m
  | Discarded => Discarded
  end.

(** [assert!(b, msg)], [kani::assume(b)], [cover!(cond, tag)]. *)
Definition assert_msg (msg : string) (b : bool) : harness unit := if b then Done [] tt else Panicked msg.
Abbreviation assert := (assert_msg "assertion failed").
Definition assume (b : bool) : harness unit := if b then Done [] tt else Discarded.
Definition cover_tag (tag : string) (cond : bool) : harness unit := Done [(tag, cond)] tt.

(** [assert_eq!(a, b)]. *)
Definition assert_eq {A} `{EqDecision A} (a b : A) : harness unit := assert (bool_decide (a = b)).

(** [x + y] on [u64] and [usize]: overflow panics, also under Kani. *)
Definition u64_add (x y : Z) : harness Z :=
  if x + y <=? u64_max then Done [] (x + y) else Panicked "attempt to add with overflow".

(** [&a[..n]]: out of range panics. *)
Definition slice_to (l : list Z) (n : Z) : harness (list Z) :=
  if n <=? zlen l then Done [] (take (Z.to_nat n) l)
  else Panicked "range end index out of range for slice".

(** [for x in xs { body }]. *)
Fixpoint for_each {A} (xs : list A) (body : A → harness unit) : harness unit :=
  match xs with
  | [] => mret tt
  | x :: xs' => _ ← body x; for_each xs' body
  end.

(** [if let Ok(x) = r { body }]. *)
Definition if_let_Ok {E A} (r : result E A) (body : A → harness unit) : harness unit :=
  match r with Ok a => body a | Err _ => mret tt end.

Definition is_none {A} (o : option A) : bool := match o with None => true | Some _ => false end.
Definition is_some {A} (o : option A) : bool := negb (is_none o).
Definition is_err {E A} (r : result E A) : bool := negb (is_ok r).

(** [r.unwrap()], [o.unwrap()] and [r.unwrap_err()]. *)
Definition unwrap {E A} (r : result E A) : harness A :=
  match r with Ok a => Done [] a | Err _ => Panicked "called Result::unwrap() on an Err value" end.
Definition unwrap_some {A} (o : option A) : harness A :=
  match o with Some a => Done [] a | None => Panicked "called Option::unwrap() on a None value" end.
Definition unwrap_err {E A} (r : result E A) : harness E :=
  match r with Err e => Done [] e | Ok _ => Panicked "called Result::unwrap_err() on an Ok value" end.

(** ** The gate *)
Definition assert_all_covered (c : AntiVacuityCoverage) (required_tags : list string) : harness unit :=
  for_each required_tags (λ tag,
    assert_msg ("ANTI-VACUITY VIOLATION: Required cover point '" +:+ tag
                +:+ "' was never reached! Proof is vacuous.")
               (bool_decide (tag ∈ hit_points c))).

(** The tracker after a sequence of cover points. *)
Definition record (c : AntiVacuityCoverage) (covers : list (string * bool)) : AntiVacuityCoverage :=
  foldl (λ c tb, cover c tb.1 tb.2) c covers.

(** The cover points of a harness, and those that were hit. *)
Definition covers_of {A} (h : harness A) : list (string * bool) :=
  match h with Done cs _ => cs | _ => [] end.
Definition hits (covers : list (string * bool)) : gset string :=
  list_to_set (fst <$> filter (λ tb, tb.2 = true) covers).

(** ** A program logic for harnesses

    [wp h Q]: no execution of [h] panics, and one that is not discarded returns a value in [Q]. *)
Definition wp {A} (h : harness A) (Q : A → Prop) : Prop :=
  match h with Done _ a => Q a | Panicked _ => False | Discarded => True end.

Definition passes (h : harness unit) : Prop := wp h (λ _, True).

Lemma wp_bind {A B} (h : harness A) (f : A → harness B) Q :
  wp h (λ a, wp (f a) Q) → wp (h ≫= f) Q.
Proof. destruct h as [cs a| |]; simpl; [|done..]. by destruct (f a). Qed.

Lemma wp_mono {A} (h : harness A) (P Q : A → Prop) : (∀ a, P a → Q a) → wp h P → wp h Q.
Proof. destruct h; simpl; auto. Qed.

Lemma wp_ret {A} (a : A) (Q : A → Prop) : Q a → wp (mret a) Q.
Proof. done. Qed.

Lemma wp_assert msg b (Q : unit → Prop) : b = true → Q tt → wp (assert_msg msg b) Q.
Proof. by intros ->. Qed.

Lemma wp_assert_eq {A} `{EqDecision A} (a b : A) (Q : unit → Prop) :
  a = b → Q tt → wp (assert_eq a b) Q.
Proof. intros E HQ. apply wp_assert; [by apply bool_decide_eq_true|done]. Qed.

Lemma wp_assume b (Q : unit → Prop) : (b = true → Q tt) → wp (assume b) Q.
Proof. destruct b; simpl; auto. Qed.

Lemma wp_cover tag b (Q : unit → Prop) : Q tt → wp (cover_tag tag b) Q.
Proof. done. Qed.

Lemma wp_u64_add x y (Q : Z → Prop) : x + y ≤ u64_max → Q (x + y) → wp (u64_add x y) Q.
Proof. intros Hle HQ. unfold u64_add. case_if; b2p; [done|lia]. Qed.

Lemma wp_slice_to l n (Q : list Z → Prop) :
  n ≤ zlen l → Q (take (Z.to_nat n) l) → wp (slice_to l n) Q.
Proof. intros Hle HQ. unfold slice_to. case_if; b2p; [done|lia]. Qed.

Lemma wp_unwrap {E A} (r : result E A) a (Q : A → Prop) : r = Ok a → Q a → wp (unwrap r) Q.
Proof. by intros ->. Qed.
Lemma wp_unwrap_some {A} (o : option A) a (Q : A → Prop) : o = Some a → Q a → wp (unwrap_some o) Q.
Proof. by intros ->. Qed.
Lemma wp_unwrap_err {E A} (r : result E A) e (Q : E → Prop) : r = Err e → Q e → wp (unwrap_err r) Q.
Proof. by intros ->. Qed.

Lemma wp_for_each {A} (xs : list A) body :
  (∀ x, x ∈ xs → passes (body x)) → passes (for_each xs body).
Proof.
  induction xs as [|x xs IH]; intros Hb; simpl; [done|].
  apply wp_bind. eapply wp_mono; [|apply Hb; by left]. intros _ _. apply IH.
  intros y Hy. apply Hb. by right.
Qed.

(** Run the statements of a harness whose assertions [lia] or the context prove. *)
Ltac hstep :=
  match goal with
  | |- wp (_ ≫= _) _ => apply wp_bind
  | |- wp (mret _) _ => apply wp_ret
  | |- wp (cover_tag _ _) _ => apply wp_cover
  | |- wp (assume _) _ => apply wp_assume; intros ?
  | |- passes _ => unfold passes
  end.

(** ** The clock of a test

    [t k] is the [k]-th reading of [SystemTime::now()], in nanoseconds since the epoch.  A test runs between 1970
    and the far future, forwards, and for less than a minute. *)
Class TestClock (t : nat → Z) : Prop := {
  tc_start : 1000 * 1000000000 ≤ t 0%nat;
  tc_end : t 0%nat < 2 ^ 62 * 1000000000;
  tc_monotone i j : (i ≤ j)%nat → t i ≤ t j;
  tc_fast k : t k < t 0%nat + 60 * 1000000000
}.

Lemma start_bounds `{!TestClock t} : 1000 ≤ t 0%nat / 1000000000 < 2 ^ 62.
Proof. pose proof tc_start. pose proof tc_end. Z.to_euclidean_division_equations; lia. Qed.

Lemma reading `{!TestClock t} k :
  ∃ s, unix_secs (t k) = Some s ∧ s = t k / 1000000000 ∧ t 0%nat / 1000000000 ≤ s ≤ t 0%nat / 1000000000 + 60.
Proof.
  pose proof (tc_monotone 0 k ltac:(lia)). pose proof (tc_fast k). pose proof tc_start.
  exists (t k / 1000000000). unfold unix_secs. assert ((t k <? 0) = false) as -> by lia.
  split_and!; [done|done|..]; Z.to_euclidean_division_equations; lia.
Qed.

Example stopped_clock : TestClock (λ _, 1700000000 * 1000000000).
Proof. split; intros; lia. Qed.

(** ** Recording *)
Lemma record_hits c covers : hit_points (record c covers) = hit_points c ∪ hits covers.
Proof.
  revert c. unfold record. induction covers as [|[tag b] covers IH]; intros c; cbn [foldl].
  - set_solver.
  - rewrite IH. unfold hits. rewrite filter_cons. destruct b; simpl.
    + set_solver.
    + done.
Qed.

Lemma record_total c covers :
  0 ≤ total_assertions c < usize_modulus →
  total_assertions (record c covers) = (total_assertions c + zlen covers) mod usize_modulus.
Proof.
  intros Hc. unfold record, zlen. revert c Hc. induction covers as [|[tag b] covers IH]; intros c Hc.
  - cbn. rewrite Z.add_0_r, Z.mod_small; done.
  - cbn [foldl]. rewrite IH; cbn [cover total_assertions fst snd length].
    + rewrite Zplus_mod_idemp_l. f_equal. lia.
    + apply Z.mod_pos_bound. unfold usize_modulus, u64_max. lia.
Qed.

Lemma hits_permutation covers covers' : covers ≡ₚ covers' → hits covers = hits covers'.
Proof. intros Hp. unfold hits. by rewrite Hp. Qed.

(** Recording in another order, as when several threads record concurrently, makes no difference. *)
Lemma record_permutation c covers covers' :
  0 ≤ total_assertions c < usize_modulus → covers ≡ₚ covers' → record c covers = record c covers'.
Proof.
  intros Hc Hp. destruct (record c covers) as [hs n] eqn:E1, (record c covers') as [hs' n'] eqn:E2.
  assert (hs = hs') as <-.
  { change hs with (hit_points (mkCoverage hs n)). change hs' with (hit_points (mkCoverage hs' n')).
    by rewrite <-E1, <-E2, !record_hits, (hits_permutation _ _ Hp). }
  f_equal. change n with (total_assertions (mkCoverage hs n)).
  change n' with (total_assertions (mkCoverage hs n')).
  rewrite <-E1, <-E2, !record_total by done. unfold zlen. by rewrite (Permutation_length Hp).
Qed.

(** The gate passes exactly when every required tag was hit, and reports a tag that was not. *)
Lemma assert_all_covered_passes c tags :
  passes (assert_all_covered c tags) ↔ ∀ tag, tag ∈ tags → tag ∈ hit_points c.
Proof.
  split.
  - unfold assert_all_covered. induction tags as [|t tags IH]; simpl; [set_solver|].
    case_bool_decide as Ht; [|done]. cbn [assert_msg].
    intros Hp. assert (passes (assert_all_covered c tags)) as Hp'.
    { revert Hp. unfold passes, assert_all_covered, mbind, harness_bind. by destruct (for_each _ _). }
    intros tag [->|Hin]%elem_of_cons; [done|]. by apply IH.
  - intros Hall. apply wp_for_each. intros t Ht. apply wp_assert; [|done].
    apply bool_decide_eq_true. by apply Hall.
Qed.
