(* ===== verification/KaniHarnesses.v ===== *)
(** * KaniHarnesses: the proof harnesses of the repository

    The nine harnesses of src/src/verification/kani_harnesses.rs.  Each has two bodies: the one
    compiled under [cfg(kani)], whose inputs the model checker draws with [kani::any()]
    ([proof_*_kani], the draws as arguments), and the one compiled otherwise, a concrete run
    ([proof_*_concrete]).  Both call the definitions of the other files, which model the code the
    harnesses call.  KaniProofs has the theorems. *)
From S2P Require Import Prelude Errors Strs Externals Instances Crypto IpFilter Net Ssrf Multikey.
From S2P Require Import Store StoreModel Pkce Htu Dpop Harness.
Open Scope Z_scope.

(** ** Shared pieces *)

(** [l[i] = v] and [l[i] ^= v]: out of range panics. *)
Definition index_update (l : list Z) (i : Z) (f : Z → Z) : harness (list Z) :=
  if (0 <=? i) && (i <? zlen l) then Done [] (alter f (Z.to_nat i) l)
  else Panicked "index out of bounds".
Definition index_set (l : list Z) (i v : Z) : harness (list Z) := index_update l i (λ _, v).
Definition index_xor (l : list Z) (i v : Z) : harness (list Z) := index_update l i (λ b, Z.lxor b v).

(** [[b; n]] and [s.repeat(n)]. *)
Definition array (b : Z) (n : nat) : list Z := replicate n b.
Fixpoint str_repeat (s : string) (n : nat) : string :=
  match n with O => "" | S n' => s +:+ str_repeat s n' end.

(** [Ipv4Addr::to_ipv6_mapped] of the standard library. *)
Definition to_ipv6_mapped (ip : Ipv4Addr) : Ipv6Addr :=
  mkV6 0 0 0 0 0 0xffff (Z.lor (Z.shiftl (v4_a ip) 8) (v4_b ip))
    (Z.lor (Z.shiftl (v4_c ip) 8) (v4_d ip)).

(** ** Proof 1: single-use state consumption *)
Definition proof_single_use_state_consumption_kani (ttl_ticks insert_tick take1_tick take2_tick : Z)
    : harness unit :=
  let model := SingleStateModel.new in
  _ ← assume ((ttl_ticks >? 0) && (ttl_ticks <=? 1000));
  _ ← assume (insert_tick <=? 100);
  let '(model, initial_take) := SingleStateModel.take_state model 0 in
  _ ← assert (is_none initial_take);
  let '(model, inserted) := SingleStateModel.insert model ttl_ticks insert_tick in
  _ ← assert inserted;
  _ ← assume (take1_tick >=? insert_tick);
  limit ← u64_add insert_tick 2000;
  _ ← assume (take1_tick <=? limit);
  let '(model, take1) := SingleStateModel.take_state model take1_tick in
  model ←
    (if take1_tick <? u64_saturating_add insert_tick ttl_ticks then
       _ ← assert (is_some take1);
       _ ← assume (take2_tick >=? take1_tick);
       limit ← u64_add take1_tick 2000;
       _ ← assume (take2_tick <=? limit);
       let '(model, take2) := SingleStateModel.take_state model take2_tick in
       _ ← assert_msg "Consumed state cannot be consumed again" (is_none take2);
       _ ← cover_tag "first_take_success" (is_some take1);
       mret model
     else
       _ ← assert_msg "Expired state returns None" (is_none take1);
       _ ← cover_tag "expired_state_rejected" (is_none take1);
       mret model);
  assert (SingleStateModel.verify_single_use_invariant model).

Definition proof_single_use_state_consumption_concrete : harness unit :=
  let model := model_new in
  let state_token := "symbolic_state_token_123" in
  let client_id := "https://app.example.com/client-metadata.json" in
  let ttl_ticks := 100 in
  let '(model, initial_take) := model_take_state model state_token 0 in
  _ ← assert (is_none initial_take);
  _ ← cover_tag "uninitialized_state_rejected" (is_none initial_take);
  let '(model, inserted) := model_insert model state_token client_id ttl_ticks 10 in
  _ ← assert inserted;
  _ ← cover_tag "state_inserted" inserted;
  _ ← assert (verify_global_store_invariants model);
  let '(model, first_take) := model_take_state model state_token 20 in
  _ ← assert (is_some first_take);
  _ ← match first_take with
      | Some entry =>
          _ ← assert_eq (StoreModel.state_id entry) state_token;
          assert_eq (StoreModel.client_id entry) client_id
      | None => mret tt
      end;
  _ ← cover_tag "first_take_success" (is_some first_take);
  _ ← assert (model_verify_single_use model state_token);
  let '(model, second_take) := model_take_state model state_token 25 in
  _ ← assert (is_none second_take);
  _ ← cover_tag "second_take_rejected" (is_none second_take);
  _ ← assert (model_verify_single_use model state_token);
  let '(model, third_take) := model_take_state model state_token 30 in
  _ ← assert (is_none third_take);
  _ ← assert (model_verify_single_use model state_token);
  let expired_token := "symbolic_expired_state" in
  let '(model, exp_inserted) := model_insert model expired_token client_id 50 0 in
  _ ← assert exp_inserted;
  let '(model, exp_take) := model_take_state model expired_token 60 in
  _ ← assert (is_none exp_take);
  _ ← cover_tag "expired_state_rejected" (is_none exp_take);
  let race_token := "symbolic_race_state" in
  let '(model, race_inserted) := model_insert model race_token client_id 100 0 in
  _ ← assert race_inserted;
  let '(model, (winners, losers)) := simulate_concurrent_consumption_race model race_token 50 10 in
  _ ← assert_eq winners 1;
  _ ← assert_eq losers 49;
  _ ← cover_tag "concurrent_race_single_winner" ((winners =? 1) && (losers =? 49));
  _ ← assert (model_verify_single_use model race_token);
  assert (verify_global_store_invariants model).

(** ** Proof 2: rejection of restricted addresses *)
Definition proof_ssrf_restricted_ip_rejection_kani (o0 o1 o2 o3 : Z) : harness unit :=
  let ip := mkV4 o0 o1 o2 o3 in
  let filter := mkFilter false in
  let is_10 := o0 =? 10 in
  let is_172 := (o0 =? 172) && ((o1 >=? 16) && (o1 <=? 31)) in
  let is_192 := (o0 =? 192) && (o1 =? 168) in
  let is_loop := o0 =? 127 in
  let is_meta := (o0 =? 169) && (o1 =? 254) in
  let is_cgnat := (o0 =? 100) && ((o1 >=? 64) && (o1 <=? 127)) in
  let is_multi := (o0 >=? 224) && (o0 <=? 239) in
  let is_res := o0 >=? 240 in
  let should_block :=
    is_10 || is_172 || is_192 || is_loop || is_meta || is_cgnat || is_multi || is_res in
  _ ← assert_eq (is_restricted_ipv4 ip) (spec_is_restricted_ipv4 ip);
  _ ← (if should_block then
         _ ← assert (is_restricted_ipv4 ip);
         assert (is_err (validate_ip filter (V4 ip)))
       else mret tt);
  _ ← (if negb (spec_is_restricted_ipv4 ip)
       then assert_msg "permitted symbolic IPv4 must be accepted by SsrfFilter::validate_ip"
              (is_ok (validate_ip filter (V4 ip)))
       else mret tt);
  _ ← cover_tag "rfc1918_10_blocked" is_10;
  _ ← cover_tag "rfc1918_172_blocked" is_172;
  _ ← cover_tag "rfc1918_192_blocked" is_192;
  _ ← cover_tag "cloud_metadata_169_254_blocked" is_meta;
  _ ← cover_tag "loopback_127_blocked" is_loop;
  cover_tag "public_ip_allowed" (negb should_block).

(** The block of statements the concrete body repeats for each address it expects to be refused. *)
Definition expect_blocked_v4 (filter : SsrfFilter) (tag : string) (ip : Ipv4Addr) : harness unit :=
  _ ← assert (is_restricted_ip (V4 ip));
  _ ← assert (is_restricted_ipv4 ip);
  _ ← assert (spec_is_restricted_ipv4 ip);
  _ ← assert (is_err (validate_ip filter (V4 ip)));
  cover_tag tag (is_restricted_ipv4 ip).
Definition expect_blocked_v6 (filter : SsrfFilter) (tag : string) (ip : Ipv6Addr) : harness unit :=
  _ ← assert (is_restricted_ip (V6 ip));
  _ ← assert (is_restricted_ipv6 ip);
  _ ← assert (spec_is_restricted_ipv6 ip);
  _ ← assert (is_err (validate_ip filter (V6 ip)));
  cover_tag tag (is_restricted_ipv6 ip).

Definition proof_ssrf_restricted_ip_rejection_concrete : harness unit :=
  let filter := mkFilter false in
  _ ← expect_blocked_v4 filter "rfc1918_10_blocked" (mkV4 10 254 1 2);
  _ ← expect_blocked_v4 filter "rfc1918_172_blocked" (mkV4 172 31 255 254);
  _ ← expect_blocked_v4 filter "rfc1918_192_blocked" (mkV4 192 168 100 1);
  _ ← expect_blocked_v4 filter "cloud_metadata_169_254_blocked" (mkV4 169 254 169 254);
  _ ← expect_blocked_v4 filter "loopback_127_blocked" (mkV4 127 0 0 1);
  _ ← expect_blocked_v4 filter "cgnat_100_64_blocked" (mkV4 100 64 0 1);
  _ ← expect_blocked_v6 filter "ipv6_ula_fc00_blocked" (mkV6 0xfc00 0 0 0 0 0 0 1);
  _ ← expect_blocked_v6 filter "ipv6_link_local_fe80_blocked" (mkV6 0xfe80 0 0 0 0 0 0 1);
  _ ← expect_blocked_v6 filter "ipv4_mapped_ipv6_blocked" (to_ipv6_mapped (mkV4 10 0 0 1));
  let ip_pub := mkV4 8 8 8 8 in
  _ ← assert (negb (is_restricted_ip (V4 ip_pub)));
  _ ← assert (negb (is_restricted_ipv4 ip_pub));
  _ ← assert (negb (spec_is_restricted_ipv4 ip_pub));
  _ ← assert (is_ok (validate_ip filter (V4 ip_pub)));
  cover_tag "public_ip_allowed" (negb (is_restricted_ipv4 ip_pub)).

(** ** Proof 3: bounds and alphabet of PKCE verifiers *)

(** The byte test the symbolic body writes out. *)
Definition mirrored_byte_ok (b : Z) : bool :=
  u8_is_ascii_alphanumeric b || (b =? 45) || (b =? 46) || (b =? 95) || (b =? 126).

Definition proof_pkce_s256_verifier_bounds_kani (min_bytes max_bytes : list Z) (byte : Z)
    : harness unit :=
  let min_len_ok := is_valid_verifier_len 43 in
  let min_charset_ok := forallb is_unreserved_char min_bytes in
  let min_prod_ok := min_len_ok && forallb mirrored_byte_ok min_bytes in
  _ ← assert_eq min_prod_ok min_charset_ok;
  let max_len_ok := is_valid_verifier_len 128 in
  let max_charset_ok := forallb is_unreserved_char max_bytes in
  let max_prod_ok := max_len_ok && forallb mirrored_byte_ok max_bytes in
  _ ← assert_eq max_prod_ok max_charset_ok;
  _ ← assert_eq spec_s256_challenge_len 43;
  _ ← assert_eq (is_unreserved_char byte) (mirrored_byte_ok byte);
  _ ← cover_tag "valid_min_length_43_verifier" min_charset_ok;
  cover_tag "valid_max_length_128_verifier" max_charset_ok.

(** The statements repeated for a verifier that is expected to be accepted, or refused. *)
Definition expect_verifier (v : string) (accepted : bool) : harness unit :=
  _ ← assert (if accepted then is_ok (validate_verifier v) else is_err (validate_verifier v));
  assert (if accepted then spec_validate_verifier (as_bytes v)
          else negb (spec_validate_verifier (as_bytes v))).

Section pkce_harness.
Context `{Base64} `{Sha2}.

Definition proof_pkce_s256_verifier_bounds_concrete : harness unit :=
  let min_verifier := str_repeat "a" 43 in
  _ ← expect_verifier min_verifier true;
  let ch_min := derive_s256_challenge min_verifier in
  _ ← assert_eq (str_len ch_min) 43;
  _ ← cover_tag "valid_min_length_43_verifier" (is_ok (validate_verifier min_verifier));
  let max_verifier := str_repeat "z" 128 in
  _ ← expect_verifier max_verifier true;
  let ch_max := derive_s256_challenge max_verifier in
  _ ← assert_eq (str_len ch_max) 43;
  _ ← cover_tag "valid_max_length_128_verifier" (is_ok (validate_verifier max_verifier));
  let mid_verifier :=
    String.substring 0 64 "dBjftJeZ4CVP-mB92K27uhbUJU1p1r_wW1gFWFOEjXk.test~example-pkce-1234567" in
  _ ← expect_verifier mid_verifier true;
  _ ← cover_tag "valid_mid_length_verifier" (is_ok (validate_verifier mid_verifier));
  let short_verifier := str_repeat "a" 42 in
  _ ← expect_verifier short_verifier false;
  _ ← cover_tag "invalid_short_length_rejected" (is_err (validate_verifier short_verifier));
  let long_verifier := str_repeat "a" 129 in
  _ ← expect_verifier long_verifier false;
  _ ← cover_tag "invalid_long_length_rejected" (is_err (validate_verifier long_verifier));
  let illegal_space := "dBjftJeZ4CVP-mB92K27uhbUJU1p1r_wW1gFWFOEj k" in
  _ ← expect_verifier illegal_space false;
  let illegal_plus := "dBjftJeZ4CVP-mB92K27uhbUJU1p1r_wW1gFWFOEj+k" in
  _ ← assert (is_err (validate_verifier illegal_plus));
  _ ← cover_tag "invalid_character_rejected" (is_err (validate_verifier illegal_space));
  cover_tag "challenge_length_is_43" ((str_len ch_min =? 43) && (str_len ch_max =? 43)).
End pkce_harness.

(** ** Proof 4: constant-time equality *)
Section ct_harness.
Context `{Subtle}.

Definition proof_constant_time_eq_soundness_kani (a_full b_full : list Z) (a_len b_len : Z)
    (a b : list Z) : harness unit :=
  _ ← assert_eq (constant_time_eq a_full b_full) (spec_constant_time_eq_model a_full b_full);
  _ ← assert_eq (constant_time_eq a_full b_full) (bool_decide (a_full = b_full));
  _ ← assume ((1 <=? a_len) && (a_len <=? 8));
  _ ← assume ((1 <=? b_len) && (b_len <=? 8));
  a' ← slice_to a a_len;
  b' ← slice_to b b_len;
  let res := constant_time_eq a' b' in
  _ ← assert_eq res (spec_constant_time_eq_model a' b');
  _ ← assert_eq res (bool_decide (a' = b'));
  _ ← cover_tag "equal_non_empty_slices_true" (bool_decide (a_full = b_full));
  _ ← cover_tag "differing_first_byte_false" (negb (bool_decide (a_full = b_full)));
  cover_tag "mismatched_length_false" (negb (a_len =? b_len)).

(** The statements repeated for each variant of the secret. *)
Definition expect_differs (tag : string) (s1 s2 : list Z) : harness unit :=
  _ ← assert (negb (constant_time_eq s1 s2));
  _ ← assert (verify_soundness s1 s2);
  cover_tag tag (negb (constant_time_eq s1 s2)).
Definition expect_equal (tag : string) (s1 s2 : list Z) : harness unit :=
  _ ← assert (constant_time_eq s1 s2);
  _ ← assert (verify_soundness s1 s2);
  cover_tag tag (constant_time_eq s1 s2).

Definition proof_constant_time_eq_soundness_concrete : harness unit :=
  let s1 := as_bytes "cryptographic_secret_token_1234" in
  let s2 := as_bytes "cryptographic_secret_token_1234" in
  _ ← expect_equal "equal_non_empty_slices_true" s1 s2;
  diff_first ← index_xor s1 0 0x01;
  _ ← expect_differs "differing_first_byte_false" s1 diff_first;
  diff_last ← index_xor s1 (zlen s1 - 1) 0x01;
  _ ← expect_differs "differing_last_byte_false" s1 diff_last;
  diff_mid ← index_xor s1 (zlen s1 / 2) 0x01;
  _ ← expect_differs "differing_middle_byte_false" s1 diff_mid;
  short ← slice_to s1 16;
  _ ← expect_differs "mismatched_length_false" s1 short;
  expect_equal "empty_slices_true" [] [].
End ct_harness.

(** ** Proof 5: normalisation of the target URI

    The symbolic body is empty in the source. *)
Definition proof_dpop_htu_normalization_invariants_kani : harness unit := mret tt.

Definition htu_leaf (is_https : bool) (class : Z) (path : string) : harness unit :=
  let host := "auth.example.com" in
  let htu_scheme := if is_https then Https else Http in
  let port :=
    if class =? 0 then None
    else if class =? 1 then Some (default_port htu_scheme)
    else if class =? 2 then Some 8443 else Some 8080 in
  let out := build_normalized_htu htu_scheme host port path in
  _ ← assert (invariants_hold htu_scheme host port path out);
  _ ← cover_tag "port_443_stripped_success" ((class =? 1) && is_https);
  _ ← cover_tag "port_80_stripped_success" ((class =? 1) && negb is_https);
  _ ← cover_tag "custom_port_preserved_success" (class =? 2);
  _ ← cover_tag "absent_port_omitted" (class =? 0);
  _ ← cover_tag "other_custom_port_preserved" (class =? 3);
  cover_tag "uppercase_host_lowercased_success" true.

Definition htu_loop : harness unit :=
  for_each [false; true] (λ is_https,
    for_each [0; 1; 2; 3] (λ class,
      for_each ["/"; "/a"; "/oauth/token"; "/Token/Path"] (htu_leaf is_https class))).

Section htu_harness.
Context `{UrlCrate}.

Definition proof_dpop_htu_normalization_invariants_concrete : harness unit :=
  _ ← htu_loop;
  _ ← if_let_Ok (normalize_htu "https://example.com/oauth/token?grant_type=code") (λ res_query,
        _ ← assert_eq res_query "https://example.com/oauth/token";
        _ ← assert (spec_has_no_query res_query);
        cover_tag "query_stripped_success" (spec_has_no_query res_query));
  _ ← if_let_Ok (normalize_htu "https://example.com/oauth/token#frag") (λ res_frag,
        _ ← assert_eq res_frag "https://example.com/oauth/token";
        _ ← assert (spec_has_no_fragment res_frag);
        cover_tag "fragment_stripped_success" (spec_has_no_fragment res_frag));
  _ ← if_let_Ok (normalize_htu "https://example.com:443/oauth/token") (λ res_443,
        _ ← assert_eq res_443 "https://example.com/oauth/token";
        assert (spec_no_default_ports res_443));
  _ ← if_let_Ok (normalize_htu "http://example.com:80/oauth/token") (λ res_80,
        _ ← assert_eq res_80 "http://example.com/oauth/token";
        assert (spec_no_default_ports res_80));
  _ ← if_let_Ok (normalize_htu "https://example.com:8443/oauth/token") (λ res_custom,
        assert_eq res_custom "https://example.com:8443/oauth/token");
  _ ← if_let_Ok (normalize_htu "https://AUTH.EXAMPLE.COM/Token/Path") (λ res_case,
        _ ← assert_eq res_case "https://auth.example.com/Token/Path";
        _ ← assert (spec_valid_scheme res_case);
        cover_tag "uppercase_host_lowercased_success"
          (starts_with res_case "https://auth.example.com"));
  let res_ftp := normalize_htu "ftp://example.com/token" in
  _ ← assert (is_err res_ftp);
  cover_tag "invalid_scheme_rejected" (is_err res_ftp).
End htu_harness.

(** ** Proof 6: the byte-level PKCE validator refines its specification *)
Definition proof_pkce_validator_refinement_kani (len filler pos bad : Z) : harness unit :=
  _ ← assume (len <=? 132);
  _ ← assume (is_unreserved_byte filler);
  slice ← slice_to (array filler 132) len;
  let accepted := is_ok (validate_verifier_bytes slice) in
  let spec_ok := spec_validate_verifier slice in
  _ ← assert_eq accepted spec_ok;
  _ ← assume (pos <? 44);
  probe ← index_set (array 97 44) pos bad;
  let probe_res := validate_verifier_bytes probe in
  let prod_rejects := is_err probe_res in
  let spec_rejects := negb (spec_validate_verifier probe) in
  _ ← assert_eq prod_rejects spec_rejects;
  _ ← match probe_res with
      | Err (InvalidCharacter byte position) =>
          _ ← assert_eq position pos;
          _ ← assert_eq byte bad;
          cover_tag "invalid_byte_rejected" (negb (is_unreserved_byte bad))
      | _ => mret tt
      end;
  _ ← cover_tag "valid_byte_admitted_at_pos" (is_unreserved_byte bad);
  let concrete_43 := array 97 43 in
  _ ← assert (is_ok (validate_verifier_bytes concrete_43));
  _ ← cover_tag "valid_min_length_43_refined" (is_ok (validate_verifier_bytes concrete_43));
  let concrete_128 := array 122 128 in
  _ ← assert (is_ok (validate_verifier_bytes concrete_128));
  _ ← cover_tag "valid_max_length_128_refined" (is_ok (validate_verifier_bytes concrete_128));
  let short_42 := array 97 42 in
  _ ← assert (is_err (validate_verifier_bytes short_42));
  _ ← cover_tag "short_below_min_rejected" (is_err (validate_verifier_bytes short_42));
  let long_129 := array 97 129 in
  _ ← assert (is_err (validate_verifier_bytes long_129));
  _ ← cover_tag "long_above_max_rejected" (is_err (validate_verifier_bytes long_129));
  illegal ← index_set (array 97 44) 20 43;
  assert (is_err (validate_verifier_bytes illegal)).

Definition proof_pkce_validator_refinement_concrete : harness unit :=
  _ ← for_each [0; 1; 42; 43; 64; 128; 129; 132]%nat (λ len,
        let v := array 97 len in
        assert_eq (is_ok (validate_verifier_bytes v)) (spec_validate_verifier v));
  let short_42 := array 97 42 in
  _ ← assert (is_err (validate_verifier_bytes short_42));
  _ ← cover_tag "short_below_min_rejected" (is_err (validate_verifier_bytes short_42));
  let long_129 := array 97 129 in
  _ ← assert (is_err (validate_verifier_bytes long_129));
  _ ← cover_tag "long_above_max_rejected" (is_err (validate_verifier_bytes long_129));
  illegal ← index_set (array 97 43) 20 43;
  let err := validate_verifier_bytes illegal in
  _ ← assert (match err with
              | Err (InvalidCharacter byte position) => (byte =? 43) && (position =? 20)
              | _ => false
              end);
  _ ← cover_tag "invalid_byte_rejected" (is_err err);
  ok_probe ← index_set (array 97 44) 20 126;
  _ ← assert (is_ok (validate_verifier_bytes ok_probe));
  _ ← cover_tag "valid_byte_admitted_at_pos" (is_ok (validate_verifier_bytes ok_probe));
  let concrete_43 := array 97 43 in
  _ ← assert (is_ok (validate_verifier_bytes concrete_43));
  _ ← cover_tag "valid_min_length_43_refined" (is_ok (validate_verifier_bytes concrete_43));
  let concrete_128 := array 122 128 in
  _ ← assert (is_ok (validate_verifier_bytes concrete_128));
  cover_tag "valid_max_length_128_refined" (is_ok (validate_verifier_bytes concrete_128)).

(** ** Proof 7: the address adapters refine the octet and segment kernels *)
Definition proof_ipv6_adapter_refinement_kani (ip : Ipv4Addr) (v6 : Ipv6Addr) : harness unit :=
  let '(mkV4 o0 o1 o2 o3) := ip in
  _ ← assert_eq (is_restricted_ipv4 ip) (is_restricted_ipv4_octets o0 o1 o2 o3);
  _ ← assert_eq (is_restricted_ipv4_octets o0 o1 o2 o3) (spec_is_restricted_ipv4 ip);
  let '(mkV6 s0 s1 s2 s3 s4 s5 s6 s7) := v6 in
  let core := is_restricted_ipv6_segments s0 s1 s2 s3 s4 s5 s6 s7 in
  _ ← assert_eq (is_restricted_ip (V6 v6)) core;
  _ ← (if (s0 =? 0) && (s1 =? 0) && (s2 =? 0) && (s3 =? 0) && (s4 =? 0) && (s5 =? 0xffff) then
         let embedded :=
           is_restricted_ipv4_octets (Z.land (Z.shiftr s6 8) 0xff) (Z.land s6 0xff)
             (Z.land (Z.shiftr s7 8) 0xff) (Z.land s7 0xff) in
         _ ← assert_eq core embedded;
         _ ← cover_tag "ipv6_mapped_private_embedded" embedded;
         cover_tag "ipv6_mapped_public_embedded" (negb embedded)
       else mret tt);
  _ ← cover_tag "ipv6_ula_hit" (Z.land s0 0xfe00 =? 0xfc00);
  _ ← cover_tag "ipv6_link_local_hit" (Z.land s0 0xffc0 =? 0xfe80);
  _ ← cover_tag "ipv6_multicast_hit" (Z.land s0 0xff00 =? 0xff00);
  _ ← cover_tag "ipv6_teredo_hit" ((s0 =? 0x2001) && (s1 =? 0));
  _ ← cover_tag "ipv6_6to4_hit" (s0 =? 0x2002);
  cover_tag "ipv6_public_allowed" (negb core && negb (s0 =? 0x2001) && negb (s0 =? 0x2002)).

Definition proof_ipv6_adapter_refinement_concrete : harness unit :=
  let mapped_private := to_ipv6_mapped (mkV4 10 1 2 3) in
  let mapped_public := to_ipv6_mapped (mkV4 8 8 8 8) in
  _ ← assert (is_restricted_ipv6 mapped_private);
  _ ← cover_tag "ipv6_mapped_private_embedded" (is_restricted_ipv6 mapped_private);
  _ ← assert (negb (is_restricted_ipv6 mapped_public));
  _ ← cover_tag "ipv6_mapped_public_embedded" (negb (is_restricted_ipv6 mapped_public));
  let ula := mkV6 0xfc00 0 0 0 0 0 0 1 in
  let link_local := mkV6 0xfe80 0 0 0 0 0 0 1 in
  let multicast := mkV6 0xff02 0 0 0 0 0 0 1 in
  let teredo := mkV6 0x2001 0 0xdead 0xbeef 0 0 0 1 in
  let sixto4 := mkV6 0x2002 0x0a00 0x0001 0 0 0 0 1 in
  let documentation := mkV6 0x2001 0x0db8 0 0 0 0 0 1 in
  let nat64 := mkV6 0x64 0xff9b 0 0 0 0 0 1 in
  let public := mkV6 0x2606 0x4700 0 0 0 0 0 0x1111 in
  _ ← for_each [ula; link_local; multicast; teredo; sixto4; documentation; nat64] (λ ip,
        let restricted := is_restricted_ipv6 ip in
        let core := is_restricted_ipv6_segments (v6_0 ip) (v6_1 ip) (v6_2 ip) (v6_3 ip)
                      (v6_4 ip) (v6_5 ip) (v6_6 ip) (v6_7 ip) in
        _ ← assert_eq restricted core;
        assert_eq restricted (spec_is_restricted_ipv6 ip));
  _ ← for_each [("ipv6_ula_hit", ula); ("ipv6_link_local_hit", link_local);
                ("ipv6_multicast_hit", multicast); ("ipv6_teredo_hit", teredo);
                ("ipv6_6to4_hit", sixto4); ("ipv6_documentation_hit", documentation);
                ("ipv6_nat64_hit", nat64)] (λ '(tag, ip),
        _ ← assert (is_restricted_ipv6 ip);
        cover_tag tag (is_restricted_ipv6 ip));
  _ ← assert (negb (is_restricted_ipv6 public));
  cover_tag "ipv6_public_allowed" (negb (is_restricted_ipv6 public)).

(** ** Proof 8: the bound on [jti] *)

(** The predicate both bodies define. *)
Definition jti_admissible (len : Z) : bool := (len >? 0) && (len <=? MAX_JTI_LENGTH).

Definition proof_jti_admission_bound_kani (len : Z) : harness unit :=
  let max := MAX_JTI_LENGTH in
  _ ← assume (len <? 300);
  let admissible := jti_admissible len in
  _ ← (if len =? 0 then
         _ ← assert_msg "empty jti must be rejected" (negb admissible);
         cover_tag "jti_empty_rejected" (len =? 0)
       else if len >? max then assert_msg "over-cap jti must be rejected" (negb admissible)
       else assert_msg "in-bounds jti must be admitted" admissible);
  _ ← cover_tag "jti_at_cap_admitted" (len =? max);
  above ← u64_add max 1;
  _ ← cover_tag "jti_over_cap_rejected" (len =? above);
  _ ← cover_tag "jti_empty_rejected" (len =? 0);
  assert_msg "bound must accommodate UUID jti (36 bytes)" ((max =? 256) || (max >? 36)).

Definition proof_jti_admission_bound_concrete : harness unit :=
  let max := MAX_JTI_LENGTH in
  _ ← assert_msg "at-cap jti must be admitted" (jti_admissible max);
  _ ← cover_tag "jti_at_cap_admitted" (jti_admissible max);
  above ← u64_add max 1;
  _ ← assert_msg "over-cap jti must be rejected" (negb (jti_admissible above));
  _ ← cover_tag "jti_over_cap_rejected" (negb (jti_admissible above));
  _ ← assert_msg "empty jti must be rejected" (negb (jti_admissible 0));
  cover_tag "jti_empty_rejected" (negb (jti_admissible 0)).

(** ** Proof 9: multikey headers, curve binding and expiry *)
Definition proof_service_auth_multikey_and_curve_binding_kani
    (len b0 b1 b2 curve_id alg_id exp now_secs leeway_secs : Z) : harness unit :=
  _ ← assume (len <=? 40);
  let curve := classify_multikey_header len b0 b1 b2 in
  let offset := multikey_sec1_offset len b0 b1 b2 in
  _ ← assert ((curve =? CURVE_NONE) || (curve =? CURVE_SECP256K1) || (curve =? CURVE_P256));
  _ ← assert_eq (negb (curve =? CURVE_NONE)) ((offset =? 1) || (offset =? 2));
  _ ← (if offset =? 2 then
         _ ← assert_eq len 35;
         _ ← assert (is_compressed_sec1_tag b2);
         assert (((b0 =? 0xe7) && (b1 =? 0x01) && (curve =? CURVE_SECP256K1))
                 || ((b0 =? 0x80) && (b1 =? 0x24) && (curve =? CURVE_P256)))
       else if offset =? 1 then
         _ ← assert_eq len 34;
         _ ← assert_eq b0 0xe7;
         _ ← assert (is_compressed_sec1_tag b1);
         assert_eq curve CURVE_SECP256K1
       else
         _ ← assert_eq offset 0;
         assert_eq curve CURVE_NONE);
  let bound := is_alg_bound_to_curve curve_id alg_id in
  _ ← assert_eq bound (((curve_id =? CURVE_SECP256K1) && (alg_id =? ALG_ES256K))
                       || ((curve_id =? CURVE_P256) && (alg_id =? ALG_ES256)));
  _ ← assert_eq (is_service_jwt_exp_valid exp now_secs leeway_secs)
                (now_secs <=? u64_saturating_add exp leeway_secs);
  _ ← cover_tag "multikey_secp256k1_varint_valid" ((curve =? CURVE_SECP256K1) && (offset =? 2));
  _ ← cover_tag "multikey_secp256k1_legacy_valid" ((curve =? CURVE_SECP256K1) && (offset =? 1));
  _ ← cover_tag "multikey_p256_varint_valid" ((curve =? CURVE_P256) && (offset =? 2));
  _ ← cover_tag "multikey_invalid_rejected" ((curve =? CURVE_NONE) && (offset =? 0));
  _ ← cover_tag "service_auth_curve_alg_bound" bound;
  cover_tag "service_auth_cross_curve_rejected"
    (((curve_id =? CURVE_SECP256K1) && (alg_id =? ALG_ES256) && negb bound)
     || ((curve_id =? CURVE_P256) && (alg_id =? ALG_ES256K) && negb bound)).

(** The header's class and offset, compared with what is expected of them. *)
Definition expect_header (tag : string) (len b0 b1 b2 curve offset : Z) : harness unit :=
  let got := (classify_multikey_header len b0 b1 b2, multikey_sec1_offset len b0 b1 b2) in
  _ ← assert_eq got (curve, offset);
  cover_tag tag (bool_decide (got = (curve, offset))).

Definition proof_service_auth_multikey_and_curve_binding_concrete : harness unit :=
  _ ← expect_header "multikey_secp256k1_varint_valid" 35 0xe7 0x01 0x02 CURVE_SECP256K1 2;
  _ ← expect_header "multikey_secp256k1_legacy_valid" 34 0xe7 0x03 0xaa CURVE_SECP256K1 1;
  _ ← expect_header "multikey_p256_varint_valid" 35 0x80 0x24 0x02 CURVE_P256 2;
  _ ← expect_header "multikey_invalid_rejected" 34 0xe7 0x01 0x02 CURVE_NONE 0;
  let bound_ok := is_alg_bound_to_curve CURVE_SECP256K1 ALG_ES256K
                  && is_alg_bound_to_curve CURVE_P256 ALG_ES256 in
  _ ← assert bound_ok;
  _ ← cover_tag "service_auth_curve_alg_bound" bound_ok;
  let cross_rejected := negb (is_alg_bound_to_curve CURVE_SECP256K1 ALG_ES256)
                        && negb (is_alg_bound_to_curve CURVE_P256 ALG_ES256K)
                        && negb (is_alg_bound_to_curve CURVE_SECP256K1 ALG_NONE) in
  _ ← assert cross_rejected;
  _ ← cover_tag "service_auth_cross_curve_rejected" cross_rejected;
  _ ← assert (is_service_jwt_exp_valid 1000 1060 60);
  _ ← assert (negb (is_service_jwt_exp_valid 1000 1061 60));
  assert (is_service_jwt_exp_valid u64_max u64_max 60).

(** ** The suite *)
Inductive kani_proof :=
| SingleUseState | SsrfRestrictedIp | PkceVerifierBounds | ConstantTimeEq | DpopHtu
| PkceValidatorRefinement | Ipv6AdapterRefinement | JtiAdmissionBound | ServiceAuthMultikey.

#[export] Instance kani_proof_eq_dec : EqDecision kani_proof.
Proof. solve_decision. Defined.

Definition u8s (l : list Z) : Prop := Forall u8_valid l.

(** The executions Kani explores: one for every value the draws of their types can take. *)
Inductive kani_execution `{Subtle} : kani_proof → harness unit → Prop :=
| ExecSingleUse ttl ins t1 t2 :
    u64_valid ttl → u64_valid ins → u64_valid t1 → u64_valid t2 →
    kani_execution SingleUseState (proof_single_use_state_consumption_kani ttl ins t1 t2)
| ExecSsrf o0 o1 o2 o3 :
    v4_valid (mkV4 o0 o1 o2 o3) →
    kani_execution SsrfRestrictedIp (proof_ssrf_restricted_ip_rejection_kani o0 o1 o2 o3)
| ExecPkceBounds min_bytes max_bytes byte :
    u8s min_bytes → length min_bytes = 43%nat → u8s max_bytes → length max_bytes = 128%nat →
    u8_valid byte →
    kani_execution PkceVerifierBounds (proof_pkce_s256_verifier_bounds_kani min_bytes max_bytes byte)
| ExecCtEq a_full b_full a_len b_len a b :
    Forall (λ l, u8s l ∧ length l = 8%nat) [a_full; b_full; a; b] →
    u64_valid a_len → u64_valid b_len →
    kani_execution ConstantTimeEq (proof_constant_time_eq_soundness_kani a_full b_full a_len b_len a b)
| ExecHtu : kani_execution DpopHtu proof_dpop_htu_normalization_invariants_kani
| ExecPkceRefinement len filler pos bad :
    u64_valid len → u8_valid filler → u64_valid pos → u8_valid bad →
    kani_execution PkceValidatorRefinement (proof_pkce_validator_refinement_kani len filler pos bad)
| ExecIpv6 ip v6 :
    v4_valid ip → v6_valid v6 →
    kani_execution Ipv6AdapterRefinement (proof_ipv6_adapter_refinement_kani ip v6)
| ExecJti len : u64_valid len → kani_execution JtiAdmissionBound (proof_jti_admission_bound_kani len)
| ExecServiceAuth len b0 b1 b2 curve_id alg_id exp now leeway :
    u64_valid len → Forall u8_valid [b0; b1; b2; curve_id; alg_id] →
    u64_valid exp → u64_valid now → u64_valid leeway →
    kani_execution ServiceAuthMultikey
      (proof_service_auth_multikey_and_curve_binding_kani len b0 b1 b2 curve_id alg_id exp now leeway).

Definition concrete_body `{Base64} `{Sha2} `{Subtle} `{UrlCrate} (p : kani_proof) : harness unit :=
  match p with
  | SingleUseState => proof_single_use_state_consumption_concrete
  | SsrfRestrictedIp => proof_ssrf_restricted_ip_rejection_concrete
  | PkceVerifierBounds => proof_pkce_s256_verifier_bounds_concrete
  | ConstantTimeEq => proof_constant_time_eq_soundness_concrete
  | DpopHtu => proof_dpop_htu_normalization_invariants_concrete
  | PkceValidatorRefinement => proof_pkce_validator_refinement_concrete
  | Ipv6AdapterRefinement => proof_ipv6_adapter_refinement_concrete
  | JtiAdmissionBound => proof_jti_admission_bound_concrete
  | ServiceAuthMultikey => proof_service_auth_multikey_and_curve_binding_concrete
  end.

(** The cover points the doc comment of each harness lists; the points of the symbolic bodies. *)
Definition documented_tags (p : kani_proof) : list string :=
  match p with
  | SingleUseState => ["state_inserted"; "first_take_success"; "second_take_rejected";
      "expired_state_rejected"; "uninitialized_state_rejected"; "concurrent_race_single_winner"]
  | SsrfRestrictedIp => ["rfc1918_10_blocked"; "rfc1918_172_blocked"; "rfc1918_192_blocked";
      "cloud_metadata_169_254_blocked"; "loopback_127_blocked"; "cgnat_100_64_blocked";
      "ipv6_ula_fc00_blocked"; "ipv6_link_local_fe80_blocked"; "ipv4_mapped_ipv6_blocked";
      "public_ip_allowed"]
  | PkceVerifierBounds => ["valid_min_length_43_verifier"; "valid_max_length_128_verifier";
      "valid_mid_length_verifier"; "invalid_short_length_rejected"; "invalid_long_length_rejected";
      "invalid_character_rejected"; "challenge_length_is_43"]
  | ConstantTimeEq => ["equal_non_empty_slices_true"; "differing_first_byte_false";
      "differing_last_byte_false"; "differing_middle_byte_false"; "mismatched_length_false";
      "empty_slices_true"]
  | DpopHtu => ["query_stripped_success"; "fragment_stripped_success"; "port_443_stripped_success";
      "port_80_stripped_success"; "custom_port_preserved_success";
      "uppercase_host_lowercased_success"]
  | PkceValidatorRefinement => ["valid_min_length_43_refined"; "valid_max_length_128_refined";
      "short_below_min_rejected"; "long_above_max_rejected"; "invalid_byte_rejected"]
  | Ipv6AdapterRefinement => ["ipv6_mapped_private_embedded"; "ipv6_mapped_public_embedded";
      "ipv6_ula_hit"; "ipv6_link_local_hit"; "ipv6_multicast_hit"; "ipv6_teredo_hit";
      "ipv6_6to4_hit"; "ipv6_public_allowed"]
  | JtiAdmissionBound => ["jti_at_cap_admitted"; "jti_over_cap_rejected"; "jti_empty_rejected"]
  | ServiceAuthMultikey => ["multikey_secp256k1_varint_valid"; "multikey_secp256k1_legacy_valid";
      "multikey_p256_varint_valid"; "multikey_invalid_rejected"; "service_auth_curve_alg_bound";
      "service_auth_cross_curve_rejected"]
  end.

Definition symbolic_tags (p : kani_proof) : list string :=
  match p with
  | SingleUseState => ["first_take_success"; "expired_state_rejected"]
  | SsrfRestrictedIp => ["rfc1918_10_blocked"; "rfc1918_172_blocked"; "rfc1918_192_blocked";
      "cloud_metadata_169_254_blocked"; "loopback_127_blocked"; "public_ip_allowed"]
  | PkceVerifierBounds => ["valid_min_length_43_verifier"; "valid_max_length_128_verifier"]
  | ConstantTimeEq => ["equal_non_empty_slices_true"; "differing_first_byte_false";
      "mismatched_length_false"]
  | DpopHtu => []
  | PkceValidatorRefinement => ["invalid_byte_rejected"; "valid_byte_admitted_at_pos";
      "valid_min_length_43_refined"; "valid_max_length_128_refined"; "short_below_min_rejected";
      "long_above_max_rejected"]
  | Ipv6AdapterRefinement => documented_tags Ipv6AdapterRefinement
  | JtiAdmissionBound => documented_tags JtiAdmissionBound
  | ServiceAuthMultikey => documented_tags ServiceAuthMultikey
  end.
