(* ===== verification/KaniProofs.v ===== *)
(** * KaniProofs: what the repository's proof harnesses establish

    The harnesses of KaniHarnesses, for all inputs: no execution of a symbolic body violates an
    assertion, every cover point is reached, and the concrete bodies pass and satisfy the coverage
    gate. *)
From S2P Require Import Prelude Errors Strs Externals Instances Crypto IpFilter Net Ssrf Multikey.
From S2P Require Import StoreModel Pkce Htu Dpop Harness KaniHarnesses.
Open Scope Z_scope.

(** ** The symbolic bodies pass *)
Lemma single_use_kani_passes ttl ins t1 t2 :
  u64_valid ttl → u64_valid ins → u64_valid t1 → u64_valid t2 →
  passes (proof_single_use_state_consumption_kani ttl ins t1 t2).
Proof.
  unfold u64_valid, u64_max. intros Httl Hins Ht1 Ht2.
  unfold proof_single_use_state_consumption_kani, passes.
  cbn [SingleStateModel.take_state SingleStateModel.insert SingleStateModel.new
       SingleStateModel.status].
  do 4 hstep. b2p. hstep. apply wp_assert; [done|]. hstep. apply wp_assert; [done|].
  do 3 hstep. apply wp_u64_add; [unfold u64_max; b2p; lia|]. do 2 hstep. b2p.
  unfold u64_saturating_sub, u64_saturating_add, u64_max.
  destruct (ttl <=? Z.max 0 (t1 - ins)) eqn:E; b2p; cbv beta iota.
  - rewrite (proj2 (Z.ltb_ge _ _)) by lia. do 2 hstep. apply wp_assert; [done|].
    do 3 hstep. by apply wp_assert.
  - rewrite (proj2 (Z.ltb_lt _ _)) by lia. do 2 hstep. apply wp_assert; [done|].
    do 3 hstep. apply wp_u64_add; [unfold u64_max; lia|]. do 2 hstep.
    cbn [SingleStateModel.take_state SingleStateModel.status]. hstep. apply wp_assert; [done|].
    do 3 hstep. by apply wp_assert.
Qed.

Lemma validate_ip_strict ip : is_ok (validate_ip (mkFilter false) (V4 ip)) = negb (is_restricted_ipv4 ip).
Proof. unfold validate_ip, is_ip_restricted. simpl. by destruct (is_restricted_ipv4 ip). Qed.

Lemma ssrf_kani_passes o0 o1 o2 o3 :
  v4_valid (mkV4 o0 o1 o2 o3) → passes (proof_ssrf_restricted_ip_rejection_kani o0 o1 o2 o3).
Proof.
  intros (H0 & H1 & _ & _). unfold proof_ssrf_restricted_ip_rejection_kani. do 2 hstep.
  apply wp_assert_eq; [symmetry; apply spec_is_restricted_ipv4_kernel|].
  hstep. unfold is_err. rewrite validate_ip_strict, negb_involutive, spec_is_restricted_ipv4_kernel.
  match goal with |- wp (if ?b then _ else _) _ => destruct b eqn:E end.
  - assert (is_restricted_ipv4 (mkV4 o0 o1 o2 o3) = true) as ->; [|by vm_compute].
    unfold is_restricted_ipv4, is_restricted_ipv4_octets. cbn in H0, H1 |- *.
    assert (64 ≤ o1 ≤ 127 → Z.land o1 0xC0 = 64) as Hc.
    { intros. apply land_c0; [done|]. Z.to_euclidean_division_equations. lia. }
    b2p. tauto.
  - hstep. by destruct (is_restricted_ipv4 _).
Qed.

Lemma wp_index_update l i f (Q : list Z → Prop) :
  0 ≤ i < zlen l → Q (alter f (Z.to_nat i) l) → wp (index_update l i f) Q.
Proof. intros Hi HQ. unfold index_update. case_if; b2p; [done|lia]. Qed.

Lemma mirrored_byte_unreserved b : mirrored_byte_ok b = is_unreserved_char b.
Proof. by rewrite is_unreserved_spec. Qed.

Lemma mirrored_bytes_unreserved l : forallb mirrored_byte_ok l = forallb is_unreserved_char l.
Proof. induction l as [|b l IH]; [done|]. cbn. by rewrite mirrored_byte_unreserved, IH. Qed.

Lemma pkce_bounds_kani_passes min_bytes max_bytes byte :
  passes (proof_pkce_s256_verifier_bounds_kani min_bytes max_bytes byte).
Proof.
  unfold proof_pkce_s256_verifier_bounds_kani. rewrite !mirrored_bytes_unreserved.
  do 2 hstep. apply wp_assert_eq; [done|]. hstep. apply wp_assert_eq; [done|].
  hstep. apply wp_assert_eq; [done|]. hstep.
  apply wp_assert_eq; [symmetry; apply mirrored_byte_unreserved|]. done.
Qed.

Lemma constant_time_eq_model `{SubtleLaws} a b :
  constant_time_eq a b = spec_constant_time_eq_model a b ∧
  constant_time_eq a b = bool_decide (a = b).
Proof.
  split; apply eq_iff_eq_true; rewrite constant_time_eq_spec.
  - by rewrite xor_model_spec.
  - by rewrite bool_decide_eq_true.
Qed.

Lemma ct_eq_kani_passes `{SubtleLaws} a_full b_full a_len b_len a b :
  length a = 8%nat → length b = 8%nat →
  passes (proof_constant_time_eq_soundness_kani a_full b_full a_len b_len a b).
Proof.
  intros Ha Hb. unfold proof_constant_time_eq_soundness_kani.
  do 2 hstep. apply wp_assert_eq; [apply constant_time_eq_model|].
  hstep. apply wp_assert_eq; [apply constant_time_eq_model|].
  do 4 hstep. b2p. hstep. apply wp_slice_to; [unfold zlen; lia|].
  hstep. apply wp_slice_to; [unfold zlen; lia|].
  hstep. apply wp_assert_eq; [apply constant_time_eq_model|].
  hstep. apply wp_assert_eq; [apply constant_time_eq_model|]. done.
Qed.

(** The validator accepts what its specification accepts. *)
Lemma validate_verifier_bytes_spec l : is_ok (validate_verifier_bytes l) = spec_validate_verifier l.
Proof.
  rewrite validate_verifier_bytes_ok, <-forallb_unreserved. unfold spec_validate_verifier.
  by destruct (is_valid_verifier_length (zlen l)) eqn:E; unfold is_valid_verifier_length in E;
    rewrite (E : is_valid_verifier_len (zlen l) = _).
Qed.

(** A scan that starts with good bytes reports nothing within them. *)
Lemma validate_bytes_skip good rest p :
  forallb is_unreserved_byte good = true →
  validate_bytes_from p (good ++ rest) = validate_bytes_from (p + zlen good) rest.
Proof.
  revert p. induction good as [|g good IH]; intros p; cbn.
  - intros _. unfold zlen; cbn. by rewrite Z.add_0_r.
  - rewrite andb_true_iff. intros [-> Hg]. cbn. rewrite IH by done. f_equal. unfold zlen; cbn. lia.
Qed.

Lemma replicate_unreserved b n :
  is_unreserved_byte b = true → forallb is_unreserved_byte (replicate n b) = true.
Proof. intros Hb. induction n as [|n IH]; cbn; [done|]. by rewrite Hb. Qed.

Lemma array_probe b n i v :
  (i < n)%nat → alter (λ _, v) i (array b n) = replicate i b ++ v :: replicate (n - S i) b.
Proof.
  unfold array. revert n. induction i as [|i IH]; intros [|n] Hi; try lia; cbn.
  - by rewrite Nat.sub_0_r.
  - f_equal. apply IH. lia.
Qed.

(** Where the probe is refused, the error names the byte that was put there and its position. *)
Lemma probe_result i bad :
  (i < 44)%nat →
  validate_verifier_bytes (alter (λ _, bad) i (array 97 44)) =
  if is_unreserved_byte bad then Ok tt else Err (InvalidCharacter bad (Z.of_nat i)).
Proof.
  intros Hi. rewrite array_probe by done. unfold validate_verifier_bytes.
  replace (zlen _) with 44; [cbn [is_valid_verifier_length]|].
  2: { unfold zlen. rewrite length_app, length_cons, !length_replicate. lia. }
  change (negb (is_valid_verifier_length 44)) with false. cbv iota.
  rewrite validate_bytes_skip by (by apply replicate_unreserved). cbn [validate_bytes_from].
  unfold zlen. rewrite length_replicate. destruct (is_unreserved_byte bad); cbn [negb]; [|done].
  rewrite <-(app_nil_r (replicate _ _)). rewrite validate_bytes_skip by (by apply replicate_unreserved).
  done.
Qed.

Lemma pkce_refinement_kani_passes len filler pos bad :
  u64_valid len → u64_valid pos → passes (proof_pkce_validator_refinement_kani len filler pos bad).
Proof.
  unfold u64_valid. intros Hlen Hpos. unfold proof_pkce_validator_refinement_kani.
  do 5 hstep. b2p. hstep. apply wp_slice_to; [unfold zlen, array; rewrite length_replicate; lia|].
  hstep. apply wp_assert_eq; [apply validate_verifier_bytes_spec|].
  do 2 hstep. b2p. hstep.
  apply wp_index_update; [unfold zlen, array; rewrite length_replicate; lia|].
  hstep. apply wp_assert_eq; [by rewrite <-validate_verifier_bytes_spec|].
  hstep. rewrite probe_result by lia. rewrite Z2Nat.id by lia.
  destruct (is_unreserved_byte bad); [by vm_compute|].
  hstep. apply wp_assert_eq; [done|]. hstep. apply wp_assert_eq; [done|]. by vm_compute.
Qed.

Lemma mapped_core s6 s7 :
  is_restricted_ipv6_segments 0 0 0 0 0 0xffff s6 s7 =
  is_restricted_ipv4_octets (Z.land (Z.shiftr s6 8) 0xff) (Z.land s6 0xff)
    (Z.land (Z.shiftr s7 8) 0xff) (Z.land s7 0xff).
Proof. unfold is_restricted_ipv6_segments. cbn -[is_restricted_ipv4_octets]. by rewrite !orb_false_r. Qed.

Lemma ipv6_kani_passes ip v6 : passes (proof_ipv6_adapter_refinement_kani ip v6).
Proof.
  destruct ip as [o0 o1 o2 o3], v6 as [s0 s1 s2 s3 s4 s5 s6 s7].
  unfold proof_ipv6_adapter_refinement_kani. do 2 hstep. apply wp_assert_eq; [done|].
  hstep. apply wp_assert_eq; [symmetry; apply spec_is_restricted_ipv4_kernel|].
  hstep. apply wp_assert_eq; [done|]. hstep.
  match goal with |- wp (if ?b then _ else _) _ => destruct b eqn:E end; [|done].
  b2p. destruct E as [[[[[-> ->] ->] ->] ->] ->]. hstep. by apply wp_assert_eq; [apply mapped_core|].
Qed.

Lemma jti_kani_passes len : u64_valid len → passes (proof_jti_admission_bound_kani len).
Proof.
  unfold u64_valid. intros Hlen. unfold proof_jti_admission_bound_kani. do 4 hstep.
  unfold jti_admissible, MAX_JTI_LENGTH. case_if; b2p.
  - subst. done.
  - case_if; b2p; apply wp_assert; b2p; try lia; done.
Qed.

(** The expiry test never overflows and is the saturating comparison. *)
Lemma exp_valid_saturating exp now leeway :
  u64_valid exp → u64_valid now → u64_valid leeway →
  is_service_jwt_exp_valid exp now leeway = (now <=? u64_saturating_add exp leeway).
Proof.
  unfold u64_valid, is_service_jwt_exp_valid, u64_saturating_add. intros He Hn Hl.
  apply eq_iff_eq_true. case_if; b2p; lia.
Qed.

(** Class and offset of a header, by cases on its three accepted shapes. *)
Lemma multikey_header_cases len b0 b1 b2 :
  let curve := classify_multikey_header len b0 b1 b2 in
  let offset := multikey_sec1_offset len b0 b1 b2 in
  (offset = 2 ∧ len = 35 ∧ is_compressed_sec1_tag b2 = true ∧
   (b0 = 0xe7 ∧ b1 = 0x01 ∧ curve = CURVE_SECP256K1 ∨ b0 = 0x80 ∧ b1 = 0x24 ∧ curve = CURVE_P256)) ∨
  (offset = 1 ∧ len = 34 ∧ b0 = 0xe7 ∧ is_compressed_sec1_tag b1 = true ∧ curve = CURVE_SECP256K1) ∨
  (offset = 0 ∧ curve = CURVE_NONE).
Proof.
  unfold classify_multikey_header, multikey_sec1_offset, is_compressed_sec1_tag,
    CURVE_NONE, CURVE_SECP256K1, CURVE_P256.
  destruct (Z.eqb_spec len 35), (Z.eqb_spec len 34); try lia; cbn [andb orb];
    destruct (Z.eqb_spec b0 0xe7), (Z.eqb_spec b0 0x80); try lia; cbn [andb orb];
    destruct (Z.eqb_spec b1 1), (Z.eqb_spec b1 0x24); try lia; cbn [andb orb];
    repeat case_if; b2p; tauto || lia.
Qed.

Lemma service_auth_kani_passes len b0 b1 b2 curve_id alg_id exp now leeway :
  u64_valid exp → u64_valid now → u64_valid leeway →
  passes (proof_service_auth_multikey_and_curve_binding_kani
            len b0 b1 b2 curve_id alg_id exp now leeway).
Proof.
  intros He Hn Hl. unfold proof_service_auth_multikey_and_curve_binding_kani.
  rewrite exp_valid_saturating by done. pose proof (multikey_header_cases len b0 b1 b2) as Hc.
  cbv zeta in Hc. do 4 hstep.
  destruct Hc as [(-> & -> & -> & [(-> & -> & ->)|(-> & -> & ->)])|
                  [(-> & -> & -> & -> & ->)|(-> & ->)]];
    repeat first [done | hstep | apply wp_assert_eq | apply wp_assert
                 | progress cbn [Z.eqb Pos.eqb]; cbv iota].
Qed.

(** ** Reachability *)

(** The cover points an execution of the comparison harness reports. *)
Lemma ct_eq_kani_covers `{SubtleLaws} a_full b_full a_len b_len a b :
  length a = 8%nat → length b = 8%nat → 1 ≤ a_len ≤ 8 → 1 ≤ b_len ≤ 8 →
  proof_constant_time_eq_soundness_kani a_full b_full a_len b_len a b =
  Done [("equal_non_empty_slices_true", bool_decide (a_full = b_full));
        ("differing_first_byte_false", negb (bool_decide (a_full = b_full)));
        ("mismatched_length_false", negb (a_len =? b_len))] tt.
Proof.
  intros Ha Hb Hal Hbl. unfold proof_constant_time_eq_soundness_kani, assert_eq, slice_to, assume.
  assert (∀ n, (1 <=? n) && (n <=? 8) = true ↔ 1 ≤ n ≤ 8) as Hr by (intros; b2p; lia).
  rewrite !(proj2 (Hr _)) by done. unfold zlen. rewrite Ha, Hb. change (Z.of_nat 8) with 8.
  rewrite !(proj2 (Z.leb_le _ 8)) by lia. cbn [mbind harness_bind].
  rewrite !(bool_decide_true (constant_time_eq _ _ = _)) by (apply constant_time_eq_model). done.
Qed.

(** Some execution of [p] runs to its end and hits [tag]. *)
Definition cover_reached `{Subtle} (p : kani_proof) (tag : string) : Prop :=
  ∃ h covers, kani_execution p h ∧ h = Done covers tt ∧ (tag, true) ∈ covers.

(** An execution that runs to its end on concrete draws reaches the points it hits. *)
Lemma reached_by `{Subtle} p h covers tag :
  kani_execution p h → h = Done covers tt → bool_decide ((tag, true) ∈ covers) = true →
  cover_reached p tag.
Proof. intros He Hd Hin. exists h, covers. by apply bool_decide_eq_true in Hin. Qed.

Ltac ranges := unfold u8s, v4_valid, v6_valid, u8_valid, u8_max, u16_valid, u16_max, u64_valid, u64_max.
Ltac reach e := eapply reached_by; [apply e; repeat constructor; ranges; cbn; try lia
                                   |vm_compute; reflexivity|vm_compute; reflexivity].

Lemma ct_eq_reached `{SubtleLaws} tag :
  tag ∈ symbolic_tags ConstantTimeEq → cover_reached ConstantTimeEq tag.
Proof.
  assert (∀ x, u8_valid x → u8s (array x 8) ∧ length (array x 8) = 8%nat) as Hz.
  { intros x Hx. split; [by apply Forall_replicate|done]. }
  assert (∀ x y al bl, u8_valid x → u8_valid y → 1 ≤ al ≤ 8 → 1 ≤ bl ≤ 8 →
    kani_execution ConstantTimeEq
      (proof_constant_time_eq_soundness_kani (array x 8) (array y 8) al bl (array 0 8) (array 0 8)))
    as He.
  { intros x y al bl Hx Hy Hal Hbl. constructor; [|ranges; lia..].
    repeat (apply Forall_cons; split; [apply Hz; done || (ranges; lia)|]). by apply Forall_nil. }
  cbn. intros Htag. repeat (apply elem_of_cons in Htag as [->|Htag]); [..|by apply elem_of_nil in Htag].
  - eapply reached_by; [apply (He 0 0 1 1); ranges; lia|by apply ct_eq_kani_covers; try lia|done].
  - eapply reached_by; [apply (He 0 1 1 1); ranges; lia|by apply ct_eq_kani_covers; try lia|done].
  - eapply reached_by; [apply (He 0 0 1 2); ranges; lia|by apply ct_eq_kani_covers; try lia|done].
Qed.

(** Case on the tags of a list. *)
Ltac each_tag H :=
  cbn in H; repeat (apply elem_of_cons in H as [->|H]); try (by apply elem_of_nil in H).

Lemma state_ssrf_reached `{Subtle} p tag :
  p = SingleUseState ∨ p = SsrfRestrictedIp → tag ∈ symbolic_tags p → cover_reached p tag.
Proof.
  intros [->| ->] Htag; each_tag Htag.
  - reach (ExecSingleUse 5 1 2 3).
  - reach (ExecSingleUse 5 1 9 9).
  - reach (ExecSsrf 10 0 0 1).
  - reach (ExecSsrf 172 16 0 1).
  - reach (ExecSsrf 192 168 0 1).
  - reach (ExecSsrf 169 254 0 1).
  - reach (ExecSsrf 127 0 0 1).
  - reach (ExecSsrf 8 8 8 8).
Qed.

Lemma pkce_reached `{Subtle} p tag :
  p = PkceVerifierBounds ∨ p = PkceValidatorRefinement → tag ∈ symbolic_tags p → cover_reached p tag.
Proof.
  intros [->| ->] Htag; each_tag Htag.
  1-2: eapply (reached_by _ _ _ _ (ExecPkceBounds (array 97 43) (array 122 128) 0 _ _ _ _ _));
    vm_compute; reflexivity.
  - reach (ExecPkceRefinement 0 97 3 43).
  - reach (ExecPkceRefinement 0 97 3 97).
  - reach (ExecPkceRefinement 0 97 3 97).
  - reach (ExecPkceRefinement 0 97 3 97).
  - reach (ExecPkceRefinement 0 97 3 97).
  - reach (ExecPkceRefinement 0 97 3 97).
  Unshelve.
  all: try (apply Forall_replicate); ranges; done || lia.
Qed.

Lemma ipv6_reached `{Subtle} tag :
  tag ∈ symbolic_tags Ipv6AdapterRefinement → cover_reached Ipv6AdapterRefinement tag.
Proof.
  intros Htag; each_tag Htag.
  - reach (ExecIpv6 (mkV4 8 8 8 8) (mkV6 0 0 0 0 0 0xffff 0x0a00 1)).
  - reach (ExecIpv6 (mkV4 8 8 8 8) (mkV6 0 0 0 0 0 0xffff 0x0808 0x0808)).
  - reach (ExecIpv6 (mkV4 8 8 8 8) (mkV6 0xfc00 0 0 0 0 0 0 1)).
  - reach (ExecIpv6 (mkV4 8 8 8 8) (mkV6 0xfe80 0 0 0 0 0 0 1)).
  - reach (ExecIpv6 (mkV4 8 8 8 8) (mkV6 0xff02 0 0 0 0 0 0 1)).
  - reach (ExecIpv6 (mkV4 8 8 8 8) (mkV6 0x2001 0 0 0 0 0 0 1)).
  - reach (ExecIpv6 (mkV4 8 8 8 8) (mkV6 0x2002 0 0 0 0 0 0 1)).
  - reach (ExecIpv6 (mkV4 8 8 8 8) (mkV6 0x2606 0x4700 0 0 0 0 0 1)).
Qed.

Lemma jti_service_reached `{Subtle} p tag :
  p = JtiAdmissionBound ∨ p = ServiceAuthMultikey → tag ∈ symbolic_tags p → cover_reached p tag.
Proof.
  intros [->| ->] Htag; each_tag Htag.
  - reach (ExecJti 256).
  - reach (ExecJti 257).
  - reach (ExecJti 0).
  - reach (ExecServiceAuth 35 0xe7 1 2 1 1 0 0 0).
  - reach (ExecServiceAuth 34 0xe7 2 0 1 1 0 0 0).
  - reach (ExecServiceAuth 35 0x80 0x24 3 1 1 0 0 0).
  - reach (ExecServiceAuth 35 0 0 3 1 1 0 0 0).
  - reach (ExecServiceAuth 35 0 0 3 2 2 0 0 0).
  - reach (ExecServiceAuth 35 0 0 3 1 2 0 0 0).
Qed.

(** ** The concrete bodies *)

(** What the url crate (the WHATWG URL parser) makes of the addresses the target URI harness parses:
    scheme, host, port and path.  The scheme of the last one is the one it is written with. *)
Definition htu_vectors : list (string * (string * string * option Z * string)) :=
  [("https://example.com/oauth/token?grant_type=code", ("https", "example.com", None, "/oauth/token"));
   ("https://example.com/oauth/token#frag", ("https", "example.com", None, "/oauth/token"));
   ("https://example.com:443/oauth/token", ("https", "example.com", None, "/oauth/token"));
   ("http://example.com:80/oauth/token", ("http", "example.com", None, "/oauth/token"));
   ("https://example.com:8443/oauth/token", ("https", "example.com", Some 8443, "/oauth/token"));
   ("https://AUTH.EXAMPLE.COM/Token/Path", ("https", "auth.example.com", None, "/Token/Path"))].
Class UrlVectors `{UrlCrate} : Prop := {
  url_vector s sch h port path :
    (s, (sch, h, port, path)) ∈ htu_vectors →
    ∃ u, url_parse s = Ok u ∧ url_scheme u = sch ∧ url_host_str u = Some h ∧ url_port u = port ∧
      url_path u = path;
  url_ftp_scheme u : url_parse "ftp://example.com/token" = Ok u → url_scheme u = "ftp"
}.

Section concrete.
Context `{Base64Length} `{Sha2Laws} `{SubtleLaws} `{UrlVectors}.

Lemma normalize_vector s sch scheme h port path :
  bool_decide ((s, (sch, h, port, path)) ∈ htu_vectors) = true → scheme_parse sch = Some scheme →
  trim s = s → str_is_empty s = false → str_is_empty path = false →
  normalize_htu s = Ok (build_normalized_htu scheme (to_ascii_lowercase h) port path).
Proof.
  intros Hin%bool_decide_eq_true Hsch Ht He Hpe.
  destruct (url_vector _ _ _ _ _ Hin) as (u & Hu & Hs & Hh & Hp & Hpath).
  unfold normalize_htu. rewrite Ht, He, Hu. cbn. rewrite Hs, Hsch. cbn. rewrite Hh. cbn.
  by rewrite Hpath, Hpe, Hp.
Qed.

Lemma normalize_ftp : is_err (normalize_htu "ftp://example.com/token") = true.
Proof.
  unfold normalize_htu. change (trim "ftp://example.com/token") with "ftp://example.com/token".
  cbn [str_is_empty]. destruct (url_parse "ftp://example.com/token") as [u|e] eqn:E; [|done].
  cbn. by rewrite (url_ftp_scheme u E).
Qed.

(** The body runs to its end and hits what its documentation lists. *)
Definition completes (p : kani_proof) : Prop :=
  ∃ covers, concrete_body p = Done covers tt ∧
    forallb (λ tag, bool_decide ((tag, true) ∈ covers)) (documented_tags p) = true.

Lemma htu_concrete_completes : completes DpopHtu.
Proof.
  unfold completes, concrete_body, proof_dpop_htu_normalization_invariants_concrete.
  rewrite normalize_ftp.
  rewrite (normalize_vector "https://example.com/oauth/token?grant_type=code" "https" Https
    "example.com" None "/oauth/token") by done.
  rewrite (normalize_vector "https://example.com/oauth/token#frag" "https" Https
    "example.com" None "/oauth/token") by done.
  rewrite (normalize_vector "https://example.com:443/oauth/token" "https" Https
    "example.com" None "/oauth/token") by done.
  rewrite (normalize_vector "http://example.com:80/oauth/token" "http" Http
    "example.com" None "/oauth/token") by done.
  rewrite (normalize_vector "https://example.com:8443/oauth/token" "https" Https
    "example.com" (Some 8443) "/oauth/token") by done.
  rewrite (normalize_vector "https://AUTH.EXAMPLE.COM/Token/Path" "https" Https
    "auth.example.com" None "/Token/Path") by done.
  eexists. split; vm_compute; reflexivity.
Qed.

Lemma expect_equal_run tag a b : a = b → expect_equal tag a b = Done [(tag, true)] tt.
Proof.
  intros ->. unfold expect_equal, verify_soundness. rewrite (proj2 (constant_time_eq_spec b b)) by done.
  by rewrite (proj2 (xor_model_spec b b)), (proj2 (spec_slice_eq_spec b b)) by done.
Qed.

Lemma expect_differs_run tag a b : a ≠ b → expect_differs tag a b = Done [(tag, true)] tt.
Proof.
  intros Hne. unfold expect_differs, verify_soundness.
  rewrite (proj2 (constant_time_eq_false a b)) by done.
  rewrite (not_true_is_false (spec_constant_time_eq_model a b)) by (by rewrite xor_model_spec).
  by rewrite (not_true_is_false (spec_slice_eq a b)) by (by rewrite spec_slice_eq_spec).
Qed.

Lemma ct_concrete_completes : completes ConstantTimeEq.
Proof.
  unfold completes, concrete_body, proof_constant_time_eq_soundness_concrete.
  rewrite expect_equal_run by done. cbn [mbind harness_bind].
  repeat (match goal with |- context [index_xor ?l ?i ?v] =>
    let r := eval vm_compute in (index_xor l i v) in
    replace (index_xor l i v) with r by (vm_compute; reflexivity) end).
  match goal with |- context [slice_to ?l ?i] =>
    let r := eval vm_compute in (slice_to l i) in
    replace (slice_to l i) with r by (vm_compute; reflexivity) end.
  cbn [mbind harness_bind]. rewrite !expect_differs_run by done. rewrite expect_equal_run by done.
  eexists. split; vm_compute; reflexivity.
Qed.

Lemma pkce_concrete_completes : completes PkceVerifierBounds.
Proof.
  unfold completes, concrete_body, proof_pkce_s256_verifier_bounds_concrete.
  rewrite !derived_challenge_len. eexists. split; vm_compute; reflexivity.
Qed.

Lemma concrete_completes p : completes p.
Proof.
  destruct p; auto using htu_concrete_completes, ct_concrete_completes, pkce_concrete_completes;
    (eexists; split; vm_compute; reflexivity).
Qed.
End concrete.

(** ** Properties *)

(** C32.  The symbolic proof harnesses of the repository hold for every input, and not vacuously: no
    execution of a [cfg(kani)] body, whatever values its [kani::any()] draws take in their types,
    violates an assertion, overflows or indexes out of range; and every [kani::cover!] point of
    every body is hit by some execution that runs to its end. *)
Theorem kani_suite_verified `{SubtleLaws} (p : kani_proof) :
  (∀ h, kani_execution p h → passes h) ∧ (∀ tag, tag ∈ symbolic_tags p → cover_reached p tag).
Proof.
  split.
  - intros h []; eauto using single_use_kani_passes, ssrf_kani_passes, pkce_bounds_kani_passes,
      pkce_refinement_kani_passes, ipv6_kani_passes, jti_kani_passes, service_auth_kani_passes.
    + decompose_Forall_hyps. apply ct_eq_kani_passes; tauto.
    + done.
  - intros tag Htag. destruct p; auto using state_ssrf_reached, pkce_reached, ct_eq_reached,
      ipv6_reached, jti_service_reached. each_tag Htag.
Qed.

(**  The concrete proof bodies pass and satisfy the anti-vacuity gate: each runs to its end
    without a failed assertion, and [assert_all_covered] then accepts the cover points its
    documentation lists, whatever the tracker held before and whatever cover points other threads
    recorded in between. *)
Theorem concrete_suite_gate `{Base64Length} `{Sha2Laws} `{SubtleLaws} `{UrlVectors} (p : kani_proof) :
  ∃ covers, concrete_body p = Done covers tt ∧
    ∀ c all, covers ⊆ all → passes (assert_all_covered (record c all) (documented_tags p)).
Proof.
  destruct (concrete_completes p) as (covers & Hrun & Htags). exists covers. split; [done|].
  intros c all Hsub. apply assert_all_covered_passes. intros tag Htag.
  rewrite record_hits. apply elem_of_union_r, elem_of_list_to_set, list_elem_of_fmap.
  exists (tag, true). split; [done|]. apply list_elem_of_filter. split; [done|]. apply Hsub.
  rewrite forallb_forall in Htags. apply list_elem_of_In, Htags, bool_decide_eq_true in Htag. done.
Qed.

(** An accepted proof's [jti] satisfies the predicate of the admission harness.  The converse fails:
    the harness only looks at the length, the verifier also refuses a [jti] of white space. *)
Lemma accepted_jti_admissible `{Subtle, UrlCrate, UnicodeUpper} c htm htu en ea u :
  check_claims c htm htu en ea = Ok u → jti_admissible (str_len (jti c)) = true.
Proof.
  unfold check_claims. intros E. res_inv. unfold jti_admissible. b2p.
  destruct (jti c) as [|a s]; [done|]. unfold str_len in *. cbn [String.length] in *. lia.
Qed.

Lemma whitespace_jti_diverges `{Subtle, UrlCrate, UnicodeUpper} c htm htu en ea :
  jti c = "   " →
  jti_admissible (str_len (jti c)) = true ∧
  check_claims c htm htu en ea = Err (DPoPError_MissingClaim "jti").
Proof. intros Hj. unfold check_claims. by rewrite Hj. Qed.

(** ** A concrete instance *)
Module KaniExamples.
#[local] Instance subtle_ex : Subtle := plain_subtle.
#[local] Instance subtle_ex_laws : SubtleLaws := plain_subtle_laws.
#[local] Instance sha2_ex : Sha2 := zero_sha2.
#[local] Instance sha2_ex_laws : Sha2Laws := zero_sha2_laws.
#[local] Instance base64_ex : Base64 := PkceExamples.base64_example.
#[local] Instance base64_ex_length : Base64Length := PkceExamples.base64_length_example.

(** A parser that knows the addresses of the harness, and one that refuses every address. *)
Definition table_parse (s : string) : result string (string * string * option Z * string) :=
  match assoc s htu_vectors with
  | Some u => Ok u
  | None => if (s =? "ftp://example.com/token")%string
            then Ok ("ftp", "example.com", None, "/token") else Err "relative URL without a base"
  end.
Definition url_with (parse : string → result string (string * string * option Z * string)) : UrlCrate :=
  {| url_parse := parse; url_scheme := λ u, u.1.1.1; url_host_str := λ u, Some u.1.1.2;
     url_port := λ u, u.1.2; url_path := λ u, u.2; url_as_str := λ u, u.1.1.1;
     url_port_or_known_default := λ u, u.1.2; url_join := λ _ s, parse s |}.
#[local] Instance url_ex : UrlCrate := url_with table_parse.
#[local] Instance url_ex_vectors : UrlVectors.
Proof.
  split; [|by intros u [= <-]]. intros s sch h port path Hin. unfold htu_vectors in Hin.
  repeat (apply elem_of_cons in Hin as [[= -> -> -> -> ->]|Hin]);
    [by eexists..|by apply elem_of_nil in Hin].
Qed.

Lemma kani_suite_verified_witness :
  passes (proof_jti_admission_bound_kani 256) ∧ cover_reached JtiAdmissionBound "jti_at_cap_admitted".
Proof.
  split.
  - apply (kani_suite_verified JtiAdmissionBound). constructor. unfold u64_valid, u64_max. lia.
  - apply (kani_suite_verified JtiAdmissionBound). left.
Defined.

Lemma concrete_suite_gate_witness :
  ∃ covers, concrete_body DpopHtu = Done covers tt ∧
    passes (assert_all_covered (record coverage_new covers) (documented_tags DpopHtu)).
Proof.
  destruct (concrete_suite_gate DpopHtu) as (covers & E & Hall). exists covers. split; [exact E|].
  exact (Hall coverage_new covers (λ x H, H)).
Defined.

(** The cover point "uppercase_host_lowercased_success" is also reported, with the constant [true],
    for each combination of the loop, none of which has an upper-case letter in its host: even a
    parser that refuses every address leaves the body passing and the point covered. *)
Lemma uppercase_point_unconditional :
  ∃ covers,
    @proof_dpop_htu_normalization_invariants_concrete (url_with (λ _, Err "refused")) = Done covers tt ∧
    ("uppercase_host_lowercased_success", true) ∈ covers.
Proof.
  eexists. split; [vm_compute; reflexivity|].
  apply (bool_decide_unpack _). vm_compute. exact I.
Qed.
End KaniExamples.
