(* ===== verification/KernelTests.v ===== *)
(** * KernelTests: the repository's unit tests of the verified kernels and formal models

    The [#[test]] functions next to kernels/*.rs, verification/formal_models.rs and the address tests
    of ssrf.rs, each as a body in the language of Harness ([assert!], [assert_eq!], [unwrap]) over the
    definitions of the other files.  [kernel_tests] lists them; the theorem at the end runs them:
    whatever the crates they use, the models return what the tests expect of the code. *)
From S2P Require Import Prelude Errors Strs Externals Crypto IpFilter Net Ssrf Multikey StoreModel Nsid Pkce Htu.
From S2P Require Import Harness KaniHarnesses.
Open Scope Z_scope.

#[export] Instance VerifierByteError_eq_dec : EqDecision VerifierByteError.
Proof. solve_decision. Defined.

(** ** kernels/ip_filter.rs *)
Module IpFilterTests.
Definition octets (ip : Ipv4Addr) : bool := is_restricted_ipv4_octets (v4_a ip) (v4_b ip) (v4_c ip) (v4_d ip).
Definition segments (ip : Ipv6Addr) : bool :=
  is_restricted_ipv6_segments (v6_0 ip) (v6_1 ip) (v6_2 ip) (v6_3 ip) (v6_4 ip) (v6_5 ip) (v6_6 ip) (v6_7 ip).

Definition ipv4_octets_core_matches_std_adapter_exhaustively_sampled : harness unit :=
  for_each (seqZ 0 256) (λ o0,
    for_each [0; 1; 15; 16; 31; 63; 64; 100; 127; 128; 169; 191; 192; 254] (λ o1,
      let ip := mkV4 o0 o1 7 9 in
      assert_eq (is_restricted_ipv4 ip) (octets ip))).

Definition ipv6_segments_core_matches_std_adapter_on_boundary_classes : harness unit :=
  let cases :=
    [mkV6 0 0 0 0 0 0 0 0; mkV6 0 0 0 0 0 0 0 1;
     mkV6 0 0 0 0 0 0xffff 0x0a00 0x0001; mkV6 0 0 0 0 0 0xffff 0x0808 0x0808;
     mkV6 0 0 0 0 0xffff 0 0 0; mkV6 0x64 0xff9b 0 0 0 0 0 1;
     mkV6 0x2001 0x0db8 0 0 0 0 0 1; mkV6 0x2001 0 0xdead 0xbeef 0 0 0 1;
     mkV6 0x2002 0x0a00 0x0001 0 0 0 0 1; mkV6 0x2002 0x0808 0x0808 0 0 0 0 1;
     mkV6 0xfc00 0 0 0 0 0 0 1; mkV6 0xfe80 0 0 0 0 0 0 1] in
  for_each cases (λ ip, assert_eq (is_restricted_ipv6 ip) (segments ip)).

Definition ipv6_mapped_embedded_ipv4_matches_ipv4_core : harness unit :=
  for_each [0; 10; 127; 169; 172; 192; 8] (λ o0,
    for_each [0; 0; 254; 16; 168; 8] (λ o1,
      let mapped := to_ipv6_mapped (mkV4 o0 o1 3 4) in
      assert_eq (is_restricted_ipv6 mapped) (is_restricted_ipv4_octets o0 o1 3 4))).

Definition dispatch_kernel_matches_component_kernels : harness unit :=
  _ ← assert (is_restricted_ip (V4 (mkV4 10 0 0 1)));
  _ ← assert (is_restricted_ip (V6 (mkV6 0 0 0 0 0 0 0 1)));
  _ ← assert (negb (is_restricted_ip (V4 (mkV4 8 8 8 8))));
  assert (negb (is_restricted_ip (V6 (mkV6 0x2606 0x4700 0 0 0 0 0 0x1111)))).
End IpFilterTests.

(** ** kernels/ct_eq.rs *)
Module CtEqTests.
Section tests.
Context `{Subtle}.
(** [crate::crypto::constant_time_eq] is a re-export of the kernel. *)
Definition kernel_matches_lib_reexport : harness unit :=
  _ ← assert_eq (constant_time_eq (as_bytes "abc") (as_bytes "abc"))
        (constant_time_eq (as_bytes "abc") (as_bytes "abc"));
  _ ← assert_eq (constant_time_eq (as_bytes "abc") (as_bytes "abd"))
        (constant_time_eq (as_bytes "abc") (as_bytes "abd"));
  assert_eq (constant_time_eq (as_bytes "abc") (as_bytes "ab"))
    (constant_time_eq (as_bytes "abc") (as_bytes "ab")).

Definition empty_slices_equal : harness unit := assert (constant_time_eq (as_bytes "") (as_bytes "")).

Definition length_mismatch_rejected : harness unit :=
  assert (negb (constant_time_eq (as_bytes "aaaa") (as_bytes "aaa"))).
End tests.
End CtEqTests.

(** ** kernels/pkce_bytes.rs *)
Module PkceBytesTests.
Definition length_bounds : harness unit :=
  _ ← assert (is_valid_verifier_length 43);
  _ ← assert (is_valid_verifier_length 128);
  _ ← assert (negb (is_valid_verifier_length 42));
  _ ← assert (negb (is_valid_verifier_length 129));
  assert (negb (is_valid_verifier_length 0)).

Definition byte_domain : harness unit :=
  _ ← for_each (as_bytes "abcdefghijklmnopqrstuvwxyzABCDEFGHIJKLMNOPQRSTUVWXYZ0123456789-._~") (λ b,
        assert (is_unreserved_byte b));
  for_each (as_bytes " +=/?" ++ [0x00; 0x80; 0xff]) (λ b, assert (negb (is_unreserved_byte b))).

Definition validate_bytes_agrees_with_str_validator : harness unit :=
  _ ← for_each [0; 1; 42; 43; 64; 128; 129; 200]%nat (λ len,
        let v := str_repeat "a" len in
        assert_eq (is_ok (validate_verifier_bytes (as_bytes v))) (is_ok (validate_verifier v)));
  let bad := str_repeat "a" 42 +:+ "+" in
  _ ← assert (is_err (validate_verifier_bytes (as_bytes bad)));
  assert (is_err (validate_verifier bad)).

Definition error_position_is_reported : harness unit :=
  let v := str_repeat "a" 42 +:+ "+" +:+ "b" in
  _ ← assert_eq (str_len v) 44;
  err ← unwrap_err (validate_verifier_bytes (as_bytes v));
  assert_eq err (InvalidCharacter 43 42).

Definition nul_byte_is_character_violation_not_length_sentinel : harness unit :=
  v ← index_set (array 97 43) 20 0x00;
  err ← unwrap_err (validate_verifier_bytes v);
  assert_eq err (InvalidCharacter 0 20).
End PkceBytesTests.

(** ** kernels/nsid_bytes.rs *)
Module NsidTests.
Definition kernel_agrees_with_production_validator : harness unit :=
  _ ← assert (is_valid_nsid "com.atproto.repo.describeRepo");
  _ ← assert (negb (is_valid_nsid "com.atproto"));
  _ ← assert (negb (is_valid_nsid "com..atproto.method"));
  _ ← assert (negb (is_valid_nsid "com.atproto.me%thod"));
  _ ← assert (negb (is_valid_nsid (str_repeat "a" 318)));
  assert (negb (is_valid_nsid "1com.atproto.method")).

Definition boundaries : harness unit :=
  _ ← assert (is_valid_nsid "com.atproto.repo.describeRepo");
  _ ← assert (negb (is_valid_nsid ""));
  _ ← assert (negb (is_valid_nsid "/"));
  _ ← assert (negb (is_valid_nsid (str_repeat "a" 318)));
  _ ← assert (is_valid_nsid (str_repeat "a" 63 +:+ "." +:+ "b.c.d"));
  assert (negb (is_valid_nsid (str_repeat "a" 64 +:+ "." +:+ "b.c.d"))).
End NsidTests.

(** ** kernels/htu_components.rs *)
Module HtuTests.
Definition default_ports_stripped : harness unit :=
  _ ← assert_eq (build_normalized_htu Https "example.com" (Some 443) "/oauth/token")
        "https://example.com/oauth/token";
  assert_eq (build_normalized_htu Http "example.com" (Some 80) "/") "http://example.com/".

Definition custom_ports_preserved : harness unit :=
  assert_eq (build_normalized_htu Https "example.com" (Some 8443) "/x") "https://example.com:8443/x".

Definition absent_port_omitted : harness unit :=
  assert_eq (build_normalized_htu Https "example.com" None "/p") "https://example.com/p".

Definition scheme_parse_case_insensitive_and_strict : harness unit :=
  _ ← assert_eq (scheme_parse "HTTPS") (Some Https);
  _ ← assert_eq (scheme_parse "http") (Some Http);
  _ ← assert_eq (scheme_parse "ftp") None;
  assert_eq (scheme_parse "") None.

Definition invariants_hold_conservatively : harness unit :=
  for_each [Http; Https] (λ scheme,
    for_each [None; Some 80; Some 443; Some 8443; Some 1] (λ port,
      for_each ["/"; "/a/b"; "/Token/Path"] (λ path,
        let out := build_normalized_htu scheme "auth.example.com" port path in
        assert (invariants_hold scheme "auth.example.com" port path out)))).
End HtuTests.

(** ** kernels/service_auth_bytes.rs *)
Module ServiceAuthBytesTests.
Definition sec1_tag_classification : harness unit :=
  _ ← assert (is_compressed_sec1_tag 0x02);
  _ ← assert (is_compressed_sec1_tag 0x03);
  for_each [0x00; 0x01; 0x04; 0xff] (λ b, assert (negb (is_compressed_sec1_tag b))).

Definition multikey_header_and_slice_classification : harness unit :=
  varint_k256 ← index_set (array 0 35) 0 0xe7;
  varint_k256 ← index_set varint_k256 1 0x01;
  varint_k256 ← index_set varint_k256 2 0x02;
  _ ← assert_eq (classify_multikey_bytes varint_k256) (Some (CURVE_SECP256K1, drop 2 varint_k256));
  legacy_k256 ← index_set (array 0 34) 0 0xe7;
  legacy_k256 ← index_set legacy_k256 1 0x03;
  _ ← assert_eq (classify_multikey_bytes legacy_k256) (Some (CURVE_SECP256K1, drop 1 legacy_k256));
  varint_p256 ← index_set (array 0 35) 0 0x80;
  varint_p256 ← index_set varint_p256 1 0x24;
  varint_p256 ← index_set varint_p256 2 0x02;
  _ ← assert_eq (classify_multikey_bytes varint_p256) (Some (CURVE_P256, drop 2 varint_p256));
  _ ← assert_eq (classify_multikey_bytes [0xe7; 0x01]) None;
  varint_k256 ← index_set varint_k256 2 0x04;
  _ ← assert_eq (classify_multikey_bytes varint_k256) None;
  assert_eq (classify_multikey_header 34 0xe7 0x01 0x02) CURVE_NONE.

Definition curve_to_alg_binding_rejects_cross_curve : harness unit :=
  _ ← assert (is_alg_bound_to_curve CURVE_SECP256K1 ALG_ES256K);
  _ ← assert (is_alg_bound_to_curve CURVE_P256 ALG_ES256);
  _ ← assert (negb (is_alg_bound_to_curve CURVE_P256 ALG_ES256K));
  _ ← assert (negb (is_alg_bound_to_curve CURVE_SECP256K1 ALG_ES256));
  _ ← assert (negb (is_alg_bound_to_curve CURVE_SECP256K1 ALG_NONE));
  _ ← assert (negb (is_alg_bound_to_curve CURVE_NONE ALG_ES256K));
  _ ← assert_eq (alg_id_from_str "ES256K") ALG_ES256K;
  _ ← assert_eq (alg_id_from_str "ES256") ALG_ES256;
  _ ← assert_eq (alg_id_from_str "RS256") ALG_NONE;
  assert_eq (alg_id_from_str "none") ALG_NONE.

Definition jwt_exp_window_handles_overflow_and_boundaries : harness unit :=
  _ ← assert (is_service_jwt_exp_valid 1000 1060 60);
  _ ← assert (negb (is_service_jwt_exp_valid 1000 1061 60));
  assert (is_service_jwt_exp_valid u64_max u64_max 60).
End ServiceAuthBytesTests.

(** ** verification/formal_models.rs *)
Module FormalModelsTests.
Definition test_state_transition_single_use_model : harness unit :=
  let state := "formal_state_123" in
  let '(model, inserted) := model_insert model_new state "client_1" 100 10 in
  _ ← assert inserted;
  _ ← assert (verify_global_store_invariants model);
  let '(model, inserted) := model_insert model state "client_1" 100 15 in
  _ ← assert inserted;
  let '(model, entry) := model_take_state model state 20 in
  _ ← assert (is_some entry);
  e ← unwrap_some entry;
  _ ← assert_eq (StoreModel.state_id e) state;
  _ ← assert (model_verify_single_use model state);
  _ ← assert (verify_global_store_invariants model);
  let '(model, again) := model_take_state model state 25 in
  _ ← assert (is_none again);
  _ ← assert (model_verify_single_use model state);
  assert (verify_global_store_invariants model).

Definition test_state_transition_expiration_model : harness unit :=
  let state := "expired_state_formal" in
  let '(model, inserted) := model_insert model_new state "client_1" 50 10 in
  _ ← assert inserted;
  let '(model, taken) := model_take_state model state 70 in
  _ ← assert (is_none taken);
  _ ← assert (match states model !! state with Some (Expired _) => true | _ => false end);
  assert (model_verify_single_use model state).

Definition test_concurrent_consumption_simulation : harness unit :=
  let state := "race_state" in
  let '(model, inserted) := model_insert model_new state "client_1" 100 0 in
  _ ← assert inserted;
  let '(model, (success, failure)) := simulate_concurrent_consumption_race model state 100 10 in
  _ ← assert_eq success 1;
  _ ← assert_eq failure 99;
  assert (model_verify_single_use model state).

Definition test_pkce_formal_spec_bounds : harness unit :=
  _ ← assert (is_valid_verifier_len 43);
  _ ← assert (is_valid_verifier_len 128);
  _ ← assert (negb (is_valid_verifier_len 42));
  _ ← assert (negb (is_valid_verifier_len 129));
  _ ← for_each (as_bytes "aZ9-._~") (λ b, assert (is_unreserved_char b));
  for_each (as_bytes " +=") (λ b, assert (negb (is_unreserved_char b))).

Definition test_constant_time_eq_soundness : harness unit :=
  let a := as_bytes "token_alpha_1234" in
  let b := as_bytes "token_alpha_1234" in
  let c := as_bytes "token_beta__5678" in
  _ ← assert (verify_soundness a b);
  _ ← assert (verify_soundness a c);
  _ ← assert (verify_soundness (as_bytes "") (as_bytes ""));
  assert (verify_soundness a (as_bytes "short")).

Definition test_ssrf_formal_spec_rejection : harness unit :=
  _ ← assert (spec_is_restricted_ipv4 (mkV4 10 0 0 1));
  _ ← assert (spec_is_restricted_ipv4 (mkV4 127 0 0 1));
  _ ← assert (spec_is_restricted_ipv4 (mkV4 169 254 169 254));
  _ ← assert (spec_is_restricted_ipv4 (mkV4 172 16 0 1));
  _ ← assert (spec_is_restricted_ipv4 (mkV4 192 168 1 1));
  _ ← assert (negb (spec_is_restricted_ipv4 (mkV4 1 1 1 1)));
  assert (negb (spec_is_restricted_ipv4 (mkV4 8 8 8 8))).

Definition test_ssrf_formal_spec_6to4_embedded_ipv4 : harness unit :=
  let v6 := mkV6 0x2002 0x0a00 0x0001 0 0 0 0 1 in
  _ ← assert (spec_is_restricted_ipv6 v6);
  let public_6to4 := mkV6 0x2002 0xc68c 0x2174 0 0 0 0 1 in
  _ ← assert (negb (spec_is_restricted_ipv6 public_6to4));
  _ ← assert_eq (is_restricted_ipv6 v6) (spec_is_restricted_ipv6 v6);
  assert_eq (is_restricted_ipv6 public_6to4) (spec_is_restricted_ipv6 public_6to4).
End FormalModelsTests.

(** ** ssrf.rs: the address tests *)
Module SsrfAddressTests.
Definition restricted (f : SsrfFilter) (a b c d : Z) : bool := is_ip_restricted f (V4 (mkV4 a b c d)).
Definition restricted6 (f : SsrfFilter) (ip : Ipv6Addr) : bool := is_ip_restricted f (V6 ip).

Definition test_loopback_ipv4 : harness unit :=
  let filter := mkFilter false in
  _ ← assert (restricted filter 127 0 0 1);
  _ ← assert (restricted filter 127 255 255 254);
  let local_filter := mkFilter true in
  assert (negb (restricted local_filter 127 0 0 1)).

Definition test_rfc1918_private_ipv4 : harness unit :=
  let filter := mkFilter false in
  _ ← assert (restricted filter 10 0 0 1);
  _ ← assert (restricted filter 10 255 255 255);
  _ ← assert (restricted filter 172 16 0 1);
  _ ← assert (restricted filter 172 31 255 255);
  _ ← assert (restricted filter 192 168 1 1);
  _ ← assert (restricted filter 192 168 255 255);
  assert (negb (restricted filter 172 32 0 1)).

Definition test_link_local_and_cloud_metadata : harness unit :=
  let filter := mkFilter false in
  _ ← assert (restricted filter 169 254 169 254);
  assert (restricted filter 169 254 170 2).

Definition test_cgnat_shared_space : harness unit :=
  let filter := mkFilter false in
  _ ← assert (restricted filter 100 64 0 1);
  _ ← assert (restricted filter 100 127 255 254);
  assert (negb (restricted filter 100 63 255 255)).

Definition test_documentation_and_benchmarking_ranges : harness unit :=
  let filter := mkFilter false in
  _ ← assert (restricted filter 192 0 2 1);
  _ ← assert (restricted filter 198 51 100 1);
  _ ← assert (restricted filter 203 0 113 1);
  _ ← assert (restricted filter 198 18 0 1);
  assert (restricted filter 192 88 99 1).

Definition test_multicast_and_reserved_class_e : harness unit :=
  let filter := mkFilter false in
  _ ← assert (restricted filter 0 0 0 0);
  _ ← assert (restricted filter 224 0 0 1);
  _ ← assert (restricted filter 240 0 0 1);
  assert (restricted filter 255 255 255 255).

Definition test_ipv6_ranges : harness unit :=
  let filter := mkFilter false in
  _ ← assert (restricted6 filter (mkV6 0 0 0 0 0 0 0 1));
  _ ← assert (restricted6 filter (mkV6 0 0 0 0 0 0 0 0));
  _ ← assert (restricted6 filter (mkV6 0xfc00 0 0 0 0 0 0 1));
  _ ← assert (restricted6 filter (mkV6 0xfd12 0 0 0 0 0 0 1));
  _ ← assert (restricted6 filter (mkV6 0xfe80 0 0 0 0 0 0 1));
  _ ← assert (restricted6 filter (mkV6 0x2001 0x0db8 0 0 0 0 0 1));
  assert (restricted6 filter (mkV6 0xff02 0 0 0 0 0 0 1)).

Definition test_ipv4_mapped_ipv6 : harness unit :=
  let filter := mkFilter false in
  _ ← assert (restricted6 filter (to_ipv6_mapped (mkV4 127 0 0 1)));
  _ ← assert (restricted6 filter (to_ipv6_mapped (mkV4 169 254 169 254)));
  _ ← assert (restricted6 filter (to_ipv6_mapped (mkV4 10 0 0 1)));
  assert (negb (restricted6 filter (to_ipv6_mapped (mkV4 8 8 8 8)))).

Definition test_public_ips_allowed : harness unit :=
  let filter := mkFilter false in
  _ ← assert (negb (restricted filter 1 1 1 1));
  _ ← assert (negb (restricted filter 8 8 8 8));
  _ ← assert (negb (restricted filter 93 184 216 34));
  assert (negb (restricted6 filter (mkV6 0x2606 0x4700 0x4700 0 0 0 0 0x1111))).

Definition test_is_blocked_hostname_includes_bare_localhost : harness unit :=
  _ ← assert (is_blocked_hostname "localhost");
  _ ← assert (is_blocked_hostname "LOCALHOST");
  assert (is_blocked_hostname "localhost.").

Definition test_6to4_embedded_ipv4_restriction : harness unit :=
  _ ← assert (is_restricted_ipv6 (mkV6 0x2002 0x0a00 0x0001 0 0 0 0 1));
  assert (negb (is_restricted_ipv6 (mkV6 0x2002 0xc68c 0x2174 0 0 0 0 1))).

Definition test_teredo_prefix_blocked : harness unit :=
  _ ← assert (is_restricted_ipv6 (mkV6 0x2001 0 0 0 0 0 0xf7f7 0xf7f7));
  assert (is_restricted_ipv6 (mkV6 0x2001 0 0 0 0 0 0 0)).
End SsrfAddressTests.

(** ** Running them *)
Section run.
Context `{SubtleLaws}.

Definition kernel_tests : list (string * harness unit) :=
  [("ip_filter::ipv4_octets_core_matches_std_adapter_exhaustively_sampled",
     IpFilterTests.ipv4_octets_core_matches_std_adapter_exhaustively_sampled);
   ("ip_filter::ipv6_segments_core_matches_std_adapter_on_boundary_classes",
     IpFilterTests.ipv6_segments_core_matches_std_adapter_on_boundary_classes);
   ("ip_filter::ipv6_mapped_embedded_ipv4_matches_ipv4_core",
     IpFilterTests.ipv6_mapped_embedded_ipv4_matches_ipv4_core);
   ("ip_filter::dispatch_kernel_matches_component_kernels",
     IpFilterTests.dispatch_kernel_matches_component_kernels);
   ("ct_eq::kernel_matches_lib_reexport", CtEqTests.kernel_matches_lib_reexport);
   ("ct_eq::empty_slices_equal", CtEqTests.empty_slices_equal);
   ("ct_eq::length_mismatch_rejected", CtEqTests.length_mismatch_rejected);
   ("pkce_bytes::length_bounds", PkceBytesTests.length_bounds);
   ("pkce_bytes::byte_domain", PkceBytesTests.byte_domain);
   ("pkce_bytes::validate_bytes_agrees_with_str_validator",
     PkceBytesTests.validate_bytes_agrees_with_str_validator);
   ("pkce_bytes::error_position_is_reported", PkceBytesTests.error_position_is_reported);
   ("pkce_bytes::nul_byte_is_character_violation_not_length_sentinel",
     PkceBytesTests.nul_byte_is_character_violation_not_length_sentinel);
   ("nsid_bytes::kernel_agrees_with_production_validator",
     NsidTests.kernel_agrees_with_production_validator);
   ("nsid_bytes::boundaries", NsidTests.boundaries);
   ("htu_components::default_ports_stripped", HtuTests.default_ports_stripped);
   ("htu_components::custom_ports_preserved", HtuTests.custom_ports_preserved);
   ("htu_components::absent_port_omitted", HtuTests.absent_port_omitted);
   ("htu_components::scheme_parse_case_insensitive_and_strict",
     HtuTests.scheme_parse_case_insensitive_and_strict);
   ("htu_components::invariants_hold_conservatively", HtuTests.invariants_hold_conservatively);
   ("service_auth_bytes::sec1_tag_classification", ServiceAuthBytesTests.sec1_tag_classification);
   ("service_auth_bytes::multikey_header_and_slice_classification",
     ServiceAuthBytesTests.multikey_header_and_slice_classification);
   ("service_auth_bytes::curve_to_alg_binding_rejects_cross_curve",
     ServiceAuthBytesTests.curve_to_alg_binding_rejects_cross_curve);
   ("service_auth_bytes::jwt_exp_window_handles_overflow_and_boundaries",
     ServiceAuthBytesTests.jwt_exp_window_handles_overflow_and_boundaries);
   ("formal_models::test_state_transition_single_use_model",
     FormalModelsTests.test_state_transition_single_use_model);
   ("formal_models::test_state_transition_expiration_model",
     FormalModelsTests.test_state_transition_expiration_model);
   ("formal_models::test_concurrent_consumption_simulation",
     FormalModelsTests.test_concurrent_consumption_simulation);
   ("formal_models::test_pkce_formal_spec_bounds", FormalModelsTests.test_pkce_formal_spec_bounds);
   ("formal_models::test_constant_time_eq_soundness", FormalModelsTests.test_constant_time_eq_soundness);
   ("formal_models::test_ssrf_formal_spec_rejection", FormalModelsTests.test_ssrf_formal_spec_rejection);
   ("formal_models::test_ssrf_formal_spec_6to4_embedded_ipv4",
     FormalModelsTests.test_ssrf_formal_spec_6to4_embedded_ipv4);
   ("ssrf::test_loopback_ipv4", SsrfAddressTests.test_loopback_ipv4);
   ("ssrf::test_rfc1918_private_ipv4", SsrfAddressTests.test_rfc1918_private_ipv4);
   ("ssrf::test_link_local_and_cloud_metadata", SsrfAddressTests.test_link_local_and_cloud_metadata);
   ("ssrf::test_cgnat_shared_space", SsrfAddressTests.test_cgnat_shared_space);
   ("ssrf::test_documentation_and_benchmarking_ranges",
     SsrfAddressTests.test_documentation_and_benchmarking_ranges);
   ("ssrf::test_multicast_and_reserved_class_e", SsrfAddressTests.test_multicast_and_reserved_class_e);
   ("ssrf::test_ipv6_ranges", SsrfAddressTests.test_ipv6_ranges);
   ("ssrf::test_ipv4_mapped_ipv6", SsrfAddressTests.test_ipv4_mapped_ipv6);
   ("ssrf::test_public_ips_allowed", SsrfAddressTests.test_public_ips_allowed);
   ("ssrf::test_is_blocked_hostname_includes_bare_localhost",
     SsrfAddressTests.test_is_blocked_hostname_includes_bare_localhost);
   ("ssrf::test_6to4_embedded_ipv4_restriction", SsrfAddressTests.test_6to4_embedded_ipv4_restriction);
   ("ssrf::test_teredo_prefix_blocked", SsrfAddressTests.test_teredo_prefix_blocked)].

(** Every unit test passes; what [subtle] is asked for follows from its law. *)
Theorem kernel_tests_pass : Forall (λ t, passes t.2) kernel_tests.
Proof.
  unfold kernel_tests. repeat (apply Forall_cons; split; [try (vm_compute; exact I)|]); [..|done].
  - unfold passes, CtEqTests.kernel_matches_lib_reexport. cbn [snd].
    repeat (hstep || (apply wp_assert_eq; [done|])). done.
  - by apply wp_assert; [apply constant_time_eq_spec|].
Qed.
End run.
