(* ===== verification/StateTests.v ===== *)
(** * StateTests: the repository's unit tests of the stateful components

    The [#[test]] functions of store.rs, of the caches of dpop.rs and service_auth.rs, of the token
    registry of validator.rs and of session.rs, over the definitions of the other files.  A test reads
    clocks, draws random bytes and hashes; these are its arguments, the [k]-th reading of a clock
    being [t k].  A theorem per component says when its tests pass: whatever the hash function, the keys
    and the random bytes, provided the run is fast enough. *)
From S2P Require Import Prelude Errors Strs Externals Instances Crypto Store Replay Nonces Keys Dpop Session.
From S2P Require Import Exchange TokenRequest Client Validator Issuer Multikey ServiceAuth Harness.
Open Scope Z_scope.

(** A clock that does not run backwards. *)
Definition monotone_clock (t : nat → Z) : Prop := ∀ i j, (i ≤ j)%nat → t i ≤ t j.

(** ** store.rs *)
Module StoreTests.
Section store_tests.
Context `{P256} (hash : string → Z) (key : SigningKey) (wall : Z) (t : nat → Z).

(** [key] is the generated key, [wall] the reading of [SystemTime::now()]. *)
Definition mock_stored_state (state : string) : StoredStateEntry :=
  mkEntry state "https://app.example.com/client-metadata.json" "dBjftJeZ4CVP-mB92K27uhbUJU1p1r_wW1gFWFOEjXk"
    key "https://auth.example.com" (Some "did:plc:alice123") (Some "alice.bsky.social")
    "https://app.example.com/callback" "https://pds.example.com" "https://auth.example.com/oauth/token"
    "atproto" wall 300.

Definition secs (n : Z) : Z := n * Store.NANOS_PER_SEC.

Definition test_store_initialization_and_num_shards : harness unit :=
  let store := @store_default StoredStateEntry in
  _ ← assert_eq (zlen (Store.shards store)) 64;
  _ ← assert_eq (total_entries store) 0;
  assert (Store.is_empty store).

Definition test_store_insert_and_single_use_consumption : harness unit :=
  let store := store_default in
  let state := "csrf_token_test_123" in
  let entry := mock_stored_state state in
  _ ← assert (negb (contains_state_sync hash store state (t 0)));
  let '(store, inserted) := insert_state_sync hash store state entry (secs 60) (t 1) (t 2) in
  _ ← unwrap inserted;
  _ ← assert (contains_state_sync hash store state (t 3));
  _ ← assert_eq (total_entries store) 1;
  let '(store, consumed) := take_state_sync hash store state (t 4) in
  _ ← assert (is_some consumed);
  consumed ← unwrap_some consumed;
  _ ← assert_eq (en_state consumed) state;
  _ ← assert_eq (en_client_id consumed) (en_client_id entry);
  let '(store, second_take) := take_state_sync hash store state (t 5) in
  _ ← assert (is_none second_take);
  _ ← assert (negb (contains_state_sync hash store state (t 6)));
  assert_eq (total_entries store) 0.

(** The takes of the racing threads, in the order in which they get the lock; [winner_count] counts
    those that see an entry. *)
Fixpoint race (n : nat) (k : nat) (store : OAuthStateStore StoredStateEntry) (state : string) (winner_count : Z)
    : OAuthStateStore StoredStateEntry * Z :=
  match n with
  | O => (store, winner_count)
  | S n' =>
      let '(store, taken) := take_state_sync hash store state (t k) in
      race n' (S k) store state (if is_some taken then winner_count + 1 else winner_count)
  end.

Definition test_concurrent_single_use_50_threads : harness unit :=
  let state := "race_condition_state_token" in
  let entry := mock_stored_state state in
  let '(store, inserted) := insert_state_sync hash store_default state entry (secs 60) (t 0) (t 1) in
  _ ← unwrap inserted;
  let '(store, winner_count) := race 50 2 store state 0 in
  _ ← assert_eq winner_count 1;
  assert_eq (total_entries store) 0.

Definition test_ttl_expiration_and_pruning : harness unit :=
  let state_active := "active_state" in
  let state_expired := "expired_state" in
  let '(store, inserted) :=
    insert_state_sync hash store_default state_active (mock_stored_state state_active) (secs 60) (t 0) (t 1) in
  _ ← unwrap inserted;
  let '(store, inserted) :=
    insert_state_sync hash store state_expired (mock_stored_state state_expired) 0 (t 2) (t 3) in
  _ ← unwrap inserted;
  _ ← assert_eq (total_entries store) 2;
  _ ← assert (contains_state_sync hash store state_active (t 4));
  _ ← assert (negb (contains_state_sync hash store state_expired (t 5)));
  let '(store, taken) := take_state_sync hash store state_expired (t 6) in
  _ ← assert (is_none taken);
  let '(store, inserted) :=
    insert_state_sync hash store state_expired (mock_stored_state state_expired) 0 (t 7) (t 8) in
  _ ← unwrap inserted;
  let '(store, pruned) := prune_expired_sync store (t 9) in
  _ ← assert_eq pruned 1;
  _ ← assert_eq (total_entries store) 1;
  assert (contains_state_sync hash store state_active (t 10)).

(** The operations of the [OAuthStore] trait are the synchronous ones. *)
Definition test_oauth_store_trait_async_operations : harness unit :=
  let state := "async_trait_test_state" in
  let entry := mock_stored_state state in
  let '(store, inserted) := insert_state_sync hash store_default state entry (secs 300) (t 0) (t 1) in
  _ ← unwrap inserted;
  _ ← assert (contains_state_sync hash store state (t 2));
  let '(store, taken) := take_state_sync hash store state (t 3) in
  _ ← assert (is_some taken);
  taken ← unwrap_some taken;
  _ ← assert_eq (en_state taken) state;
  _ ← assert (negb (contains_state_sync hash store state (t 4)));
  let '(store, again) := take_state_sync hash store state (t 5) in
  assert (is_none again).

(** [ticks] is the number of times the worker's interval elapses in the 60 milliseconds. *)
Definition test_background_pruning_task_cancellation (ticks : nat) : harness unit :=
  let '(store, inserted) := insert_state_sync hash store_default "exp1" (mock_stored_state "exp1") 0 (t 0) (t 1) in
  _ ← unwrap inserted;
  let '(store, inserted) := insert_state_sync hash store "exp2" (mock_stored_state "exp2") 0 (t 2) (t 3) in
  _ ← unwrap inserted;
  _ ← assert_eq (total_entries store) 2;
  store ← unwrap_some (spawn_pruning_task store 20000000 (t <$> seq 4 ticks));
  assert_eq (total_entries store) 0.

(** *** What the operations do to a small store *)
Implicit Types st : OAuthStateStore StoredStateEntry.

Lemma insert_small st k e ttl t1 t2 :
  store_wf hash st → total_entries st < SHARD_ADMISSION_CAPACITY →
  ∃ st', insert_state_sync hash st k e ttl t1 t2 = (st', Ok tt) ∧ store_wf hash st' ∧
    total_entries st' = total_entries st + (if is_some (store_lookup hash st k) then 0 else 1) ∧
    ∀ k', store_lookup hash st' k' = if decide (k = k') then Some (record_new e ttl t1) else store_lookup hash st k'.
Proof.
  intros Hwf Hs. pose proof (shard_index_lt hash k) as Hi. rewrite <-(wf_len _ _ Hwf) in Hi.
  pose proof (shards_total_ge (Store.shards st) (Store.shard_index hash k)) as Hge.
  fold (shard_at st (Store.shard_index hash k)) in Hge. fold (total_entries st) in Hge.
  destruct (insert_state_sync_cases hash st k e ttl t1 t2) as [[Hc E]|[_ E]];
    assert ((shard_size (shard_at st (Store.shard_index hash k)) >=? SHARD_ADMISSION_CAPACITY) = false) as Hf
      by (unfold shard_size; b2p; lia); rewrite Hf in *; [unfold shard_size in Hc; lia|].
  pose proof (insert_state_sync_wf hash st k e ttl t1 t2 Hwf) as Hwf'. rewrite E in Hwf'.
  eexists. split_and!; [exact E|exact Hwf'| |].
  - unfold total_entries, with_shard. cbn [Store.shards]. rewrite shards_total_insert by done.
    unfold store_lookup. fold (shard_at st (Store.shard_index hash k)). rewrite map_size_insert.
    destruct (_ !! k); cbn; lia.
  - intros k'. rewrite store_lookup_with by (rewrite <-?(wf_len _ _ Hwf); done).
    destruct (decide (k = k')) as [<-|Hk]; [by rewrite decide_True, lookup_insert_eq|].
    rewrite lookup_insert_ne by done. case_decide as Hd; [|done]. unfold store_lookup. by rewrite Hd.
Qed.

Lemma take_total st k now :
  store_wf hash st →
  total_entries (take_state_sync hash st k now).1 = total_entries st - (if is_some (store_lookup hash st k) then 1 else 0).
Proof.
  intros Hwf. pose proof (shard_index_lt hash k) as Hi. rewrite <-(wf_len _ _ Hwf) in Hi.
  unfold take_state_sync, store_lookup. destruct (_ !! k) as [r|] eqn:E; cbn [fst is_some is_none negb]; [|lia].
  unfold total_entries, with_shard. cbn [Store.shards]. rewrite shards_total_insert by done.
  fold (shard_at st (Store.shard_index hash k)). rewrite map_size_delete, E.
  assert (size (shard_at st (Store.shard_index hash k)) ≠ 0%nat).
  { intros Hz%map_size_empty_inv. by rewrite Hz in E. }
  lia.
Qed.

Lemma take_spec st k now :
  store_wf hash st →
  ∃ st', take_state_sync hash st k now =
      (st', r ← store_lookup hash st k; if Store.is_expired r now then None else Some (Store.entry r)) ∧
    store_wf hash st' ∧
    total_entries st' = total_entries st - (if is_some (store_lookup hash st k) then 1 else 0) ∧
    ∀ k', store_lookup hash st' k' = if decide (k = k') then None else store_lookup hash st k'.
Proof.
  intros Hwf. exists (take_state_sync hash st k now).1. split_and!.
  - by rewrite <-take_state_sync_result, <-surjective_pairing.
  - by apply take_state_sync_wf.
  - by apply take_total.
  - intros k'. by apply store_lookup_take.
Qed.

(** A store without records, or with the record of one token, counted. *)
Lemma no_record_total st : store_wf hash st → (∀ k, store_lookup hash st k = None) → total_entries st = 0.
Proof.
  intros Hwf Hn. pose proof (shards_total_bound (Store.shards st) 0) as Hb. unfold total_entries.
  assert (0 ≤ shards_total (Store.shards st) ≤ zlen (Store.shards st) * 0); [|lia]. apply Hb; [done|].
  intros i. fold (shard_at st i). assert (shard_at st i = ∅) as ->; [|done]. apply map_eq. intros k.
  rewrite lookup_empty. destruct (shard_at st i !! k) as [r|] eqn:E; [|done].
  specialize (Hn k). unfold store_lookup in Hn. rewrite (wf_home _ _ Hwf _ _ _ E), E in Hn. done.
Qed.

Lemma one_record_total st k0 r :
  store_wf hash st → (∀ k, store_lookup hash st k = if decide (k0 = k) then Some r else None) → total_entries st = 1.
Proof.
  intros Hwf Hl. destruct (take_spec st k0 0) as (st' & _ & Hwf' & Ht & Hl'); [done|].
  rewrite Hl, decide_True in Ht by done. cbn in Ht. rewrite (no_record_total st') in Ht; [lia|done|].
  intros k. rewrite Hl', Hl. by case_decide.
Qed.

Lemma prune_spec st now :
  store_wf hash st →
  ∃ st' n, prune_expired_sync st now = (st', n) ∧ store_wf hash st' ∧ n = total_entries st - total_entries st' ∧
    ∀ k, store_lookup hash st' k = r ← store_lookup hash st k; if Store.is_expired r now then None else Some r.
Proof.
  intros Hwf. pose proof (shard_at_prune st now) as Hat. revert Hat. unfold prune_expired_sync.
  rewrite prune_shards_spec. cbn [fst snd]. intros Hat. do 2 eexists. split; [done|]. split_and!.
  - split.
    + cbn [Store.shards]. rewrite length_fmap. apply (wf_len _ _ Hwf).
    + intros i k r. rewrite Hat. intros [Hl _]%retain_lookup. by eapply wf_home.
    + intros i. rewrite Hat. etrans; [apply shard_size_retain|]. by apply (wf_cap _ _ Hwf).
  - unfold total_entries. cbn [Store.shards]. lia.
  - intros k. unfold store_lookup. rewrite Hat. apply retain_unexpired.
Qed.

Lemma contains_spec st k now :
  contains_state_sync hash st k now =
  match store_lookup hash st k with Some r => negb (Store.is_expired r now) | None => false end.
Proof. done. Qed.

Lemma default_lookup k : store_lookup hash (@store_default StoredStateEntry) k = None.
Proof. unfold store_lookup, store_default. by rewrite shard_at_new, lookup_empty. Qed.
Lemma default_total : total_entries (@store_default StoredStateEntry) = 0.
Proof. apply shards_total_empty. Qed.

Lemma zero_ttl_expired (e : StoredStateEntry) t1 now : t1 ≤ INSTANT_MAX → Store.is_expired (record_new e 0 t1) now = true.
Proof. intros Hm. apply is_expired_spec. rewrite record_new_expires by lia. cbn. lia. Qed.

(** *** Running the tests *)
Context (t_start : ∀ k, t 0%nat ≤ t k) (t_fast : ∀ k, t k < t 0%nat + secs 60)
  (t_room : t 0%nat + secs 400 ≤ INSTANT_MAX).

Lemma young_entry (e : StoredStateEntry) ttl i j : secs 60 ≤ ttl ≤ secs 300 → Store.is_expired (record_new e ttl (t i)) (t j) = false.
Proof.
  intros Httl. pose proof (t_start i). pose proof (t_fast i). pose proof (t_fast j).
  apply record_new_live; unfold secs, Store.NANOS_PER_SEC in *; lia.
Qed.
Lemma stale (e : StoredStateEntry) i j : Store.is_expired (record_new e 0 (t i)) (t j) = true.
Proof. apply zero_ttl_expired. pose proof (t_fast i). unfold secs, Store.NANOS_PER_SEC in *. lia. Qed.

(** Reads of the store after the calls so far. *)
Ltac lookups :=
  rewrite ?contains_spec;
  repeat first
    [ rewrite default_lookup | rewrite decide_True by done | rewrite decide_False by done
    | rewrite young_entry by (unfold secs, Store.NANOS_PER_SEC; lia) | rewrite stale
    | match goal with
      | H : ∀ k, store_lookup hash ?st k = _ |- context [store_lookup hash ?st ?k] => rewrite (H k)
      | H : total_entries ?st = _ |- context [total_entries ?st] => rewrite H
      end | progress cbn [mbind option_bind] ];
  rewrite ?default_total; cbn.
Ltac run_store :=
  repeat (cbn beta iota zeta; first
    [ hstep
    | match goal with
      | |- context [insert_state_sync hash ?st ?k ?e ?ttl ?t1 ?t2] =>
          let E := fresh "E" in
          destruct (insert_small st k e ttl t1 t2) as (? & E & ? & ? & ?);
            [done|lookups; unfold SHARD_ADMISSION_CAPACITY; lia|rewrite E; clear E]
      | |- context [take_state_sync hash ?st ?k ?now] =>
          let E := fresh "E" in
          destruct (take_spec st k now) as (? & E & ? & ? & ?); [done|rewrite E; clear E]
      end
    | eapply wp_unwrap; [reflexivity|] | eapply wp_unwrap_some; [lookups; reflexivity|]
    | apply wp_assert_eq; [lookups; done|] | apply wp_assert; [lookups; done|] ]).

Lemma default_wf : store_wf hash (@store_default StoredStateEntry).
Proof. apply new_wf. Qed.

Lemma consumption_passes : passes test_store_insert_and_single_use_consumption.
Proof.
  pose proof default_wf. unfold passes, test_store_insert_and_single_use_consumption.
  by run_store.
Qed.

Lemma ttl_passes : passes test_ttl_expiration_and_pruning.
Proof.
  pose proof default_wf. unfold passes, test_ttl_expiration_and_pruning. run_store.
  match goal with |- context [prune_expired_sync ?st ?now] =>
    destruct (prune_spec st now) as (st' & n & -> & Hwf' & -> & Hp); [done|] end.
  assert (total_entries st' = 1) as Hone.
  { eapply one_record_total with (k0 := "active_state"); [done|]. intros k. rewrite Hp. lookups.
    destruct (decide ("active_state" = k)) as [<-|]; lookups; [done|]. by repeat case_decide; lookups. }
  by run_store.
Qed.

Lemma async_passes : passes test_oauth_store_trait_async_operations.
Proof. pose proof default_wf. unfold passes, test_oauth_store_trait_async_operations. by run_store. Qed.
(** Whatever the order of the takes, the first one wins. *)
Lemma race_spec n : ∀ k st state wins,
  store_wf hash st → match store_lookup hash st state with Some r => ∀ i, Store.is_expired r (t i) = false | None => True end →
  (race n k st state wins).2 =
    wins + (if is_some (store_lookup hash st state) then (if (n =? 0)%nat then 0 else 1) else 0) ∧
  total_entries (race n k st state wins).1 =
    total_entries st - (if is_some (store_lookup hash st state) then (if (n =? 0)%nat then 0 else 1) else 0).
Proof.
  induction n as [|n IH]; intros k st state wins Hwf Hl; cbn [race].
  { destruct (is_some _); cbn; lia. }
  destruct (take_spec st state (t k)) as (st' & -> & Hwf' & Ht & Hl'); [done|].
  assert (store_lookup hash st' state = None) as Hn by (by rewrite Hl', decide_True).
  destruct (IH (S k) st' state (if is_some (r ← store_lookup hash st state;
    if Store.is_expired r (t k) then None else Some (Store.entry r)) then wins + 1 else wins)) as [-> ->].
  { done. }
  { by rewrite Hn. }
  rewrite Hn, Ht. destruct (store_lookup hash st state) as [r|]; cbn; [rewrite Hl; cbn|]; lia.
Qed.

Lemma threads_pass : passes test_concurrent_single_use_50_threads.
Proof.
  pose proof default_wf. unfold passes, test_concurrent_single_use_50_threads. run_store.
  match goal with |- context [race 50 2 ?st ?k 0] => destruct (race_spec 50 2 st k 0) as [Hw Ht] end; [done|..].
  { lookups. intros i. apply young_entry. unfold secs, Store.NANOS_PER_SEC. lia. }
  destruct (race _ _ _ _ _) as [st' n]. revert Hw Ht. lookups. intros -> Ht. by run_store.
Qed.

Lemma prunes_nothing times st :
  store_wf hash st → (∀ k, store_lookup hash st k = None) →
  total_entries (foldl (λ st now, fst (prune_expired_sync st now)) st times) = 0.
Proof.
  revert st. induction times as [|now times IH]; intros st Hwf Hn; cbn [foldl]; [by apply no_record_total|].
  destruct (prune_spec st now) as (st' & n & -> & Hwf' & _ & Hp); [done|]. apply IH; [done|].
  intros k. by rewrite Hp, Hn.
Qed.

(** After a tick nothing is left of the two expired states; without one, both are still there. *)
Lemma pruning_task_passes ticks : passes (test_background_pruning_task_cancellation (S ticks)).
Proof.
  pose proof default_wf. unfold passes, test_background_pruning_task_cancellation. run_store.
  apply wp_assert_eq; [|done]. cbn [seq fmap list_fmap foldl].
  match goal with |- context [prune_expired_sync ?st ?now] =>
    destruct (prune_spec st now) as (st' & n & -> & Hwf' & _ & Hp); [done|] end.
  apply prunes_nothing; [done|]. intros k. rewrite Hp. lookups.
  by repeat (case_decide; lookups).
Qed.

Theorem store_tests_pass ticks :
  passes test_store_initialization_and_num_shards ∧ passes test_store_insert_and_single_use_consumption ∧
  passes test_concurrent_single_use_50_threads ∧ passes test_ttl_expiration_and_pruning ∧
  passes test_oauth_store_trait_async_operations ∧ passes (test_background_pruning_task_cancellation (S ticks)).
Proof.
  refine (conj _ (conj consumption_passes (conj threads_pass (conj ttl_passes (conj async_passes
    (pruning_task_passes ticks)))))). vm_compute. exact I.
Qed.
End store_tests.
End StoreTests.

(** ** dpop.rs: the replay cache *)
Module ReplayTests.
Section replay_tests.
Context (hash : string → Z).
Local Abbreviation check_and_record := (check_and_record hash).
Local Abbreviation is_consumed := (Replay.is_consumed hash).

Definition test_dpop_replay_cache_sharding_and_expiry : harness unit :=
  let cache := replay_new in
  let jkt := "test_jkt_123" in
  let jti := "test_jti_456" in
  _ ← assert (negb (is_consumed cache jkt jti 1000));
  let '(cache, r) := check_and_record cache jkt jti 1500 1000 in
  _ ← assert (is_ok r);
  _ ← assert (is_consumed cache jkt jti 1000);
  let '(cache, r) := check_and_record cache jkt jti 1500 1200 in
  err ← unwrap_err r;
  _ ← assert (match err with DPoPError_ReplayDetected _ => true | _ => false end);
  _ ← assert (negb (is_consumed cache jkt jti 1600));
  let '(cache, r) := check_and_record cache jkt jti 2000 1600 in
  assert (is_ok r).

Definition killer_replay_cache_expiry_boundary : harness unit :=
  let '(cache, r) := check_and_record replay_new "jkt" "jti-exp" 100 100 in
  _ ← unwrap r;
  _ ← assert (negb (is_consumed cache "jkt" "jti-exp" 100));
  _ ← assert (is_consumed cache "jkt" "jti-exp" 99);
  let '(cache, r) := check_and_record cache "jkt" "jti-exp" 100 100 in
  _ ← assert (is_ok r);
  let '(cache, r) := check_and_record cache "jkt" "jti-live" 200 100 in
  _ ← unwrap r;
  let '(cache, r) := check_and_record cache "jkt" "jti-live" 200 100 in
  assert (match r with Err (DPoPError_ReplayDetected _) => true | _ => false end).

Definition killer_replay_cache_prune_len_is_empty_clear : harness unit :=
  let cache := replay_new in
  _ ← assert (replay_is_empty cache);
  _ ← assert_eq (replay_len cache) 0;
  let '(cache, r) := check_and_record cache "jkt" "jti-a" 10000 1 in
  _ ← unwrap r;
  let '(cache, r) := check_and_record cache "jkt" "jti-b" 10000 1 in
  _ ← unwrap r;
  _ ← assert_eq (replay_len cache) 2;
  _ ← assert (negb (replay_is_empty cache));
  let cache := replay_prune_expired cache 10000 in
  _ ← assert_eq (replay_len cache) 0;
  _ ← assert (replay_is_empty cache);
  let '(cache, r) := check_and_record cache "jkt" "jti-c" 1000000 1 in
  _ ← unwrap r;
  _ ← assert_eq (replay_len cache) 1;
  let cache := replay_clear cache in
  _ ← assert (replay_is_empty cache);
  assert (negb (is_consumed cache "jkt" "jti-c" 2)).

(** *** What the operations do to a small cache *)
Local Abbreviation recorded := (recorded hash).

(** Every entry of the cache has an expiry in [P]. *)
Definition expiries (P : Z → Prop) (c : DPoPReplayCache) : Prop :=
  ∀ i k e, shard_get (Replay.shards c) i !! k = Some e → P e.

Lemma record_small P c jkt jti exp now :
  replay_wf c → replay_len c < REPLAY_SHARD_CAPACITY → is_live now (recorded c (composite_key jkt jti)) = false →
  replay_len c ≤ REPLAY_PRUNE_THRESHOLD →
  ∃ c', check_and_record c jkt jti exp now = (c', Ok tt) ∧ replay_wf c' ∧
    replay_len c' = replay_len c + (if is_some (recorded c (composite_key jkt jti)) then 0 else 1) ∧
    (expiries P c → P exp → expiries P c') ∧
    ∀ k, recorded c' k = if decide (composite_key jkt jti = k) then Some exp else recorded c k.
Proof.
  intros Hwf Hcap Hl Hsmall. set (key := composite_key jkt jti).
  pose proof (replay_shard_lt hash key) as Hi.
  pose proof (shards_total_ge (Replay.shards c) (Replay.shard_index hash key)) as Hge.
  fold (replay_len c) in Hge.
  pose proof (check_and_record_wf hash c jkt jti exp now Hwf) as Hwf'. revert Hwf'.
  unfold check_and_record. fold key. unfold is_live, live, recorded in Hl. fold key in Hl. rewrite Hl.
  unfold fetch_add_hint. cbn [Replay.shards].
  assert ((map_size (shard_get (Replay.shards c) (Replay.shard_index hash key)) >? REPLAY_PRUNE_THRESHOLD) = false)
    as -> by (unfold map_size; b2p; lia). cbn [andb].
  assert ((map_size (shard_get (Replay.shards c) (Replay.shard_index hash key)) >=? REPLAY_SHARD_CAPACITY) = false)
    as -> by (unfold map_size; b2p; lia).
  intros Hwf'. eexists. split_and!; [done|exact Hwf'| | |].
  - unfold replay_len. cbn [Replay.shards set_shard]. rewrite shards_total_insert by (by rewrite (rwf_len _ Hwf)).
    unfold recorded. rewrite map_size_insert. destruct (_ !! key); cbn; lia.
  - intros HP He i k e. cbn [Replay.shards set_shard]. rewrite shard_get_insert by (by rewrite (rwf_len _ Hwf)).
    case_decide; [|apply HP]. intros [[_ <-]|[_ Hk]]%lookup_insert_Some; [done|by eapply HP].
  - intros k. unfold recorded. cbn [Replay.shards set_shard].
    rewrite shard_get_insert by (by rewrite (rwf_len _ Hwf)).
    destruct (decide (key = k)) as [<-|Hk]; [by rewrite decide_True, lookup_insert_eq|].
    case_decide as Hd; [|done]. by rewrite lookup_insert_ne, Hd.
Qed.

Lemma record_replay c jkt jti exp now :
  is_live now (recorded c (composite_key jkt jti)) = true →
  check_and_record c jkt jti exp now = (c, Err (DPoPError_ReplayDetected jti)).
Proof.
  destruct (recorded c _) as [e|] eqn:E; [|done]. intros Hl%live_true. by apply (check_and_record_live hash c jkt jti exp now e).
Qed.

Lemma consumed_spec c jkt jti now : is_consumed c jkt jti now = is_live now (recorded c (composite_key jkt jti)).
Proof. done. Qed.

Lemma new_recorded k : recorded replay_new k = None.
Proof. unfold recorded. cbn [replay_new Replay.shards]. by rewrite shard_get_replicate. Qed.

(** Rebuilding every shard by a function that empties it. *)
Lemma emptied_spec c (f : gmap string Z → gmap string Z) :
  replay_wf c → (∀ i, f (shard_get (Replay.shards c) i) = ∅) → f ∅ = ∅ →
  let c' := mkReplay (f <$> Replay.shards c) (prune_hints c) in
  replay_wf c' ∧ replay_len c' = 0 ∧ ∀ k, recorded c' k = None.
Proof.
  intros Hwf Hf Hf0 c'.
  assert (∀ i, shard_get (Replay.shards c') i = ∅) as Hg.
  { intros i. specialize (Hf i). unfold shard_get in *. cbn. rewrite list_lookup_fmap. by destruct (_ !! i). }
  split_and!.
  - split; [by cbn; rewrite length_fmap, (rwf_len _ Hwf)|]. intros i. by rewrite Hg.
  - pose proof (shards_total_bound (Replay.shards c') 0) as Hb. unfold replay_len.
    assert (0 ≤ shards_total (Replay.shards c') ≤ zlen (Replay.shards c') * 0); [|lia]. apply Hb; [done|].
    intros i. by rewrite Hg.
  - intros k. unfold recorded. by rewrite Hg.
Qed.

Lemma prune_all c now :
  replay_wf c → expiries (λ e, e ≤ now) c →
  let c' := replay_prune_expired c now in replay_wf c' ∧ replay_len c' = 0 ∧ ∀ k, recorded c' k = None.
Proof.
  intros Hwf He. apply emptied_spec; [done| |].
  - intros i. apply map_eq. intros k. rewrite lookup_empty, retain_lookup_option.
    destruct (_ !! k) as [e|] eqn:E; [|done]. apply He in E. cbn.
    destruct (live now e) eqn:El; [|done]. apply live_true in El. lia.
  - apply map_eq. intros k. by rewrite retain_lookup_option, !lookup_empty.
Qed.

Lemma clear_all c :
  replay_wf c → let c' := replay_clear c in replay_wf c' ∧ replay_len c' = 0 ∧ ∀ k, recorded c' k = None.
Proof. intros Hwf. by apply emptied_spec. Qed.

Lemma new_len : replay_len replay_new = 0.
Proof. apply shards_total_empty. Qed.

Ltac lookups :=
  rewrite ?consumed_spec;
  repeat first
    [ rewrite new_recorded | rewrite new_len | rewrite decide_True by done | rewrite decide_False by done
    | match goal with
      | H : ∀ k, recorded ?c k = _ |- context [recorded ?c ?k] => rewrite (H k)
      | H : replay_len ?c = _ |- context [replay_len ?c] => rewrite H
      end ];
  cbn.
Ltac run_cache :=
  repeat (cbn beta iota zeta; first
    [ hstep
    | match goal with
      | |- context [Replay.check_and_record hash ?c ?jkt ?jti ?e ?now] =>
          let E := fresh "E" in
          first
            [ destruct (record_small (λ x, x ≤ 10000) c jkt jti e now) as (? & E & ? & ? & ? & ?);
                [done|lookups; unfold REPLAY_SHARD_CAPACITY; lia|by lookups|
                 lookups; unfold REPLAY_PRUNE_THRESHOLD; lia|rewrite E; clear E]
            | rewrite (record_replay c jkt jti e now) by (by lookups) ]
      end
    | eapply wp_unwrap; [reflexivity|] | eapply wp_unwrap_err; [reflexivity|]
    | apply wp_assert_eq; [lookups; done|] | apply wp_assert; [unfold replay_is_empty; lookups; done|] ]).

Lemma sharding_passes : passes test_dpop_replay_cache_sharding_and_expiry.
Proof.
  pose proof replay_new_wf. unfold passes, test_dpop_replay_cache_sharding_and_expiry. by run_cache.
Qed.
Lemma boundary_passes : passes killer_replay_cache_expiry_boundary.
Proof. pose proof replay_new_wf. unfold passes, killer_replay_cache_expiry_boundary. by run_cache. Qed.

Lemma prune_passes : passes killer_replay_cache_prune_len_is_empty_clear.
Proof.
  pose proof replay_new_wf. unfold passes, killer_replay_cache_prune_len_is_empty_clear. run_cache.
  assert (expiries (λ x, x ≤ 10000) replay_new) as Hnew.
  { intros i k e. cbn [replay_new Replay.shards]. by rewrite shard_get_replicate, lookup_empty. }
  match goal with |- context [replay_prune_expired ?c 10000] =>
    destruct (prune_all c 10000) as (? & ? & ?); [done|auto with lia|]; generalize dependent (replay_prune_expired c 10000)
  end.
  intros pruned ? ? ?. run_cache.
  match goal with |- context [replay_clear ?c] =>
    destruct (clear_all c) as (? & ? & ?); [done|]; generalize dependent (replay_clear c)
  end.
  intros cleared ? ? ?. by run_cache.
Qed.

Theorem replay_tests_pass :
  passes test_dpop_replay_cache_sharding_and_expiry ∧ passes killer_replay_cache_expiry_boundary ∧
  passes killer_replay_cache_prune_len_is_empty_clear.
Proof. exact (conj sharding_passes (conj boundary_passes prune_passes)). Qed.
End replay_tests.
End ReplayTests.

(** ** dpop.rs: nonces *)
Module NonceTests.
Definition test_extract_dpop_nonce : harness unit :=
  _ ← assert_eq (extract_dpop_nonce (Some "server-issued-nonce-xyz")) (Some "server-issued-nonce-xyz");
  _ ← assert_eq (extract_dpop_nonce None) None;
  assert_eq (extract_dpop_nonce (Some "   ")) None.

Definition test_dpop_nonce_cache : harness unit :=
  let cache := nonce_cache_new in
  let cache := set_nonce cache "https://pds.example.com" "nonce-1" in
  _ ← assert_eq (get_nonce cache "https://pds.example.com") (Some "nonce-1");
  let cache := set_nonce cache "https://pds.example.com" "nonce-2" in
  _ ← assert_eq (get_nonce cache "https://pds.example.com") (Some "nonce-2");
  let cache := clear_nonce cache "https://pds.example.com" in
  assert_eq (get_nonce cache "https://pds.example.com") None.

Section nonce_tests.
Context `{Base64} (t : nat → Z) (raw : nat → list Z).
Local Abbreviation generate_nonce := (generate_nonce base64url_encode).
Local Abbreviation source := InMemoryServerNonceSource.

Definition test_in_memory_server_nonce_source_lifecycle : harness unit :=
  let source := nonce_source_new 60 in
  let '(source, generated) := generate_nonce source (t 0) (raw 0) in
  nonce ← unwrap generated;
  let '(source, ok) := verify_nonce source (t 1) nonce in
  _ ← assert ok;
  let unissued_nonce := base64url_encode (raw 1) in
  let '(source, ok) := verify_nonce source (t 2) unissued_nonce in
  assert (negb ok).

Definition test_in_memory_server_nonce_source_single_use : harness unit :=
  let '(reusable, generated) := generate_nonce (nonce_source_new 60) (t 0) (raw 0) in
  nonce ← unwrap generated;
  let '(reusable, ok) := verify_nonce reusable (t 1) nonce in
  _ ← assert ok;
  let '(reusable, ok) := verify_nonce reusable (t 2) nonce in
  _ ← assert ok;
  let '(strict, generated) := generate_nonce (with_single_use (nonce_source_new 60)) (t 3) (raw 1) in
  nonce ← unwrap generated;
  let '(strict, ok) := verify_nonce strict (t 4) nonce in
  _ ← assert ok;
  let '(strict, ok) := verify_nonce strict (t 5) nonce in
  _ ← assert (negb ok);
  let '(strict, generated) := generate_nonce strict (t 6) (raw 2) in
  second ← unwrap generated;
  let '(strict, ok) := verify_nonce strict (t 7) second in
  assert ok.

(** The loop of four issuances, with what it leaves. *)
Fixpoint issue (n k : nat) (s : source) (body : source → harness unit) : harness unit :=
  match n with
  | O => body s
  | S n' => let '(s, generated) := generate_nonce s (t k) (raw k) in _ ← assert (is_ok generated); issue n' (S k) s body
  end.

Definition test_challenge_issuance_rate_limiter_bounds_unauthenticated_flood : harness unit :=
  issue 4 0 (with_issuance_rate_limit (nonce_source_new 60) 4) (λ source,
    let '(source, generated) := generate_nonce source (t 4) (raw 4) in
    assert (match generated with Err DPoPError_NonceCacheSaturated => true | _ => false end)).

(** The forwarding implementation for [Arc] calls the source. *)
Definition killer_arc_nonce_source_forwards : harness unit :=
  let '(source, generated) := generate_nonce (nonce_source_new 60) (t 0) (raw 0) in
  nonce ← unwrap generated;
  _ ← assert (negb (str_is_empty nonce));
  _ ← assert (negb (nonce =? "xyzzy")%string);
  let '(source, ok) := verify_nonce source (t 1) nonce in
  _ ← assert ok;
  let never_issued := base64url_encode (raw 1) in
  _ ← assert (negb (never_issued =? nonce)%string);
  let '(source, ok) := verify_nonce source (t 2) never_issued in
  assert (negb ok).

Definition killer_nonce_source_ttl_and_prune_boundaries : harness unit :=
  let '(source, generated) := generate_nonce (nonce_source_new 60) (t 0) (raw 0) in
  nonce ← unwrap generated;
  let '(source, ok) := verify_nonce source (t 1) nonce in
  _ ← assert ok;
  let source := nonce_prune_expired source (u64_max / 2) in
  let '(source, ok) := verify_nonce source (t 2) nonce in
  _ ← assert (negb ok);
  let tiny := with_issuance_rate_limit (nonce_source_new 60) 1 in
  let '(tiny, generated) := generate_nonce tiny (t 3) (raw 1) in
  _ ← assert (is_ok generated);
  let '(tiny, generated) := generate_nonce tiny (t 4) (raw 2) in
  assert (match generated with Err DPoPError_NonceCacheSaturated => true | _ => false end).

(** *** What the operations do to a small source *)
Definition used_in (s : source) (now : Z) : Z := if issuance_window_secs s =? now then issuance_count_in_window s else 0.

Lemma generate_small s now bytes :
  map_size (nonces s) ≤ NONCE_PRUNE_THRESHOLD → used_in s (unix_secs_or_zero now) < issuance_rate_limit s →
  generate_nonce s now bytes =
    (mkNonceSource (<[base64url_encode bytes := u64_saturating_add (unix_secs_or_zero now) (ttl s)]> (nonces s))
       (ttl s) (single_use s) (unix_secs_or_zero now) (used_in s (unix_secs_or_zero now) + 1) (issuance_rate_limit s),
     Ok (base64url_encode bytes)).
Proof.
  intros Hs Hu. unfold used_in in *. unfold Nonces.generate_nonce, store_nonce, issuance_admit.
  destruct (issuance_window_secs s =? unix_secs_or_zero now) eqn:E; b2p; cbn [negb]; (case_if; b2p; [lia|]);
    cbn; unfold nonce_guard; (assert ((map_size (nonces s) >? NONCE_PRUNE_THRESHOLD) = false) as -> by (b2p; lia));
    (case_if; b2p; [unfold NONCE_PRUNE_THRESHOLD, NONCE_CACHE_CAPACITY in *; lia|]); unfold set_nonces; cbn; congruence.
Qed.

Lemma generate_saturated s now bytes :
  issuance_rate_limit s ≤ used_in s (unix_secs_or_zero now) →
  ∃ s', generate_nonce s now bytes = (s', Err DPoPError_NonceCacheSaturated).
Proof.
  intros Hu. unfold used_in in *. unfold Nonces.generate_nonce, issuance_admit.
  destruct (issuance_window_secs s =? unix_secs_or_zero now) eqn:E; b2p; cbn [negb]; (case_if; b2p; [eauto|lia]).
Qed.

Lemma verify_reusable s now bytes `{!Base64Alphabet} :
  single_use s = false →
  verify_nonce s now (base64url_encode bytes) =
    (s, is_live (unix_secs_or_zero now) (nonces s !! base64url_encode bytes)).
Proof.
  intros Hs. unfold verify_nonce. rewrite Hs, base64url_encode_trim. by destruct (_ !! _).
Qed.

Lemma verify_strict_live s now bytes `{!Base64Alphabet} :
  single_use s = true → is_live (unix_secs_or_zero now) (nonces s !! base64url_encode bytes) = true →
  verify_nonce s now (base64url_encode bytes) = (set_nonces s (delete (base64url_encode bytes) (nonces s)), true).
Proof.
  intros Hs. unfold verify_nonce, is_live, live. rewrite Hs, base64url_encode_trim.
  destruct (_ !! _) as [e|]; [|done]. by intros ->.
Qed.

Lemma verify_strict_gone s now bytes `{!Base64Alphabet} :
  single_use s = true → nonces s !! base64url_encode bytes = None →
  verify_nonce s now (base64url_encode bytes) = (s, false).
Proof. intros Hs Hn. unfold verify_nonce. by rewrite Hs, base64url_encode_trim, Hn. Qed.

(** The limit is reached at this point of a test. *)
Ltac saturated :=
  match goal with |- context [Nonces.generate_nonce _ ?s ?now ?b] =>
    let E := fresh "E" in destruct (generate_saturated s now b) as (? & E); [|rewrite E; done] end.

(** *** Running the tests: 24 bytes are drawn each time, never the same, and within a minute. *)
Context `{!Base64Laws} `{!Base64Alphabet} `{!Base64Length}.
Context (raw_bytes : ∀ i, Forall u8_valid (raw i)) (raw_len : ∀ i, length (raw i) = 24%nat)
  (raw_fresh : ∀ i j, raw i = raw j → i = j).
Local Abbreviation s k := (unix_secs_or_zero (t k)).
Context (t_start : ∀ k, s 0%nat ≤ s k) (t_fast : ∀ k, s k < s 0%nat + 60) (t_room : 0 ≤ s 0%nat ≤ 9223372036854775807 - 200).

Lemma issued_fresh i j : base64url_encode (raw i) = base64url_encode (raw j) → i = j.
Proof.
  intros E. apply raw_fresh. assert (Ok (raw i) =@{result string (list Z)} Ok (raw j)) as [= ->]; [|done].
  rewrite <-!b64_roundtrip by done. unfold base64url_encode in E. by rewrite E.
Qed.

Lemma issued_length i : str_len (base64url_encode (raw i)) = 32.
Proof. unfold base64url_encode. rewrite b64_length. unfold zlen. by rewrite raw_len. Qed.

Lemma live_minute i j : is_live (s j) (Some (u64_saturating_add (s i) 60)) = true.
Proof.
  apply live_true. pose proof (t_start i). pose proof (t_fast j). pose proof (t_fast i). pose proof t_room as Hr.
  unfold u64_saturating_add, u64_max in *. lia.
Qed.

Lemma issued_nonempty i : str_is_empty (base64url_encode (raw i)) = false.
Proof. pose proof (issued_length i) as Hl. by destruct (base64url_encode (raw i)). Qed.
Lemma issued_word i w : str_len w ≠ 32 → (base64url_encode (raw i) =? w)%string = false.
Proof. intros Hw. apply String.eqb_neq. intros E. apply Hw. by rewrite <-E, issued_length. Qed.
Lemma issued_other i j : i ≠ j → (base64url_encode (raw i) =? base64url_encode (raw j))%string = false.
Proof. intros Hij. apply String.eqb_neq. by intros ?%issued_fresh. Qed.

Lemma pruned_gone i :
  retain (live (u64_max / 2)) (<[base64url_encode (raw i) := u64_saturating_add (s i) 60]> ∅) = ∅.
Proof.
  apply map_eq. intros k. rewrite retain_lookup_option, lookup_empty.
  destruct (decide (base64url_encode (raw i) = k)) as [<-|Hk].
  - rewrite lookup_insert_eq. cbn [mbind option_bind]. destruct (live _ _) eqn:E; [|done].
    apply live_true in E. pose proof (t_fast i). pose proof t_room as Hr.
    change (u64_max / 2) with 9223372036854775807 in E. unfold u64_saturating_add in E. lia.
  - by rewrite lookup_insert_ne, lookup_empty.
Qed.

Ltac fields :=
  cbn [nonces ttl single_use issuance_window_secs issuance_count_in_window issuance_rate_limit nonce_source_new
       with_single_use with_issuance_rate_limit set_nonces].
Ltac lookups :=
  fields; rewrite ?lookup_insert_eq, ?live_minute, ?lookup_delete_eq, ?lookup_empty;
  rewrite ?lookup_insert_ne, ?lookup_empty by (by intros ?%issued_fresh); cbn.
Ltac room :=
  fields; unfold used_in; fields; repeat case_if;
  unfold NONCE_PRUNE_THRESHOLD, CHALLENGE_ISSUANCE_RATE_LIMIT, map_size;
  rewrite ?map_size_delete, ?map_size_insert, ?map_size_empty; repeat case_match; cbn; lia.
Ltac run_nonces :=
  repeat (cbn beta iota zeta; first
    [ hstep | rewrite generate_small by room | eapply wp_unwrap; [reflexivity|]
    | rewrite verify_reusable by done
    | rewrite verify_strict_live by (lookups; done) | rewrite verify_strict_gone by (lookups; done)
    | apply wp_assert; [first [by lookups|by rewrite issued_nonempty|by rewrite issued_word|by rewrite issued_other]|] ]).

Lemma nonce_lifecycle_passes : passes test_in_memory_server_nonce_source_lifecycle.
Proof. unfold passes, test_in_memory_server_nonce_source_lifecycle. by run_nonces. Qed.

Lemma single_use_passes : passes test_in_memory_server_nonce_source_single_use.
Proof. unfold passes, test_in_memory_server_nonce_source_single_use. by run_nonces. Qed.

Lemma forwards_pass : passes killer_arc_nonce_source_forwards.
Proof.
  unfold passes, killer_arc_nonce_source_forwards. by run_nonces.
Qed.

(** Two limits that hold per second: the tests pass when the second does not change under them. *)
Lemma flood_passes :
  (∀ k, s k = s 0%nat) → passes test_challenge_issuance_rate_limiter_bounds_unauthenticated_flood.
Proof.
  intros Hs. unfold passes, test_challenge_issuance_rate_limiter_bounds_unauthenticated_flood. cbn [issue].
  run_nonces. saturated. unfold used_in. fields.
  rewrite (Hs 4%nat), (Hs 3%nat), (Hs 2%nat), (Hs 1%nat), !Z.eqb_refl. case_if; lia.
Qed.

Lemma boundaries_pass : s 4%nat = s 3%nat → passes killer_nonce_source_ttl_and_prune_boundaries.
Proof.
  intros Hs. unfold passes, killer_nonce_source_ttl_and_prune_boundaries. run_nonces.
  unfold nonce_prune_expired. fields. rewrite pruned_gone. run_nonces.
  saturated. unfold used_in. fields. rewrite Hs, Z.eqb_refl. case_if; lia.
Qed.


Theorem nonce_tests_pass :
  passes test_extract_dpop_nonce ∧ passes test_dpop_nonce_cache ∧
  passes test_in_memory_server_nonce_source_lifecycle ∧ passes test_in_memory_server_nonce_source_single_use ∧
  passes killer_arc_nonce_source_forwards ∧
  ((∀ k, s k = s 0%nat) → passes test_challenge_issuance_rate_limiter_bounds_unauthenticated_flood) ∧
  (s 4%nat = s 3%nat → passes killer_nonce_source_ttl_and_prune_boundaries).
Proof.
  refine (conj _ (conj _ (conj nonce_lifecycle_passes (conj single_use_passes (conj forwards_pass
    (conj flood_passes boundaries_pass)))))); vm_compute; exact I.
Qed.
End nonce_tests.
End NonceTests.

(** ** validator.rs: the in-memory registry *)
Module RegistryTests.
Section registry_tests.
Context `{Base64} `{Sha2} `{Subtle} `{P256} `{SerdeJson} `{UrlCrate} `{UnicodeUpper}.
Context (t : nat → Z) (key wrong_key : SigningKey).
Definition secs (n : Z) : Z := n * 1000000000.

Definition test_in_memory_token_validator_lifecycle : harness unit :=
  let token := "active_session_token_xyz" in
  let did := "did:plc:carol789" in
  let jkt := key_thumbprint key in
  let validator := register_token registry_new (as_bytes token) did jkt (Some "atproto") None in
  user ← unwrap (validate_sync validator token jkt (t 0));
  _ ← assert_eq (user_did user) did;
  _ ← assert_eq (user_dpop_thumbprint user) jkt;
  err ← unwrap_err (validate_sync validator token (key_thumbprint wrong_key) (t 1));
  _ ← assert (match err with IntegrationError_Token (TokenError_CnfThumbprintMismatch _ _) => true | _ => false end);
  let validator := revoke_token validator token in
  err_revoked ← unwrap_err (validate_sync validator token jkt (t 2));
  assert (match err_revoked with IntegrationError_Token (TokenError_MalformedToken _) => true | _ => false end).

Definition killer_in_memory_validator_full_lifecycle : harness unit :=
  let store := registry_new in
  _ ← assert (registry_is_empty store);
  _ ← assert_eq (registry_len store) 0;
  let store := register_token store (as_bytes "token-a") "did:plc:alice123" "jkt-a" (Some "atproto")
                 (Some (t 0%nat + secs 3600)) in
  _ ← assert_eq (registry_len store) 1;
  _ ← assert (negb (registry_is_empty store));
  user ← unwrap (validate_sync store "token-a" "jkt-a" (t 1));
  _ ← assert_eq (user_did user) "did:plc:alice123";
  _ ← assert_eq (user_access_token user) "token-a";
  _ ← assert_eq (user_dpop_thumbprint user) "jkt-a";
  _ ← assert_eq (user_scope user) (Some "atproto");
  _ ← assert (is_err (validate_sync store "token-a" "jkt-b" (t 2)));
  _ ← assert (is_err (validate_sync store "never-registered" "jkt-a" (t 3)));
  let store := register_token store (as_bytes "token-b") "did:plc:bob" "jkt-b" None (Some (t 4%nat + secs 3600)) in
  _ ← assert_eq (registry_len store) 2;
  let store := revoke_token store "token-a" in
  _ ← assert_eq (registry_len store) 1;
  _ ← assert (is_err (validate_sync store "token-a" "jkt-a" (t 5)));
  _ ← assert (is_ok (validate_sync store "token-b" "jkt-b" (t 6)));
  let store := register_token store (as_bytes "token-expired") "did:plc:expired" "jkt-e" None
                 (Some (t 7%nat - secs 1)) in
  _ ← assert_eq (registry_len store) 2;
  let '(store, pruned) := registry_prune_expired store (t 8) in
  _ ← assert_eq pruned 1;
  _ ← assert_eq (registry_len store) 1;
  _ ← assert (is_err (validate_sync store "token-expired" "jkt-e" (t 9)));
  _ ← assert (is_ok (validate_sync store "token-b" "jkt-b" (t 10)));
  let store := register_token store (as_bytes "token-now") "did:plc:now" "jkt-n" None (Some (t 11%nat)) in
  assert (is_err (validate_sync store "token-now" "jkt-n" (t 12))).

(** *** Running them: the digests of the five tokens differ, and the run takes less than an hour. *)
Definition tokens : list string := ["token-a"; "token-b"; "token-expired"; "token-now"; "never-registered"].
Context `{!SubtleLaws}.
Context (digests_differ : ∀ a b, a ∈ tokens → b ∈ tokens → sha256_digest (as_bytes a) = sha256_digest (as_bytes b) → a = b).
Context (thumbprints_differ : key_thumbprint key ≠ key_thumbprint wrong_key).
Context (t_start : ∀ i j, (i ≤ j)%nat → t i ≤ t j) (t_fast : ∀ k, t k < t 0%nat + secs 3600).

Lemma other_token a b : bool_decide (a ∈ tokens) = true → bool_decide (b ∈ tokens) = true → a ≠ b →
  sha256_digest (as_bytes a) ≠ sha256_digest (as_bytes b).
Proof. intros Ha%bool_decide_eq_true Hb%bool_decide_eq_true Hn E. by apply Hn, digests_differ. Qed.

(** The outcomes of a validation, by the registered entry. *)
Definition fresh (e : RegisteredToken) (now : Z) : bool :=
  match rt_expires_at e with Some x => now <=? x | None => true end.

Lemma validate_ok (m : InMemoryTokenValidator) token e now thumb :
  m !! sha256_digest (as_bytes token) = Some e → fresh e now = true → rt_dpop_thumbprint e = thumb →
  validate_sync m token thumb now = Ok (mkUser (rt_did e) token thumb (rt_scope e)).
Proof.
  intros Hm Hf <-. apply validate_sync_Ok. exists e. split_and!; [done| |done|done].
  unfold fresh in Hf. intros x Hx. rewrite Hx in Hf. b2p. lia.
Qed.
Lemma validate_other_key (m : InMemoryTokenValidator) token e now thumb :
  m !! sha256_digest (as_bytes token) = Some e → fresh e now = true → rt_dpop_thumbprint e ≠ thumb →
  validate_sync m token thumb now = Err (IntegrationError_Token (TokenError_CnfThumbprintMismatch (rt_dpop_thumbprint e) thumb)).
Proof.
  intros Hm Hf Hn. unfold validate_sync, fresh in *. rewrite Hm. cbn [ok_or mbind result_bind].
  rewrite (proj2 (constant_time_eq_false _ _)) by (by intros ?%as_bytes_inj).
  destruct (rt_expires_at e) as [x|]; [|done]. by rewrite Z.gtb_ltb, (proj2 (Z.ltb_ge _ _)) by (b2p; lia).
Qed.
Lemma validate_late (m : InMemoryTokenValidator) token e now thumb :
  m !! sha256_digest (as_bytes token) = Some e → fresh e now = false →
  is_ok (validate_sync m token thumb now) = false.
Proof.
  intros Hm Hf. destruct (validate_sync m token thumb now) as [u|] eqn:E; [|done].
  apply validate_sync_Ok in E as (e' & Hm' & Hx & _). rewrite Hm in Hm'. injection Hm' as <-.
  unfold fresh in Hf. destruct (rt_expires_at e) as [x|]; [|done]. specialize (Hx x eq_refl). b2p. lia.
Qed.
Lemma validate_unknown (m : InMemoryTokenValidator) token now thumb :
  m !! sha256_digest (as_bytes token) = None →
  validate_sync m token thumb now =
    Err (IntegrationError_Token (TokenError_MalformedToken "Access token is not registered or has been revoked")).
Proof. intros Hm. unfold validate_sync. by rewrite Hm. Qed.

(** The clock in the tests, against the expiry of a token. *)
Lemma hour i j : fresh (mkRegistered "" "" None (Some (t i + secs 3600))) (t j) = true.
Proof. pose proof (t_fast j). pose proof (t_start 0 i). unfold fresh. cbn. b2p. lia. Qed.

Ltac lookups :=
  unfold register_token, revoke_token, registry_new;
  repeat first
    [ rewrite lookup_insert_eq | rewrite lookup_delete_eq | rewrite lookup_empty
    | rewrite lookup_insert_ne by (apply other_token; done)
    | rewrite lookup_delete_ne by (apply other_token; done) ].
Ltac sizes :=
  unfold registry_is_empty, registry_len; rewrite ?map_size_insert, ?map_size_delete; lookups;
  rewrite ?map_size_insert, ?map_size_delete; lookups; rewrite ?map_size_insert, ?map_size_empty; lookups; done.
Ltac on_time := unfold fresh; cbn [rt_expires_at]; first [done|apply hour].
Ltac run_registry :=
  repeat (cbn beta iota zeta; first
    [ hstep
    | erewrite validate_ok; [|lookups; reflexivity|on_time|done]
    | erewrite validate_other_key; [|lookups; reflexivity|on_time|done]
    | rewrite validate_unknown by (lookups; done)
    | eapply wp_unwrap; [reflexivity|] | eapply wp_unwrap_err; [reflexivity|]
    | apply wp_assert_eq; [first [sizes|done]|] | apply wp_assert; [first [by sizes|done]|] ]).

Lemma token_lifecycle_passes : passes test_in_memory_token_validator_lifecycle.
Proof. unfold passes, test_in_memory_token_validator_lifecycle. by run_registry. Qed.

(** What a prune of the two tokens of the test leaves. *)
Lemma pruned_spec (m : InMemoryTokenValidator) kb b kx x now :
  kb ≠ kx → m !! kx = Some x → m !! kb = Some b → (∀ k e, m !! k = Some e → k = kb ∨ k = kx) →
  unexpired_at now b = true → unexpired_at now x = false → size m = 2%nat →
  registry_prune_expired m now = (delete kx m, 1).
Proof.
  intros Hk Hx Hb Honly Hub Hux Hs.
  assert (base.filter (λ kv : list Z * RegisteredToken, unexpired_at now (snd kv) = true) m = delete kx m) as Hf.
  { apply map_eq. intros k. apply option_eq. intros e.
    rewrite map_lookup_filter_Some, lookup_delete_Some. cbn. split.
    - intros [Hm Hu]. split; [|done]. intros <-. rewrite Hx in Hm. injection Hm as <-. congruence.
    - intros [Hn Hm]. split; [done|]. destruct (Honly _ _ Hm) as [-> | ->]; [|done].
      rewrite Hb in Hm. by injection Hm as <-. }
  unfold registry_prune_expired. rewrite Hf, map_size_delete, Hx, Hs. done.
Qed.

Lemma full_lifecycle_passes : t 11%nat < t 12%nat → passes killer_in_memory_validator_full_lifecycle.
Proof.
  intros Hlt. unfold passes, killer_in_memory_validator_full_lifecycle. run_registry.
  match goal with |- context [registry_prune_expired ?m ?now] =>
    rewrite (pruned_spec m (sha256_digest (as_bytes "token-b"))
      (mkRegistered "did:plc:bob" "jkt-b" None (Some (t 4%nat + secs 3600)))
      (sha256_digest (as_bytes "token-expired"))
      (mkRegistered "did:plc:expired" "jkt-e" None (Some (t 7%nat - secs 1))) now) end.
  - run_registry. apply wp_assert; [|done]. unfold is_err.
    rewrite (validate_late _ _ (mkRegistered "did:plc:now" "jkt-n" None (Some (t 11%nat)))); [done|by lookups|].
    unfold fresh. cbn [rt_expires_at]. by apply Z.leb_gt.
  - by apply other_token.
  - by lookups.
  - by lookups.
  - unfold register_token, revoke_token, registry_new. intros k e [[<- _]|[_ H']]%lookup_insert_Some; [by right|].
    apply lookup_delete_Some in H' as [Hn [[<- _]|[_ H']]%lookup_insert_Some]; [by left|].
    apply lookup_insert_Some in H' as [[<- _]|[_ H']]; [done|by rewrite lookup_empty in H'].
  - apply Z.gtb_lt. pose proof (t_fast 8). pose proof (t_start 0 4). cbn. lia.
  - pose proof (t_start 7 8). unfold unexpired_at, secs. cbn [rt_expires_at]. b2p. lia.
  - apply Nat2Z.inj. fold (registry_len (register_token (revoke_token (register_token (register_token registry_new
      (as_bytes "token-a") "did:plc:alice123" "jkt-a" (Some "atproto") (Some (t 0%nat + secs 3600)))
      (as_bytes "token-b") "did:plc:bob" "jkt-b" None (Some (t 4%nat + secs 3600))) "token-a")
      (as_bytes "token-expired") "did:plc:expired" "jkt-e" None (Some (t 7%nat - secs 1)))). sizes.
Qed.

Definition killer_register_session_binds_session_thumbprint : harness unit :=
  session ← unwrap (session_new "did:plc:alice123" "at_session_token" None "DPoP" (Some "atproto") (Some 3600) key
                      None None None (t 0));
  let expected_jkt := key_thumbprint key in
  let store := register_session registry_new session in
  _ ← assert_eq (registry_len store) 1;
  user ← unwrap (validate_sync store "at_session_token" expected_jkt (t 1));
  _ ← assert_eq (user_did user) "did:plc:alice123";
  _ ← assert_eq (user_scope user) (Some "atproto");
  assert (is_err (validate_sync store "at_session_token" "some-other-jkt" (t 2))).

Lemma session_registered now :
  now + secs 3600 ≤ INSTANT_MAX →
  session_new "did:plc:alice123" "at_session_token" None "DPoP" (Some "atproto") (Some 3600) key None None None now =
    Ok (mkSession "did:plc:alice123" "at_session_token" None "DPoP" (Some "atproto") (Some (now + secs 3600)) key
          None None None now).
Proof.
  intros Hr. unfold session_new, expiry, systime_checked_add, instant_checked_add.
  cbn [mbind option_bind]. by rewrite (proj2 (Z.leb_le _ _)) by done.
Qed.

Lemma register_session_passes :
  t 0%nat + secs 3600 ≤ INSTANT_MAX → key_thumbprint key ≠ "some-other-jkt" →
  passes killer_register_session_binds_session_thumbprint.
Proof.
  intros Hr Hk. unfold passes, killer_register_session_binds_session_thumbprint.
  rewrite session_registered by done. run_registry; unfold register_session; by run_registry.
Qed.

(** What the lifecycle test calls expired is not: a token registered with the present reading of the clock as
    its expiry is accepted at that reading, so its last assertion needs the clock to have advanced. *)
Lemma expiring_now_accepted (m : InMemoryTokenValidator) token did thumb scope now :
  validate_sync (register_token m (as_bytes token) did thumb scope (Some now)) token thumb now =
  Ok (mkUser did token thumb scope).
Proof.
  apply (validate_ok _ _ (mkRegistered did thumb scope (Some now))); [apply lookup_insert_eq|apply Z.leb_refl|done].
Qed.
End registry_tests.
End RegistryTests.

(** ** session.rs *)
Module SessionTests.
Section session_tests.
Context `{Base64} `{Sha2} `{P256} `{SerdeJson} `{UrlCrate} `{UnicodeUpper} `{!SessionSerde}.
Context (t : nat → Z) (key : SigningKey).

Definition test_session_creation_valid : harness unit :=
  session ← unwrap (session_new "did:plc:alice123" "at_sample_access_token" (Some "rt_sample_refresh_token") "DPoP"
                      (Some "atproto transition:generic") (Some 3600) key (Some "https://pds.example.com")
                      (Some "https://auth.example.com") (Some "https://auth.example.com/oauth/token") (t 0));
  _ ← assert_eq (sub session) "did:plc:alice123";
  _ ← assert_eq (access_token session) "at_sample_access_token";
  _ ← assert_eq (refresh_token session) (Some "rt_sample_refresh_token");
  _ ← assert_eq (token_type session) "DPoP";
  _ ← assert_eq (ses_scope session) (Some "atproto transition:generic");
  _ ← assert (negb (session_is_expired session (t 1)));
  assert_eq (dpop_auth_header session) "DPoP at_sample_access_token".

Definition test_session_creation_case_insensitive_dpop : harness unit :=
  session ← unwrap (session_new "did:plc:alice123" "at_123" None "dpop" None None key None None None (t 0));
  assert_eq (token_type session) "dpop".

Definition test_session_creation_bearer_rejected : harness unit :=
  assert (match session_new "did:plc:alice123" "at_123" None "Bearer" None None key None None None (t 0) with
          | Err (AtprotoOAuthError_Token (TokenError_InvalidTokenType _)) => true
          | _ => false
          end).

Definition test_session_token_rotation : harness unit :=
  session ← unwrap (session_new "did:plc:alice123" "at_initial" (Some "rt_initial") "DPoP" None (Some 300) key
                      None None None (t 0));
  _ ← assert_eq (access_token session) "at_initial";
  _ ← assert_eq (refresh_token session) (Some "rt_initial");
  let session := rotate_tokens session "at_rotated" (Some "rt_rotated") (Some 600) (t 1) in
  _ ← assert_eq (access_token session) "at_rotated";
  _ ← assert_eq (refresh_token session) (Some "rt_rotated");
  assert (negb (session_is_expired session (t 2))).

Definition sample_session_json (token_type sub access_token : string) : harness string :=
  session ← unwrap (session_new sub access_token (Some "rt_sample") token_type (Some "atproto") (Some 3600) key
                      (Some "https://pds.example.com") (Some "https://as.example.com")
                      (Some "https://as.example.com/token") (t 0));
  unwrap (session_to_string session).

(** [serde_json::from_str::<OAuthSession>]. *)
Definition session_from_str (json : string) : result string OAuthSession :=
  deserialize (session_from_slice (as_bytes json)).

Definition test_roundtrip_preserves_valid_session : harness unit :=
  json ← sample_session_json "DPoP" "did:plc:alice123" "at_token";
  deserialized ← unwrap (session_from_str json);
  _ ← assert_eq (sub deserialized) "did:plc:alice123";
  _ ← assert_eq (access_token deserialized) "at_token";
  _ ← assert_eq (token_type deserialized) "DPoP";
  assert_eq (refresh_token deserialized) (Some "rt_sample").

Definition test_deserialize_rejects_empty_sub : harness unit :=
  json ← sample_session_json "DPoP" "" "at_token";
  assert (is_err (session_from_str json)).

Definition test_deserialize_rejects_whitespace_only_sub : harness unit :=
  json ← sample_session_json "DPoP" "   " "at_token";
  assert (is_err (session_from_str json)).

Definition test_deserialize_rejects_empty_access_token : harness unit :=
  json ← sample_session_json "DPoP" "did:plc:alice123" "";
  assert (is_err (session_from_str json)).

(** *** Running them, on a clock between 1970 and its end, within five minutes *)
Context `{!SessionSerdeLaws}.
Context (t_valid : 0 ≤ t 0%nat) (t_start : ∀ k, t 0%nat ≤ t k) (t_fast : ∀ k, t k < t 0%nat + from_secs 300)
  (t_room : t 0%nat + from_secs 4000 ≤ INSTANT_MAX).

Lemma lifetime (k : nat) n : 0 ≤ n ≤ 3600 → expiry (Some n) (t k) = Some (t k + from_secs n).
Proof.
  intros Hn. unfold expiry, systime_checked_add, instant_checked_add. cbn [mbind option_bind].
  rewrite (proj2 (Z.leb_le _ _)); [done|]. pose proof (t_fast k). unfold from_secs, Store.NANOS_PER_SEC in *. lia.
Qed.

Lemma created (k : nat) s a r sc n p i e :
  0 ≤ n ≤ 3600 →
  session_new s a r "DPoP" sc (Some n) key p i e (t k) =
  Ok (mkSession s a r "DPoP" sc (Some (t k + from_secs n)) key p i e (t k)).
Proof. intros Hn. unfold session_new. by rewrite lifetime. Qed.

Lemma unexpired_session s i k n : 300 ≤ n → ses_expires_at s = Some (t i + from_secs n) → session_is_expired s (t k) = false.
Proof.
  intros Hn Hs. unfold session_is_expired, is_expired_with_leeway, systime_checked_add, instant_checked_add.
  rewrite Hs, Z.add_0_r. pose proof (t_fast k). pose proof (t_start i).
  rewrite (proj2 (Z.leb_le _ _)) by (unfold from_secs, Store.NANOS_PER_SEC in *; lia).
  apply Z.leb_gt. unfold from_secs, Store.NANOS_PER_SEC in *. lia.
Qed.

(** A session written out, and what reading it back makes of it. *)
Lemma sample_spec tt s a (Q : string → Prop) :
  tt = "DPoP" →
  (∀ json raw, session_from_str json = deserialize (Ok raw) → sub raw = s → access_token raw = a →
     token_type raw = tt → refresh_token raw = Some "rt_sample" → Q json) →
  wp (sample_session_json tt s a) Q.
Proof.
  intros -> HQ. unfold sample_session_json. rewrite created by lia. hstep. eapply wp_unwrap; [reflexivity|].
  match goal with |- context [session_to_string ?x] => destruct (session_serde_roundtrip x) as (json & Ej & Hj) end;
    [done|cbn; unfold from_secs, Store.NANOS_PER_SEC; lia|].
  rewrite Ej. eapply wp_unwrap; [reflexivity|]. eapply HQ; [unfold session_from_str; by rewrite Hj|done..].
Qed.

Lemma bad_session raw :
  trim (sub raw) = "" ∨ trim (access_token raw) = "" → is_err (deserialize (Ok raw)) = true.
Proof.
  intros Hbad. unfold is_err. destruct (deserialize (Ok raw)) as [s|] eqn:E; [|done].
  apply deserialize_Ok in E as ([= <-] & _ & Hs & Ha). tauto.
Qed.

Ltac run_session :=
  repeat (cbn beta iota zeta; first
    [ hstep | rewrite created by lia | eapply wp_unwrap; [reflexivity|]
    | apply wp_assert_eq; [reflexivity|] | apply wp_assert; [reflexivity|] ]).

Lemma creation_passes : passes test_session_creation_valid.
Proof.
  unfold passes, test_session_creation_valid. run_session.
  apply wp_assert; [by rewrite (unexpired_session _ 0 1 3600)|]. by run_session.
Qed.

Lemma rotation_passes : passes test_session_token_rotation.
Proof.
  unfold passes, test_session_token_rotation. run_session. apply wp_assert; [|done].
  rewrite (unexpired_session _ 1 2 600); [done|lia|]. unfold rotate_tokens, rotate_tokens_with_scope.
  cbn [ses_expires_at]. by rewrite lifetime.
Qed.

Lemma roundtrip_passes : passes test_roundtrip_preserves_valid_session.
Proof.
  unfold passes, test_roundtrip_preserves_valid_session. hstep. apply sample_spec; [done|].
  intros json raw E Hs Ha Ht Hr. hstep. eapply (wp_unwrap _ raw).
  { rewrite E. apply deserialize_Ok. unfold dpop_bound, credentials_present. by rewrite Hs, Ha, Ht. }
  repeat (first [hstep|apply wp_assert_eq; [done|]]). done.
Qed.

Lemma rejected tt s a :
  tt = "DPoP" → trim s = "" ∨ trim a = "" →
  passes (json ← sample_session_json tt s a; assert (is_err (session_from_str json))).
Proof.
  intros Htt Hbad. unfold passes. hstep. apply sample_spec; [done|]. intros json raw E <- <- _ _.
  apply wp_assert; [|done]. rewrite E. by apply bad_session.
Qed.

Theorem session_tests_pass :
  passes test_session_creation_valid ∧ passes test_session_creation_case_insensitive_dpop ∧
  passes test_session_creation_bearer_rejected ∧ passes test_session_token_rotation ∧
  passes test_roundtrip_preserves_valid_session ∧ passes test_deserialize_rejects_empty_sub ∧
  passes test_deserialize_rejects_whitespace_only_sub ∧ passes test_deserialize_rejects_empty_access_token.
Proof.
  refine (conj creation_passes (conj I (conj I (conj rotation_passes (conj roundtrip_passes _))))).
  split_and!; apply rejected; try done; by (left + right).
Qed.
End session_tests.
End SessionTests.
