(* ===== verification/ApiTests.v ===== *)
(** * ApiTests: the repository's unit tests of the pure parts of the public API

    The [#[test]] functions of identity.rs, pkce.rs (with its two [proptest] properties), discovery.rs and of
    the URL checks of ssrf.rs, over the definitions of the other files.  What the tests learn from a URL is the
    url crate's: [url_vectors] lists the URLs with their parts as the WHATWG URL standard gives them, and
    the tests pass for every crate that agrees with the list. *)
From S2P Require Import Prelude Errors Strs Externals Instances Crypto IpFilter Net Ssrf Identity Discovery Pkce.
From S2P Require Import Harness KaniHarnesses.
Open Scope Z_scope.

(** ** URLs *)
Record url_parts := mkParts {
  u_scheme : string; u_host : string; u_path : string; u_query : option string; u_fragment : option string;
  u_username : string; u_origin : string
}.
Definition plain (scheme host origin : string) : option url_parts := Some (mkParts scheme host "/" None None "" origin).
Definition https (host : string) : option url_parts := plain "https" host ("https://" +:+ host).
Definition http (host : string) : option url_parts := plain "http" host ("http://" +:+ host).
Definition endpoint (path : string) : option url_parts :=
  Some (mkParts "https" "auth.example.com" path None None "" "https://auth.example.com").

(** The URLs of the tests with their parts, [None] where parsing fails.  A default port is dropped from the
    origin, and a backslash separates like a slash. *)
Definition url_vectors : list (string * option url_parts) :=
  [("https://auth.example.com", https "auth.example.com");
   ("https://attacker.example.com", https "attacker.example.com");
   ("https://auth.example.com:443", https "auth.example.com");
   ("https://auth.example.com:443/", https "auth.example.com");
   ("https://auth.example.com:0443", https "auth.example.com");
   ("https://auth.example.com:8443", plain "https" "auth.example.com" "https://auth.example.com:8443");
   ("https://auth.example.com:8080", plain "https" "auth.example.com" "https://auth.example.com:8080");
   ("https://auth.example.com:44371", plain "https" "auth.example.com" "https://auth.example.com:44371");
   ("http://auth.example.com:0080", http "auth.example.com");
   ("https://auth.example.com:not_a_port", None);
   ("https://auth.example.com:443\", https "auth.example.com");
   ("http://localhost", http "localhost"); ("http://127.0.0.1", http "127.0.0.1");
   ("http://127.0.0.1:8080", plain "http" "127.0.0.1" "http://127.0.0.1:8080");
   ("http://[::1]:8080", plain "http" "[::1]" "http://[::1]:8080");
   ("http://auth.example.com", http "auth.example.com"); ("http://auth.example.com:80", http "auth.example.com");
   ("http://auth.example.com:8080", plain "http" "auth.example.com" "http://auth.example.com:8080");
   ("http://127.0.0.2", http "127.0.0.2");
   ("http://user@127.0.0.1", Some (mkParts "http" "127.0.0.1" "/" None None "user" "http://127.0.0.1"));
   ("http://127.0.0.1/xrpc", Some (mkParts "http" "127.0.0.1" "/xrpc" None None "" "http://127.0.0.1"));
   ("https://auth.example.com/?a=b",
     Some (mkParts "https" "auth.example.com" "/" (Some "a=b") None "" "https://auth.example.com"));
   ("https://auth.example.com/#frag",
     Some (mkParts "https" "auth.example.com" "/" None (Some "frag") "" "https://auth.example.com"));
   ("https://auth.example.com/oauth/authorize", endpoint "/oauth/authorize");
   ("https://auth.example.com/oauth/token", endpoint "/oauth/token");
   ("https://auth.example.com/oauth/par", endpoint "/oauth/par");
   ("https://bsky.social", https "bsky.social"); ("http://bsky.social", http "bsky.social");
   ("ftp://example.com", plain "ftp" "example.com" "ftp://example.com");
   ("https://127.0.0.1", https "127.0.0.1"); ("https://169.254.169.254", https "169.254.169.254");
   ("https://metadata.google.internal", https "metadata.google.internal");
   ("http://localhost:8080", plain "http" "localhost" "http://localhost:8080");
   ("http://10.0.0.1:8080", plain "http" "10.0.0.1" "http://10.0.0.1:8080");
   ("http://metadata.google.internal", http "metadata.google.internal");
   ("https://instance-data", https "instance-data"); ("https://service.internal", https "service.internal");
   ("https://pds.example.com", https "pds.example.com")].

Definition has_parts `{UrlParts} (r : result string Url) (o : option url_parts) : Prop :=
  match o, r with
  | Some p, Ok u =>
      url_scheme u = u_scheme p ∧ url_host_str u = Some (u_host p) ∧ url_path u = u_path p ∧
      url_query u = u_query p ∧ url_fragment u = u_fragment p ∧ url_username u = u_username p ∧
      url_password u = None ∧ url_origin u = u_origin p
  | None, Err _ => True
  | _, _ => False
  end.

(** A crate that agrees with the list. *)
Class UrlVectors `{UrlParts} : Prop := { url_vector s o : (s, o) ∈ url_vectors → has_parts (url_parse s) o }.

(** The list as a crate. *)
Module Table.
Fixpoint find (s : string) (l : list (string * option url_parts)) : result string url_parts :=
  match l with
  | [] => Err "not in the list"
  | (s', o) :: l' => if (s =? s')%string then match o with Some p => Ok p | None => Err "invalid port number" end else find s l'
  end.
#[export] Instance urls : UrlCrate :=
  {| Url := url_parts; url_parse s := find s url_vectors; url_scheme := u_scheme; url_host_str u := Some (u_host u);
     url_port _ := None; url_path := u_path; url_as_str := u_origin; url_port_or_known_default _ := None;
     url_join u _ := Ok u |}.
#[export] Instance parts : UrlParts :=
  {| url_username := u_username; url_password _ := None; url_query := u_query; url_fragment := u_fragment;
     url_origin := u_origin |}.
#[export] Instance vectors : UrlVectors.
Proof.
  assert (Hall : Forall (λ v, has_parts (find v.1 url_vectors) v.2) url_vectors).
  { unfold url_vectors at 2. repeat (apply Forall_cons_2; [vm_compute; by repeat split|]). apply Forall_nil_2. }
  split. intros s o Hin. by apply (proj1 (Forall_forall _ _) Hall) in Hin.
Qed.
End Table.

Section agreement.
Context `{UrlVectors}.

(** A URL of the list, looked up in the list, has the parts the crate finds. *)
Definition listed (s : string) : bool := existsb (λ v, (s =? v.1)%string) url_vectors.

Lemma find_vector s l :
  existsb (λ v : string * option url_parts, (s =? v.1)%string) l = true →
  ∃ o, (s, o) ∈ l ∧ Table.find s l = match o with Some p => Ok p | None => Err "invalid port number" end.
Proof.
  induction l as [|[s' o] l IH]; [done|]. cbn [existsb fst Table.find]. destruct (s =? s')%string eqn:E.
  - apply String.eqb_eq in E as ->. intros _. exists o. split; [left|done].
  - intros (o' & Hin & Ho)%IH. exists o'. split; [by right|done].
Qed.

(** The crate and the list side by side. *)
Definition same_url (r : result string Url) (r' : result string url_parts) : Prop :=
  match r, r' with Ok u, Ok p => has_parts (Ok u) (Some p) | Err _, Err _ => True | _, _ => False end.
Lemma listed_same s : listed s = true → same_url (url_parse s) (Table.find s url_vectors).
Proof.
  intros (o & Hin & ->)%find_vector. apply url_vector in Hin. unfold same_url, has_parts in *.
  destruct o, (url_parse s); done.
Qed.

Lemma origin_only_vector s : listed s = true → is_origin_only s = @is_origin_only _ Table.parts s.
Proof.
  intros Hs%listed_same. unfold is_origin_only. cbn [url_parse Table.urls].
  destruct (url_parse s) as [u|e], (Table.find s url_vectors) as [p|e']; try done.
  destruct Hs as (Es & Eh & Ep & Eq & Ef & Eu & Epw & _).
  by rewrite Es, Eh, Ep, Eq, Ef, Eu, Epw.
Qed.

Lemma origin_vector s :
  listed s = true → is_ok (Table.find s url_vectors) = true → normalize_origin s = @normalize_origin _ Table.parts s.
Proof.
  intros Hs%listed_same Ho. unfold normalize_origin. cbn [url_parse Table.urls].
  destruct (url_parse s) as [u|e], (Table.find s url_vectors) as [p|e']; try done.
  by destruct Hs as (_ & _ & _ & _ & _ & _ & _ & Eo).
Qed.

Lemma https_endpoint_vector s label iss :
  listed s = true → is_ok (Table.find s url_vectors) = true →
  validate_https_endpoint s label iss = @validate_https_endpoint _ Table.parts s label iss.
Proof.
  intros Hs%listed_same Ho. unfold validate_https_endpoint. cbn [url_parse Table.urls].
  destruct (url_parse s) as [u|e], (Table.find s url_vectors) as [p|e']; try done.
  destruct Hs as (Es & Eh & Ep & Eq & Ef & Eu & Epw & _). cbn [map_err mbind result_bind].
  by rewrite Es, Eh, Eu, Epw.
Qed.

Lemma validate_url_vector f s u p :
  listed s = true → url_parse s = Ok u → Table.find s url_vectors = Ok p →
  is_ok (validate_url f u) = is_ok (@validate_url Table.urls f p).
Proof.
  intros Hs%listed_same Eu Ep. rewrite Eu, Ep in Hs. destruct Hs as (Es & Eh & _).
  unfold validate_url. cbn [url_scheme url_host_str Table.urls]. rewrite Es, Eh. cbn [ok_or mbind result_bind].
  destruct (negb (u_scheme p =? "https")%string), (u_scheme p =? "http")%string; cbn [mbind result_bind]; try done.
  destruct (negb (allow_insecure_localhost f)); cbn [mbind result_bind]; [done|].
  by destruct (negb (_ || _)).
Qed.
End agreement.

(** ** identity.rs *)
Module IdentityTests.
Definition invalid_syntax {A} (r : result IdentityError A) : bool :=
  match r with Err (IdentityError_InvalidHandleSyntax _) => true | _ => false end.
Definition disallowed_tld {A} (r : result IdentityError A) : bool :=
  match r with Err (IdentityError_DisallowedHandleTld _) => true | _ => false end.

Definition test_handle_normalization_valid : harness unit :=
  h ← unwrap (normalize_handle "@alice.bsky.social");
  _ ← assert_eq h "alice.bsky.social";
  h ← unwrap (normalize_handle "ALICE.BSKY.SOCIAL");
  _ ← assert_eq h "alice.bsky.social";
  h ← unwrap (normalize_handle "my-domain.co.uk");
  assert_eq h "my-domain.co.uk".

Definition test_user_handle_bare_completion : harness unit :=
  h ← unwrap (normalize_user_handle "alice");
  _ ← assert_eq h "alice.bsky.social";
  h ← unwrap (normalize_user_handle "@Alice-123");
  _ ← assert_eq h "alice-123.bsky.social";
  h ← unwrap (normalize_user_handle "  @bob  ");
  _ ← assert_eq h "bob.bsky.social";
  h ← unwrap (normalize_user_handle "custom.domain.org");
  _ ← assert_eq h "custom.domain.org";
  h ← unwrap (normalize_handle_with_default_domain "carol" "example.com");
  _ ← assert_eq h "carol.example.com";
  _ ← assert (invalid_syntax (normalize_user_handle "localhost"));
  _ ← assert (invalid_syntax (normalize_user_handle "local"));
  _ ← assert (invalid_syntax (normalize_user_handle "-bad"));
  _ ← assert (invalid_syntax (normalize_user_handle "12345"));
  assert (invalid_syntax (normalize_user_handle "")).

Definition test_handle_disallowed_tlds : harness unit :=
  _ ← assert (disallowed_tld (normalize_handle "alice.local"));
  _ ← assert (disallowed_tld (normalize_handle "alice.onion"));
  _ ← assert (disallowed_tld (normalize_handle "alice.localhost"));
  _ ← assert (disallowed_tld (normalize_handle "alice.invalid"));
  assert (disallowed_tld (normalize_handle "handle.invalid")).

Definition test_handle_syntax_violations : harness unit :=
  _ ← assert (invalid_syntax (normalize_handle "localhost"));
  _ ← assert (invalid_syntax (normalize_handle "-alice.bsky.social"));
  _ ← assert (invalid_syntax (normalize_handle "alice-.bsky.social"));
  assert (invalid_syntax (normalize_handle "127.0.0.1")).

Definition test_did_syntax_validation : harness unit :=
  m ← unwrap (validate_did_syntax "did:plc:ewvi7nxzyoun6zhxrhs64oiz");
  _ ← assert_eq m Plc;
  m ← unwrap (validate_did_syntax "did:web:auth.example.com");
  _ ← assert_eq m Web;
  _ ← assert (match validate_did_syntax "did:key:z6MkpTHR8VNsBxYAAWHut2Geadd9jSwuBV8xRoAnwWsdvktH" with
              | Err (IdentityError_UnsupportedDidMethod _) => true | _ => false end);
  assert (match validate_did_syntax "not-a-did" with
          | Err (IdentityError_InvalidDidSyntax _) => true | _ => false end).

Definition test_did_document_bidirectional_verification : harness unit :=
  let doc := mkDidDocument "did:plc:123" ["at://alice.bsky.social"] []
               [mkDidService "#atproto_pds" "AtprotoPersonalDataServer" "https://pds.example.com"] in
  _ ← assert (is_ok (verify_handle_bidirectional doc "alice.bsky.social"));
  _ ← assert (is_ok (verify_handle_bidirectional doc "@alice.bsky.social"));
  _ ← assert (is_ok (verify_handle_bidirectional doc "ALICE.BSKY.SOCIAL"));
  assert (is_err (verify_handle_bidirectional doc "bob.bsky.social")).

Definition test_did_document_pds_extraction `{UrlCrate} : harness unit :=
  let doc := mkDidDocument "did:plc:123" [] []
               [mkDidService "#other" "OtherType" "https://other.com";
                mkDidService "#atproto_pds" "AtprotoPersonalDataServer" "https://pds.example.com/"] in
  pds ← unwrap (extract_pds_endpoint doc);
  assert_eq pds "https://pds.example.com".

Definition identity_tests `{UrlCrate} : list (harness unit) :=
  [test_handle_normalization_valid; test_user_handle_bare_completion; test_handle_disallowed_tlds;
   test_handle_syntax_violations; test_did_syntax_validation; test_did_document_bidirectional_verification;
   test_did_document_pds_extraction].

Theorem identity_tests_pass `{UrlVectors} : Forall passes identity_tests.
Proof.
  unfold identity_tests. repeat (apply Forall_cons; split; [try (vm_compute; exact I)|]); [|done].
  unfold passes, test_did_document_pds_extraction. hstep.
  apply (wp_unwrap _ "https://pds.example.com"); [|by apply wp_assert_eq].
  unfold extract_pds_endpoint.
  match goal with |- context [find is_pds_service ?l] => let r := eval vm_compute in (find is_pds_service l) in
    change (find is_pds_service l) with r end.
  cbv beta iota zeta. match goal with |- context [trim_end_matches ?c ?t] => let r := eval vm_compute in (trim_end_matches c t) in
    change (trim_end_matches c t) with r end.
  pose proof (listed_same "https://pds.example.com" eq_refl) as Hp.
  destruct (url_parse "https://pds.example.com") as [u|e]; [|done]. by destruct Hp as (-> & _).
Qed.
End IdentityTests.

(** ** pkce.rs *)
Module PkceTests.
Section pkce_tests.
Context `{Base64} `{Sha2} `{Subtle}.

(** The vector of RFC 7636, Appendix B. *)
Definition rfc7636_verifier : string := "dBjftJeZ4CVP-mB92K27uhbUJU1p1r_wW1gFWFOEjXk".
Definition rfc7636_challenge : string := "E9Melhoa2OwvFrEMTJguCHaoeK1t8URWbuGJSstw-cM".

#[local] Instance PkceMethod_eq_dec : EqDecision PkceMethod.
Proof. solve_decision. Defined.

Definition test_rfc7636_appendix_b_vector : harness unit :=
  pkce ← unwrap (from_verifier rfc7636_verifier);
  _ ← assert_eq (challenge pkce) rfc7636_challenge;
  _ ← assert_eq (method pkce) S256;
  assert (is_ok (verify_pkce rfc7636_verifier rfc7636_challenge)).

(** [entropy]: the random bytes of the generated pair. *)
Definition test_pkce_generate_roundtrip (entropy : list Z) : harness unit :=
  let pkce := Pkce.generate entropy in
  _ ← assert_eq (str_len (verifier pkce)) 43;
  _ ← assert_eq (str_len (challenge pkce)) 43;
  _ ← assert (is_ok (pkce_pair_verify pkce (verifier pkce)));
  assert (is_ok (verify_pkce (verifier pkce) (challenge pkce))).

Definition bad_length {A} (len : Z) (r : result PkceError A) : bool :=
  match r with Err (PkceError_InvalidVerifierLength l _ _) => l =? len | _ => false end.
Definition bad_character {A} (c position : Z) (r : result PkceError A) : bool :=
  match r with Err (PkceError_InvalidVerifierCharacter c' p) => (c' =? c) && (p =? position) | _ => false end.

Definition test_invalid_verifier_length : harness unit :=
  let short := "dBjftJeZ4CVP-mB92K27uhbUJU1p1r_wW1gFWFOEjX" in
  _ ← assert_eq (str_len short) 42;
  _ ← assert (bad_length 42 (validate_verifier short));
  let long := str_repeat "a" 129 in
  assert (bad_length 129 (validate_verifier long)).

Definition test_invalid_verifier_characters : harness unit :=
  let with_space := "dBjftJeZ4CVP-mB92K27uhbUJU1p1r_wW1gFWFOEj k" in
  _ ← assert (bad_character 32 41 (validate_verifier with_space));
  let with_plus := "dBjftJeZ4CVP-mB92K27uhbUJU1p1r_wW1gFWFOEj+k" in
  _ ← assert (bad_character 43 41 (validate_verifier with_plus));
  let with_eq := "dBjftJeZ4CVP-mB92K27uhbUJU1p1r_wW1gFWFOEj=k" in
  assert (bad_character 61 41 (validate_verifier with_eq)).

Definition wrong_challenge : string := "AAAAAAAAAAAAAAAAAAAAAAAAAAAAAAAAAAAAAAAAAAA".
Definition test_challenge_mismatch (entropy : list Z) : harness unit :=
  let pkce := Pkce.generate entropy in
  assert (match verify_pkce (verifier pkce) wrong_challenge with Err PkceError_ChallengeMismatch => true | _ => false end).

(** The strings of the pattern [[A-Za-z0-9\-._~]{43,128}]. *)
Definition drawn (v : string) : Prop :=
  43 ≤ str_len v ≤ 128 ∧
  str_forall (λ c, is_ascii_alphanumeric c || Ascii.eqb c "-" || Ascii.eqb c "." || Ascii.eqb c "_" || Ascii.eqb c "~") v = true.

Definition prop_valid_verifier_always_verifies (v : string) : harness unit :=
  let challenge := derive_s256_challenge v in
  assert (is_ok (verify_pkce v challenge)).

(** [challenge_chars[i] = replacement]; the characters of a challenge are ASCII. *)
Fixpoint replace_char (i : nat) (c : ascii) (s : string) : string :=
  match s, i with
  | EmptyString, _ => EmptyString
  | String _ s', O => String c s'
  | String a s', S i' => String a (replace_char i' c s')
  end.

Definition prop_mutated_challenge_fails_verification (v : string) (mutate_idx : nat) : harness unit :=
  let challenge := derive_s256_challenge v in
  original_char ← unwrap_some (String.get mutate_idx challenge);
  let replacement := if Ascii.eqb original_char "A" then "B"%char else "A"%char in
  let mutated_challenge := replace_char mutate_idx replacement challenge in
  assert (is_err (verify_pkce v mutated_challenge)).

(** *** Running them *)
Context `{!Base64Length} `{!Base64Alphabet} `{!Sha2Laws} `{!SubtleLaws}.

Lemma drawn_valid v : drawn v → validate_verifier v = Ok tt.
Proof.
  intros [Hl Hc]. apply validate_verifier_Ok. unfold spec_validate_verifier, is_valid_verifier_len.
  rewrite zlen_as_bytes. rewrite (proj2 (Z.geb_le _ _)), (proj2 (Z.leb_le _ _)) by lia. cbn [negb andb].
  rewrite forallb_as_bytes. eapply str_forall_impl; [|exact Hc]. intros c. by destruct c as [[] [] [] [] [] [] [] []].
Qed.

Lemma valid_verifies v : validate_verifier v = Ok tt → is_ok (verify_pkce v (derive_s256_challenge v)) = true.
Proof.
  intros Hv%validate_verifier_Ok. by rewrite (proj2 (verify_pkce_Ok v (derive_s256_challenge v)) (conj Hv eq_refl)).
Qed.

Lemma wrong_rejected v c : c ≠ derive_s256_challenge v → is_err (verify_pkce v c) = true.
Proof.
  intros Hn. unfold is_err. destruct (verify_pkce v c) as [[]|] eqn:E; [|done].
  apply verify_pkce_Ok in E as [_ E]. congruence.
Qed.

Lemma replaced_differs i c a s : String.get i s = Some a → a ≠ c → replace_char i c s ≠ s.
Proof.
  revert i. induction s as [|b s IH]; intros [|i]; cbn; [done..| |].
  - by intros [= <-] Hn [= <-].
  - intros Hg Hn [= E]. by eapply IH.
Qed.

Lemma get_inside i s : (i < String.length s)%nat → ∃ a, String.get i s = Some a.
Proof. revert i. induction s as [|b s IH]; intros [|i]; cbn; [lia..|eauto|]. intros ?. apply IH. lia. Qed.

Lemma mutated_passes v i : (i < 43)%nat → passes (prop_mutated_challenge_fails_verification v i).
Proof.
  intros Hi. unfold passes, prop_mutated_challenge_fails_verification. cbn zeta.
  destruct (get_inside i (derive_s256_challenge v)) as [a Ha].
  { pose proof (derived_challenge_len v) as Hl. unfold str_len, spec_s256_challenge_len in Hl. lia. }
  hstep. eapply wp_unwrap_some; [exact Ha|]. apply wp_assert; [|done]. apply wrong_rejected.
  eapply replaced_differs; [exact Ha|]. destruct (Ascii.eqb_spec a "A") as [->|Hn]; done.
Qed.
(** The fixed tests, the generated pair drawn from 32 bytes of entropy. *)
Definition pkce_tests (entropy : list Z) : list (harness unit) :=
  [test_rfc7636_appendix_b_vector; test_pkce_generate_roundtrip entropy; test_invalid_verifier_length;
   test_invalid_verifier_characters; test_challenge_mismatch entropy].

Lemma generated_passes entropy : zlen entropy = 32 → passes (test_pkce_generate_roundtrip entropy).
Proof.
  intros He. unfold passes, test_pkce_generate_roundtrip, pkce_pair_verify. cbn [Pkce.generate verifier challenge].
  assert (validate_verifier (base64url_encode entropy) = Ok tt) as Hv by (apply encoded_verifier_valid; lia).
  hstep. apply wp_assert_eq; [unfold base64url_encode; rewrite b64_length, He; reflexivity|].
  hstep. apply wp_assert_eq; [apply derived_challenge_len|].
  hstep. apply wp_assert; [by apply valid_verifies|]. apply wp_assert; [by apply valid_verifies|done].
Qed.

Lemma mismatch_passes entropy :
  zlen entropy = 32 → derive_s256_challenge (base64url_encode entropy) ≠ wrong_challenge →
  passes (test_challenge_mismatch entropy).
Proof.
  intros He Hn. unfold test_challenge_mismatch, verify_pkce. cbn [Pkce.generate verifier].
  rewrite encoded_verifier_valid by lia. cbn [mbind result_bind]. change (str_len wrong_challenge =? 43) with true.
  cbn [negb]. destruct (constant_time_eq _ _) eqn:E; [|done].
  by apply constant_time_eq_spec, as_bytes_inj in E.
Qed.

(** With SHA-256 agreeing with the vector of the RFC, and the generated challenge not the wrong one. *)
Theorem pkce_tests_pass entropy :
  derive_s256_challenge rfc7636_verifier = rfc7636_challenge →
  zlen entropy = 32 → derive_s256_challenge (base64url_encode entropy) ≠ wrong_challenge →
  Forall passes (pkce_tests entropy).
Proof.
  intros Hr He Hn. unfold pkce_tests.
  assert (validate_verifier rfc7636_verifier = Ok tt) as Hv by reflexivity.
  repeat (apply Forall_cons; split); [| | | | |done].
  - unfold passes, test_rfc7636_appendix_b_vector. hstep. eapply wp_unwrap.
    { unfold from_verifier. rewrite Hv. reflexivity. }
    hstep. apply wp_assert_eq; [exact Hr|]. hstep. apply wp_assert_eq; [done|].
    apply wp_assert; [|done]. rewrite <-Hr. by apply valid_verifies.
  - by apply generated_passes.
  - vm_compute; exact I.
  - vm_compute; exact I.
  - by apply mismatch_passes.
Qed.

(** The two properties, for every string the pattern draws and every position. *)
Theorem pkce_properties_hold v i :
  drawn v → (i < 43)%nat →
  passes (prop_valid_verifier_always_verifies v) ∧ passes (prop_mutated_challenge_fails_verification v i).
Proof.
  intros Hv%drawn_valid Hi. split; [|by apply mutated_passes]. apply wp_assert; [by apply valid_verifies|done].
Qed.
End pkce_tests.
End PkceTests.

(** ** ssrf.rs *)
Module SsrfUrlTests.
Section ssrf_url_tests.
Context `{UrlCrate}.

Definition url_ok (f : SsrfFilter) (s : string) : harness unit :=
  url ← unwrap (url_parse s); assert (is_ok (validate_url f url)).
Definition url_err (f : SsrfFilter) (s : string) : harness unit :=
  url ← unwrap (url_parse s); assert (is_err (validate_url f url)).

Definition test_validate_url : harness unit :=
  let filter := mkFilter false in
  _ ← url_ok filter "https://bsky.social";
  _ ← url_err filter "http://bsky.social";
  _ ← url_err filter "ftp://example.com";
  _ ← url_err filter "https://127.0.0.1";
  _ ← url_err filter "https://169.254.169.254";
  _ ← url_err filter "https://metadata.google.internal";
  let local_filter := mkFilter true in
  _ ← url_ok local_filter "http://localhost:8080";
  _ ← url_ok local_filter "http://127.0.0.1:8080";
  url_err local_filter "http://10.0.0.1:8080".

Definition test_test_mode_still_blocks_metadata_and_internal_hosts : harness unit :=
  let local_filter := mkFilter true in
  _ ← url_err local_filter "http://metadata.google.internal";
  _ ← url_err local_filter "https://instance-data";
  _ ← url_err local_filter "https://service.internal";
  url_err local_filter "https://169.254.169.254".
End ssrf_url_tests.

Section ssrf_url_run.
Context `{UrlVectors}.

Definition verdict (f : SsrfFilter) (s : string) : option bool :=
  if negb (listed s) then None else
  match Table.find s url_vectors with Ok p => Some (is_ok (@validate_url Table.urls f p)) | Err _ => None end.

Lemma verdict_url f s b :
  verdict f s = Some b → ∃ u, url_parse s = Ok u ∧ is_ok (validate_url f u) = b.
Proof.
  unfold verdict. destruct (listed s) eqn:Hl; [|done]. cbn [negb]. pose proof (listed_same s Hl) as Hs.
  destruct (Table.find s url_vectors) as [p|] eqn:Ep; [|done]. intros [= <-].
  destruct (url_parse s) as [u|] eqn:Eu; [|done]. exists u. split; [done|]. by apply validate_url_vector with s.
Qed.

Lemma url_ok_passes f s : verdict f s = Some true → wp (url_ok f s) (λ _, True).
Proof.
  intros (u & Eu & Ho)%verdict_url. unfold url_ok. hstep. eapply wp_unwrap; [exact Eu|]. by apply wp_assert.
Qed.
Lemma url_err_passes f s : verdict f s = Some false → wp (url_err f s) (λ _, True).
Proof.
  intros (u & Eu & Ho)%verdict_url. unfold url_err. hstep. eapply wp_unwrap; [exact Eu|].
  apply wp_assert; [|done]. unfold is_err. by destruct (validate_url f u).
Qed.
Lemma wp_seq (h h' : harness unit) : wp h (λ _, True) → wp h' (λ _, True) → wp (_ ← h; h') (λ _, True).
Proof. intros Hh Hh'. apply wp_bind. eapply wp_mono; [|exact Hh]. done. Qed.

Theorem ssrf_url_tests_pass :
  Forall passes [test_validate_url; test_test_mode_still_blocks_metadata_and_internal_hosts].
Proof.
  repeat (apply Forall_cons; split); [| |done]; unfold passes;
    repeat (apply wp_seq; [first [apply url_ok_passes; vm_compute; reflexivity|apply url_err_passes; vm_compute; reflexivity]|]);
    apply url_err_passes; vm_compute; reflexivity.
Qed.
End ssrf_url_run.
End SsrfUrlTests.

(** ** discovery.rs *)
Module DiscoveryTests.
Section discovery_tests.
Context `{UrlParts}.

Definition valid_test_metadata : AuthorizationServerMetadata :=
  mkASM "https://auth.example.com" "https://auth.example.com/oauth/authorize" "https://auth.example.com/oauth/token"
    "https://auth.example.com/oauth/par" true ["ES256"] ["S256"] ["code"] ["authorization_code"; "refresh_token"]
    ["none"; "private_key_jwt"] ["ES256"] ["atproto"] true true true.
(** [AuthorizationServerMetadata { field: ..., ..valid_test_metadata() }]. *)
Definition with_issuer (iss : string) (m : AuthorizationServerMetadata) : AuthorizationServerMetadata :=
  mkASM iss (authorization_endpoint m) (token_endpoint m) (pushed_authorization_request_endpoint m)
    (require_pushed_authorization_requests m) (dpop_signing_alg_values_supported m)
    (code_challenge_methods_supported m) (response_types_supported m) (grant_types_supported m)
    (token_endpoint_auth_methods_supported m) (token_endpoint_auth_signing_alg_values_supported m)
    (scopes_supported m) (authorization_response_iss_parameter_supported m)
    (client_id_metadata_document_supported m) (require_request_uri_registration m).
Definition with_algs (dpop pkce token_auth : list string) (registration : bool) (m : AuthorizationServerMetadata)
    : AuthorizationServerMetadata :=
  mkASM (issuer m) (authorization_endpoint m) (token_endpoint m) (pushed_authorization_request_endpoint m)
    (require_pushed_authorization_requests m) dpop pkce (response_types_supported m) (grant_types_supported m)
    (token_endpoint_auth_methods_supported m) token_auth (scopes_supported m)
    (authorization_response_iss_parameter_supported m) (client_id_metadata_document_supported m) registration.

Definition test_validate_auth_server_capabilities_valid : harness unit :=
  let meta := valid_test_metadata in
  assert (is_ok (validate_auth_server_capabilities meta "https://auth.example.com")).

Definition test_validate_auth_server_capabilities_missing_es256 : harness unit :=
  let meta := with_algs ["RS256"] ["S256"] ["ES256"] true valid_test_metadata in
  assert (match validate_auth_server_capabilities meta "https://auth.example.com" with
          | Err (DiscoveryError_MissingDpopAlgorithm _) => true | _ => false end).

Definition test_validate_auth_server_capabilities_missing_s256_pkce : harness unit :=
  let meta := with_algs ["ES256"] ["plain"] ["ES256"] true valid_test_metadata in
  assert (match validate_auth_server_capabilities meta "https://auth.example.com" with
          | Err (DiscoveryError_MissingPkceMethod _) => true | _ => false end).

Definition test_validate_auth_server_capabilities_explicit_false_request_uri_registration : harness unit :=
  let meta := with_algs ["ES256"] ["S256"] ["ES256"] false valid_test_metadata in
  assert (match validate_auth_server_capabilities meta "https://auth.example.com" with
          | Err (DiscoveryError_MissingRequestUriRegistration _) => true | _ => false end).

Definition test_validate_auth_server_capabilities_issuer_mismatch : harness unit :=
  let meta := with_issuer "https://attacker.example.com" valid_test_metadata in
  assert (match validate_auth_server_capabilities meta "https://auth.example.com" with
          | Err (DiscoveryError_IssuerMismatch _ _) => true | _ => false end).

Definition test_validate_auth_server_capabilities_missing_token_auth_signing_alg : harness unit :=
  let meta := with_algs ["ES256"] ["S256"] ["RS256"] true valid_test_metadata in
  assert (match validate_auth_server_capabilities meta "https://auth.example.com" with
          | Err (DiscoveryError_MissingTokenAuthSigningAlg _) => true | _ => false end).

Definition test_validate_auth_server_capabilities_invalid_token_auth_signing_alg_none : harness unit :=
  let meta := with_algs ["ES256"] ["S256"] ["ES256"; "none"] true valid_test_metadata in
  assert (match validate_auth_server_capabilities meta "https://auth.example.com" with
          | Err (DiscoveryError_InvalidTokenAuthSigningAlg _) => true | _ => false end).

Definition test_validate_auth_server_capabilities_explicit_443_rejected : harness unit :=
  let meta := with_issuer "https://auth.example.com:443" valid_test_metadata in
  _ ← assert (match validate_auth_server_capabilities meta "https://auth.example.com" with
              | Err (DiscoveryError_InvalidAuthorizationServerUrl _) => true | _ => false end);
  assert (match validate_auth_server_capabilities valid_test_metadata "https://auth.example.com:443" with
          | Err (DiscoveryError_InvalidAuthorizationServerUrl _) => true | _ => false end).

Definition test_is_origin_only_rejects_explicit_443 : harness unit :=
  _ ← assert (is_origin_only "https://auth.example.com");
  _ ← assert (negb (is_origin_only "https://auth.example.com:443"));
  _ ← assert (negb (is_origin_only "https://auth.example.com:443/"));
  assert (is_origin_only "https://auth.example.com:8443").

Definition test_is_origin_only_rejects_leading_zero_and_malformed_ports : harness unit :=
  _ ← assert (negb (is_origin_only "https://auth.example.com:0443"));
  _ ← assert (negb (is_origin_only "http://auth.example.com:0080"));
  _ ← assert (negb (is_origin_only "https://auth.example.com:not_a_port"));
  _ ← assert (negb (is_origin_only "https://auth.example.com:443\"));
  _ ← assert (is_origin_only "https://auth.example.com:44371");
  assert (is_origin_only "http://127.0.0.1:8080").

Definition test_is_origin_only_loopback_http_acceptance_boundaries : harness unit :=
  _ ← assert (is_origin_only "http://localhost");
  _ ← assert (is_origin_only "http://127.0.0.1");
  _ ← assert (is_origin_only "http://127.0.0.1:8080");
  _ ← assert (is_origin_only "http://[::1]:8080");
  _ ← assert (negb (is_origin_only "http://auth.example.com"));
  _ ← assert (negb (is_origin_only "http://auth.example.com:80"));
  _ ← assert (negb (is_origin_only "http://auth.example.com:8080"));
  _ ← assert (negb (is_origin_only "http://127.0.0.2"));
  _ ← assert (negb (is_origin_only "http://user@127.0.0.1"));
  _ ← assert (negb (is_origin_only "http://127.0.0.1/xrpc"));
  _ ← assert (negb (is_origin_only "https://auth.example.com/?a=b"));
  _ ← assert (negb (is_origin_only "https://auth.example.com/#frag"));
  _ ← assert (is_origin_only "https://auth.example.com:8080");
  assert (is_origin_only "https://auth.example.com:44371").

Definition discovery_tests : list (harness unit) :=
  [test_validate_auth_server_capabilities_valid; test_validate_auth_server_capabilities_missing_es256;
   test_validate_auth_server_capabilities_missing_s256_pkce;
   test_validate_auth_server_capabilities_explicit_false_request_uri_registration;
   test_validate_auth_server_capabilities_issuer_mismatch;
   test_validate_auth_server_capabilities_missing_token_auth_signing_alg;
   test_validate_auth_server_capabilities_invalid_token_auth_signing_alg_none;
   test_validate_auth_server_capabilities_explicit_443_rejected; test_is_origin_only_rejects_explicit_443;
   test_is_origin_only_rejects_leading_zero_and_malformed_ports;
   test_is_origin_only_loopback_http_acceptance_boundaries].
End discovery_tests.

Section run.
Context `{UrlVectors}.

(** The capability checks look at the five URLs of the document only. *)
Definition meta_listed (m : AuthorizationServerMetadata) (url : string) : bool :=
  forallb (λ s, listed s && is_ok (Table.find s url_vectors))
    [url; issuer m; pushed_authorization_request_endpoint m; token_endpoint m; authorization_endpoint m].
Lemma capabilities_vector m url :
  meta_listed m url = true →
  validate_auth_server_capabilities m url = @validate_auth_server_capabilities _ Table.parts m url.
Proof.
  unfold meta_listed. cbn [forallb]. rewrite !andb_true_iff. intros ([]&[]&[]&[]&[]&_).
  unfold validate_auth_server_capabilities.
  pose proof (origin_only_vector url ltac:(assumption)) as ->.
  pose proof (origin_only_vector (issuer m) ltac:(assumption)) as ->.
  pose proof (origin_vector url ltac:(assumption) ltac:(assumption)) as ->.
  pose proof (origin_vector (issuer m) ltac:(assumption) ltac:(assumption)) as ->.
  pose proof (https_endpoint_vector (pushed_authorization_request_endpoint m)) as Hp.
  pose proof (https_endpoint_vector (token_endpoint m)) as Ht.
  pose proof (https_endpoint_vector (authorization_endpoint m)) as Ha.
  rewrite Hp, Ht, Ha by assumption. reflexivity.
Qed.

Theorem discovery_tests_pass : Forall passes discovery_tests.
Proof.
  unfold discovery_tests, test_validate_auth_server_capabilities_valid,
    test_validate_auth_server_capabilities_missing_es256, test_validate_auth_server_capabilities_missing_s256_pkce,
    test_validate_auth_server_capabilities_explicit_false_request_uri_registration,
    test_validate_auth_server_capabilities_issuer_mismatch,
    test_validate_auth_server_capabilities_missing_token_auth_signing_alg,
    test_validate_auth_server_capabilities_invalid_token_auth_signing_alg_none,
    test_validate_auth_server_capabilities_explicit_443_rejected, test_is_origin_only_rejects_explicit_443,
    test_is_origin_only_rejects_leading_zero_and_malformed_ports,
    test_is_origin_only_loopback_http_acceptance_boundaries.
  pose proof origin_only_vector as Hv. rewrite !capabilities_vector, !Hv by (vm_compute; reflexivity).
  repeat (constructor; [vm_compute; exact I|]). constructor.
Qed.
End run.
End DiscoveryTests.
