(* ===== verification/TokenTests.v ===== *)
(** * TokenTests: the repository's unit tests of access tokens

    The [#[test]] functions of the three test modules of integrations/validator.rs that mint and verify tokens,
    over the definitions of Issuer and Validator.  The keys, the random bytes of the token identifiers and the
    readings of the clock ([t k]) are arguments; the tests pass for all of them if the clock does not run
    backwards and a test takes less than a minute. *)
From S2P Require Import Prelude Errors Strs Externals Instances Crypto Htu Dpop Validator Issuer Harness.
Open Scope Z_scope.

Section token_tests.
Context `{Base64} `{Sha2} `{P256} `{SerdeJson} `{Subtle} `{AccessTokenSerde} `{!AccessTokenWrite}.
(** The keys the tests generate, the bytes drawn for the [k]-th token, and the system clock. *)
Context (auth_key other_key dpop_key attacker_dpop_key : SigningKey) (raw : nat → list Z) (t : nat → Z).

Definition auth_issuer : string := "https://auth.example.com".
Definition pds : string := "https://pds.example.com".
Definition client_jkt : string := key_thumbprint dpop_key.

(** The builder calls most tests share. *)
Definition pinned (v : JwtAccessTokenValidator) : JwtAccessTokenValidator :=
  with_expected_audience (with_expected_issuer v auth_issuer) pds.
Definition trusting (key : SigningKey) : JwtAccessTokenValidator :=
  with_verifying_key jwt_validator_new (sk_verifying_key key).

(** [SystemTime::now().duration_since(UNIX_EPOCH).unwrap().as_secs()]. *)
Definition now_secs (k : nat) : harness Z := unwrap_some (unix_secs (t k)).

(** ** mod tests *)
Definition test_jwt_access_token_signing_and_validation_roundtrip : harness unit :=
  now ← now_secs 0;
  exp ← u64_add now 3600;
  let claims := claims_with_scope (with_audience (access_claims_new auth_issuer "did:plc:alice123" exp client_jkt
                  (t 1) (raw 0)) pds) "atproto transition:generic" in
  jwt ← unwrap (sign_jwt claims auth_key None);
  let validator := with_required_scope (pinned (trusting auth_key)) "atproto" in
  user ← unwrap (verify_token_sync validator jwt client_jkt (t 2));
  _ ← assert_eq (user_did user) "did:plc:alice123";
  _ ← assert_eq (user_access_token user) jwt;
  _ ← assert_eq (user_dpop_thumbprint user) client_jkt;
  assert_eq (user_scope user) (Some "atproto transition:generic").

Definition test_jwt_access_token_cnf_jkt_mismatch_fails : harness unit :=
  now ← now_secs 0;
  exp ← u64_add now 3600;
  let claims := with_audience (access_claims_new auth_issuer "did:plc:alice123" exp client_jkt (t 1) (raw 0)) pds in
  jwt ← unwrap (sign_jwt claims auth_key None);
  let validator := pinned (trusting auth_key) in
  err ← unwrap_err (verify_token_sync validator jwt (key_thumbprint attacker_dpop_key) (t 2));
  assert (match err with IntegrationError_Token (TokenError_CnfThumbprintMismatch _ _) => true | _ => false end).

Definition test_jwt_access_token_expired_fails : harness unit :=
  let claims := with_audience (access_claims_new auth_issuer "did:plc:alice123" 1000 client_jkt (t 0) (raw 0)) pds in
  jwt ← unwrap (sign_jwt claims auth_key None);
  let validator := with_clock_skew (pinned (trusting auth_key)) 0 in
  err ← unwrap_err (verify_token_sync validator jwt client_jkt (t 1));
  assert (match err with IntegrationError_Token (TokenError_Expired _ _) => true | _ => false end).

Definition test_jwt_access_token_issuer_mismatch_fails : harness unit :=
  now ← now_secs 0;
  exp ← u64_add now 3600;
  let claims := with_audience (access_claims_new "https://malicious-issuer.example.com" "did:plc:alice123" exp
                  client_jkt (t 1) (raw 0)) pds in
  jwt ← unwrap (sign_jwt claims auth_key None);
  err ← unwrap_err (verify_token_sync (pinned (trusting auth_key)) jwt client_jkt (t 2));
  assert (match err with IntegrationError_Token (TokenError_IssuerMismatch _ _) => true | _ => false end).

Definition test_jwt_access_token_audience_mismatch_fails : harness unit :=
  now ← now_secs 0;
  exp ← u64_add now 3600;
  let claims := with_audience (access_claims_new auth_issuer "did:plc:alice123" exp client_jkt (t 1) (raw 0))
                  "https://other-resource.example.com" in
  jwt ← unwrap (sign_jwt claims auth_key None);
  err ← unwrap_err (verify_token_sync (pinned (trusting auth_key)) jwt client_jkt (t 2));
  assert (match err with IntegrationError_Token (TokenError_AudienceMismatch _ _) => true | _ => false end).

(** The two tests that sign a header of their own: [header_val] is the value of its text. *)
Definition json_field (k v : string) : string := quoted k +:+ ":" +:+ quoted v.
Definition header_typ_jwt : string :=
  "{" +:+ json_field "alg" "ES256" +:+ "," +:+ json_field "typ" "JWT" +:+ "}".
Definition header_unknown_kid : string :=
  "{" +:+ json_field "alg" "ES256" +:+ "," +:+ json_field "typ" "at+jwt" +:+ "," +:+ json_field "kid" "key-1999" +:+ "}".

Definition sign_with_header (header_text : string) (claims : JwtAccessTokenClaims) : harness string :=
  payload_str ← unwrap (access_claims_to_string claims);
  let header_b64 := base64url_encode (as_bytes header_text) in
  let payload_b64 := base64url_encode (as_bytes payload_str) in
  let signing_input := header_b64 +:+ "." +:+ payload_b64 in
  sig ← unwrap (sign_p256_raw auth_key (as_bytes signing_input));
  mret (signing_input +:+ "." +:+ base64url_encode sig).

Definition test_jwt_access_token_wrong_typ_rejected : harness unit :=
  now ← now_secs 0;
  exp ← u64_add now 3600;
  let claims := with_audience (access_claims_new auth_issuer "did:plc:typ-test" exp client_jkt (t 1) (raw 0)) pds in
  jwt_wrong_typ ← sign_with_header header_typ_jwt claims;
  err ← unwrap_err (verify_token_sync (pinned (trusting auth_key)) jwt_wrong_typ client_jkt (t 2));
  assert (match err with
          | IntegrationError_Token (TokenError_MalformedToken msg) => str_contains msg "typ" || str_contains msg "at+jwt"
          | _ => false end).

Definition test_jwt_access_token_unknown_kid_fail_closed : harness unit :=
  now ← now_secs 0;
  exp ← u64_add now 3600;
  let claims := with_audience (access_claims_new auth_issuer "did:plc:kid-test" exp client_jkt (t 1) (raw 0)) pds in
  jwt ← sign_with_header header_unknown_kid claims;
  let validator := pinned (with_trusted_key jwt_validator_new "key-2024" (sk_verifying_key auth_key)) in
  err ← unwrap_err (verify_token_sync validator jwt client_jkt (t 2));
  assert (match err with IntegrationError_AuthFailed _ => true | _ => false end).

Definition test_jwt_access_token_missing_audience_rejected : harness unit :=
  now ← now_secs 0;
  exp ← u64_add now 3600;
  let claims_no_aud := access_claims_new auth_issuer "did:plc:aud-test" exp client_jkt (t 1) (raw 0) in
  jwt_no_aud ← unwrap (sign_jwt claims_no_aud auth_key None);
  err ← unwrap_err (verify_token_sync (pinned (trusting auth_key)) jwt_no_aud client_jkt (t 2));
  assert (match err with IntegrationError_Token TokenError_MissingAudience => true | _ => false end).

Definition test_jwt_access_token_unconfigured_audience_fails_closed : harness unit :=
  now ← now_secs 0;
  exp ← u64_add now 3600;
  let claims := with_audience (access_claims_new auth_issuer "did:plc:aud-closed-test" exp client_jkt (t 1) (raw 0))
                  "https://some-other-resource.example.com" in
  jwt ← unwrap (sign_jwt claims auth_key None);
  let validator := with_expected_issuer (trusting auth_key) auth_issuer in
  err ← unwrap_err (verify_token_sync validator jwt client_jkt (t 2));
  assert (match err with IntegrationError_AuthFailed msg => str_contains msg "audience" | _ => false end).

Definition test_jwt_access_token_unconfigured_issuer_fails_closed : harness unit :=
  now ← now_secs 0;
  exp ← u64_add now 3600;
  let claims := with_audience (access_claims_new auth_issuer "did:plc:iss-closed-test" exp client_jkt (t 1) (raw 0)) pds in
  jwt ← unwrap (sign_jwt claims auth_key None);
  let validator := with_expected_audience (trusting auth_key) pds in
  err ← unwrap_err (verify_token_sync validator jwt client_jkt (t 2));
  assert (match err with IntegrationError_AuthFailed msg => str_contains msg "issuer" | _ => false end).

(** ** mod m5_enforcement_tests *)
Definition signed_token (claims : JwtAccessTokenClaims) (key : SigningKey) : harness string :=
  unwrap (sign_jwt claims key None).

Definition test_m5_exp_boundary_is_exact : harness unit :=
  now ← now_secs 0;
  let claims := access_claims_new auth_issuer "did:plc:alice123" now "dpop_jkt" (t 1) (raw 0) in
  token ← signed_token claims auth_key;
  let res := verify_token_sync (pinned (trusting auth_key)) token "dpop_jkt" (t 2) in
  assert (match res with Err (IntegrationError_Token (TokenError_Expired _ _)) => true | _ => false end).

Definition test_m5_issuer_comparison_is_exact : harness unit :=
  now ← now_secs 0;
  exp ← u64_add now 3600;
  let claims := access_claims_new "https://auth.example.com/" "did:plc:alice123" exp "dpop_jkt" (t 1) (raw 0) in
  token ← signed_token claims auth_key;
  let res := verify_token_sync (pinned (trusting auth_key)) token "dpop_jkt" (t 2) in
  assert (match res with Err (IntegrationError_Token (TokenError_IssuerMismatch _ _)) => true | _ => false end).

(** ** mod mutation_killer_tests *)

(** The clock is read for the [k]-th time when the claims are made, and the [k]-th identifier is drawn. *)
Definition minted_validator (now : Z) (k : nat) : harness (JwtAccessTokenValidator * string * string) :=
  exp ← u64_add now 3600;
  let claims := claims_with_scope (with_audience (access_claims_new auth_issuer "did:plc:alice123" exp client_jkt
                  (t k) (raw k)) pds) "atproto transition:generic" in
  jwt ← unwrap (sign_jwt claims auth_key None);
  let validator := with_required_scope (pinned (trusting auth_key)) "atproto" in
  mret (validator, jwt, client_jkt).

Definition killer_with_expected_subject_is_enforced : harness unit :=
  now ← now_secs 0;
  '(validator, jwt, jkt) ← minted_validator now 1;
  let ok := with_expected_subject validator "did:plc:alice123" in
  _ ← assert (is_ok (verify_token_sync ok jwt jkt (t 2)));
  let wrong := with_expected_subject validator "did:plc:bob" in
  assert (is_err (verify_token_sync wrong jwt jkt (t 3))).

Definition killer_with_trusted_key_kid_routing : harness unit :=
  now ← now_secs 0;
  let verifying := sk_verifying_key auth_key in
  exp ← u64_add now 3600;
  let claims := with_audience (access_claims_new auth_issuer "did:plc:alice123" exp client_jkt (t 1) (raw 0)) pds in
  jwt ← unwrap (sign_jwt claims auth_key (Some "key-2026"));
  let validator := pinned (with_trusted_key jwt_validator_new "key-2026" verifying) in
  _ ← assert (is_ok (verify_token_sync validator jwt client_jkt (t 2)));
  let validator2 := pinned (with_trusted_key jwt_validator_new "other-kid" verifying) in
  assert (is_err (verify_token_sync validator2 jwt client_jkt (t 3))).

Definition killer_nbf_and_exp_boundaries_are_strict : harness unit :=
  now ← now_secs 0;
  exp ← u64_add now 3600;
  nbf ← u64_add now 3600;
  let future_nbf := with_nbf (with_audience (access_claims_new auth_issuer "did:plc:alice123" exp client_jkt
                      (t 1) (raw 0)) pds) nbf in
  jwt_future ← unwrap (sign_jwt future_nbf auth_key None);
  let validator := pinned (trusting auth_key) in
  _ ← assert (is_err (verify_token_sync validator jwt_future client_jkt (t 2)));
  let zero_leeway := with_clock_skew validator 0 in
  let exp_now := with_audience (access_claims_new auth_issuer "did:plc:alice123" now client_jkt (t 3) (raw 1)) pds in
  jwt_exp_now ← unwrap (sign_jwt exp_now auth_key None);
  _ ← assert (is_err (verify_token_sync zero_leeway jwt_exp_now client_jkt (t 4)));
  '(live_validator, live_jwt, live_jkt) ← minted_validator now 5;
  assert (is_ok (verify_token_sync live_validator live_jwt live_jkt (t 6))).

(** [claims.aud = Some(...)]. *)
Definition set_aud (c : JwtAccessTokenClaims) (aud : json) : JwtAccessTokenClaims :=
  mkAccessClaims (at_iss c) (at_sub c) (at_client_id c) (Some aud) (at_exp c) (at_nbf c) (at_iat c) (at_jti c)
    (at_scope c) (at_cnf c).

Definition killer_audience_must_match_exactly : harness unit :=
  now ← now_secs 0;
  exp ← u64_add now 3600;
  let claims := set_aud (access_claims_new auth_issuer "did:plc:alice123" exp client_jkt (t 1) (raw 0))
                  (JArray [JString "https://other.example.com"; JString pds]) in
  jwt_arr ← unwrap (sign_jwt claims auth_key None);
  let validator := pinned (trusting auth_key) in
  _ ← assert (is_ok (verify_token_sync validator jwt_arr client_jkt (t 2)));
  exp ← u64_add now 3600;
  let wrong_claims := set_aud (access_claims_new auth_issuer "did:plc:alice123" exp client_jkt (t 3) (raw 1))
                        (JArray [JString "https://elsewhere.example.com"]) in
  jwt_wrong ← unwrap (sign_jwt wrong_claims auth_key None);
  _ ← assert (is_err (verify_token_sync validator jwt_wrong client_jkt (t 4)));
  exp ← u64_add now 3600;
  let num_claims := set_aud (access_claims_new auth_issuer "did:plc:alice123" exp client_jkt (t 5) (raw 2))
                      (JArray [JInt 42]) in
  jwt_num ← unwrap (sign_jwt num_claims auth_key None);
  assert (is_err (verify_token_sync validator jwt_num client_jkt (t 6))).

Definition killer_required_scope_must_be_present : harness unit :=
  now ← now_secs 0;
  exp ← u64_add now 3600;
  let claims := with_audience (access_claims_new auth_issuer "did:plc:alice123" exp client_jkt (t 1) (raw 0)) pds in
  jwt ← unwrap (sign_jwt claims auth_key None);
  let validator := with_required_scope (pinned (trusting auth_key)) "atproto" in
  assert (is_err (verify_token_sync validator jwt client_jkt (t 2))).

Definition kid_routing_none_when_multiple_trusted_keys_and_no_default : harness unit :=
  now ← now_secs 0;
  exp ← u64_add now 3600;
  let claims := with_audience (access_claims_new auth_issuer "did:plc:alice123" exp client_jkt (t 1) (raw 0)) pds in
  jwt ← unwrap (sign_jwt claims auth_key None);
  let validator := pinned (with_trusted_key (with_trusted_key jwt_validator_new "kid-a" (sk_verifying_key auth_key))
                     "kid-b" (sk_verifying_key other_key)) in
  assert (is_err (verify_token_sync validator jwt client_jkt (t 2))).

Definition token_tests : list (harness unit) :=
  [test_jwt_access_token_signing_and_validation_roundtrip; test_jwt_access_token_cnf_jkt_mismatch_fails;
   test_jwt_access_token_expired_fails; test_jwt_access_token_issuer_mismatch_fails;
   test_jwt_access_token_audience_mismatch_fails; test_jwt_access_token_wrong_typ_rejected;
   test_jwt_access_token_unknown_kid_fail_closed; test_jwt_access_token_missing_audience_rejected;
   test_jwt_access_token_unconfigured_audience_fails_closed; test_jwt_access_token_unconfigured_issuer_fails_closed;
   test_m5_exp_boundary_is_exact; test_m5_issuer_comparison_is_exact; killer_with_expected_subject_is_enforced;
   killer_with_trusted_key_kid_routing; killer_nbf_and_exp_boundaries_are_strict; killer_audience_must_match_exactly;
   killer_required_scope_must_be_present; kid_routing_none_when_multiple_trusted_keys_and_no_default].
End token_tests.

(** ** Running them *)
Section run.
Context `{Base64Laws} `{!Base64Alphabet} `{Sha2} `{P256Laws} `{SerdeJsonLaws} `{SubtleLaws} `{AccessTokenSerde}
  `{!AccessTokenSerdeTyped} `{!AccessTokenWrite} `{!AccessTokenWriteLaws}.

(** A token whose header has the value [hd] and whose claims [c] are signed with [key]: its verification is
    decided by the header, the selected key and the checks on the claims. *)
Record signed_as (token : string) (hd : json) (c : JwtAccessTokenClaims) (key : SigningKey) : Prop := {
  sa_trim : trim token = token;
  sa_typ v th sys :
    at_jwt_typ (get_str hd "typ") = false →
    ∃ e, verify_token_sync v token th sys = malformed_token ("Unsupported typ in access token: expected 'at+jwt', got " +:+ e);
  sa_no_key v th sys :
    at_jwt_typ (get_str hd "typ") = true → select_key v (get_str hd "kid") = None →
    verify_token_sync v token th sys = Err (IntegrationError_AuthFailed "No matching trusted verifying key found for access token");
  sa_claims v th sys now :
    at_jwt_typ (get_str hd "typ") = true → select_key v (get_str hd "kid") = Some (sk_verifying_key key) →
    unix_secs sys = Some now →
    verify_token_sync v token th sys =
    (check_access_claims v c now th ≫= λ _, Ok (mkUser (at_sub c) token th (at_scope c)))
}.

Lemma compact_trim (a b c : list Z) :
  let jwt := (base64url_encode a +:+ "." +:+ base64url_encode b) +:+ "." +:+ base64url_encode c in trim jwt = jwt.
Proof.
  assert (∀ d, str_forall ws_free_byte (base64url_encode d) = true) as Hw.
  { intros d. eapply str_forall_impl; [apply base64url_char_ws_free|apply b64_alphabet]. }
  apply trim_ws_free. by rewrite !str_forall_app, !Hw.
Qed.

Lemma compact_signed hs ps hd c key :
  json_from_slice (as_bytes hs) = Ok hd → get_str hd "alg" = Some "ES256" →
  access_claims_from_slice (as_bytes ps) = Ok c →
  let input := base64url_encode (as_bytes hs) +:+ "." +:+ base64url_encode (as_bytes ps) in
  ∃ sg, sign_p256_raw key (as_bytes input) = Ok sg ∧ signed_as (input +:+ "." +:+ base64url_encode sg) hd c key.
Proof.
  intros Dh Ha Dp input. destruct (sign_verify_raw key (as_bytes input)) as (sg & Es & _ & Hsg & Hv).
  exists sg. split; [done|]. subst input.
  split; [apply compact_trim|..]; intros v th sys; [intros Ht; eexists|intros Ht Hk|intros now Ht Hk Hnow];
    unfold verify_token_sync; rewrite compact_parts;
    rewrite !base64url_roundtrip by (apply as_bytes_valid || done);
    cbn [as_malformed map_err mbind result_bind]; rewrite Dh; cbn [as_malformed map_err mbind result_bind];
    rewrite Ha; cbn [ok_or mbind result_bind]; rewrite Ht.
  - reflexivity.
  - cbn [negb fail_if mbind result_bind]. rewrite Hk. reflexivity.
  - rewrite Hk. cbn [negb fail_if ok_or String.eqb mbind result_bind]. rewrite Hv.
    cbn [map_err mbind result_bind]. rewrite Dp. cbn [as_malformed map_err mbind result_bind]. rewrite Hnow. reflexivity.
Qed.

Lemma wp_sign c key kid (Q : string → Prop) :
  access_claims_typed c → (∀ token, signed_as token (access_header kid) c key → Q token) →
  wp (unwrap (sign_jwt c key kid)) Q.
Proof.
  intros Hc HQ. destruct (access_header_facts kid) as (W & F & Ha & _).
  destruct (json_roundtrip _ W F) as (hs & Eh & Dh). destruct (access_claims_roundtrip c Hc) as (ps & Ep & Dp).
  destruct (compact_signed hs ps _ c key Dh Ha Dp) as (sg & Es & Hs). eapply wp_unwrap; [|by apply HQ].
  unfold sign_jwt. step_ok Eh. step_ok Ep. step_ok Es. reflexivity.
Qed.

(** The checks on claims, given the outcome of the comparisons that are not between constants. *)
Lemma same_thumbprint th : constant_time_eq (as_bytes th) (as_bytes th) = true.
Proof. by apply constant_time_eq_spec. Qed.
Lemma other_thumbprint th th' : th ≠ th' → constant_time_eq (as_bytes th) (as_bytes th') = false.
Proof. intros Hn. apply not_true_iff_false. by intros E%constant_time_eq_spec%as_bytes_inj. Qed.

Context (auth_key other_key dpop_key attacker_dpop_key : SigningKey) (raw : nat → list Z) (t : nat → Z).
Context `{!TestClock t}.

(** *** The steps of a test *)
Lemma wp_now (Q : Z → Prop) : (∀ s, unix_secs (t 0) = Some s → 1000 ≤ s < 2 ^ 63 → Q s) → wp (now_secs t 0) Q.
Proof. intros HQ. pose proof start_bounds. destruct (reading 0) as (s & E & -> & _). eapply wp_unwrap_some; [exact E|]. by apply HQ; [|lia]. Qed.

Lemma wp_hour now (Q : Z → Prop) : 1000 ≤ now < 2 ^ 63 → Q (now + 3600) → wp (u64_add now 3600) Q.
Proof. intros Hn. apply wp_u64_add. unfold u64_max. lia. Qed.

Lemma later_reading k s0 : unix_secs (t 0) = Some s0 → ∃ s, unix_secs (t k) = Some s ∧ s0 ≤ s ≤ s0 + 60.
Proof.
  intros E0. destruct (reading 0) as (s0' & E0' & -> & _), (reading k) as (s & E & _ & Hs). exists s. split; [done|].
  rewrite E0 in E0'. simplify_eq. lia.
Qed.

Lemma claims_typed c k :
  at_iat c = unix_secs_or_zero (t k) → u64_valid (at_exp c) → (∀ n, at_nbf c = Some n → u64_valid n) →
  (∀ a, at_aud c = Some a → match a with JNull => false | _ => json_wf a && float_free a end = true) → access_claims_typed c.
Proof.
  intros Hi He Hn Ha. split; [done|]. split; [|split; [done|]].
  2: { intros a Ea%Ha. destruct a; [done|..]; (split; [done|by apply andb_true_iff]). }
  rewrite Hi. pose proof start_bounds. destruct (reading k) as (s & E & _ & Hs). unfold unix_secs_or_zero, u64_valid, u64_max. rewrite E. cbn. lia.
Qed.
(** Claims of a test have their types; [check] decides the comparisons with the clock and the thumbprint and
    evaluates the rest. *)
Ltac typed_at k :=
  apply (claims_typed _ k);
  [reflexivity|cbn; unfold u64_valid, u64_max; lia|try (intros ? [= <-]; unfold u64_valid, u64_max; lia)
  |try (intros ? [= <-]; reflexivity)].
Ltac decide_clock :=
  unfold check_access_claims; cbn [at_exp at_nbf at_cnf jkt with_audience claims_with_scope with_nbf set_aud access_claims_new];
  repeat match goal with
  | |- context [u64_saturating_add ?n (clock_skew_leeway ?v / 1000000000)] =>
      let l := eval vm_compute in (clock_skew_leeway v / 1000000000) in
      change (clock_skew_leeway v / 1000000000) with l
  end;
  repeat match goal with
  | |- context [u64_saturating_add ?n ?l >=? ?e] =>
      first [assert ((u64_saturating_add n l >=? e) = false) as -> by (unfold u64_saturating_add, u64_max; lia)
            |assert ((u64_saturating_add n l >=? e) = true) as -> by (unfold u64_saturating_add, u64_max; lia)]
  | |- context [?e >? u64_saturating_add ?n ?l] =>
      first [assert ((e >? u64_saturating_add n l) = false) as -> by (unfold u64_saturating_add, u64_max; lia)
            |assert ((e >? u64_saturating_add n l) = true) as -> by (unfold u64_saturating_add, u64_max; lia)]
  end;
  rewrite ?same_thumbprint.

Context (thumbprints_differ : key_thumbprint dpop_key ≠ key_thumbprint attacker_dpop_key).

Ltac start := unfold passes; try (generalize (client_jkt dpop_key); intros th); hstep; apply wp_now; intros now Hnow Hr.
Ltac hour := hstep; apply wp_hour; [done|]; cbv zeta.
Ltac sign k := hstep; apply wp_sign; [typed_at k|]; intros ? ?.
Ltac evaluate :=
  match goal with
  | Hn : unix_secs (t 0) = Some ?now, Ht : signed_as ?tok _ _ _ |- context [verify_token_sync ?v ?tok ?th (t ?k)] =>
      let s := fresh "s" in let Es := fresh "Es" in let Hs := fresh "Hs" in
      destruct (later_reading k now Hn) as (s & Es & Hs);
      first [rewrite (sa_claims _ _ _ _ Ht v th (t k) s eq_refl eq_refl Es); decide_clock
            |rewrite (sa_no_key _ _ _ _ Ht v th (t k) eq_refl eq_refl)]
  end.
Ltac by_running := evaluate; vm_compute; reflexivity.
Ltac expect_err := hstep; evaluate; vm_compute; exact I.
Ltac verdict := apply wp_assert; [by_running|].

Lemma roundtrip_test : passes (test_jwt_access_token_signing_and_validation_roundtrip auth_key dpop_key raw t).
Proof.
  unfold test_jwt_access_token_signing_and_validation_roundtrip. start. hour. sign 1%nat.
  hstep. eapply wp_unwrap; [by_running|]. repeat (hstep || (apply wp_assert_eq; [reflexivity|])). exact I.
Qed.

Lemma thumbprint_test : passes (test_jwt_access_token_cnf_jkt_mismatch_fails auth_key dpop_key attacker_dpop_key raw t).
Proof.
  unfold test_jwt_access_token_cnf_jkt_mismatch_fails. change (key_thumbprint dpop_key) with (client_jkt dpop_key) in *.
  revert thumbprints_differ. generalize (client_jkt dpop_key) (key_thumbprint attacker_dpop_key). intros th th' Hn.
  start. hour. sign 1%nat. hstep. eapply wp_unwrap_err.
  { evaluate. rewrite other_thumbprint by done. vm_compute. reflexivity. }
  apply wp_assert; [reflexivity|exact I].
Qed.

Lemma expired_test : passes (test_jwt_access_token_expired_fails auth_key dpop_key raw t).
Proof.
  unfold passes, test_jwt_access_token_expired_fails. generalize (client_jkt dpop_key). intros th. cbv zeta.
  destruct (reading 0) as (now & Hn & En & _). pose proof start_bounds. sign 0%nat. expect_err.
Qed.

Lemma issuer_test : passes (test_jwt_access_token_issuer_mismatch_fails auth_key dpop_key raw t).
Proof. unfold test_jwt_access_token_issuer_mismatch_fails. start. hour. sign 1%nat. expect_err. Qed.
Lemma audience_test : passes (test_jwt_access_token_audience_mismatch_fails auth_key dpop_key raw t).
Proof. unfold test_jwt_access_token_audience_mismatch_fails. start. hour. sign 1%nat. expect_err. Qed.
Lemma missing_audience_test : passes (test_jwt_access_token_missing_audience_rejected auth_key dpop_key raw t).
Proof. unfold test_jwt_access_token_missing_audience_rejected. start. hour. sign 1%nat. expect_err. Qed.
Lemma unconfigured_audience_test : passes (test_jwt_access_token_unconfigured_audience_fails_closed auth_key dpop_key raw t).
Proof. unfold test_jwt_access_token_unconfigured_audience_fails_closed. start. hour. sign 1%nat. expect_err. Qed.
Lemma unconfigured_issuer_test : passes (test_jwt_access_token_unconfigured_issuer_fails_closed auth_key dpop_key raw t).
Proof. unfold test_jwt_access_token_unconfigured_issuer_fails_closed. start. hour. sign 1%nat. expect_err. Qed.

(** The two tests that write the header themselves; [serde_json] reads the two texts. *)
Context (reads_typ_jwt : json_from_slice (as_bytes header_typ_jwt) =
    Ok (JObject [("alg", JString "ES256"); ("typ", JString "JWT")]))
  (reads_unknown_kid : json_from_slice (as_bytes header_unknown_kid) =
    Ok (JObject [("alg", JString "ES256"); ("kid", JString "key-1999"); ("typ", JString "at+jwt")])).

Lemma wp_sign_with_header text hd c (Q : string → Prop) :
  json_from_slice (as_bytes text) = Ok hd → get_str hd "alg" = Some "ES256" → access_claims_typed c →
  (∀ token, signed_as token hd c auth_key → Q token) → wp (sign_with_header auth_key text c) Q.
Proof.
  intros Hd Ha Hc HQ. destruct (access_claims_roundtrip c Hc) as (ps & Ep & Dp).
  destruct (compact_signed text ps hd c auth_key Hd Ha Dp) as (sg & Es & Hs). unfold sign_with_header.
  hstep. eapply wp_unwrap; [exact Ep|]. cbv zeta. hstep. eapply wp_unwrap; [exact Es|]. by apply HQ.
Qed.

Lemma wrong_typ_test : passes (test_jwt_access_token_wrong_typ_rejected auth_key dpop_key raw t).
Proof.
  unfold test_jwt_access_token_wrong_typ_rejected. start. hour.
  hstep. eapply wp_sign_with_header; [exact reads_typ_jwt|reflexivity|typed_at 1%nat|]. intros token Ht. hstep.
  destruct (sa_typ _ _ _ _ Ht (pinned (trusting auth_key)) th (t 2) eq_refl) as (e & E).
  eapply wp_unwrap_err; [exact E|]. apply wp_assert; [reflexivity|exact I].
Qed.

Lemma unknown_kid_test : passes (test_jwt_access_token_unknown_kid_fail_closed auth_key dpop_key raw t).
Proof.
  unfold test_jwt_access_token_unknown_kid_fail_closed. start. hour.
  hstep. eapply wp_sign_with_header; [exact reads_unknown_kid|reflexivity|typed_at 1%nat|]. intros token Ht. expect_err.
Qed.

Lemma exp_boundary_test : passes (test_m5_exp_boundary_is_exact auth_key raw t).
Proof. unfold test_m5_exp_boundary_is_exact, signed_token. start. cbv zeta. sign 1%nat. cbv zeta. verdict. exact I. Qed.
Lemma issuer_exact_test : passes (test_m5_issuer_comparison_is_exact auth_key raw t).
Proof. unfold test_m5_issuer_comparison_is_exact, signed_token. start. hour. sign 1%nat. cbv zeta. verdict. exact I. Qed.

Lemma subject_test : passes (killer_with_expected_subject_is_enforced auth_key dpop_key raw t).
Proof.
  unfold killer_with_expected_subject_is_enforced, minted_validator. start. hstep. hour. sign 1%nat. hstep. cbv zeta.
  hstep. verdict. verdict. exact I.
Qed.
Lemma kid_test : passes (killer_with_trusted_key_kid_routing auth_key dpop_key raw t).
Proof.
  unfold killer_with_trusted_key_kid_routing. start. cbv zeta. hour. sign 1%nat. hstep. verdict. verdict. exact I.
Qed.
Lemma nbf_exp_test : passes (killer_nbf_and_exp_boundaries_are_strict auth_key dpop_key raw t).
Proof.
  unfold killer_nbf_and_exp_boundaries_are_strict, minted_validator. start. hour. hour. sign 1%nat. hstep. verdict.
  sign 3%nat. hstep. verdict. hstep. hour. sign 5%nat. hstep. cbv zeta. verdict. exact I.
Qed.
Lemma audience_exact_test : passes (killer_audience_must_match_exactly auth_key dpop_key raw t).
Proof.
  unfold killer_audience_must_match_exactly. start. hour. sign 1%nat. hstep. verdict. hour. sign 3%nat. hstep. verdict.
  hour. sign 5%nat. verdict. exact I.
Qed.
Lemma scope_test : passes (killer_required_scope_must_be_present auth_key dpop_key raw t).
Proof. unfold killer_required_scope_must_be_present. start. hour. sign 1%nat. verdict. exact I. Qed.
Lemma two_keys_test : passes (kid_routing_none_when_multiple_trusted_keys_and_no_default auth_key other_key dpop_key raw t).
Proof.
  unfold kid_routing_none_when_multiple_trusted_keys_and_no_default. start. hour. sign 1%nat. verdict. exact I.
Qed.

(** All of them, whatever the keys, the identifiers and the readings. *)
Theorem token_tests_pass : Forall passes (token_tests auth_key other_key dpop_key attacker_dpop_key raw t).
Proof.
  unfold token_tests.
  rewrite !Forall_cons.
  exact (conj roundtrip_test (conj thumbprint_test (conj expired_test (conj issuer_test (conj audience_test
    (conj wrong_typ_test (conj unknown_kid_test (conj missing_audience_test (conj unconfigured_audience_test
    (conj unconfigured_issuer_test (conj exp_boundary_test (conj issuer_exact_test (conj subject_test (conj kid_test
    (conj nbf_exp_test (conj audience_exact_test (conj scope_test (conj two_keys_test (Forall_nil_2 _))))))))))))))))))).
Qed.
End run.
