(* ===== verification/ProofTests.v ===== *)
(** * ProofTests: the repository's unit tests of DPoP keys and proofs

    The [#[test]] functions of dpop.rs that create and verify proofs and that export keys, over the definitions of
    Dpop, Replay and Keys.  The keys, the random bytes, the hash of the replay cache and the readings of the clock
    ([t k]) are arguments; a verifier's replay cache is threaded through the calls, and a cloned cache is the
    same cache. *)
From S2P Require Import Prelude Errors Strs Externals Instances Crypto Htu Replay Keys Dpop Harness StateTests.
Open Scope Z_scope.

(** ** Keys *)
Section key_tests.
Context `{Base64} `{Sha2} `{P256Keys}.
Context (a b : SigningKey).

Definition killer_dpop_key_equality_semantics : harness unit :=
  let a_again := a in
  _ ← assert (dpop_key_eq a a_again);
  _ ← assert (dpop_key_eq a a_again);
  _ ← assert (negb (dpop_key_eq a b));
  _ ← assert (negb (negb (dpop_key_eq a a_again)));
  assert (negb (dpop_key_eq a b)).

Definition killer_dpop_key_to_bytes_roundtrip : harness unit :=
  let scalar := to_bytes a in
  reconstructed ← unwrap (from_slice scalar);
  _ ← assert_eq (key_thumbprint reconstructed) (key_thumbprint a);
  _ ← assert (negb (bool_decide (scalar = replicate 32 0)));
  assert (negb (bool_decide (scalar = replicate 32 1))).

Definition killer_dpop_key_to_bytes_b64_roundtrip : harness unit :=
  let b64 := to_bytes_b64 a in
  restored ← unwrap (from_bytes_b64 b64);
  _ ← assert_eq (key_thumbprint restored) (key_thumbprint a);
  assert ((str_len b64 >=? 40) && negb (str_contains_char " " b64)).
End key_tests.

Section key_run.
Context `{Base64Laws} `{!Base64Alphabet} `{!Base64Length} `{Sha2} `{P256KeysLaws}.

(** The three tests pass for two different keys of which the first is neither of the two constant scalars. *)
Theorem key_tests_pass a b :
  a ≠ b → to_bytes a ≠ replicate 32 0 → to_bytes a ≠ replicate 32 1 →
  passes (killer_dpop_key_equality_semantics a b) ∧ passes (killer_dpop_key_to_bytes_roundtrip a) ∧
  passes (killer_dpop_key_to_bytes_b64_roundtrip a).
Proof.
  intros Hab H0' H1'.
  assert (dpop_key_eq a a = true) as Ea by by apply dpop_key_eq_spec.
  assert (dpop_key_eq a b = false) as Eb by (apply not_true_iff_false; by intros ?%dpop_key_eq_spec).
  assert (from_slice (to_bytes a) = Ok a) as Es.
  { unfold from_slice, to_bytes. by rewrite scalar_roundtrip. }
  split_and!; unfold passes.
  - unfold killer_dpop_key_equality_semantics. cbv zeta. by rewrite Ea, Eb.
  - unfold killer_dpop_key_to_bytes_roundtrip. cbv zeta. hstep. eapply wp_unwrap; [exact Es|].
    hstep. apply wp_assert_eq; [done|]. by rewrite !bool_decide_false.
  - unfold killer_dpop_key_to_bytes_b64_roundtrip. cbv zeta. hstep. eapply wp_unwrap.
    { unfold from_bytes_b64, to_bytes_b64. rewrite base64url_roundtrip by apply scalar_bytes. exact Es. }
    hstep. apply wp_assert_eq; [done|]. apply wp_assert; [|done].
    unfold to_bytes_b64, base64url_encode. rewrite b64_length. unfold zlen, to_bytes. rewrite scalar_len.
    by rewrite (str_forall_no_char base64url_char) by (reflexivity || apply b64_alphabet).
Qed.
End key_run.

(** ** Proofs *)
#[local] Instance JwkEc_eq_dec : EqDecision JwkEc.
Proof. solve_decision. Defined.

Section proof_tests.
Context `{Base64} `{Sha2} `{P256Keys} `{SerdeJson} `{DpopSerde} `{Subtle} `{UrlCrate} `{UnicodeUpper}.
Context (hash : string → Z) (key key2 : SigningKey) (raw : nat → list Z) (t : nat → Z).
Local Abbreviation verify_proof := (verify_proof hash).

(** [UNIX_EPOCH + Duration::from_secs(s)]. *)
Definition at_secs (s : Z) : Z := s * 1000000000.
(** [DPoPVerifier::new()] has a fresh replay cache. *)
Definition new_cache : option DPoPReplayCache := Some replay_new.

Definition test_dpop_proof_generation_and_verification_roundtrip : harness unit :=
  let uri := "https://pds.example.com/oauth/token?grant_type=authorization_code#frag" in
  let nonce := "test-nonce-123" in
  let ath_value := compute_access_token_hash "some_sample_access_token" in
  proof ← unwrap (create_proof key "POST" uri (Some nonce) (Some ath_value) (t 0) (raw 0));
  let '(_, r) := verify_proof verifier_new new_cache proof "post" "https://pds.example.com/oauth/token"
                   (Some nonce) (Some ath_value) None (t 1) (t 2) in
  '(claims, jwk) ← unwrap r;
  _ ← assert_eq (htm claims) "POST";
  _ ← assert_eq (htu claims) "https://pds.example.com/oauth/token";
  _ ← assert_eq (Dpop.nonce claims) (Some nonce);
  _ ← assert_eq (ath claims) (Some ath_value);
  assert_eq jwk (public_jwk key).

Definition test_private_key_in_jwk_rejected : harness unit :=
  let header := JObject [("alg", JString "ES256");
    ("jwk", JObject [("crv", JString "P-256"); ("d", JString "some_private_key_coordinate"); ("kty", JString "EC");
                     ("x", JString "l8tFrhx-34tV3hRICRDY9zCkDlpBhF42UQUfWVAWBFs");
                     ("y", JString "9VE4jf_Ok_o64zbTTlcuNJajHmt6v9TDVrU0CdvGRDA")]);
    ("typ", JString "dpop+jwt")] in
  let payload := JObject [("htm", JString "POST"); ("htu", JString "https://example.com/token"); ("iat", JInt 1000);
                          ("jti", JString "test-jti")] in
  header_str ← unwrap (json_to_string header);
  payload_str ← unwrap (json_to_string payload);
  let fake_jwt := (base64url_encode (as_bytes header_str) +:+ "." +:+ base64url_encode (as_bytes payload_str))
                    +:+ "." +:+ "AAAA" in
  let '(_, res) := verify_proof verifier_new new_cache fake_jwt "POST" "https://example.com/token" None None
                     (Some (at_secs 1000)) (t 0) (t 1) in
  assert (match res with Err DPoPError_PrivateKeyInJwk => true | _ => false end).

Definition test_dpop_verifier_replay_detection : harness unit :=
  let uri := "https://pds.example.com/xrpc/test" in
  proof ← unwrap (create_proof key "GET" uri None None (t 0) (raw 0));
  let '(cache, r) := verify_proof verifier_new new_cache proof "GET" uri None None None (t 1) (t 2) in
  '(claims, jwk) ← unwrap r;
  _ ← assert_eq (jwk_thumbprint jwk) (key_thumbprint key);
  let '(cache, r) := verify_proof verifier_new cache proof "GET" uri None None None (t 3) (t 4) in
  err ← unwrap_err r;
  assert (match err with DPoPError_ReplayDetected j => (j =? jti claims)%string | _ => false end).

Definition token_htu : string := "https://pds.example.com/oauth/token".

Definition killer_verifier_with_max_clock_skew_is_applied : harness unit :=
  iat_now ← unwrap_some (unix_secs (t 0));
  proof ← unwrap (create_proof_internal key "POST" token_htu None None iat_now (Some "jti-1") []);
  let zero_skew := with_max_clock_skew verifier_new 0 in
  let '(_, r) := verify_proof zero_skew new_cache proof "POST" token_htu None None (Some (at_secs (iat_now - 1))) (t 1) (t 2) in
  _ ← assert (is_err r);
  let skewed := with_max_clock_skew verifier_new (at_secs 10) in
  let '(_, r) := verify_proof skewed new_cache proof "POST" token_htu None None (Some (at_secs (iat_now - 1))) (t 3) (t 4) in
  assert (is_ok r).

Definition killer_verifier_with_max_proof_age_is_applied : harness unit :=
  let old_iat := 1000000 in
  proof ← unwrap (create_proof_internal key "POST" token_htu None None old_iat (Some "jti-old") []);
  let now := at_secs (old_iat + 5) in
  let verifier := with_max_proof_age verifier_new (at_secs 10) in
  let '(_, r) := verify_proof verifier new_cache proof "POST" token_htu None None (Some now) (t 0) (t 1) in
  _ ← assert (is_ok r);
  let strict := with_max_proof_age verifier_new (at_secs 1) in
  let '(_, r) := verify_proof strict new_cache proof "POST" token_htu None None (Some now) (t 2) (t 3) in
  assert (is_err r).

Definition killer_verifier_with_replay_cache_and_prevention_toggles : harness unit :=
  let no_replay := with_replay_prevention new_cache false in
  _ ← assert (is_none no_replay);
  proof ← unwrap (create_proof key "POST" token_htu None None (t 0) (raw 0));
  let cache := with_replay_prevention no_replay true in
  _ ← assert (is_some cache);
  let '(cache, r) := verify_proof verifier_new cache proof "POST" token_htu None None None (t 1) (t 2) in
  _ ← assert (is_ok r);
  let '(cache, r) := verify_proof verifier_new cache proof "POST" token_htu None None None (t 3) (t 4) in
  _ ← assert (is_err r);
  let shared := with_replay_cache new_cache replay_new in
  proof2 ← unwrap (create_proof key2 "POST" token_htu None None (t 5) (raw 1));
  let '(shared, r) := verify_proof verifier_new shared proof2 "POST" token_htu None None None (t 6) (t 7) in
  _ ← assert (is_ok r);
  let '(shared, r) := verify_proof verifier_new shared proof2 "POST" token_htu None None None (t 8) (t 9) in
  assert (is_err r).

Definition killer_temporal_boundaries_are_exact : harness unit :=
  let iat_value := 2000000 in
  proof_edge_future ← unwrap (create_proof_internal key "POST" token_htu None None iat_value (Some "jti-fut") []);
  let now := at_secs (iat_value - 10) in
  let verifier := with_max_proof_age (with_max_clock_skew verifier_new (at_secs 10)) (at_secs 60) in
  let '(cache, r) := verify_proof verifier new_cache proof_edge_future "POST" token_htu None None (Some now) (t 0) (t 1) in
  _ ← assert (is_ok r);
  proof_beyond ← unwrap (create_proof_internal key "POST" token_htu None None iat_value (Some "jti-bey") []);
  let now_earlier := at_secs (iat_value - 11) in
  let '(cache, r) := verify_proof verifier cache proof_beyond "POST" token_htu None None (Some now_earlier) (t 2) (t 3) in
  _ ← assert (is_err r);
  let max_age := 60 in
  let verifier60 := with_max_proof_age (with_max_clock_skew verifier_new 0) (at_secs max_age) in
  proof_at_edge ← unwrap (create_proof_internal key "POST" token_htu None None iat_value (Some "jti-edge") []);
  let edge_now := at_secs (iat_value + max_age) in
  let '(cache, r) := verify_proof verifier60 new_cache proof_at_edge "POST" token_htu None None (Some edge_now) (t 4) (t 5) in
  _ ← assert (is_ok r);
  let beyond_now := at_secs (iat_value + max_age + 1) in
  let '(cache, r) := verify_proof verifier60 cache proof_at_edge "POST" token_htu None None (Some beyond_now) (t 6) (t 7) in
  _ ← assert (is_err r);
  let exp_value := 3000000 in
  let exp_claims := JObject [("exp", JInt exp_value); ("htm", JString "POST"); ("htu", JString token_htu);
                             ("iat", JInt (exp_value - 100)); ("jti", JString "jti-exp")] in
  let header := JObject [("alg", JString "ES256"); ("jwk", jwk_to_value (public_jwk key)); ("typ", JString "dpop+jwt")] in
  header_str ← unwrap (json_to_string header);
  claims_str ← unwrap (json_to_string exp_claims);
  let signing_input := base64url_encode (as_bytes header_str) +:+ "." +:+ base64url_encode (as_bytes claims_str) in
  pem ← unwrap (to_pkcs8_pem key);
  signing_key ← unwrap (from_pkcs8_pem pem);
  sig ← unwrap (sign_p256_raw signing_key (as_bytes signing_input));
  let exp_proof := signing_input +:+ "." +:+ base64url_encode sig in
  let skew10 := with_max_clock_skew verifier_new (at_secs 10) in
  let now_at_edge := at_secs (exp_value + 10) in
  let '(cache, r) := verify_proof skew10 new_cache exp_proof "POST" token_htu None None (Some now_at_edge) (t 8) (t 9) in
  _ ← assert (is_ok r);
  let now_beyond := at_secs (exp_value + 11) in
  let '(cache, r) := verify_proof skew10 cache exp_proof "POST" token_htu None None (Some now_beyond) (t 10) (t 11) in
  assert (is_err r).
End proof_tests.

(** ** Running them *)
Section proof_run.
Context `{Base64Laws} `{!Base64Alphabet} `{!Base64Length} `{Sha2Laws} `{P256KeysLaws} `{!P256Laws} `{SerdeJsonLaws}
  `{DpopSerde} `{!DpopSerdeLaws} `{!DpopSerdeTyped} `{SubtleLaws} `{UrlCrate} `{UnicodeUpperLaws}.
Context (hash : string → Z).

(** A proof signed with [key] whose payload decodes to [c]: its verification is decided by the checks. *)
Definition proof_of (jwt : string) (c : DPoPProofClaims) (key : SigningKey) : Prop :=
  ∀ v m u n h ovr sys now, unix_secs (default sys ovr) = Some now → check_claims c m u n h = Ok tt →
    verify_proof_no_replay v jwt m u n h ovr sys = (check_times v c now ≫= λ _, Ok (c, public_jwk key)).

Lemma compact_proof hs ps c key :
  json_from_slice (as_bytes hs) = Ok (proof_header key) → claims_from_slice (as_bytes ps) = Ok c →
  let input := base64url_encode (as_bytes hs) +:+ "." +:+ base64url_encode (as_bytes ps) in
  ∃ sg, sign_p256_raw key (as_bytes input) = Ok sg ∧ proof_of (input +:+ "." +:+ base64url_encode sg) c key.
Proof.
  intros Dh Dp input. destruct (sign_verify_raw key (as_bytes input)) as (sg & Es & _ & Hsg & Hv).
  exists sg. split; [done|]. subst input. intros v m u n h ovr sys now Hn Hc.
  unfold verify_proof_no_replay. rewrite compact_parts.
  rewrite !base64url_roundtrip by (apply as_bytes_valid || done). cbn [map_err mbind result_bind].
  step_ok Dh. rewrite (proj2 (check_header_Ok _ _ _ _) (proof_header_valid _ _ _ Hv)).
  cbn [map_err mbind result_bind]. step_ok Dp. rewrite Hc. cbn [map_err mbind result_bind].
  rewrite Hn. reflexivity.
Qed.

Lemma wp_create key m u n a iat jo jb nrm (Q : string → Prop) :
  normalize_htu u = Ok nrm → u64_valid iat →
  (∀ jwt, proof_of jwt (mkClaims (proof_jti jo jb) (to_uppercase (trim m)) nrm iat None (trimmed_claim n) (trimmed_claim a)) key → Q jwt) →
  wp (unwrap (create_proof_internal key m u n a iat jo jb)) Q.
Proof.
  intros Hu Hi HQ. destruct (proof_payload_wf (proof_jti jo jb) (to_uppercase (trim m)) nrm iat n a Hi) as [W F].
  destruct (json_roundtrip (proof_header key) eq_refl eq_refl) as (hs & Eh & Dh).
  destruct (json_roundtrip _ W F) as (ps & Ep & Dp).
  pose proof (claims_decode _ _ _ Dp (proof_payload_claims (proof_jti jo jb) (to_uppercase (trim m)) nrm iat n a Hi)) as Dc.
  destruct (compact_proof hs ps _ key Dh Dc) as (sg & Es & Hp).
  eapply wp_unwrap; [|by apply HQ]. unfold create_proof_internal. step_ok Hu. fold (proof_jti jo jb).
  unfold sign_compact. step_ok Eh. step_ok Ep. step_ok Es. reflexivity.
Qed.

(** The URLs of the tests, as the url crate takes them apart. *)
Definition url_at (s path : string) : Prop :=
  ∃ u, url_parse s = Ok u ∧ url_scheme u = "https" ∧ url_host_str u = Some "pds.example.com" ∧ url_port u = None ∧
    url_path u = path.
Definition token_uri : string := "https://pds.example.com/oauth/token?grant_type=authorization_code#frag".
Definition xrpc_uri : string := "https://pds.example.com/xrpc/test".
Context (token_at : url_at token_htu "/oauth/token") (token_uri_at : url_at token_uri "/oauth/token")
  (xrpc_at : url_at xrpc_uri "/xrpc/test").

Lemma token_normalised : normalize_htu token_htu = Ok token_htu.
Proof.
  destruct token_at as (u & Eu & Es & Eh & Ep & Epath). unfold normalize_htu.
  change (trim token_htu) with token_htu. rewrite Eu. cbn [str_is_empty token_htu String.eqb map_err mbind result_bind].
  by rewrite Es, Eh, Ep, Epath.
Qed.
Lemma token_uri_normalised : normalize_htu token_uri = Ok token_htu.
Proof.
  destruct token_uri_at as (u & Eu & Es & Eh & Ep & Epath). unfold normalize_htu.
  change (trim token_uri) with token_uri. rewrite Eu. cbn [str_is_empty token_uri String.eqb map_err mbind result_bind].
  by rewrite Es, Eh, Ep, Epath.
Qed.
Lemma xrpc_normalised : normalize_htu xrpc_uri = Ok xrpc_uri.
Proof.
  destruct xrpc_at as (u & Eu & Es & Eh & Ep & Epath). unfold normalize_htu.
  change (trim xrpc_uri) with xrpc_uri. rewrite Eu. cbn [str_is_empty xrpc_uri String.eqb map_err mbind result_bind].
  by rewrite Es, Eh, Ep, Epath.
Qed.

(** *** The three outcomes of a verification in the tests *)
Lemma first_accepted v jwt c key m u n h ovr sys ta now nowa :
  proof_of jwt c key → unix_secs (default sys ovr) = Some now → unix_secs ta = Some nowa →
  check_claims c m u n h = Ok tt → check_times v c now = Ok tt →
  ∃ cache, verify_proof hash v new_cache jwt m u n h ovr sys ta = (Some cache, Ok (c, public_jwk key)) ∧
    recorded hash cache (composite_key (key_thumbprint key) (jti c)) =
    Some (u64_saturating_add (u64_saturating_add nowa (as_secs (max_proof_age v))) (as_secs (max_clock_skew v))).
Proof.
  intros Hp Hn Ha Hc Ht. unfold verify_proof, new_cache. rewrite (Hp _ _ _ _ _ _ _ _ Hn Hc), Ht.
  cbn [mbind result_bind]. rewrite Ha. fold (key_thumbprint key).
  set (e := u64_saturating_add _ (as_secs (max_clock_skew v))).
  destruct (ReplayTests.record_small hash (λ _, True) replay_new (key_thumbprint key) (jti c) e nowa)
    as (cache & E & _ & _ & _ & Hr).
  - apply replay_new_wf.
  - by rewrite ReplayTests.new_len.
  - by rewrite ReplayTests.new_recorded.
  - by rewrite ReplayTests.new_len.
  - exists cache. rewrite E. split; [done|]. rewrite Hr. by rewrite decide_True.
Qed.

Lemma second_rejected v cache jwt c key m u n h ovr sys ta now nowa e :
  proof_of jwt c key → unix_secs (default sys ovr) = Some now → unix_secs ta = Some nowa →
  check_claims c m u n h = Ok tt → check_times v c now = Ok tt →
  recorded hash cache (composite_key (key_thumbprint key) (jti c)) = Some e → nowa < e →
  verify_proof hash v (Some cache) jwt m u n h ovr sys ta = (Some cache, Err (DPoPError_ReplayDetected (jti c))).
Proof.
  intros Hp Hn Ha Hc Ht Hr He. unfold verify_proof. rewrite (Hp _ _ _ _ _ _ _ _ Hn Hc), Ht.
  cbn [mbind result_bind]. rewrite Ha. fold (key_thumbprint key).
  rewrite ReplayTests.record_replay; [done|]. rewrite Hr. by apply live_true.
Qed.

Lemma untimely_rejected v cache jwt c key m u n h ovr sys ta now :
  proof_of jwt c key → unix_secs (default sys ovr) = Some now → check_claims c m u n h = Ok tt →
  is_err (check_times v c now) = true →
  ∃ e, verify_proof hash v cache jwt m u n h ovr sys ta = (cache, Err e).
Proof.
  intros Hp Hn Hc Ht. unfold verify_proof. rewrite (Hp _ _ _ _ _ _ _ _ Hn Hc).
  destruct (check_times v c now) as [[]|e]; [done|]. by exists e.
Qed.

(** *** The tests *)
Context (key key2 : SigningKey) (raw : nat → list Z) (t : nat → Z).
Context (raw_16 : ∀ k, length (raw k) = 16%nat).
Context `{!TestClock t}.

Lemma ath_trimmed token :
  trimmed_claim (Some (compute_access_token_hash token)) = Some (compute_access_token_hash token).
Proof.
  unfold compute_access_token_hash, trimmed_claim. cbn [mbind option_bind]. rewrite base64url_encode_trim.
  unfold str_is_empty. destruct (String.eqb_spec (base64url_encode (sha256_digest (as_bytes token))) "") as [E|_]; [|done].
  pose proof (b64_length (sha256_digest (as_bytes token))) as Hl. unfold base64url_encode in E.
  rewrite E in Hl. unfold zlen, sha256_digest in Hl. by rewrite sha256_len in Hl.
Qed.

Lemma drawn_jti k : trim (proof_jti None (raw k)) ≠ "" ∧ str_len (proof_jti None (raw k)) ≤ 256.
Proof.
  unfold proof_jti. rewrite base64url_encode_trim. unfold base64url_encode. pose proof (b64_length (raw k)) as Hl.
  unfold zlen in Hl. rewrite raw_16 in Hl. rewrite Hl. split; [|vm_compute; discriminate].
  intros E. by rewrite E in Hl.
Qed.

Lemma claims_checked j m m' nrm iat e n a u :
  trim j ≠ "" → str_len j ≤ 256 → is_ascii_str m = true → to_ascii_lowercase m' = to_ascii_lowercase m →
  normalize_htu u = Ok nrm → normalize_htu nrm = Ok nrm →
  check_claims (mkClaims j (to_uppercase m) nrm iat e n a) m' u n a = Ok tt.
Proof.
  intros Hj Hl Hm Em Hu Hn. apply check_claims_Ok. split_and!; [done|done| |by exists nrm|by intros ?|by intros ?].
  cbn [htm]. by rewrite to_uppercase_ascii, lower_upper.
Qed.

Lemma now_seconds n sys : 0 ≤ n → unix_secs (default sys (Some (at_secs n))) = Some n.
Proof.
  intros Hn. change (default sys (Some (at_secs n))) with (n * 1000000000). unfold unix_secs. assert ((n * 1000000000 <? 0) = false) as -> by lia.
  by rewrite Z.div_mul.
Qed.

(** The proof the third boundary is about, made by hand. *)
Definition exp_payload : json :=
  JObject [("exp", JInt 3000000); ("htm", JString "POST"); ("htu", JString token_htu); ("iat", JInt 2999900);
           ("jti", JString "jti-exp")].
Definition exp_claims : DPoPProofClaims := mkClaims "jti-exp" "POST" token_htu 2999900 (Some 3000000) None None.
Lemma exp_claims_checked : check_claims exp_claims "POST" token_htu None None = Ok tt.
Proof. apply check_claims_Ok. split_and!; [done..| |done|done]. exists token_htu. split; exact token_normalised. Qed.

Lemma times_checked v c now :
  config_typed v → u64_valid (iat c) → exp c = None → u64_valid now →
  iat c ≤ now + as_secs (max_clock_skew v) → now ≤ iat c + as_secs (max_proof_age v) → check_times v c now = Ok tt.
Proof.
  intros Hv Hi He Hn Hf Ho. apply check_times_Ok; [|done..|].
  - split; [done|by rewrite He].
  - split; [done|]. split; [done|by rewrite He].
Qed.

Ltac durations :=
  repeat match goal with |- context [as_secs ?d] => let n := eval vm_compute in (as_secs d) in change (as_secs d) with n end.
Ltac timely :=
  first [vm_compute; reflexivity
        |pose proof start_bounds; apply times_checked;
         [split; vm_compute; discriminate|unfold u64_valid, u64_max; cbn [iat]; lia|reflexivity
         |unfold u64_valid, u64_max; lia|cbn [iat]; durations; lia|cbn [iat]; durations; lia]
        |pose proof start_bounds; unfold check_times; cbn [iat]; durations; unfold u64_saturating_add, u64_max;
         match goal with |- context [?x >? ?y] => assert ((x >? y) = true) as -> by lia end; reflexivity].
Ltac claims_check :=
  first [exact exp_claims_checked|apply claims_checked];
  first [done|apply drawn_jti|exact token_normalised|exact token_uri_normalised|exact xrpc_normalised].
(** [create m u]: a proof is made; [accept], [replay] and [refuse] verify it for the first time, again, and outside
    its window. *)
Ltac create norm := hstep; eapply wp_create; [exact norm|pose proof start_bounds; unfold u64_valid, u64_max; lia|]; intros ? ?.
Ltac accept :=
  match goal with
  | Hp : proof_of ?jwt ?c ?k |- context [verify_proof hash ?v new_cache ?jwt ?m ?u ?n ?h (Some (at_secs ?s)) ?sys (t ?j)] =>
      let s1 := fresh "s" in let E1 := fresh "Es" in let Hr := fresh "Hr" in let cache := fresh "cache" in
      destruct (reading j) as (s1 & E1 & _ & _);
      destruct (first_accepted v jwt c k m u n h (Some (at_secs s)) sys (t j) s s1 Hp) as (cache & -> & Hr);
      [apply now_seconds; pose proof start_bounds; lia|exact E1|claims_check|timely|]
  | Hp : proof_of ?jwt ?c ?k |- context [verify_proof hash ?v new_cache ?jwt ?m ?u ?n ?h None (t ?i) (t ?j)] =>
      let s1 := fresh "s" in let E1 := fresh "Es" in let Hr := fresh "Hr" in let cache := fresh "cache" in
      let s0 := fresh "s" in let E0 := fresh "Es" in
      destruct (reading i) as (s0 & E0 & _ & ?); destruct (reading j) as (s1 & E1 & _ & ?);
      destruct (first_accepted v jwt c k m u n h None (t i) (t j) s0 s1 Hp) as (cache & -> & Hr);
      [exact E0|exact E1|claims_check|timely|]
  end.
Ltac replay :=
  match goal with
  | Hp : proof_of ?jwt ?c ?k, Hr : recorded hash ?cache _ = Some ?e
    |- context [verify_proof hash ?v (Some ?cache) ?jwt ?m ?u ?n ?h None (t ?i) (t ?j)] =>
      let s1 := fresh "s" in let E1 := fresh "Es" in let s0 := fresh "s" in let E0 := fresh "Es" in
      destruct (reading i) as (s0 & E0 & _ & ?); destruct (reading j) as (s1 & E1 & _ & ?);
      rewrite (second_rejected v cache jwt c k m u n h None (t i) (t j) s0 s1 e Hp E0 E1);
      [|claims_check|timely|exact Hr
      |pose proof start_bounds; durations; unfold u64_saturating_add, u64_max; lia]
  end.
Ltac refuse :=
  match goal with
  | Hp : proof_of ?jwt ?c ?k |- context [verify_proof hash ?v ?cache ?jwt ?m ?u ?n ?h (Some (at_secs ?s)) ?sys ?ta] =>
      let e := fresh "e" in
      destruct (untimely_rejected v cache jwt c k m u n h (Some (at_secs s)) sys ta s Hp) as (e & ->);
      [apply now_seconds; pose proof start_bounds; lia|claims_check|timely|]
  end.
Ltac check := (hstep; apply wp_assert; [reflexivity|]) || (apply wp_assert; [reflexivity|exact I]).

Lemma max_proof_age_test : passes (killer_verifier_with_max_proof_age_is_applied hash key t).
Proof.
  unfold passes, killer_verifier_with_max_proof_age_is_applied. cbv zeta. create token_normalised.
  accept. check. refuse. check.
Qed.

Lemma toggles_test : passes (killer_verifier_with_replay_cache_and_prevention_toggles hash key key2 raw t).
Proof.
  unfold passes, killer_verifier_with_replay_cache_and_prevention_toggles, create_proof. cbv zeta. check.
  destruct (reading 0) as (s0 & E0 & Es0 & _). destruct (reading 5) as (s5 & E5 & Es5 & Hs5).
  rewrite E0, E5. cbn [ok_or mbind result_bind].
  create token_normalised. check.
  change (with_replay_prevention (with_replay_prevention new_cache false) true) with new_cache.
  accept. check. replay. check. create token_normalised. change (with_replay_cache new_cache replay_new) with new_cache.
  accept. check. replay. check.
Qed.

Lemma max_clock_skew_test : passes (killer_verifier_with_max_clock_skew_is_applied hash key t).
Proof.
  unfold passes, killer_verifier_with_max_clock_skew_is_applied. destruct (reading 0) as (s0 & E0 & Es0 & _).
  hstep. eapply wp_unwrap_some; [exact E0|]. cbv zeta. create token_normalised. refuse. check. accept. check.
Qed.

Lemma replay_detection_test : passes (test_dpop_verifier_replay_detection hash key raw t).
Proof.
  unfold passes, test_dpop_verifier_replay_detection, create_proof. cbv zeta. fold xrpc_uri.
  destruct (reading 0) as (s0 & E0 & Es0 & _). rewrite E0. cbn [ok_or mbind result_bind].
  create xrpc_normalised. accept. hstep. eapply wp_unwrap; [reflexivity|]. cbv beta iota. hstep.
  apply wp_assert_eq; [done|]. replay. hstep. eapply wp_unwrap_err; [reflexivity|].
  apply wp_assert; [apply String.eqb_refl|exact I].
Qed.

Lemma proof_roundtrip_test : passes (test_dpop_proof_generation_and_verification_roundtrip hash key raw t).
Proof.
  unfold passes, test_dpop_proof_generation_and_verification_roundtrip, create_proof. cbv zeta. fold token_uri token_htu.
  destruct (reading 0) as (s0 & E0 & Es0 & _). rewrite E0. cbn [ok_or mbind result_bind].
  create token_uri_normalised. rewrite !ath_trimmed in *.
  change (trimmed_claim (Some "test-nonce-123")) with (Some "test-nonce-123") in *. accept.
  hstep. eapply wp_unwrap; [reflexivity|]. cbv beta iota. cbn [htm htu Dpop.nonce ath].
  rewrite to_uppercase_ascii by done. repeat (hstep; apply wp_assert_eq; [done|]). by apply wp_assert_eq.
Qed.

Lemma temporal_test : passes (killer_temporal_boundaries_are_exact hash key t).
Proof.
  unfold passes, killer_temporal_boundaries_are_exact. cbv zeta.
  create token_normalised. accept. check. create token_normalised. refuse. check.
  create token_normalised. accept. check. refuse. check.
  destruct (json_roundtrip (proof_header key) eq_refl eq_refl) as (hs & Eh & Dh).
  destruct (json_roundtrip exp_payload eq_refl eq_refl) as (ps & Ep & Dp).
  destruct (pem_export_import key) as (pem & Epem & Ikey).
  destruct (compact_proof hs ps exp_claims key Dh) as (sg & Esg & Hsg); [by eapply claims_decode; [exact Dp|]|].
  hstep. eapply wp_unwrap; [exact Eh|]. hstep. eapply wp_unwrap; [exact Ep|]. hstep. eapply wp_unwrap; [exact Epem|].
  hstep. eapply wp_unwrap; [exact Ikey|]. hstep. eapply wp_unwrap; [exact Esg|].
  accept. check. refuse. check.
Qed.

(** The header with a private coordinate is refused before its signature is looked at. *)
Context (four_As : base64url_encode [0; 0; 0] = "AAAA").
Lemma private_key_test : passes (test_private_key_in_jwk_rejected hash t).
Proof.
  unfold passes, test_private_key_in_jwk_rejected. cbv zeta.
  hstep. match goal with |- wp (unwrap (json_to_string ?h)) _ => destruct (json_roundtrip h eq_refl eq_refl) as (hs & Eh & Dh) end.
  eapply wp_unwrap; [exact Eh|].
  hstep. match goal with |- wp (unwrap (json_to_string ?h)) _ => destruct (json_roundtrip h eq_refl eq_refl) as (ps & Ep & Dp) end.
  eapply wp_unwrap; [exact Ep|]. rewrite <-four_As. unfold verify_proof, verify_proof_no_replay.
  rewrite compact_parts. rewrite !base64url_roundtrip by (apply as_bytes_valid || (repeat constructor; done)).
  cbn [map_err mbind result_bind]. rewrite Dh. by apply wp_assert.
Qed.

Theorem proof_tests_pass :
  passes (test_dpop_proof_generation_and_verification_roundtrip hash key raw t) ∧
  passes (test_private_key_in_jwk_rejected hash t) ∧
  passes (test_dpop_verifier_replay_detection hash key raw t) ∧
  passes (killer_verifier_with_max_clock_skew_is_applied hash key t) ∧
  passes (killer_verifier_with_max_proof_age_is_applied hash key t) ∧
  passes (killer_verifier_with_replay_cache_and_prevention_toggles hash key key2 raw t) ∧
  passes (killer_temporal_boundaries_are_exact hash key t).
Proof.
  exact (conj proof_roundtrip_test (conj private_key_test (conj replay_detection_test (conj max_clock_skew_test
    (conj max_proof_age_test (conj toggles_test temporal_test)))))).
Qed.
End proof_run.
