(* ===== verification/TowerTests.v ===== *)
(** * TowerTests: the repository's unit tests of the authentication middleware

    The [#[tokio::test]] functions of integrations/tower.rs that authenticate requests, over the definitions of
    Tower and of the components the middleware calls.  A test sends one request at a time to a layer around a
    service that answers 200; the keys, the random bytes, the hash of the replay cache and the readings of the
    clock ([t k]) are arguments.  [http]'s parsing of the request URIs is a parameter; response bodies are not
    modelled. *)
From S2P Require Import Prelude Errors Strs Externals Instances Crypto Htu Replay Nonces Keys Dpop Validator Issuer Tower.
From S2P Require Import Harness StateTests TokenTests ProofTests.
Open Scope Z_scope.

Section tower_tests.
Context `{Base64} `{Sha2} `{P256} `{SerdeJson} `{DpopSerde} `{Subtle} `{UrlCrate} `{UnicodeUpper} `{HttpCrate}
  `{AccessTokenSerde} `{!AccessTokenWrite}.
Context (hash : string → Z) (auth_key key attacker_key : SigningKey) (raw : nat → list Z) (t : nat → Z).
(** [Request::builder().uri(s)]. *)
Context (uri_of : string → Uri).

(** The readings and random bytes of one call, from the [k]-th on. *)
Definition inputs (k : nat) : Inputs :=
  mkInputs (t k) (t (k + 1)%nat) (t (k + 2)%nat) (t (k + 3)%nat) (raw k) (t (k + 4)%nat) (t (k + 5)%nat) (raw (k + 1)%nat).

(** A layer around a service that answers 200, with nothing else running. *)
Definition ok_service (_ : Request) (_ : AuthenticatedUser) : result Empty_set HttpResponse := Ok (mkResp 200 []).
Definition service_call `{AccessTokenValidator V} (svc : OAuthAuthService (V := V)) (st : TowerState) (req : Request)
    (inp : Inputs) : harness (TowerState * option AuthenticatedUser * HttpResponse) :=
  let '(st, who, res) := call hash ok_service id id svc st req inp in
  resp ← unwrap res;
  mret (st, who, resp).

(** [OAuthAuthLayer::from_jwt_validator] and [from_token_store], with the verifier's fresh replay cache. *)
Definition layer_of {V} (validator : V) : OAuthAuthService (V := V) := mkService verifier_new validator true None.
Definition new_state : TowerState := mkTower (Some replay_new) None.

(** [Request::builder().method(GET).uri(uri).header(AUTHORIZATION, DPoP token).header(DPoP, proof)]. *)
Definition get (uri token proof : string) : Request :=
  mkRequest (Some (Some ("DPoP " +:+ token))) (Some (Some proof)) "GET" (uri_of uri).

Definition header_of (name : string) (r : HttpResponse) : option string := assoc name (rheaders r).
Definition header_contains (name part : string) (r : HttpResponse) : bool :=
  match header_of name r with Some v => str_contains v part | None => false end.

Definition get_profile : string := "https://pds.example.com/xrpc/app.bsky.actor.getProfile".
Definition xrpc_test : string := "https://pds.example.com/xrpc/test".
Definition token_hash (token : string) : option string := Some (compute_access_token_hash token).

(** ** Tokens of the issuer *)
Definition test_tower_jwt_dpop_auth_success : harness unit :=
  let client_jkt := key_thumbprint key in
  now ← now_secs t 0;
  exp ← u64_add now 3600;
  let claims := claims_with_scope (with_audience (access_claims_new auth_issuer "did:plc:alice123" exp client_jkt
                  (t 1) (raw 0)) pds) "atproto transition:generic" in
  access_token ← unwrap (sign_jwt claims auth_key None);
  proof ← unwrap (create_proof key "GET" get_profile None (token_hash access_token) (t 2) (raw 1));
  let service := layer_of (pinned (trusting auth_key)) in
  '(_, user, resp) ← service_call service new_state (get get_profile access_token proof) (inputs 3);
  user ← unwrap_some user;
  _ ← assert_eq (user_did user) "did:plc:alice123";
  _ ← assert_eq (user_dpop_thumbprint user) client_jkt;
  _ ← assert_eq (user_scope user) (Some "atproto transition:generic");
  assert_eq (rstatus resp) 200.

Definition test_tower_rejects_invented_token_credentials : harness unit :=
  let invented_token := "fabricated_random_access_token_12345" in
  proof ← unwrap (create_proof attacker_key "GET" get_profile None (token_hash invented_token) (t 0) (raw 0));
  let service := layer_of (pinned (trusting auth_key)) in
  '(_, user, resp) ← service_call service new_state (get get_profile invented_token proof) (inputs 1);
  _ ← assert_eq (rstatus resp) 401;
  assert (header_contains "www-authenticate" "invalid_token" resp).

Definition test_tower_rejects_stolen_token_with_attacker_dpop_proof_cnf_mismatch : harness unit :=
  let alice_jkt := key_thumbprint key in
  now ← now_secs t 0;
  exp ← u64_add now 3600;
  let claims := with_audience (access_claims_new auth_issuer "did:plc:alice123" exp alice_jkt (t 1) (raw 0)) pds in
  alice_token ← unwrap (sign_jwt claims auth_key None);
  attacker_proof ← unwrap (create_proof attacker_key "GET" get_profile None (token_hash alice_token) (t 2) (raw 1));
  let service := layer_of (pinned (trusting auth_key)) in
  '(_, user, resp) ← service_call service new_state (get get_profile alice_token attacker_proof) (inputs 3);
  _ ← assert_eq (rstatus resp) 401;
  assert (header_contains "www-authenticate" "invalid_token" resp).

Definition test_tower_stolen_token_positive_control_with_own_proof : harness unit :=
  let alice_jkt := key_thumbprint key in
  now ← now_secs t 0;
  exp ← u64_add now 3600;
  let claims := with_audience (access_claims_new auth_issuer "did:plc:alice123" exp alice_jkt (t 1) (raw 0)) pds in
  alice_token ← unwrap (sign_jwt claims auth_key None);
  alice_proof ← unwrap (create_proof key "GET" get_profile None (token_hash alice_token) (t 2) (raw 1));
  let service := layer_of (pinned (trusting auth_key)) in
  '(_, user, resp) ← service_call service new_state (get get_profile alice_token alice_proof) (inputs 3);
  _ ← assert (is_some user);
  assert_eq (rstatus resp) 200.

(** ** Registered tokens *)
Definition registered (token did : string) : InMemoryTokenValidator :=
  register_token registry_new (as_bytes token) did (key_thumbprint key) (Some "atproto") None.

Definition test_tower_rejects_replayed_dpop_proof : harness unit :=
  let access_token := "valid_replay_test_token_xyz" in
  proof ← unwrap (create_proof key "GET" xrpc_test None (token_hash access_token) (t 0) (raw 0));
  let service := layer_of (registered access_token "did:plc:alice123") in
  '(st, _, resp1) ← service_call service new_state (get xrpc_test access_token proof) (inputs 1);
  _ ← assert_eq (rstatus resp1) 200;
  '(_, _, resp2) ← service_call service st (get xrpc_test access_token proof) (inputs 7);
  _ ← assert_eq (rstatus resp2) 401;
  _ ← assert (header_contains "www-authenticate" "invalid_dpop_proof" resp2);
  assert (header_contains "www-authenticate" "replay detected" resp2).

Definition test_tower_in_memory_token_store_lifecycle : harness unit :=
  let access_token := "registered_opaque_token_987" in
  proof ← unwrap (create_proof key "GET" xrpc_test None (token_hash access_token) (t 0) (raw 0));
  let service := layer_of (registered access_token "did:plc:bob456") in
  '(_, user, resp) ← service_call service new_state (get xrpc_test access_token proof) (inputs 1);
  user ← unwrap_some user;
  _ ← assert_eq (user_did user) "did:plc:bob456";
  assert_eq (rstatus resp) 200.

Definition test_tower_missing_dpop_proof_returns_401 : harness unit :=
  let service := layer_of registry_new in
  let req := mkRequest (Some (Some "DPoP token_without_proof")) None "GET"
               (uri_of "https://pds.example.com/xrpc/app.bsky.feed.getTimeline") in
  '(_, _, resp) ← service_call service new_state req (inputs 0);
  _ ← assert_eq (rstatus resp) 401;
  assert (is_some (header_of "www-authenticate" resp)).

(** A GET of [xrpc_test] signed for, requested as [uri], with or without an override of the target URI. *)
Definition authenticated_get (access_token did uri : string) (override : option (Uri → string))
    : harness (option AuthenticatedUser * HttpResponse) :=
  proof ← unwrap (create_proof key "GET" xrpc_test None (token_hash access_token) (t 0) (raw 0));
  let service := mkService verifier_new (registered access_token did) true override in
  '(_, user, resp) ← service_call service new_state (get uri access_token proof) (inputs 1);
  mret (user, resp).

Definition test_tower_htu_override_for_proxied_origin_form_requests : harness unit :=
  let override uri := "https://pds.example.com" +:+ default "/" (uri_path_and_query uri) in
  '(_, resp) ← authenticated_get "proxied_request_token_abc" "did:plc:proxy" "/xrpc/test" (Some override);
  assert_eq (rstatus resp) 200.

Definition test_tower_default_htu_derives_absolute_form_from_uri_authority : harness unit :=
  '(_, resp) ← authenticated_get "origin_form_default_htu_token" "did:plc:originform" xrpc_test None;
  assert_eq (rstatus resp) 200.

Definition test_tower_default_htu_strips_default_https_port : harness unit :=
  '(_, resp) ← authenticated_get "default_port_htu_token" "did:plc:defaultport" "https://pds.example.com:443/xrpc/test" None;
  assert_eq (rstatus resp) 200.

Definition test_tower_origin_form_without_authority_fails_closed : harness unit :=
  '(_, resp) ← authenticated_get "no_authority_token" "did:plc:noauthority" "/xrpc/test" None;
  _ ← assert_eq (rstatus resp) 401;
  assert (header_contains "www-authenticate" "invalid_dpop_proof" resp).

(** The middleware reads neither the Host header nor any other the request carries besides its two. *)
Definition test_tower_origin_form_proxy_host_header_used_for_htu : harness unit :=
  '(_, resp) ← authenticated_get "host_header_only_token" "did:plc:hostheader" "/xrpc/test" None;
  assert_eq (rstatus resp) 401.

(** ** Exhaustion *)

(** [n] requests with fresh proofs for a token, from the [k]-th reading on. *)
Fixpoint flood (service : OAuthAuthService (V := JwtAccessTokenValidator)) (token : string) (n k : nat) (st : TowerState)
    : harness TowerState :=
  match n with
  | O => mret st
  | S n =>
      proof ← unwrap (create_proof key "GET" xrpc_test None (token_hash token) (t k) (raw k));
      '(st, _, resp) ← service_call service st (get xrpc_test token proof) (inputs (k + 1));
      _ ← assert_eq (rstatus resp) 401;
      flood service token n (k + 7) st
  end.

Definition test_h5_invalid_proofs_do_not_consume_replay_cache : harness unit :=
  let client_jkt := key_thumbprint key in
  now ← now_secs t 0;
  exp ← u64_add now 3600;
  let claims := mkAccessClaims auth_issuer "did:plc:alice123" "https://app.example.com/client-metadata.json"
                  (Some (JString pds)) exp None now ("jti_h5_" +:+ pretty now) (Some "atproto") (mkCnf client_jkt) in
  valid_token ← unwrap (sign_jwt claims auth_key None);
  let service := layer_of (pinned (trusting auth_key)) in
  let invented_token := "invented_token_not_registered" in
  st ← flood service invented_token 32 1 new_state;
  _ ← assert_eq (replay_len <$> ts_cache st) (Some 0);
  proof ← unwrap (create_proof key "GET" xrpc_test None (token_hash valid_token) (t 225) (raw 225));
  '(st, _, resp) ← service_call service st (get xrpc_test valid_token proof) (inputs 226);
  _ ← assert_eq (rstatus resp) 200;
  assert_eq (replay_len <$> ts_cache st) (Some 1).

(** [n] requests without credentials. *)
Fixpoint bare (service : OAuthAuthService (V := JwtAccessTokenValidator)) (req : Request) (n k : nat) (st : TowerState)
    : harness unit :=
  match n with
  | O => mret tt
  | S n =>
      '(st, _, resp) ← service_call service st req (inputs k);
      _ ← assert_eq (rstatus resp) 401;
      _ ← assert (is_none (header_of "dpop-nonce" resp));
      bare service req n (k + 6) st
  end.

(** [ns]: the nonce source made with a minute to live. *)
Definition test_h5_bare_unauthenticated_request_gets_no_nonce_allocation (ns : InMemoryServerNonceSource) : harness unit :=
  let service := layer_of jwt_validator_new in
  let req := mkRequest None None "GET" (uri_of xrpc_test) in
  bare service req 8 0 (mkTower (Some replay_new) (Some ns)).

(** ** Target URIs *)
Definition killer_default_htu_from_uri_strips_default_ports (https http : Scheme) : harness unit :=
  _ ← assert_eq (default_htu_from_uri https (uri_of "https://pds.example.com:443/xrpc/a?b=1"))
        (Some "https://pds.example.com/xrpc/a?b=1");
  _ ← assert_eq (default_htu_from_uri http (uri_of "http://127.0.0.1:80/xrpc")) (Some "http://127.0.0.1/xrpc");
  _ ← assert_eq (default_htu_from_uri http (uri_of "http://pds.example.com:443/x")) (Some "http://pds.example.com:443/x");
  _ ← assert_eq (default_htu_from_uri https (uri_of "https://pds.example.com:8443/x"))
        (Some "https://pds.example.com:8443/x");
  _ ← assert_eq (default_htu_from_uri https (uri_of "https://pds.example.com:8443/xrpc/b?c=d"))
        (Some "https://pds.example.com:8443/xrpc/b?c=d");
  _ ← assert_eq (default_htu_from_uri https (uri_of "/xrpc/origin-form")) None;
  assert_eq (default_htu_from_uri https (uri_of "https://pds.example.com")) (Some "https://pds.example.com/").

Definition killer_service_rejects_non_http_scheme_htu_derivation : harness unit :=
  let service := layer_of registry_new in
  '(_, _, resp) ← service_call service new_state (get "ws://pds.example.com/xrpc" "some_token" "not-a-real-proof") (inputs 0);
  _ ← assert_eq (rstatus resp) 401;
  assert (is_none (header_of "dpop-nonce" resp)).
End tower_tests.

(** ** What the tests learn from [http] *)

(** The request URIs with their scheme, their authority (text, host, port) and their path and query. *)
Definition uri_vectors : list (string * (option string * option (string * string * option Z) * option string)) :=
  [(get_profile, (Some "https", Some ("pds.example.com", "pds.example.com", None),
      Some "/xrpc/app.bsky.actor.getProfile"));
   (xrpc_test, (Some "https", Some ("pds.example.com", "pds.example.com", None), Some "/xrpc/test"));
   ("https://pds.example.com:443/xrpc/test",
      (Some "https", Some ("pds.example.com:443", "pds.example.com", Some 443), Some "/xrpc/test"));
   ("/xrpc/test", (None, None, Some "/xrpc/test"));
   ("https://pds.example.com:443/xrpc/a?b=1",
      (Some "https", Some ("pds.example.com:443", "pds.example.com", Some 443), Some "/xrpc/a?b=1"));
   ("http://127.0.0.1:80/xrpc", (Some "http", Some ("127.0.0.1:80", "127.0.0.1", Some 80), Some "/xrpc"));
   ("http://pds.example.com:443/x", (Some "http", Some ("pds.example.com:443", "pds.example.com", Some 443), Some "/x"));
   ("https://pds.example.com:8443/x",
      (Some "https", Some ("pds.example.com:8443", "pds.example.com", Some 8443), Some "/x"));
   ("https://pds.example.com:8443/xrpc/b?c=d",
      (Some "https", Some ("pds.example.com:8443", "pds.example.com", Some 8443), Some "/xrpc/b?c=d"));
   ("/xrpc/origin-form", (None, None, Some "/xrpc/origin-form"));
   ("https://pds.example.com", (Some "https", Some ("pds.example.com", "pds.example.com", None), Some "/"));
   ("ws://pds.example.com/xrpc", (Some "ws", Some ("pds.example.com", "pds.example.com", None), Some "/xrpc"))].

Definition uri_parts `{HttpCrate} (u : Uri)
    : option string * option (string * string * option Z) * option string :=
  (uri_scheme_str u, uri_authority u, uri_path_and_query u).

(** The three schemes, and the header values of visible ASCII. *)
Class HttpVectors `{HttpCrate} (uri_of : string → Uri) (http ws : Scheme) : Prop := {
  hv_parts s p : (s, p) ∈ uri_vectors → uri_parts (uri_of s) = p;
  hv_host s : uri_authority (uri_of s) = None → uri_host (uri_of s) = None;
  hv_https : scheme_from_str "https" = Some scheme_https ∧ scheme_is_https scheme_https = true ∧
    scheme_is_http scheme_https = false ∧ scheme_display scheme_https = "https";
  hv_http : scheme_from_str "http" = Some http ∧ scheme_is_https http = false ∧
    scheme_is_http http = true ∧ scheme_display http = "http";
  hv_ws : scheme_from_str "ws" = Some ws ∧ scheme_is_https ws = false ∧ scheme_is_http ws = false;
  hv_header v : str_forall (λ c, (32 <=? byte_of c) && (byte_of c <=? 126)) v = true → header_value_ok v = true
}.

(** The list as a crate: a URI is its text, a scheme its name. *)
Module HttpTable.
Definition parts_of (s : string) : option string * option (string * string * option Z) * option string :=
  match List.find (λ v, (v.1 =? s)%string) uri_vectors with Some (_, p) => p | None => (None, None, None) end.
#[export] Instance http : HttpCrate :=
  {| Uri := string; Scheme := string; scheme_https := "https"; scheme_is_https s := (s =? "https")%string;
     scheme_is_http s := (s =? "http")%string; scheme_display s := s; scheme_from_str := Some;
     uri_scheme_str u := (parts_of u).1.1; uri_path_and_query u := (parts_of u).2;
     uri_host u := '(_, host, _) ← (parts_of u).1.2; Some host; uri_port_u16 u := '(_, _, port) ← (parts_of u).1.2; port;
     uri_authority u := (parts_of u).1.2;
     header_value_ok v := str_forall (λ c, (32 <=? byte_of c) && (byte_of c <=? 126)) v |}.
#[export] Instance vectors : HttpVectors (λ s, s) "http" "ws".
Proof.
  split; [| |done..].
  - assert (Hall : Forall (λ v, uri_parts v.1 = v.2) uri_vectors).
    { unfold uri_vectors. repeat (apply Forall_cons_2; [reflexivity|]). apply Forall_nil_2. }
    intros s p Hin. by apply (proj1 (Forall_forall _ _) Hall) in Hin.
  - intros s. cbn [uri_authority uri_host http]. by intros ->.
Qed.
End HttpTable.

Section uris.
Context `{HttpVectors}.

Lemma vector s p :
  List.find (λ v, (v.1 =? s)%string) uri_vectors = Some (s, p) →
  uri_scheme_str (uri_of s) = p.1.1 ∧ uri_authority (uri_of s) = p.1.2 ∧ uri_path_and_query (uri_of s) = p.2.
Proof. intros [Hin%list_elem_of_In _]%find_some. apply hv_parts in Hin. by rewrite <-Hin. Qed.

(** The target URI of a URI with scheme and authority. *)
Lemma htu_of_vector s p scheme secure auth host port :
  List.find (λ v, (v.1 =? s)%string) uri_vectors = Some (s, p) → is_Some p.1.1 → p.1.2 = Some (auth, host, port) →
  scheme_is_https scheme = secure → scheme_is_http scheme = negb secure →
  scheme_display scheme = (if secure then "https" else "http") →
  default_htu_from_uri scheme (uri_of s) =
  Some ((if secure then "https" else "http") +:+ "://" +:+
        (if bool_decide (port = Some (if secure then 443 else 80)) then host else auth) +:+ default "/" p.2).
Proof.
  intros (Es & Ea & Ep)%vector [sc Esc] Hp H1' H2' Hd. unfold default_htu_from_uri. rewrite Ea, Es, Ep, Hp, Esc, Hd, H1', H2'.
  destruct secure; cbn [negb andb orb]; [by rewrite orb_false_r|done].
Qed.

Lemma origin_form s p scheme :
  List.find (λ v, (v.1 =? s)%string) uri_vectors = Some (s, p) → p.1.2 = None → default_htu_from_uri scheme (uri_of s) = None.
Proof.
  intros (Es & Ea & Ep)%vector Hp. unfold default_htu_from_uri. rewrite Ea, Hp, (hv_host s); [done|congruence].
Qed.

Lemma default_ports_test : passes (killer_default_htu_from_uri_strips_default_ports uri_of scheme_https http).
Proof.
  destruct hv_https as (_ & S1 & S2 & S3), hv_http as (_ & P1 & P2 & P3).
  unfold passes, killer_default_htu_from_uri_strips_default_ports.
  repeat (try hstep; apply wp_assert_eq;
    [match goal with |- default_htu_from_uri ?sc (uri_of ?s) = _ =>
       first [exact (origin_form s _ sc eq_refl eq_refl)
             |refine (eq_trans (htu_of_vector s _ sc _ _ _ _ eq_refl _ eq_refl S1 S2 S3) _); [by eexists|reflexivity]
             |refine (eq_trans (htu_of_vector s _ sc _ _ _ _ eq_refl _ eq_refl P1 P2 P3) _); [by eexists|reflexivity]] end|]).
  done.
Qed.

(** The target URIs of the requests. *)
Lemma https_request `{AccessTokenValidator V} (v : V) s p auth host port :
  List.find (λ v, (v.1 =? s)%string) uri_vectors = Some (s, p) → p.1.1 = Some "https" → p.1.2 = Some (auth, host, port) →
  request_htu (layer_of v) (uri_of s) =
  Some ("https" +:+ "://" +:+ (if bool_decide (port = Some 443) then host else auth) +:+ default "/" p.2).
Proof.
  intros Hf Hs Hp. destruct hv_https as (S0 & S1 & S2 & S3), (vector s p Hf) as (Es & _ & _).
  unfold request_htu, layer_of. cbn [htu_override]. rewrite Es, Hs. cbn [mbind option_bind]. rewrite S0. cbn [default from_option id].
  rewrite S1. cbn [negb andb]. rewrite (htu_of_vector s p scheme_https true auth host port); [done|done|by eexists|done..].
Qed.
Lemma origin_form_request `{AccessTokenValidator V} (v : V) s p :
  List.find (λ v, (v.1 =? s)%string) uri_vectors = Some (s, p) → p.1.1 = None → p.1.2 = None →
  request_htu (layer_of v) (uri_of s) = None.
Proof.
  intros Hf Hs Hp. destruct hv_https as (S0 & S1 & S2 & S3), (vector s p Hf) as (Es & _ & _).
  unfold request_htu, layer_of. cbn [htu_override]. rewrite Es, Hs. cbn [mbind option_bind default from_option].
  rewrite S1. cbn [negb andb]. by apply (origin_form s p).
Qed.
Lemma websocket_request `{AccessTokenValidator V} (v : V) s p :
  List.find (λ v, (v.1 =? s)%string) uri_vectors = Some (s, p) → p.1.1 = Some "ws" →
  request_htu (layer_of v) (uri_of s) = None.
Proof.
  intros Hf Hs. destruct hv_ws as (S0 & S1 & S2), (vector s p Hf) as (Es & _ & _).
  unfold request_htu, layer_of. cbn [htu_override]. rewrite Es, Hs. cbn [mbind option_bind]. rewrite S0. cbn [default from_option id].
  by rewrite S1, S2.
Qed.
End uris.

(** ** Running them *)
Section run.
Context `{Base64Laws} `{!Base64Alphabet} `{!Base64Length} `{Sha2Laws} `{P256Laws} `{SerdeJsonLaws}
  `{DpopSerde} `{!DpopSerdeLaws} `{!DpopSerdeTyped} `{SubtleLaws} `{UrlCrate} `{UnicodeUpperLaws}
  `{AccessTokenSerde} `{!AccessTokenSerdeTyped} `{!AccessTokenWrite} `{!AccessTokenWriteLaws} `{HttpVectors}.
Context (hash : string → Z) (auth_key key attacker_key : SigningKey) (raw : nat → list Z) (t : nat → Z).
Context `{!TestClock t} (raw_16 : ∀ k, length (raw k) = 16%nat).

(** *** Proofs as the middleware sees them *)

(** Whenever the proof is presented in the test, it verifies for the token and the URI it was made for; [n] is the
    nonce it carries. *)
Definition presented_with (n : option string) (k : SigningKey) (u token jwt jti : string) : Prop :=
  ∀ i j, ∃ c s, verify_proof_deferred verifier_new jwt "GET" u None (token_hash token) None (t i) (t j) =
      Ok (c, public_jwk k, mkAdmission (key_thumbprint k) jti (s + 360) s) ∧
    nonce c = n ∧ t 0%nat / 1000000000 ≤ s ≤ t 0%nat / 1000000000 + 60.
Definition presented : SigningKey → string → string → string → string → Prop := presented_with None.

Lemma wp_proof_with k u token n i m (Q : string → Prop) :
  normalize_htu u = Ok u → (∀ jwt, presented_with (trimmed_claim n) k u token jwt (base64url_encode (raw m)) → Q jwt) →
  wp (unwrap (create_proof k "GET" u n (token_hash token) (t i) (raw m))) Q.
Proof.
  intros Hu HQ. pose proof start_bounds as Hb. destruct (reading i) as (s0 & E0 & _ & Hs0).
  unfold create_proof, token_hash. rewrite E0. cbn [ok_or mbind result_bind].
  eapply wp_create; [exact Hu|unfold u64_valid, u64_max; lia|]. intros jwt Hp. apply HQ. intros a b.
  destruct (reading a) as (sa & Ea & _ & Ha), (reading b) as (sb & Eb & _ & Hsb). eexists (mkClaims (proof_jti None (raw m)) (to_uppercase (trim "GET")) u s0 None (trimmed_claim n)
    (trimmed_claim (Some (compute_access_token_hash token)))), sb.
  split; [|split; [reflexivity|done]]. unfold verify_proof_deferred. unfold token_hash.
  rewrite (Hp verifier_new "GET" u None (Some (compute_access_token_hash token)) None (t a) sa Ea).
  - rewrite times_checked; [|split; vm_compute; discriminate|unfold u64_valid, u64_max; cbn [iat]; lia|reflexivity
      |unfold u64_valid, u64_max; lia|cbn [iat]; change (as_secs (max_clock_skew verifier_new)) with 60; lia
      |cbn [iat]; change (as_secs (max_proof_age verifier_new)) with 300; lia].
    cbn [mbind result_bind]. rewrite Eb. cbn [ok_or mbind result_bind].
    change (as_secs (max_clock_skew verifier_new)) with 60. change (as_secs (max_proof_age verifier_new)) with 300.
    assert (u64_saturating_add (u64_saturating_add sb 300) 60 = sb + 360) as -> by (unfold u64_saturating_add, u64_max; lia).
    reflexivity.
  - rewrite ath_trimmed. pose proof (drawn_jti raw raw_16 m) as [Hj Hl]. apply check_claims_Ok.
    split_and!; [done|done| |by exists u|done|by intros ?].
    cbn [htm]. change (trim "GET") with "GET". by rewrite to_uppercase_ascii.
Qed.
Lemma wp_proof k u token i n (Q : string → Prop) :
  normalize_htu u = Ok u → (∀ jwt, presented k u token jwt (base64url_encode (raw n)) → Q jwt) →
  wp (unwrap (create_proof k "GET" u None (token_hash token) (t i) (raw n))) Q.
Proof. exact (wp_proof_with k u token None i n Q). Qed.

(** *** The outcomes of a call *)
Section calls.
Context {V : Type} {AV : AccessTokenValidator V} (svc : OAuthAuthService (V := V)).
Context (default_verifier : verifier svc = verifier_new) (wants_ath : require_ath svc = true).

Lemma gate_passed st uri u token jwt i c jwk a :
  request_htu svc (uri_of uri) = Some u → trim token = token → ts_nonces st = None →
  verify_proof_deferred verifier_new jwt "GET" u None (token_hash token) None (t i) (t (i + 1)%nat) = Ok (c, jwk, a) →
  gate svc st (get uri_of uri token jwt) (inputs raw t i) = (st, Passed token c jwk a).
Proof.
  intros Hu Ht Hn Ev. unfold gate, get. cbn [authorization dpop_header method req_uri].
  assert (split_once_char " " ("DPoP " +:+ token) = Some ("DPoP", token)) as -> by reflexivity.
  change (eq_ignore_ascii_case "DPoP" "DPoP") with true. cbn [negb].
  rewrite Ht, Hu, wants_ath, default_verifier. cbn [inputs in_sys_now in_t_admit in_t_nonce]. unfold token_hash in Ev. rewrite Ev.
  unfold check_server_nonce. by rewrite Hn.
Qed.

Lemma served st uri u token jwt k jti user i :
  request_htu svc (uri_of uri) = Some u → presented k u token jwt jti → trim token = token →
  st = new_state → validate_access_token (token_validator svc) token (key_thumbprint k) (t (i + 4)%nat) = Ok user →
  ∃ cache e, service_call hash svc st (get uri_of uri token jwt) (inputs raw t i) =
      Done [] (mkTower (Some cache) None, Some user, mkResp 200 []) ∧
    recorded hash cache (composite_key (key_thumbprint k) jti) = Some e ∧
    t 0%nat / 1000000000 + 360 ≤ e ∧ replay_len cache = 1.
Proof.
  intros Hu Hp Ht -> Hv. destruct (Hp i (i + 1)%nat) as (c & s & Ev & _ & Hs).
  destruct (ReplayTests.record_small hash (λ _, True) replay_new (key_thumbprint k) jti (s + 360) s)
    as (cache & E & _ & Hlen & _ & Hr).
  { apply replay_new_wf. }
  { by rewrite ReplayTests.new_len. }
  { by rewrite ReplayTests.new_recorded. }
  { by rewrite ReplayTests.new_len. }
  exists cache, (s + 360). rewrite Hr, decide_True by done. rewrite Hlen, ReplayTests.new_len, ReplayTests.new_recorded.
  split_and!; [|done|lia|done].
  unfold service_call, call. rewrite (gate_passed new_state uri u token jwt i _ _ _ Hu Ht eq_refl Ev).
  fold (key_thumbprint k). unfold id at 1. cbn [inputs in_t_token]. rewrite Hv.
  cbn [new_state ts_cache commit_replay_admission adm_jkt adm_jti adm_expires_at adm_now]. rewrite E. reflexivity.
Qed.

Lemma served_twice st uri u token jwt k jti user i cache e :
  request_htu svc (uri_of uri) = Some u → presented k u token jwt jti → trim token = token →
  st = mkTower (Some cache) None → recorded hash cache (composite_key (key_thumbprint k) jti) = Some e →
  t 0%nat / 1000000000 + 360 ≤ e →
  validate_access_token (token_validator svc) token (key_thumbprint k) (t (i + 4)%nat) = Ok user →
  service_call hash svc st (get uri_of uri token jwt) (inputs raw t i) =
    Done [] (st, None, unauthorized_response "invalid_dpop_proof" (Some "DPoP proof replay detected") None).
Proof.
  intros Hu Hp Ht -> Hr He Hv. destruct (Hp i (i + 1)%nat) as (c & s & Ev & _ & Hs).
  unfold service_call, call. rewrite (gate_passed (mkTower (Some cache) None) uri u token jwt i _ _ _ Hu Ht eq_refl Ev).
  fold (key_thumbprint k). unfold id at 1. cbn [inputs in_t_token]. rewrite Hv.
  cbn [ts_cache commit_replay_admission adm_jkt adm_jti adm_expires_at adm_now].
  rewrite ReplayTests.record_replay; [done|]. rewrite Hr. apply live_true. lia.
Qed.

Lemma bad_token st uri u token jwt k jti err i :
  request_htu svc (uri_of uri) = Some u → presented k u token jwt jti → trim token = token → ts_nonces st = None →
  validate_access_token (token_validator svc) token (key_thumbprint k) (t (i + 4)%nat) = Err err →
  service_call hash svc st (get uri_of uri token jwt) (inputs raw t i) =
    Done [] (st, None, unauthorized_response "invalid_token" None None).
Proof.
  intros Hu Hp Ht Hn Hv. destruct (Hp i (i + 1)%nat) as (c & s & Ev & _ & Hs).
  unfold service_call, call. rewrite (gate_passed _ uri u token jwt i _ _ _ Hu Ht Hn Ev).
  fold (key_thumbprint k). unfold id at 1. cbn [inputs in_t_token]. by rewrite Hv.
Qed.

Lemma no_target_uri st uri token jwt i :
  request_htu svc (uri_of uri) = None →
  service_call hash svc st (get uri_of uri token jwt) (inputs raw t i) =
    Done [] (st, None, unauthorized_response "invalid_dpop_proof" None None).
Proof.
  intros Hu. unfold service_call, call, gate, get. cbn [authorization dpop_header method req_uri].
  assert (split_once_char " " ("DPoP " +:+ token) = Some ("DPoP", token)) as -> by reflexivity.
  change (eq_ignore_ascii_case "DPoP" "DPoP") with true. cbn [negb]. rewrite Hu. done.
Qed.
End calls.

(** The header a refusal explains itself with. *)
Lemma challenge_header code desc :
  header_value_ok (match desc with
    | Some d => "DPoP error=" +:+ quoted code +:+ ", error_description=" +:+ quoted d
    | None => "DPoP error=" +:+ quoted code end) = true →
  rstatus (unauthorized_response code desc None) = 401 ∧
  header_of "dpop-nonce" (unauthorized_response code desc None) = None ∧
  header_of "www-authenticate" (unauthorized_response code desc None) =
  Some (match desc with
    | Some d => "DPoP error=" +:+ quoted code +:+ ", error_description=" +:+ quoted d
    | None => "DPoP error=" +:+ quoted code end).
Proof.
  intros Ho. unfold unauthorized_response, insert_checked. by rewrite Ho.
Qed.

(** *** Tokens of the issuer *)
Definition minted (c : JwtAccessTokenClaims) (now : Z) : Prop :=
  at_exp c = now + 3600 ∧ at_nbf c = None ∧ at_iss c = auth_issuer ∧ at_aud c = Some (JString pds) ∧
  at_sub c = "did:plc:alice123" ∧ jkt (at_cnf c) = key_thumbprint key.

Lemma minted_checked c now s th :
  minted c now → 0 ≤ now < 2 ^ 63 → now ≤ s ≤ now + 60 →
  is_ok (check_access_claims (pinned (trusting auth_key)) c s th) = bool_decide (th = key_thumbprint key).
Proof.
  intros (He & Hn & Hi & Ha & Hs & Hj) Hnow Hr.
  assert (u64_valid (at_exp c)) as Hv by (unfold u64_valid, u64_max; lia).
  case_bool_decide as Hth.
  - subst th. rewrite (proj2 (check_access_claims_Ok (pinned (trusting auth_key)) c s (key_thumbprint key) tt Hv)); [done|].
    split.
    + change (clock_skew_leeway (pinned (trusting auth_key)) / 1000000000) with 60. lia.
    + by rewrite Hn.
    + by rewrite Hi.
    + exists pds. rewrite Ha. split; [done|by left].
    + rewrite Hs. by split; [|intros ?].
    + intros r. by intros ?%elem_of_nil.
    + done.
  - destruct (check_access_claims _ _ _ _) as [[]|] eqn:E; [|done].
    apply (check_access_claims_Ok _ _ _ _ tt Hv) in E as [_ _ _ _ _ _ E]. congruence.
Qed.

Lemma minted_verified c token now th k :
  signed_as token (access_header None) c auth_key → minted c now → unix_secs (t 0) = Some now → 0 ≤ now < 2 ^ 63 →
  if bool_decide (th = key_thumbprint key)
  then verify_token_sync (pinned (trusting auth_key)) token th (t k) = Ok (mkUser "did:plc:alice123" token th (at_scope c))
  else is_err (verify_token_sync (pinned (trusting auth_key)) token th (t k)) = true.
Proof.
  intros Hs Hm Hn Hb. destruct (later_reading t k now Hn) as (s & Es & Hr).
  rewrite (sa_claims _ _ _ _ Hs (pinned (trusting auth_key)) th (t k) s eq_refl eq_refl Es). pose proof (minted_checked c now s th Hm Hb Hr) as Hc.
  destruct Hm as (_ & _ & _ & _ & Hsub & _). rewrite Hsub.
  destruct (check_access_claims _ _ _ _) as [[]|e]; cbn in Hc; by rewrite <-Hc.
Qed.

Lemma uses_profile (v : JwtAccessTokenValidator) : request_htu (layer_of v) (uri_of get_profile) = Some get_profile.
Proof. by rewrite (https_request v get_profile _ _ _ _ eq_refl eq_refl eq_refl). Qed.

Context (profile_at : normalize_htu get_profile = Ok get_profile) (xrpc_at : normalize_htu xrpc_test = Ok xrpc_test).

Ltac mint :=
  hstep; apply (wp_now t); intros now Hnow Hb; hstep; apply wp_hour; [done|]; cbv zeta;
  hstep; apply wp_sign;
  [apply (claims_typed t _ 1%nat); [reflexivity|cbn; unfold u64_valid, u64_max; lia|done|by intros ? [= <-]]|];
  intros token Htok.

Ltac answer := match goal with |- wp (Done _ ?x) ?Q => change (Q x) end; cbv beta iota.
Ltac finish :=
  repeat (hstep || (apply wp_assert_eq; [done|]) || (eapply wp_unwrap_some; [done|]) || (apply wp_assert; [reflexivity|]));
  exact I.

Lemma jwt_success_test : passes (test_tower_jwt_dpop_auth_success hash auth_key key raw t uri_of).
Proof.
  unfold passes, test_tower_jwt_dpop_auth_success. cbv zeta. mint.
  hstep. eapply wp_proof; [exact profile_at|]. intros jwt Hp.
  pose proof (minted_verified _ token now (key_thumbprint key) 7 Htok ltac:(done) Hnow ltac:(lia)) as Hv.
  rewrite bool_decide_true in Hv by done.
  destruct (served (AV := jwt_access_token_validator) (layer_of (pinned (trusting auth_key))) eq_refl eq_refl new_state get_profile get_profile token jwt key _ _ 3
    (uses_profile _) Hp (sa_trim _ _ _ _ Htok) eq_refl Hv) as (cache & e & -> & _).
  hstep. answer. finish.
Qed.

Lemma positive_control_test :
  passes (test_tower_stolen_token_positive_control_with_own_proof hash auth_key key raw t uri_of).
Proof.
  unfold passes, test_tower_stolen_token_positive_control_with_own_proof. cbv zeta. mint.
  hstep. eapply wp_proof; [exact profile_at|]. intros jwt Hp.
  pose proof (minted_verified _ token now (key_thumbprint key) 7 Htok ltac:(done) Hnow ltac:(lia)) as Hv.
  rewrite bool_decide_true in Hv by done.
  destruct (served (AV := jwt_access_token_validator) (layer_of (pinned (trusting auth_key))) eq_refl eq_refl new_state
    get_profile get_profile token jwt key _ _ 3 (uses_profile _) Hp (sa_trim _ _ _ _ Htok) eq_refl Hv) as (cache & e & -> & _).
  hstep. answer. finish.
Qed.

(** Refusals are explained in visible ASCII. *)
Lemma refusal code desc :
  str_forall (λ c, (32 <=? byte_of c) && (byte_of c <=? 126)) (match desc with
    | Some d => "DPoP error=" +:+ quoted code +:+ ", error_description=" +:+ quoted d
    | None => "DPoP error=" +:+ quoted code end) = true →
  rstatus (unauthorized_response code desc None) = 401 ∧
  header_of "dpop-nonce" (unauthorized_response code desc None) = None ∧
  header_of "www-authenticate" (unauthorized_response code desc None) =
  Some (match desc with
    | Some d => "DPoP error=" +:+ quoted code +:+ ", error_description=" +:+ quoted d
    | None => "DPoP error=" +:+ quoted code end).
Proof. intros Hv. by apply challenge_header, hv_header. Qed.

Context (attacker_differs : key_thumbprint attacker_key ≠ key_thumbprint key).
Lemma stolen_test :
  passes (test_tower_rejects_stolen_token_with_attacker_dpop_proof_cnf_mismatch hash auth_key key attacker_key raw t uri_of).
Proof.
  unfold passes, test_tower_rejects_stolen_token_with_attacker_dpop_proof_cnf_mismatch. cbv zeta. mint.
  hstep. eapply wp_proof; [exact profile_at|]. intros jwt Hp.
  pose proof (minted_verified _ token now (key_thumbprint attacker_key) 7 Htok ltac:(done) Hnow ltac:(lia)) as Hv.
  rewrite bool_decide_false in Hv by done.
  destruct (verify_token_sync _ _ _ _) as [|e] eqn:Ev; [done|].
  rewrite (bad_token (AV := jwt_access_token_validator) (layer_of (pinned (trusting auth_key))) eq_refl eq_refl new_state
    get_profile get_profile token jwt attacker_key _ e 3 (uses_profile _) Hp (sa_trim _ _ _ _ Htok) eq_refl Ev).
  destruct (refusal "invalid_token" None eq_refl) as (Hs & _ & Hw). hstep. answer.
  hstep. apply wp_assert_eq; [done|]. apply wp_assert; [|done]. unfold header_contains. by rewrite Hw.
Qed.

Lemma invented_test : passes (test_tower_rejects_invented_token_credentials hash auth_key attacker_key raw t uri_of).
Proof.
  unfold passes, test_tower_rejects_invented_token_credentials. cbv zeta.
  hstep. eapply wp_proof; [exact profile_at|]. intros jwt Hp.
  hstep. erewrite (bad_token (AV := jwt_access_token_validator) (layer_of (pinned (trusting auth_key))) eq_refl eq_refl new_state
    get_profile get_profile _ jwt attacker_key _ _ 1 (uses_profile _) Hp); [|reflexivity..].
  destruct (refusal "invalid_token" None eq_refl) as (Hs & _ & Hw). answer.
  hstep. apply wp_assert_eq; [done|]. apply wp_assert; [|done]. unfold header_contains. by rewrite Hw.
Qed.

(** *** Registered tokens *)
Lemma registered_valid token did k :
  validate_access_token (registered key token did) token (key_thumbprint key) (t k) =
  Ok (mkUser did token (key_thumbprint key) (Some "atproto")).
Proof. apply validate_sync_Ok. eexists. split; [apply lookup_insert_eq|]. done. Qed.

Lemma uses_xrpc (v : InMemoryTokenValidator) : request_htu (layer_of v) (uri_of xrpc_test) = Some xrpc_test.
Proof. by rewrite (https_request v xrpc_test _ _ _ _ eq_refl eq_refl eq_refl). Qed.

Lemma store_lifecycle_test : passes (test_tower_in_memory_token_store_lifecycle hash key raw t uri_of).
Proof.
  unfold passes, test_tower_in_memory_token_store_lifecycle. cbv zeta.
  hstep. eapply wp_proof; [exact xrpc_at|]. intros jwt Hp.
  destruct (served (layer_of (registered key "registered_opaque_token_987" "did:plc:bob456")) eq_refl eq_refl new_state
    xrpc_test xrpc_test _ jwt key _ _ 1 (uses_xrpc _) Hp eq_refl eq_refl (registered_valid _ _ _)) as (cache & e & -> & _).
  hstep. answer. finish.
Qed.

Lemma replayed_test : passes (test_tower_rejects_replayed_dpop_proof hash key raw t uri_of).
Proof.
  unfold passes, test_tower_rejects_replayed_dpop_proof. cbv zeta.
  hstep. eapply wp_proof; [exact xrpc_at|]. intros jwt Hp.
  destruct (served (layer_of (registered key "valid_replay_test_token_xyz" "did:plc:alice123")) eq_refl eq_refl new_state
    xrpc_test xrpc_test _ jwt key _ _ 1 (uses_xrpc _) Hp eq_refl eq_refl (registered_valid _ _ _)) as (cache & e & -> & Hr & He & _).
  hstep. answer. hstep. apply wp_assert_eq; [done|]. hstep.
  rewrite (served_twice (layer_of (registered key "valid_replay_test_token_xyz" "did:plc:alice123")) eq_refl eq_refl _
    xrpc_test xrpc_test _ jwt key _ _ 7 cache e (uses_xrpc _) Hp eq_refl eq_refl Hr He (registered_valid _ _ _)).
  destruct (refusal "invalid_dpop_proof" (Some "DPoP proof replay detected") eq_refl) as (Hs & _ & Hw). answer.
  hstep. apply wp_assert_eq; [done|]. hstep. apply wp_assert; [by unfold header_contains; rewrite Hw|].
  apply wp_assert; [by unfold header_contains; rewrite Hw|done].
Qed.

(** *** Target URIs *)
Lemma authenticated_served token did uri override :
  trim token = token →
  request_htu (mkService verifier_new (registered key token did) true override) (uri_of uri) = Some xrpc_test →
  wp (authenticated_get hash key raw t uri_of token did uri override) (λ r, rstatus r.2 = 200).
Proof.
  intros Ht Hu. unfold authenticated_get. hstep. eapply wp_proof; [exact xrpc_at|]. intros jwt Hp. cbv zeta.
  destruct (served (mkService verifier_new (registered key token did) true override) eq_refl eq_refl new_state
    uri xrpc_test _ jwt key _ _ 1 Hu Hp Ht eq_refl (registered_valid _ _ _)) as (cache & e & -> & _).
  hstep. by answer.
Qed.

Lemma authenticated_refused token did uri override :
  request_htu (mkService verifier_new (registered key token did) true override) (uri_of uri) = None →
  wp (authenticated_get hash key raw t uri_of token did uri override)
    (λ r, r.2 = unauthorized_response "invalid_dpop_proof" None None).
Proof.
  intros Hu. unfold authenticated_get. hstep. eapply wp_proof; [exact xrpc_at|]. intros jwt Hp. cbv zeta.
  rewrite (no_target_uri _ _ _ _ _ _ Hu). hstep. by answer.
Qed.

Ltac served_as H := hstep; eapply wp_mono; [|apply authenticated_served; [reflexivity|exact H]];
  intros [user resp] Hr; by apply wp_assert_eq.

Lemma override_test : passes (test_tower_htu_override_for_proxied_origin_form_requests hash key raw t uri_of).
Proof.
  unfold passes, test_tower_htu_override_for_proxied_origin_form_requests. cbv zeta.
  assert (∀ did token, request_htu (mkService verifier_new (registered key token did) true
    (Some (λ uri, "https://pds.example.com" +:+ default "/" (uri_path_and_query uri)))) (uri_of "/xrpc/test") = Some xrpc_test) as Hu.
  { intros did token. unfold request_htu. cbn [htu_override].
    destruct (vector "/xrpc/test" _ eq_refl) as (_ & _ & ->). reflexivity. }
  served_as (Hu "did:plc:proxy" "proxied_request_token_abc").
Qed.
Lemma absolute_test : passes (test_tower_default_htu_derives_absolute_form_from_uri_authority hash key raw t uri_of).
Proof.
  unfold passes, test_tower_default_htu_derives_absolute_form_from_uri_authority.
  served_as (uses_xrpc (registered key "origin_form_default_htu_token" "did:plc:originform")).
Qed.
Lemma port_test : passes (test_tower_default_htu_strips_default_https_port hash key raw t uri_of).
Proof.
  unfold passes, test_tower_default_htu_strips_default_https_port.
  served_as (https_request (registered key "default_port_htu_token" "did:plc:defaultport")
    "https://pds.example.com:443/xrpc/test" _ _ _ _ eq_refl eq_refl eq_refl).
Qed.

Lemma origin_form_refused token did :
  wp (authenticated_get hash key raw t uri_of token did "/xrpc/test" None)
    (λ r, r.2 = unauthorized_response "invalid_dpop_proof" None None).
Proof.
  apply authenticated_refused. exact (origin_form_request (registered key token did) "/xrpc/test" _ eq_refl eq_refl eq_refl).
Qed.
Lemma no_authority_test : passes (test_tower_origin_form_without_authority_fails_closed hash key raw t uri_of).
Proof.
  unfold passes, test_tower_origin_form_without_authority_fails_closed. hstep.
  eapply wp_mono; [|apply origin_form_refused]. intros [user resp] Hr.
  assert (resp = unauthorized_response "invalid_dpop_proof" None None) as -> by exact Hr.
  destruct (refusal "invalid_dpop_proof" None eq_refl) as (Hs & _ & Hw).
  hstep. apply wp_assert_eq; [done|]. apply wp_assert; [by unfold header_contains; rewrite Hw|done].
Qed.
Lemma host_header_test : passes (test_tower_origin_form_proxy_host_header_used_for_htu hash key raw t uri_of).
Proof.
  unfold passes, test_tower_origin_form_proxy_host_header_used_for_htu. hstep.
  eapply wp_mono; [|apply origin_form_refused]. intros [user resp] Hr.
  assert (resp = unauthorized_response "invalid_dpop_proof" None None) as -> by exact Hr.
  destruct (refusal "invalid_dpop_proof" None eq_refl) as (Hs & _ & Hw). by apply wp_assert_eq.
Qed.
Lemma scheme_test : passes (killer_service_rejects_non_http_scheme_htu_derivation hash raw t uri_of).
Proof.
  unfold passes, killer_service_rejects_non_http_scheme_htu_derivation. cbv zeta. hstep.
  rewrite (no_target_uri (layer_of registry_new) _ _ _ _ _ (websocket_request registry_new "ws://pds.example.com/xrpc" _ eq_refl eq_refl)).
  destruct (refusal "invalid_dpop_proof" None eq_refl) as (Hs & Hn & Hw). answer.
  hstep. apply wp_assert_eq; [done|]. apply wp_assert; [by rewrite Hn|done].
Qed.

(** *** Requests without a proof, and floods *)
Lemma missing_proof_test : passes (test_tower_missing_dpop_proof_returns_401 hash raw t uri_of).
Proof.
  unfold passes, test_tower_missing_dpop_proof_returns_401. cbv zeta. hstep.
  change (service_call hash (layer_of registry_new) new_state (mkRequest (Some (Some "DPoP token_without_proof")) None "GET"
    (uri_of "https://pds.example.com/xrpc/app.bsky.feed.getTimeline")) (inputs raw t 0)) with
    (Done [] (new_state, None : option AuthenticatedUser, unauthorized_response "missing_dpop_proof" None None)).
  destruct (refusal "missing_dpop_proof" None eq_refl) as (Hs & _ & Hw). answer.
  hstep. apply wp_assert_eq; [done|]. apply wp_assert; [by rewrite Hw|done].
Qed.

Lemma bare_refused ns n k : passes (bare hash raw t (layer_of jwt_validator_new) (mkRequest None None "GET" (uri_of xrpc_test)) n k
  (mkTower (Some replay_new) (Some ns))).
Proof.
  destruct (refusal "missing_token" None eq_refl) as (Hs & Hn & _).
  revert k. induction n as [|n IH]; intros k; [done|]. unfold passes. cbn [bare]. hstep.
  match goal with |- wp ?h _ => change h with
    (Done [] (mkTower (Some replay_new) (Some ns), None : option AuthenticatedUser, unauthorized_response "missing_token" None None)) end.
  answer. hstep. apply wp_assert_eq; [done|]. hstep. apply wp_assert; [by rewrite Hn|]. apply IH.
Qed.

Lemma flood_refused token k n :
  (∀ i, ∃ e, verify_token_sync (pinned (trusting auth_key)) token (key_thumbprint key) (t i) = Err e) → trim token = token →
  wp (flood hash key raw t uri_of (layer_of (pinned (trusting auth_key))) token n k new_state) (λ st, st = new_state).
Proof.
  intros Hv Ht. destruct (refusal "invalid_token" None eq_refl) as (Hs & _ & _).
  revert k. induction n as [|n IH]; intros k; [done|]. cbn [flood].
  hstep. eapply wp_proof; [exact xrpc_at|]. intros jwt Hp. destruct (Hv (k + 1 + 4)%nat) as (e & Ev).
  rewrite (bad_token (AV := jwt_access_token_validator) (layer_of (pinned (trusting auth_key))) eq_refl eq_refl new_state
    xrpc_test xrpc_test token jwt key _ e (k + 1) (https_request (pinned (trusting auth_key)) xrpc_test _ _ _ _ eq_refl eq_refl eq_refl) Hp Ht eq_refl Ev).
  hstep. answer. hstep. apply wp_assert_eq; [done|]. apply IH.
Qed.

Lemma exhaustion_test : passes (test_h5_invalid_proofs_do_not_consume_replay_cache hash auth_key key raw t uri_of).
Proof.
  unfold passes, test_h5_invalid_proofs_do_not_consume_replay_cache. cbv zeta.
  hstep; apply (wp_now t); intros now Hnow Hb; hstep; apply wp_hour; [done|]; cbv zeta; hstep; apply wp_sign.
  { split; [unfold u64_valid, u64_max; cbn; lia|]. split; [unfold u64_valid, u64_max; cbn; lia|]. split; [done|].
    by intros ? [= <-]. }
  intros token Htok. hstep. eapply wp_mono; [|apply flood_refused; [intros; by eexists|reflexivity]]. intros st ->.
  hstep. apply wp_assert_eq; [by cbn [new_state ts_cache fmap option_fmap option_map]; rewrite ReplayTests.new_len|].
  hstep. eapply wp_proof; [exact xrpc_at|]. intros jwt Hp.
  pose proof (minted_verified _ token now (key_thumbprint key) 230 Htok ltac:(done) Hnow ltac:(lia)) as Hv.
  rewrite bool_decide_true in Hv by done.
  destruct (served (AV := jwt_access_token_validator) (layer_of (pinned (trusting auth_key))) eq_refl eq_refl new_state
    xrpc_test xrpc_test token jwt key _ _ 226 (https_request (pinned (trusting auth_key)) xrpc_test _ _ _ _ eq_refl eq_refl eq_refl)
    Hp (sa_trim _ _ _ _ Htok) eq_refl Hv) as (cache & e & -> & _ & _ & Hlen).
  hstep. answer. hstep. apply wp_assert_eq; [done|]. apply wp_assert_eq; [|done]. cbn. by rewrite Hlen.
Qed.

(** All of them. *)
Theorem tower_tests_pass ns :
  Forall passes
    [test_tower_jwt_dpop_auth_success hash auth_key key raw t uri_of;
     test_tower_rejects_replayed_dpop_proof hash key raw t uri_of;
     test_tower_rejects_invented_token_credentials hash auth_key attacker_key raw t uri_of;
     test_tower_rejects_stolen_token_with_attacker_dpop_proof_cnf_mismatch hash auth_key key attacker_key raw t uri_of;
     test_tower_stolen_token_positive_control_with_own_proof hash auth_key key raw t uri_of;
     test_tower_in_memory_token_store_lifecycle hash key raw t uri_of;
     test_tower_missing_dpop_proof_returns_401 hash raw t uri_of;
     test_tower_htu_override_for_proxied_origin_form_requests hash key raw t uri_of;
     test_tower_default_htu_derives_absolute_form_from_uri_authority hash key raw t uri_of;
     test_tower_default_htu_strips_default_https_port hash key raw t uri_of;
     test_tower_origin_form_without_authority_fails_closed hash key raw t uri_of;
     test_tower_origin_form_proxy_host_header_used_for_htu hash key raw t uri_of;
     test_h5_invalid_proofs_do_not_consume_replay_cache hash auth_key key raw t uri_of;
     test_h5_bare_unauthenticated_request_gets_no_nonce_allocation hash raw t uri_of ns;
     killer_default_htu_from_uri_strips_default_ports uri_of scheme_https http;
     killer_service_rejects_non_http_scheme_htu_derivation hash raw t uri_of].
Proof.
  rewrite !Forall_cons.
  exact (conj jwt_success_test (conj replayed_test (conj invented_test (conj stolen_test (conj positive_control_test
    (conj store_lifecycle_test (conj missing_proof_test (conj override_test (conj absolute_test (conj port_test
    (conj no_authority_test (conj host_header_test (conj exhaustion_test (conj (bare_refused ns 8 0)
    (conj default_ports_test (conj scheme_test (Forall_nil_2 _))))))))))))))))).
Qed.
End run.
