(* ===== verification/HandshakeTests.v ===== *)
(** * HandshakeTests: the repository's unit tests of the nonce handshake

    The tests of integrations/tower.rs in which a nonce source is configured: the first request is challenged with a
    nonce, the second one carries it and its answer offers another.  [draw] gives the 24 bytes of a nonce,
    [raw] the 16 bytes of a proof identifier. *)
From S2P Require Import Prelude Errors Strs Externals Instances Crypto Htu Replay Nonces Keys Dpop Validator Issuer Tower.
From S2P Require Import Harness StateTests TokenTests ProofTests TowerTests.
Open Scope Z_scope.

Section handshake_tests.
Context `{Base64} `{Sha2} `{P256} `{SerdeJson} `{DpopSerde} `{Subtle} `{UrlCrate} `{UnicodeUpper} `{HttpCrate}
  `{AccessTokenSerde} `{!AccessTokenWrite}.
Context (hash : string → Z) (auth_key key : SigningKey) (raw draw : nat → list Z) (t : nat → Z) (uri_of : string → Uri).
Local Abbreviation get := (get uri_of).
Local Abbreviation inputs := (inputs draw t).

(** A fresh source whose nonces live for a minute. *)
Definition with_nonces : TowerState := mkTower (Some replay_new) (Some (nonce_source_new 60)).

Definition test_tower_server_nonce_challenge_workflow : harness unit :=
  let access_token := "valid_nonce_test_token_456" in
  let service := layer_of (registered key access_token "did:plc:alice123") in
  proof_no_nonce ← unwrap (create_proof key "GET" xrpc_test None (token_hash access_token) (t 0) (raw 0));
  '(st, _, resp1) ← service_call hash service with_nonces (get xrpc_test access_token proof_no_nonce) (inputs 1);
  _ ← assert_eq (rstatus resp1) 401;
  issued_nonce ← unwrap_some (header_of "dpop-nonce" resp1);
  proof_with_nonce ← unwrap (create_proof key "GET" xrpc_test (Some issued_nonce) (token_hash access_token) (t 7) (raw 1));
  '(_, _, resp2) ← service_call hash service st (get xrpc_test access_token proof_with_nonce) (inputs 8);
  assert_eq (rstatus resp2) 200.

Definition test_tower_attaches_nonce_to_success_response : harness unit :=
  now ← now_secs t 0;
  exp ← u64_add now 3600;
  let claims := mkAccessClaims auth_issuer "did:plc:alice123" "https://app.example.com/client-metadata.json"
                  (Some (JString pds)) exp None now ("jti_server_nonce_attach_" +:+ pretty now) (Some "atproto")
                  (mkCnf (key_thumbprint key)) in
  access_token ← unwrap (sign_jwt claims auth_key None);
  let service := layer_of (pinned (trusting auth_key)) in
  first ← unwrap (create_proof key "GET" get_profile None (token_hash access_token) (t 1) (raw 0));
  '(st, _, challenge) ← service_call hash service with_nonces (get get_profile access_token first) (inputs 2);
  _ ← assert_eq (rstatus challenge) 401;
  let server_nonce := default "" (header_of "dpop-nonce" challenge) in
  _ ← assert (negb (str_is_empty server_nonce));
  proof ← unwrap (create_proof key "GET" get_profile (Some server_nonce) (token_hash access_token) (t 8) (raw 1));
  '(_, _, resp) ← service_call hash service st (get get_profile access_token proof) (inputs 9);
  _ ← assert_eq (rstatus resp) 200;
  assert (match header_of "dpop-nonce" resp with Some n => negb (str_is_empty (trim n)) | None => false end).

Definition get_timeline : string := "https://pds.example.com/xrpc/app.bsky.feed.getTimeline".
Definition killer_success_response_carries_fresh_dpop_nonce : harness unit :=
  let access_token := "killer_nonce_token" in
  let store := register_token registry_new (as_bytes access_token) "did:plc:alice123" (key_thumbprint key) None None in
  let service := layer_of store in
  proof0 ← unwrap (create_proof key "GET" get_timeline None (token_hash access_token) (t 0) (raw 0));
  '(st, _, resp0) ← service_call hash service with_nonces (get get_timeline access_token proof0) (inputs 1);
  _ ← assert_eq (rstatus resp0) 401;
  challenge_nonce ← unwrap_some (header_of "dpop-nonce" resp0);
  _ ← assert (header_contains "www-authenticate" "use_dpop_nonce" resp0);
  proof1 ← unwrap (create_proof key "GET" get_timeline (Some challenge_nonce) (token_hash access_token) (t 7) (raw 1));
  '(_, _, resp1) ← service_call hash service st (get get_timeline access_token proof1) (inputs 8);
  _ ← assert_eq (rstatus resp1) 200;
  response_nonce ← unwrap_some (header_of "dpop-nonce" resp1);
  assert (negb (response_nonce =? challenge_nonce)%string).
End handshake_tests.

(** ** Running them *)
Section run.
Context `{Base64Laws} `{!Base64Alphabet} `{!Base64Length} `{Sha2Laws} `{P256Laws} `{SerdeJsonLaws}
  `{DpopSerde} `{!DpopSerdeLaws} `{!DpopSerdeTyped} `{SubtleLaws} `{UrlCrate} `{UnicodeUpperLaws}
  `{AccessTokenSerde} `{!AccessTokenSerdeTyped} `{!AccessTokenWrite} `{!AccessTokenWriteLaws} `{HttpVectors}.
Context (hash : string → Z) (auth_key key : SigningKey) (raw draw : nat → list Z) (t : nat → Z).
Context `{!TestClock t} (raw_16 : ∀ k, length (raw k) = 16%nat).
Context (draw_24 : ∀ k, length (draw k) = 24%nat) (draw_bytes : ∀ k, Forall u8_valid (draw k))
  (draw_fresh : ∀ i j, draw i = draw j → i = j).
Local Abbreviation nonce_of i := (base64url_encode (draw i)).

Lemma nonce_length i : str_len (nonce_of i) = 32.
Proof. unfold base64url_encode. rewrite b64_length. unfold zlen. by rewrite draw_24. Qed.
Lemma nonce_nonempty i : str_is_empty (nonce_of i) = false.
Proof. pose proof (nonce_length i) as Hl. by destruct (nonce_of i). Qed.
Lemma nonce_trimmed i : trimmed_claim (Some (nonce_of i)) = Some (nonce_of i).
Proof. unfold trimmed_claim. cbn [mbind option_bind]. by rewrite base64url_encode_trim, nonce_nonempty. Qed.
Lemma nonces_differ i j : i ≠ j → nonce_of i ≠ nonce_of j.
Proof.
  intros Hij E. apply Hij, draw_fresh. assert (Ok (draw i) =@{result string (list Z)} Ok (draw j)) as [= ->]; [|done].
  rewrite <-!b64_roundtrip by done. unfold base64url_encode in E. by rewrite E.
Qed.
Lemma nonce_header i : header_value_ok (nonce_of i) = true.
Proof.
  apply hv_header. eapply str_forall_impl; [|apply b64_alphabet]. intros c. by destruct c as [[] [] [] [] [] [] [] []].
Qed.

(** *** The source of the tests *)
Local Abbreviation s k := (unix_secs_or_zero (t k)).

Lemma seconds k : s k = t k / 1000000000 ∧ t 0%nat / 1000000000 ≤ s k ≤ t 0%nat / 1000000000 + 60 ∧ 1000 ≤ t 0%nat / 1000000000 < 2 ^ 62.
Proof.
  destruct (reading k) as (x & E & -> & Hx). pose proof start_bounds. unfold unix_secs_or_zero. rewrite E. cbn. lia.
Qed.

(** The source after the challenge of the call whose readings start at [i]. *)
Definition challenged (i : nat) : InMemoryServerNonceSource :=
  mkNonceSource {[nonce_of i := u64_saturating_add (s (i + 3)) 60]} 60 false (s (i + 3)) 1 CHALLENGE_ISSUANCE_RATE_LIMIT.

Lemma challenge_issues i :
  generate_nonce base64url_encode (nonce_source_new 60) (t (i + 3)%nat) (draw i) = (challenged i, Ok (nonce_of i)).
Proof.
  destruct (seconds (i + 3)) as (_ & Hs & Hb).
  assert (NonceTests.used_in (nonce_source_new 60) (s (i + 3)) = 0) as Hu.
  { unfold NonceTests.used_in. cbn. by case_if. }
  rewrite NonceTests.generate_small; [|done|by rewrite Hu]. by rewrite Hu.
Qed.

Lemma response_issues i j :
  ∃ ns, generate_nonce base64url_encode (challenged i) (t (j + 5)%nat) (draw (j + 1)%nat) = (ns, Ok (nonce_of (j + 1))).
Proof.
  eexists. apply NonceTests.generate_small.
  - unfold challenged. cbn [nonces]. unfold map_size. rewrite map_size_singleton. done.
  - unfold NonceTests.used_in, challenged. cbn [issuance_window_secs issuance_count_in_window issuance_rate_limit].
    by case_if.
Qed.

(** The test is over before the nonce expires. *)
Lemma nonce_accepted i j :
  (i + 3 ≤ j)%nat → t j < t (i + 3)%nat + 59 * 1000000000 →
  verify_nonce (challenged i) (t j) (nonce_of i) = (challenged i, true).
Proof.
  intros Hij Hf. rewrite NonceTests.verify_reusable by done. unfold challenged. cbn [nonces]. rewrite lookup_singleton_eq.
  f_equal. apply live_true. destruct (seconds (i + 3)) as (Ei & Hi & Hb), (seconds j) as (Ej & Hj & _).
  unfold u64_saturating_add, u64_max. rewrite Ei, Ej in *. Z.to_euclidean_division_equations. lia.
Qed.

Context (quick : ∀ k, t k < t 0%nat + 59 * 1000000000).

(** *** The two calls of a handshake *)
Section calls.
Context {V : Type} {AV : AccessTokenValidator V} (svc : OAuthAuthService (V := V)).
Context (default_verifier : verifier svc = verifier_new) (wants_ath : require_ath svc = true).

Lemma first_challenged uri u token jwt k jti i :
  request_htu svc (uri_of uri) = Some u → presented t k u token jwt jti → trim token = token →
  service_call hash svc with_nonces (get uri_of uri token jwt) (inputs draw t i) =
  Done [] (mkTower (Some replay_new) (Some (challenged i)), None,
    unauthorized_response "use_dpop_nonce" (Some "Resource server requires fresh DPoP nonce") (Some (nonce_of i))).
Proof.
  intros Hu Hp Ht. destruct (Hp i (i + 1)%nat) as (c & sec & Ev & Hn & _).
  unfold service_call, call, gate, get, with_nonces. cbn [authorization dpop_header method req_uri].
  assert (split_once_char " " ("DPoP " +:+ token) = Some ("DPoP", token)) as -> by reflexivity.
  change (eq_ignore_ascii_case "DPoP" "DPoP") with true. cbn [negb].
  rewrite Ht, Hu, wants_ath, default_verifier. cbn [inputs in_sys_now in_t_admit in_t_nonce]. unfold token_hash in Ev. rewrite Ev.
  unfold check_server_nonce. cbn [with_nonces ts_nonces]. rewrite Hn. cbn [negb].
  unfold challenge, fresh_nonce. cbn [ts_nonces ts_cache inputs in_t_challenge in_raw_challenge]. by rewrite challenge_issues.
Qed.

Lemma second_served uri u token jwt k jti i j user :
  (i + 3 ≤ j + 2)%nat → request_htu svc (uri_of uri) = Some u → presented_with t (Some (nonce_of i)) k u token jwt jti →
  trim token = token → validate_access_token (token_validator svc) token (key_thumbprint k) (t (j + 4)%nat) = Ok user →
  ∃ st, service_call hash svc (mkTower (Some replay_new) (Some (challenged i))) (get uri_of uri token jwt) (inputs draw t j) =
    Done [] (st, Some user, header_insert "dpop-nonce" (nonce_of (j + 1)) (mkResp 200 [])).
Proof.
  intros Hij Hu Hp Ht Hv. destruct (Hp j (j + 1)%nat) as (c & sec & Ev & Hn & _).
  destruct (ReplayTests.record_small hash (λ _, True) replay_new (key_thumbprint k) jti (sec + 360) sec)
    as (cache & E & _ & _ & _ & _).
  { apply replay_new_wf. }
  { by rewrite ReplayTests.new_len. }
  { by rewrite ReplayTests.new_recorded. }
  { by rewrite ReplayTests.new_len. }
  destruct (response_issues i j) as (ns & En). exists (mkTower (Some cache) (Some ns)).
  unfold service_call, call, gate, get. cbn [authorization dpop_header method req_uri].
  assert (split_once_char " " ("DPoP " +:+ token) = Some ("DPoP", token)) as -> by reflexivity.
  change (eq_ignore_ascii_case "DPoP" "DPoP") with true. cbn [negb].
  rewrite Ht, Hu, wants_ath, default_verifier. cbn [inputs in_sys_now in_t_admit in_t_nonce]. unfold token_hash in Ev. rewrite Ev.
  unfold check_server_nonce. cbn [ts_nonces ts_cache]. rewrite Hn, nonce_accepted;
    [|done|pose proof (quick (j + 2)); pose proof (tc_monotone 0 (i + 3) ltac:(lia)); lia].
  cbn [negb]. fold (key_thumbprint k). unfold id at 1. cbn [inputs in_t_token]. rewrite Hv.
  cbn [ts_cache ts_nonces commit_replay_admission adm_jkt adm_jti adm_expires_at adm_now]. rewrite E.
  unfold ok_service. cbn [rstatus]. rewrite bool_decide_true by done. unfold id.
  unfold attach_nonce, fresh_nonce. cbn [ts_nonces ts_cache inputs in_t_response in_raw_response]. rewrite En.
  unfold insert_checked. by rewrite nonce_header.
Qed.
End calls.

(** What the challenge says. *)
Lemma challenge_answer i :
  let r := unauthorized_response "use_dpop_nonce" (Some "Resource server requires fresh DPoP nonce") (Some (nonce_of i)) in
  rstatus r = 401 ∧ header_of "dpop-nonce" r = Some (nonce_of i) ∧ header_contains "www-authenticate" "use_dpop_nonce" r = true.
Proof.
  cbv zeta. unfold unauthorized_response, insert_checked. rewrite nonce_header, hv_header by done. done.
Qed.

Context (profile_at : normalize_htu get_profile = Ok get_profile) (xrpc_at : normalize_htu xrpc_test = Ok xrpc_test).

Context (timeline_at : normalize_htu get_timeline = Ok get_timeline)
  (timeline_uri : uri_parts (uri_of get_timeline) =
    (Some "https", Some ("pds.example.com", "pds.example.com", None), Some "/xrpc/app.bsky.feed.getTimeline")).

Lemma uses_timeline (v : InMemoryTokenValidator) : request_htu (layer_of v) (uri_of get_timeline) = Some get_timeline.
Proof.
  destruct hv_https as (S0 & S1 & S2 & S3). injection timeline_uri as Es Ea Ep.
  unfold request_htu, layer_of. cbn [htu_override]. rewrite Es. cbn [mbind option_bind]. rewrite S0. cbn [default from_option id].
  rewrite S1. cbn [negb andb]. unfold default_htu_from_uri. rewrite Ea, Es, Ep, S1, S2, S3. reflexivity.
Qed.

Ltac answer := match goal with |- wp (Done _ ?x) ?Q => change (Q x) end; cbv beta iota.
Ltac second_proof at_uri := hstep; eapply wp_proof_with; [done..|exact at_uri|]; rewrite nonce_trimmed; intros jwt2 Hp2; hstep.

Lemma workflow_test : passes (test_tower_server_nonce_challenge_workflow hash key raw draw t uri_of).
Proof.
  unfold passes, test_tower_server_nonce_challenge_workflow. cbv zeta. destruct (challenge_answer 1) as (Es & En & _).
  hstep. eapply wp_proof; [done..|exact xrpc_at|]. intros jwt Hp. hstep.
  rewrite (first_challenged (layer_of (registered key "valid_nonce_test_token_456" "did:plc:alice123")) eq_refl eq_refl
    xrpc_test xrpc_test _ jwt key _ 1 (uses_xrpc _) Hp eq_refl). answer.
  hstep. apply wp_assert_eq; [exact Es|]. hstep. eapply wp_unwrap_some; [exact En|]. second_proof xrpc_at.
  destruct (second_served (layer_of (registered key "valid_nonce_test_token_456" "did:plc:alice123")) eq_refl eq_refl
    xrpc_test xrpc_test _ jwt2 key _ 1 8 _ ltac:(lia) (uses_xrpc _) Hp2 eq_refl (registered_valid _ _ _ _ _)) as (st & ->).
  answer. by apply wp_assert_eq.
Qed.

Lemma fresh_nonce_test : passes (killer_success_response_carries_fresh_dpop_nonce hash key raw draw t uri_of).
Proof.
  unfold passes, killer_success_response_carries_fresh_dpop_nonce. cbv zeta. destruct (challenge_answer 1) as (Es & En & Ew).
  set (store := register_token registry_new (as_bytes "killer_nonce_token") "did:plc:alice123" (key_thumbprint key) None None).
  hstep. eapply wp_proof; [done..|exact timeline_at|]. intros jwt Hp. hstep.
  rewrite (first_challenged (layer_of store) eq_refl eq_refl
    get_timeline get_timeline _ jwt key _ 1 (uses_timeline _) Hp eq_refl). answer.
  hstep. apply wp_assert_eq; [exact Es|]. hstep. eapply wp_unwrap_some; [exact En|]. hstep. apply wp_assert; [exact Ew|].
  second_proof timeline_at.
  assert (validate_access_token store "killer_nonce_token" (key_thumbprint key) (t (8 + 4)%nat) =
    Ok (mkUser "did:plc:alice123" "killer_nonce_token" (key_thumbprint key) None)) as Hv.
  { apply validate_sync_Ok. eexists. split; [apply lookup_insert_eq|]. done. }
  destruct (second_served (layer_of store) eq_refl eq_refl get_timeline get_timeline _ jwt2 key _ 1 8 _ ltac:(lia)
    (uses_timeline _) Hp2 eq_refl Hv) as (st & ->).
  answer. hstep. apply wp_assert_eq; [done|]. hstep. eapply wp_unwrap_some; [reflexivity|].
  apply wp_assert; [|done]. apply negb_true_iff, String.eqb_neq. by apply nonces_differ.
Qed.

Lemma attached_nonce_test : passes (test_tower_attaches_nonce_to_success_response hash auth_key key raw draw t uri_of).
Proof.
  unfold passes, test_tower_attaches_nonce_to_success_response. cbv zeta. destruct (challenge_answer 2) as (Es & En & _).
  hstep; apply (wp_now t); intros now Hnow Hb; hstep; apply wp_hour; [done|]; cbv zeta; hstep; apply wp_sign.
  { split; [unfold u64_valid, u64_max; cbn; lia|]. split; [unfold u64_valid, u64_max; cbn; lia|]. split; [done|].
    by intros ? [= <-]. }
  intros token Htok. hstep. eapply wp_proof; [done..|exact profile_at|]. intros jwt Hp. hstep.
  rewrite (first_challenged (AV := jwt_access_token_validator) (layer_of (pinned (trusting auth_key))) eq_refl eq_refl
    get_profile get_profile token jwt key _ 2 (uses_profile _) Hp (sa_trim _ _ _ _ Htok)). answer.
  hstep. apply wp_assert_eq; [exact Es|]. hstep. rewrite En. cbn [default from_option id].
  apply wp_assert; [by rewrite nonce_nonempty|]. second_proof profile_at.
  pose proof (minted_verified auth_key key t _ token now (key_thumbprint key) 13 Htok ltac:(done) Hnow ltac:(lia)) as Hv.
  rewrite bool_decide_true in Hv by done.
  destruct (second_served (AV := jwt_access_token_validator) (layer_of (pinned (trusting auth_key))) eq_refl eq_refl
    get_profile get_profile token jwt2 key _ 2 9 _ ltac:(lia) (uses_profile _) Hp2 (sa_trim _ _ _ _ Htok) Hv) as (st & ->).
  answer. hstep. apply wp_assert_eq; [done|]. apply wp_assert; [|done].
  change (header_of "dpop-nonce" (header_insert "dpop-nonce" (nonce_of (9 + 1)) (mkResp 200 []))) with (Some (nonce_of 10)).
  cbv iota. by rewrite base64url_encode_trim, nonce_nonempty.
Qed.

(** The three tests. *)
Theorem handshake_tests_pass :
  passes (test_tower_server_nonce_challenge_workflow hash key raw draw t uri_of) ∧
  passes (test_tower_attaches_nonce_to_success_response hash auth_key key raw draw t uri_of) ∧
  passes (killer_success_response_carries_fresh_dpop_nonce hash key raw draw t uri_of).
Proof. exact (conj workflow_test (conj attached_nonce_test fresh_nonce_test)). Qed.
End run.
