(* ===== verification/ClientTests.v ===== *)
(** * ClientTests: the repository's unit tests of the client

    The tests of client.rs that need no server: challenges, stored logins, callbacks, NSIDs; and the test of the
    callback query of integrations/mod.rs.  The client under test, the environment and the state it has reached are
    arguments. *)
From S2P Require Import Prelude Errors Strs Externals Instances Crypto IpFilter Net Ssrf Dpop Session Exchange.
From S2P Require Import TokenRequest ClientConfig Client Web Harness KaniHarnesses.
Open Scope Z_scope.

(** ** Challenges of a resource server *)
Definition param (k v : string) : string := k +:+ "=" +:+ quoted v.
Definition test_rs_dpop_nonce_challenge_parsing : harness unit :=
  let h := ["DPoP " +:+ param "algs" "ES256" +:+ ", " +:+ param "error" "use_dpop_nonce"] in
  _ ← assert (is_rs_dpop_nonce_challenge h);
  let h2 := ["dpop " +:+ param "error" "USE_DPOP_NONCE"] in
  _ ← assert (is_rs_dpop_nonce_challenge h2);
  let h3 := ["Bearer " +:+ param "realm" "x"; "DPoP " +:+ param "error" "use_dpop_nonce"] in
  _ ← assert (is_rs_dpop_nonce_challenge h3);
  let h4 := ["Bearer " +:+ param "error" "use_dpop_nonce"] in
  _ ← assert (negb (is_rs_dpop_nonce_challenge h4));
  let h5 := ["DPoP " +:+ param "error" "invalid_token"] in
  _ ← assert (negb (is_rs_dpop_nonce_challenge h5));
  let h6 := ["DPoP " +:+ param "algs" "ES256"] in
  _ ← assert (negb (is_rs_dpop_nonce_challenge h6));
  assert (negb (is_rs_dpop_nonce_challenge [])).

(** ** Stored logins and callbacks *)
Section client_tests.
Context (fk : gmap string IpAddr → option string) `{UrlParts} `{!UrlEdit} (env : Env).
Context `{Base64} `{Sha2} `{P256} `{SerdeJson} `{UnicodeUpper} `{FormCrate} `{TokenSerde}.
(** The client, its filter, the generated key, the state of its environment and the test's own clock. *)
Context (cl : AtprotoOAuthClient) (f : SsrfFilter) (key : SigningKey) (w : @CW _) (t : nat → Z).

Definition test_stored_state_expiration : harness unit :=
  let entry := mkEntry "state123" "client123" "verifier123" key "https://auth.example.com" (Some "did:plc:alice")
                 (Some "alice.bsky.social") "https://app.example.com/callback" "https://pds.example.com"
                 "https://auth.example.com/oauth/token" "atproto" (t 0%nat - 400 * 1000000000) 300 in
  assert (entry_is_expired entry (t 1)).

Definition test_handle_callback_with_expired_entry_rejected : harness unit :=
  let expired_entry := mkEntry "state_exp" "https://app.example.com/client.json" "verifier123" key
                         "https://auth.example.com" (Some "did:plc:alice") (Some "alice.bsky.social")
                         "https://app.example.com/callback" "https://pds.example.com"
                         "https://auth.example.com/oauth/token" "atproto" (t 0%nat - 400 * 1000000000) 300 in
  let cb := with_iss (callback_new "code123" "state_exp") "https://auth.example.com" in
  let '(_, err) := handle_callback_with_entry fk env cl cb expired_entry w in
  assert (match err with Err (AtprotoOAuthError_Token TokenError_StateExpired) => true | _ => false end).

Definition test_callback_params : harness unit :=
  let cb := with_iss (callback_new "code123" "state123") "https://auth.example.com" in
  _ ← assert_eq (cb_code cb) "code123";
  _ ← assert_eq (cb_state cb) "state123";
  assert_eq (cb_iss cb) (Some "https://auth.example.com").

Definition test_send_xrpc_request_missing_pds_endpoint : harness unit :=
  session ← unwrap (session_new "did:plc:alice123" "at_123" None "DPoP" None None key None None None (t 0));
  let '(_, err) := send_xrpc_request fk env f session "com.atproto.repo.describeRepo" [] w in
  assert (match err with
          | Err (AtprotoOAuthError_Token (TokenError_MissingField name)) => (name =? "pds_endpoint")%string
          | _ => false end).
End client_tests.

(** ** NSIDs *)
Definition invalid_nsid (r : result TokenError unit) : bool :=
  match r with Err (TokenError_InvalidNsid _) => true | _ => false end.

Definition test_validate_xrpc_nsid_accepts_valid_grammar : harness unit :=
  for_each ["com.atproto.repo.describeRepo"; "/app.bsky.feed.getTimeline"; "a.b.c"; "one.2.three";
            "one.two.three.four-and.FiVe"; "a-0.b-1.c"; "com.example.fooBar"; "com.example.fooBarV2";
            "m.xn--masekowski-d0b.pl"]
    (λ nsid, assert (is_ok (validate_xrpc_nsid nsid))).

Definition test_validate_xrpc_nsid_rejects_traversal_and_malformed : harness unit :=
  for_each ["../../admin"; "com.atproto..describeRepo"; "com..atproto"; "com.atproto.repo."; "com.atproto";
            ".one.two.three"; "1.0.0.127.record"; "0two.example.foo"; "3com.atproto.repo"; "com.atproto.-repo";
            "com.atproto.repo.name-"; "com.atproto.repo.-name"; "a-0.b-1.c-3"; "a-0.b-1.c-o"; "com.example.foo.*";
            "com.example.foo.blah*"; "com.atproto.re\po"; "com.atproto.re%70o"; ""]
    (λ nsid, assert (invalid_nsid (validate_xrpc_nsid nsid))).

Definition test_validate_xrpc_nsid_length_limits : harness unit :=
  let seg63 := str_repeat "o" 63 in
  let seg64 := str_repeat "o" 64 in
  _ ← assert (is_ok (validate_xrpc_nsid ("com." +:+ seg63 +:+ ".foo")));
  _ ← assert (invalid_nsid (validate_xrpc_nsid ("com." +:+ seg64 +:+ ".foo")));
  let long_authority := seg63 +:+ "." +:+ seg63 +:+ "." +:+ str_repeat "o" 62 +:+ "." +:+ str_repeat "o" 62 in
  let nsid_317 := long_authority +:+ "." +:+ str_repeat "f" 63 in
  _ ← assert_eq (str_len nsid_317) 317;
  _ ← assert (is_ok (validate_xrpc_nsid nsid_317));
  let nsid_318 := nsid_317 +:+ "x" in
  _ ← assert_eq (str_len nsid_318) 318;
  assert (invalid_nsid (validate_xrpc_nsid nsid_318)).

(** ** The callback query *)
Definition killer_oauth_callback_query_builder_paths : harness unit :=
  let q := query_with_iss (query_new_error "access_denied" None) "https://auth" in
  _ ← assert_eq (q_error q) (Some "access_denied");
  _ ← assert (is_none (q_error_description q));
  _ ← assert_eq (q_iss q) (Some "https://auth");
  _ ← assert (is_none (q_code q) && is_none (q_state q));
  let q2 := query_new_error "server_error" (Some "desc") in
  _ ← assert_eq (q_error_description q2) (Some "desc");
  let q3 := query_new "code-1" "state-1" in
  _ ← assert (is_none (q_error q3) && is_none (q_error_description q3));
  params ← unwrap (to_callback_params q3);
  _ ← assert_eq (cb_code params) "code-1";
  _ ← assert_eq (cb_state params) "state-1";
  assert (is_none (cb_iss params)).

(** ** Running them *)
Section client_run.
Context (fk : gmap string IpAddr → option string) `{UrlParts} `{!UrlEdit} (env : Env).
Context `{Base64} `{Sha2} `{P256} `{SerdeJson} `{UnicodeUpper} `{FormCrate} `{TokenSerde}.
Context (cl : AtprotoOAuthClient) (f : SsrfFilter) (key : SigningKey) (w : @CW _) (t : nat → Z).

Lemma stale_entry e now : en_expires_in_secs e = 300 → en_created_at e + 400 * 1000000000 ≤ now → entry_is_expired e now = true.
Proof.
  intros He Hn. unfold entry_is_expired, from_secs, Store.NANOS_PER_SEC. rewrite He. case_if; [done|]. b2p. lia.
Qed.

Context (own_clock : t 0%nat ≤ t 1%nat) (client_clock : t 0%nat ≤ e_clock env (cw_tick w)).

Lemma stored_state_test : passes (test_stored_state_expiration key t).
Proof. apply wp_assert; [|done]. apply stale_entry; [done|]. cbn [en_created_at]. lia. Qed.

Lemma expired_callback_test : passes (test_handle_callback_with_expired_entry_rejected fk env cl key w t).
Proof.
  unfold passes, test_handle_callback_with_expired_entry_rejected. cbv zeta.
  match goal with |- context [handle_callback_with_entry _ _ _ ?p ?e _] => set (entry := e) end.
  assert (entry_is_expired entry (e_clock env (cw_tick w)) = true) as He.
  { apply stale_entry; [done|]. unfold entry. cbn [en_created_at]. lia. }
  unfold handle_callback_with_entry, now_. unfold mbind, st_bind, lift. change (en_state entry) with "state_exp".
  cbn [cb_state with_iss callback_new String.eqb Ascii.eqb Bool.eqb negb fail_if]. by rewrite He.
Qed.

Lemma missing_pds_test : passes (test_send_xrpc_request_missing_pds_endpoint fk env f key w t).
Proof.
  unfold passes, test_send_xrpc_request_missing_pds_endpoint. hstep. eapply wp_unwrap; [reflexivity|]. by apply wp_assert.
Qed.

(** The client reads its clock after the test did. *)
Theorem client_tests_pass :
  Forall passes
    [test_rs_dpop_nonce_challenge_parsing; test_stored_state_expiration key t;
     test_handle_callback_with_expired_entry_rejected fk env cl key w t; test_callback_params;
     test_send_xrpc_request_missing_pds_endpoint fk env f key w t; test_validate_xrpc_nsid_accepts_valid_grammar;
     test_validate_xrpc_nsid_rejects_traversal_and_malformed; test_validate_xrpc_nsid_length_limits;
     killer_oauth_callback_query_builder_paths].
Proof.
  apply Forall_cons. split; [vm_compute; exact I|]. apply Forall_cons. split; [exact stored_state_test|].
  apply Forall_cons. split; [exact expired_callback_test|]. apply Forall_cons. split; [vm_compute; exact I|].
  apply Forall_cons. split; [exact missing_pds_test|]. repeat (apply Forall_cons; split; [vm_compute; exact I|]). done.
Qed.
End client_run.
