(* ===== verification/VerusSpecs.v ===== *)
(** * VerusSpecs: the repository's deductive specifications

    src/src/verification/verus_contracts.rs (specifications and state model), the specifications and
    annotated kernels inside the [verus!] blocks of src/src/kernels/ip_filter.rs and
    src/src/kernels/service_auth_bytes.rs, and the statements of src/src/verification/verus_kernels.rs.
    A [spec fn] is a boolean function on the same data as the kernels ([u8], [u16], [u64] and [usize]
    as [Z] in range, [nat] and [int] as unbounded [Z]); a [proof fn] is the proposition it
    [ensures] under what it [requires].  VerusProofs relates them to the code the crate ships. *)
From S2P Require Import Prelude IpFilter.
Open Scope Z_scope.

(** ** verus_contracts.rs *)
Module Contracts.
Definition spec_is_restricted_ipv4 (o0 o1 o2 o3 : Z) : bool :=
  (o0 =? 0)
  || (o0 =? 10)
  || ((o0 =? 100) && (o1 >=? 64) && (o1 <=? 127))
  || (o0 =? 127)
  || ((o0 =? 169) && (o1 =? 254))
  || ((o0 =? 172) && (o1 >=? 16) && (o1 <=? 31))
  || ((o0 =? 192) && (o1 =? 0) && (o2 =? 0))
  || ((o0 =? 192) && (o1 =? 0) && (o2 =? 2))
  || ((o0 =? 192) && (o1 =? 88) && (o2 =? 99))
  || ((o0 =? 192) && (o1 =? 168))
  || ((o0 =? 198) && ((o1 =? 18) || (o1 =? 19)))
  || ((o0 =? 198) && (o1 =? 51) && (o2 =? 100))
  || ((o0 =? 203) && (o1 =? 0) && (o2 =? 113))
  || ((o0 >=? 224) && (o0 <=? 239))
  || (o0 >=? 240).

Definition proof_rfc1918_10_restricted : Prop := ∀ o1 o2 o3, spec_is_restricted_ipv4 10 o1 o2 o3 = true.
Definition proof_rfc1918_172_restricted : Prop := ∀ o1 o2 o3,
  16 ≤ o1 ≤ 31 → spec_is_restricted_ipv4 172 o1 o2 o3 = true.
Definition proof_rfc1918_192_restricted : Prop := ∀ o2 o3, spec_is_restricted_ipv4 192 168 o2 o3 = true.
Definition proof_loopback_restricted : Prop := ∀ o1 o2 o3, spec_is_restricted_ipv4 127 o1 o2 o3 = true.
Definition proof_cloud_metadata_restricted : Prop := spec_is_restricted_ipv4 169 254 169 254 = true.
Definition proof_cgnat_restricted : Prop := ∀ o1 o2 o3,
  64 ≤ o1 ≤ 127 → spec_is_restricted_ipv4 100 o1 o2 o3 = true.
Definition proof_public_ip_not_restricted : Prop := spec_is_restricted_ipv4 8 8 8 8 = false.

Inductive VerusStateStatus :=
| VUninitialized
| VPending (created_at ttl : Z)
| VConsumed (consumed_at : Z)
| VExpired (expired_at : Z).

Record VerusOAuthStateModel := mkVerus { status : VerusStateStatus; consumption_count : Z }.

Definition new : VerusOAuthStateModel := mkVerus VUninitialized 0.

Definition insert (m : VerusOAuthStateModel) (current_tick ttl : Z) : VerusOAuthStateModel :=
  match status m with
  | VUninitialized => mkVerus (VPending current_tick ttl) (consumption_count m)
  | _ => m
  end.

Definition take_state (m : VerusOAuthStateModel) (current_tick : Z) : VerusOAuthStateModel * bool :=
  match status m with
  | VPending created_at ttl =>
      if current_tick <? created_at + ttl
      then (mkVerus (VConsumed current_tick) (consumption_count m + 1), true)
      else (mkVerus (VExpired current_tick) (consumption_count m), false)
  | _ => (m, false)
  end.

Definition theorem_single_use_state_consumption : Prop :=
  ∀ s0 (insert_tick ttl take1_tick take2_tick : Z),
    status s0 = VUninitialized → consumption_count s0 = 0 → ttl > 0 →
    take1_tick ≤ take2_tick → insert_tick ≤ take1_tick →
    let s1 := insert s0 insert_tick ttl in
    let '(s2, taken1) := take_state s1 take1_tick in
    let '(s3, taken2) := take_state s2 take2_tick in
    taken2 = false ∧ consumption_count s3 ≤ 1 ∧
    (taken1 = true → status s2 = VConsumed take1_tick) ∧
    (taken1 = false → status s2 = VExpired take1_tick).

Definition lemma_post_consumption_terminality : Prop :=
  ∀ s_consumed any_tick,
    (∃ t, status s_consumed = VConsumed t) → take_state s_consumed any_tick = (s_consumed, false).

Definition is_unreserved_ascii (c : Z) : bool :=
  ((c >=? 0x30) && (c <=? 0x39))
  || ((c >=? 0x41) && (c <=? 0x5a))
  || ((c >=? 0x61) && (c <=? 0x7a))
  || (c =? 0x2d)
  || (c =? 0x2e)
  || (c =? 0x5f)
  || (c =? 0x7e).

Definition spec_pkce_verifier_valid (len : Z) (all_unreserved : bool) : bool :=
  (len >=? 43) && (len <=? 128) && all_unreserved.

Definition theorem_pkce_short_verifier_rejected : Prop := ∀ len all_unreserved,
  len < 43 → spec_pkce_verifier_valid len all_unreserved = false.
Definition theorem_pkce_long_verifier_rejected : Prop := ∀ len all_unreserved,
  len > 128 → spec_pkce_verifier_valid len all_unreserved = false.
Definition theorem_pkce_invalid_character_rejected : Prop := ∀ len,
  43 ≤ len ≤ 128 → spec_pkce_verifier_valid len false = false.
Definition theorem_pkce_valid_bounds_accepted : Prop := ∀ len,
  43 ≤ len ≤ 128 → spec_pkce_verifier_valid len true = true.

Definition spec_slices_equal (a b : Z * Z) : bool := (a.1 =? b.1) && (a.2 =? b.2).
Definition spec_constant_time_diff (a b : Z * Z) : Z := Z.lor (Z.lxor a.1 b.1) (Z.lxor a.2 b.2).

Definition theorem_constant_time_eq_soundness : Prop :=
  ∀ a b, spec_constant_time_diff a b = 0 ↔ spec_slices_equal a b = true.
Definition theorem_constant_time_eq_mismatched_first_octet : Prop :=
  ∀ a b, a.1 ≠ b.1 → spec_slices_equal a b = false ∧ spec_constant_time_diff a b ≠ 0.
End Contracts.

(** ** The [verus!] block of kernels/ip_filter.rs

    Specifications, and the annotated functions whose [ensures] name them. *)
Module VerusIpFilter.
Definition spec_is_restricted_ipv4_octets (o0 o1 o2 o3 : Z) : bool :=
  (o0 =? 0)
  || (o0 =? 10)
  || ((o0 =? 100) && (Z.land o1 0xC0 =? 64))
  || (o0 =? 127)
  || ((o0 =? 169) && (o1 =? 254))
  || ((o0 =? 172) && (o1 >=? 16) && (o1 <=? 31))
  || ((o0 =? 192) && (o1 =? 0) && (o2 =? 0))
  || ((o0 =? 192) && (o1 =? 0) && (o2 =? 2))
  || ((o0 =? 192) && (o1 =? 88) && (o2 =? 99))
  || ((o0 =? 192) && (o1 =? 168))
  || ((o0 =? 198) && ((o1 =? 18) || (o1 =? 19)))
  || ((o0 =? 198) && (o1 =? 51) && (o2 =? 100))
  || ((o0 =? 203) && (o1 =? 0) && (o2 =? 113))
  || ((o0 >=? 224) && (o0 <=? 239))
  || (o0 >=? 240).

Definition spec_is_restricted_ipv6_segments (s0 s1 s2 s3 s4 s5 s6 s7 : Z) : bool :=
  ((s0 =? 0) && (s1 =? 0) && (s2 =? 0) && (s3 =? 0) && (s4 =? 0) && (s5 =? 0) && (s6 =? 0)
   && (s7 =? 0))
  || ((s0 =? 0) && (s1 =? 0) && (s2 =? 0) && (s3 =? 0) && (s4 =? 0) && (s5 =? 0) && (s6 =? 0)
      && (s7 =? 1))
  || ((s0 =? 0) && (s1 =? 0) && (s2 =? 0) && (s3 =? 0) && (s4 =? 0) && (s5 =? 0xffff)
      && spec_is_restricted_ipv4_octets (Z.land (Z.shiftr s6 8) 0xff) (Z.land s6 0xff)
           (Z.land (Z.shiftr s7 8) 0xff) (Z.land s7 0xff))
  || ((s0 =? 0) && (s1 =? 0) && (s2 =? 0) && (s3 =? 0) && (s4 =? 0xffff) && (s5 =? 0))
  || ((s0 =? 0x0064) && (s1 =? 0xff9b) && (s2 =? 0) && (s3 =? 0) && (s4 =? 0) && (s5 =? 0))
  || ((s0 =? 0x2001) && (s1 =? 0x0db8))
  || ((s0 =? 0x2001) && (s1 =? 0))
  || ((s0 =? 0x2002)
      && spec_is_restricted_ipv4_octets (Z.land (Z.shiftr s1 8) 0xff) (Z.land s1 0xff)
           (Z.land (Z.shiftr s2 8) 0xff) (Z.land s2 0xff))
  || (Z.land s0 0xfe00 =? 0xfc00)
  || (Z.land s0 0xffc0 =? 0xfe80)
  || (Z.land s0 0xffc0 =? 0xfec0)
  || (Z.land s0 0xff00 =? 0xff00).
(** The annotated functions, [ensures r == spec_...]. *)
Definition is_restricted_ipv4_octets (o0 o1 o2 o3 : Z) : bool :=
  (o0 =? 0)
  || (o0 =? 10)
  || ((o0 =? 100) && (Z.land o1 0xC0 =? 64))
  || (o0 =? 127)
  || ((o0 =? 169) && (o1 =? 254))
  || ((o0 =? 172) && (o1 >=? 16) && (o1 <=? 31))
  || ((o0 =? 192) && (o1 =? 0) && (o2 =? 0))
  || ((o0 =? 192) && (o1 =? 0) && (o2 =? 2))
  || ((o0 =? 192) && (o1 =? 88) && (o2 =? 99))
  || ((o0 =? 192) && (o1 =? 168))
  || ((o0 =? 198) && ((o1 =? 18) || (o1 =? 19)))
  || ((o0 =? 198) && (o1 =? 51) && (o2 =? 100))
  || ((o0 =? 203) && (o1 =? 0) && (o2 =? 113))
  || ((o0 >=? 224) && (o0 <=? 239))
  || (o0 >=? 240).

Definition is_restricted_ipv6_segments (s0 s1 s2 s3 s4 s5 s6 s7 : Z) : bool :=
  ((s0 =? 0) && (s1 =? 0) && (s2 =? 0) && (s3 =? 0) && (s4 =? 0) && (s5 =? 0) && (s6 =? 0)
   && (s7 =? 0))
  || ((s0 =? 0) && (s1 =? 0) && (s2 =? 0) && (s3 =? 0) && (s4 =? 0) && (s5 =? 0) && (s6 =? 0)
      && (s7 =? 1))
  || ((s0 =? 0) && (s1 =? 0) && (s2 =? 0) && (s3 =? 0) && (s4 =? 0) && (s5 =? 0xffff)
      && is_restricted_ipv4_octets (Z.land (Z.shiftr s6 8) 0xff) (Z.land s6 0xff)
           (Z.land (Z.shiftr s7 8) 0xff) (Z.land s7 0xff))
  || ((s0 =? 0) && (s1 =? 0) && (s2 =? 0) && (s3 =? 0) && (s4 =? 0xffff) && (s5 =? 0))
  || ((s0 =? 0x0064) && (s1 =? 0xff9b) && (s2 =? 0) && (s3 =? 0) && (s4 =? 0) && (s5 =? 0))
  || ((s0 =? 0x2001) && (s1 =? 0x0db8))
  || ((s0 =? 0x2001) && (s1 =? 0))
  || ((s0 =? 0x2002)
      && is_restricted_ipv4_octets (Z.land (Z.shiftr s1 8) 0xff) (Z.land s1 0xff)
           (Z.land (Z.shiftr s2 8) 0xff) (Z.land s2 0xff))
  || (Z.land s0 0xfe00 =? 0xfc00)
  || (Z.land s0 0xffc0 =? 0xfe80)
  || (Z.land s0 0xffc0 =? 0xfec0)
  || (Z.land s0 0xff00 =? 0xff00).
End VerusIpFilter.

(** ** The [verus!] block of kernels/service_auth_bytes.rs *)
Module VerusServiceAuth.
Definition spec_is_compressed_sec1_tag (tag : Z) : bool := (tag =? 0x02) || (tag =? 0x03).

Definition spec_classify_multikey_header (len b0 b1 b2 : Z) : Z :=
  if (len =? 35) && (b0 =? 0xe7) && (b1 =? 0x01) && spec_is_compressed_sec1_tag b2 then 1
  else if (len =? 34) && (b0 =? 0xe7) && spec_is_compressed_sec1_tag b1 then 1
  else if (len =? 35) && (b0 =? 0x80) && (b1 =? 0x24) && spec_is_compressed_sec1_tag b2 then 2
  else 0.

Definition spec_multikey_sec1_offset (len b0 b1 b2 : Z) : Z :=
  if (len =? 35) && (b0 =? 0xe7) && (b1 =? 0x01) && spec_is_compressed_sec1_tag b2 then 2
  else if (len =? 34) && (b0 =? 0xe7) && spec_is_compressed_sec1_tag b1 then 1
  else if (len =? 35) && (b0 =? 0x80) && (b1 =? 0x24) && spec_is_compressed_sec1_tag b2 then 2
  else 0.

Definition spec_is_alg_bound_to_curve (curve_id alg_id : Z) : bool :=
  ((curve_id =? 1) && (alg_id =? 1)) || ((curve_id =? 2) && (alg_id =? 2)).

(** Over the integers: no overflow. *)
Definition spec_is_service_jwt_exp_valid (exp now_secs leeway_secs : Z) : bool :=
  now_secs <=? exp + leeway_secs.
(** The annotated functions, [ensures r == spec_...]. *)
Definition is_compressed_sec1_tag (tag : Z) : bool := (tag =? 0x02) || (tag =? 0x03).

Definition classify_multikey_header (len b0 b1 b2 : Z) : Z :=
  if ((len =? 35) && (b0 =? 0xe7) && (b1 =? 0x01) && ((b2 =? 0x02) || (b2 =? 0x03)))
     || ((len =? 34) && (b0 =? 0xe7) && ((b1 =? 0x02) || (b1 =? 0x03))) then 1
  else if (len =? 35) && (b0 =? 0x80) && (b1 =? 0x24) && ((b2 =? 0x02) || (b2 =? 0x03)) then 2
  else 0.

Definition multikey_sec1_offset (len b0 b1 b2 : Z) : Z :=
  if (len =? 35) && ((b2 =? 0x02) || (b2 =? 0x03))
     && (((b0 =? 0xe7) && (b1 =? 0x01)) || ((b0 =? 0x80) && (b1 =? 0x24))) then 2
  else if (len =? 34) && (b0 =? 0xe7) && ((b1 =? 0x02) || (b1 =? 0x03)) then 1
  else 0.

Definition is_alg_bound_to_curve (curve_id alg_id : Z) : bool :=
  ((curve_id =? 1) && (alg_id =? 1)) || ((curve_id =? 2) && (alg_id =? 2)).

(** [u64::MAX - leeway_secs] cannot underflow; where [exp + leeway_secs] is computed, it fits. *)
Definition is_service_jwt_exp_valid (exp now_secs leeway_secs : Z) : bool :=
  if exp >? u64_max - leeway_secs then true else now_secs <=? exp + leeway_secs.
End VerusServiceAuth.

(** ** verus_kernels.rs *)
Module VerusKernels.
Import VerusIpFilter VerusServiceAuth.

Definition pack_segment (hi lo : Z) : Z := Z.lor (Z.shiftl hi 8) lo.
Definition o0_multicast (o1 : Z) : bool := o1 <? 16.

Definition theorem_rfc1918_10_restricted : Prop := ∀ o1 o2 o3,
  spec_is_restricted_ipv4_octets 10 o1 o2 o3 = true.
Definition theorem_rfc1918_192_restricted : Prop := ∀ o2 o3,
  spec_is_restricted_ipv4_octets 192 168 o2 o3 = true.
Definition theorem_loopback_restricted : Prop := ∀ o1 o2 o3,
  spec_is_restricted_ipv4_octets 127 o1 o2 o3 = true.
Definition theorem_cloud_metadata_restricted : Prop := spec_is_restricted_ipv4_octets 169 254 169 254 = true.
Definition test_net3_restricted : Prop := ∀ o3, spec_is_restricted_ipv4_octets 203 0 113 o3 = true.
Definition theorem_public_ip_not_restricted : Prop := spec_is_restricted_ipv4_octets 8 8 8 8 = false.
Definition theorem_ipv4_reserved_restricted : Prop := ∀ o1 o2 o3,
  spec_is_restricted_ipv4_octets 240 o1 o2 o3 = true.
Definition theorem_rfc1918_172_restricted : Prop := ∀ o1 o2 o3,
  u8_valid o1 → 16 ≤ o1 ≤ 31 → spec_is_restricted_ipv4_octets 172 o1 o2 o3 = true.
Definition theorem_cgnat_restricted : Prop := ∀ o1 o2 o3,
  u8_valid o1 → 64 ≤ o1 ≤ 127 → spec_is_restricted_ipv4_octets 100 o1 o2 o3 = true.
(** [((224 + (o1 as int) % 16) as u8)]. *)
Definition theorem_ipv4_multicast_restricted : Prop := ∀ o1 o2 o3,
  u8_valid o1 → o0_multicast o1 = true →
  spec_is_restricted_ipv4_octets ((224 + o1 mod 16) mod 256) o1 o2 o3 = true.

Definition theorem_mapped_ipv6_reduces_to_ipv4 : Prop := ∀ o0 o1 o2 o3,
  u8_valid o0 → u8_valid o1 → u8_valid o2 → u8_valid o3 →
  spec_is_restricted_ipv6_segments 0 0 0 0 0 0xffff (pack_segment o0 o1) (pack_segment o2 o3) =
  spec_is_restricted_ipv4_octets o0 o1 o2 o3.
Definition theorem_6to4_embedded_parity : Prop := ∀ o0 o1 o2 o3,
  u8_valid o0 → u8_valid o1 → u8_valid o2 → u8_valid o3 →
  spec_is_restricted_ipv6_segments 0x2002 (pack_segment o0 o1) (pack_segment o2 o3) 0 0 0 0 0 =
  spec_is_restricted_ipv4_octets o0 o1 o2 o3.

Definition theorem_mapped_ietf_translated_blocked : Prop := ∀ s6 s7,
  spec_is_restricted_ipv6_segments 0 0 0 0 0xffff 0 s6 s7 = true.
Definition theorem_teredo_blocked : Prop := ∀ s2 s3 s4 s5 s6 s7,
  spec_is_restricted_ipv6_segments 0x2001 0 s2 s3 s4 s5 s6 s7 = true.
Definition theorem_documentation_blocked : Prop := ∀ s2 s3 s4 s5 s6 s7,
  spec_is_restricted_ipv6_segments 0x2001 0x0db8 s2 s3 s4 s5 s6 s7 = true.
Definition theorem_unspecified_and_loopback_blocked : Prop :=
  spec_is_restricted_ipv6_segments 0 0 0 0 0 0 0 0 = true ∧
  spec_is_restricted_ipv6_segments 0 0 0 0 0 0 0 1 = true.
Definition theorem_public_ipv6_not_restricted : Prop :=
  spec_is_restricted_ipv6_segments 0x2606 0x4700 0 0 0 0 0 0x1111 = false.

(** [((0xfc00 + (s1 as int) % 0x200) as u16)], and likewise below: the first segment is computed
    from the second. *)
Definition theorem_ula_blocked : Prop := ∀ s1 s2 s3 s4 s5 s6 s7,
  u16_valid s1 →
  spec_is_restricted_ipv6_segments ((0xfc00 + s1 mod 0x200) mod 65536) s1 s2 s3 s4 s5 s6 s7 = true.
Definition theorem_link_local_blocked : Prop := ∀ s1 s2 s3 s4 s5 s6 s7,
  u16_valid s1 → s1 < 0x0040 →
  spec_is_restricted_ipv6_segments ((0xfe80 + s1) mod 65536) s1 s2 s3 s4 s5 s6 s7 = true.
Definition theorem_multicast_blocked : Prop := ∀ s1 s2 s3 s4 s5 s6 s7,
  u16_valid s1 → s1 < 0x0100 →
  spec_is_restricted_ipv6_segments ((0xff00 + s1) mod 65536) s1 s2 s3 s4 s5 s6 s7 = true.
Definition theorem_site_local_blocked : Prop := ∀ s1 s2 s3 s4 s5 s6 s7,
  u16_valid s1 → s1 < 0x0040 →
  spec_is_restricted_ipv6_segments ((0xfec0 + s1) mod 65536) s1 s2 s3 s4 s5 s6 s7 = true.

Definition theorem_multikey_varint_secp256k1_accepted : Prop := ∀ b2,
  spec_is_compressed_sec1_tag b2 = true →
  spec_classify_multikey_header 35 0xe7 0x01 b2 = 1 ∧ spec_multikey_sec1_offset 35 0xe7 0x01 b2 = 2.
Definition theorem_multikey_legacy_secp256k1_accepted : Prop := ∀ b1 b2,
  spec_is_compressed_sec1_tag b1 = true →
  spec_classify_multikey_header 34 0xe7 b1 b2 = 1 ∧ spec_multikey_sec1_offset 34 0xe7 b1 b2 = 1.
Definition theorem_multikey_varint_p256_accepted : Prop := ∀ b2,
  spec_is_compressed_sec1_tag b2 = true →
  spec_classify_multikey_header 35 0x80 0x24 b2 = 2 ∧ spec_multikey_sec1_offset 35 0x80 0x24 b2 = 2.
Definition theorem_multikey_wrong_len_rejected : Prop := ∀ len b0 b1 b2,
  len ≠ 34 ∧ len ≠ 35 →
  spec_classify_multikey_header len b0 b1 b2 = 0 ∧ spec_multikey_sec1_offset len b0 b1 b2 = 0.
Definition theorem_multikey_prefix_disambiguation_partition : Prop := ∀ b2,
  spec_classify_multikey_header 34 0xe7 0x01 b2 = 0 ∧ spec_multikey_sec1_offset 34 0xe7 0x01 b2 = 0.
Definition theorem_no_cross_curve_alg_confusion : Prop := ∀ alg_id curve_id,
  spec_is_alg_bound_to_curve 1 1 = true ∧ spec_is_alg_bound_to_curve 2 2 = true ∧
  spec_is_alg_bound_to_curve 1 2 = false ∧ spec_is_alg_bound_to_curve 2 1 = false ∧
  (alg_id ≠ 1 ∧ alg_id ≠ 2 → spec_is_alg_bound_to_curve alg_id curve_id = false) ∧
  (curve_id ≠ 1 ∧ curve_id ≠ 2 → spec_is_alg_bound_to_curve alg_id curve_id = false).
Definition theorem_service_jwt_exp_window_monotonic : Prop := ∀ exp now_secs leeway_secs,
  u64_valid exp → u64_valid now_secs → u64_valid leeway_secs →
  spec_is_service_jwt_exp_valid exp exp leeway_secs = true ∧
  (now_secs > exp + leeway_secs → spec_is_service_jwt_exp_valid exp now_secs leeway_secs = false).
End VerusKernels.
