(* ===== verification/VerusProofs.v ===== *)
(** * VerusProofs: the shipped code meets the deductive specifications

    The specifications of VerusSpecs against the definitions of IpFilter, Multikey, Pkce, Crypto and
    StoreModel: the [ensures] of the annotated kernels hold of the shipped ones, the statements the
    repository gives to Verus are true, and the state-machine model of verus_contracts.rs simulates
    [SingleStateModel] over every sequence of operations, not just the three the Verus theorem
    looks at. *)
From S2P Require Import Prelude Errors Strs Externals Instances Crypto IpFilter Multikey.
From S2P Require Import Store StoreModel Pkce VerusSpecs.
Open Scope Z_scope.

(** ** Kernels *)
Lemma octets_spec o0 o1 o2 o3 :
  is_restricted_ipv4_octets o0 o1 o2 o3 = VerusIpFilter.spec_is_restricted_ipv4_octets o0 o1 o2 o3.
Proof. done. Qed.

Lemma segments_spec s0 s1 s2 s3 s4 s5 s6 s7 :
  is_restricted_ipv6_segments s0 s1 s2 s3 s4 s5 s6 s7 =
  VerusIpFilter.spec_is_restricted_ipv6_segments s0 s1 s2 s3 s4 s5 s6 s7.
Proof. done. Qed.

Lemma classify_spec len b0 b1 b2 :
  classify_multikey_header len b0 b1 b2 = VerusServiceAuth.spec_classify_multikey_header len b0 b1 b2.
Proof.
  unfold classify_multikey_header, VerusServiceAuth.spec_classify_multikey_header,
    VerusServiceAuth.spec_is_compressed_sec1_tag.
  destruct ((len =? 35) && (b0 =? 0xe7) && (b1 =? 0x01) && ((b2 =? 2) || (b2 =? 3))); [done|].
  by destruct ((len =? 34) && (b0 =? 0xe7) && ((b1 =? 2) || (b1 =? 3))).
Qed.

Lemma offset_spec len b0 b1 b2 :
  multikey_sec1_offset len b0 b1 b2 = VerusServiceAuth.spec_multikey_sec1_offset len b0 b1 b2.
Proof.
  unfold multikey_sec1_offset, VerusServiceAuth.spec_multikey_sec1_offset,
    VerusServiceAuth.spec_is_compressed_sec1_tag.
  destruct (Z.eqb_spec len 35); [subst; cbn [Z.eqb Pos.eqb]|by destruct (_ && _)].
  destruct ((b2 =? 2) || (b2 =? 3)); rewrite ?andb_true_r, ?andb_false_r; cbn [andb orb]; [|done].
  by destruct ((b0 =? 0xe7) && (b1 =? 0x01)), ((b0 =? 0x80) && (b1 =? 0x24)).
Qed.

(** On [u64] values the overflow-safe test is the comparison of integers. *)
Lemma exp_spec exp now leeway :
  u64_valid exp → u64_valid now → u64_valid leeway →
  is_service_jwt_exp_valid exp now leeway =
  VerusServiceAuth.spec_is_service_jwt_exp_valid exp now leeway.
Proof.
  unfold u64_valid, is_service_jwt_exp_valid, VerusServiceAuth.spec_is_service_jwt_exp_valid.
  intros He Hn Hl. apply eq_iff_eq_true. case_if; b2p; lia.
Qed.

(** The range form of the carrier-grade NAT block is its mask form. *)
Lemma cgnat_mask o1 : u8_valid o1 → (Z.land o1 0xC0 =? 64) = (o1 >=? 64) && (o1 <=? 127).
Proof.
  intros Ho. apply eq_iff_eq_true. b2p. rewrite land_c0 by done. unfold u8_valid, u8_max in Ho.
  Z.to_euclidean_division_equations. lia.
Qed.

Lemma contracts_ipv4_spec o0 o1 o2 o3 :
  u8_valid o1 →
  Contracts.spec_is_restricted_ipv4 o0 o1 o2 o3 = is_restricted_ipv4_octets o0 o1 o2 o3.
Proof.
  intros Ho. unfold Contracts.spec_is_restricted_ipv4, is_restricted_ipv4_octets.
  by rewrite cgnat_mask, !andb_assoc by done.
Qed.

Lemma unreserved_ascii_spec c : Contracts.is_unreserved_ascii c = is_unreserved_byte c.
Proof.
  unfold Contracts.is_unreserved_ascii, is_unreserved_byte, u8_is_ascii_alphanumeric.
  apply eq_iff_eq_true. b2p. lia.
Qed.

Lemma unreserved_ascii_all l : forallb Contracts.is_unreserved_ascii l = forallb is_unreserved_byte l.
Proof. induction l as [|b l IH]; [done|]. cbn. by rewrite unreserved_ascii_spec, IH. Qed.

Lemma pkce_contract l :
  is_ok (validate_verifier_bytes l) =
  Contracts.spec_pkce_verifier_valid (zlen l) (forallb Contracts.is_unreserved_ascii l).
Proof. by rewrite validate_verifier_bytes_ok, unreserved_ascii_all. Qed.

(** ** The state machine

    [SingleStateModel], which returns when the token was created, against the Verus model, which
    returns whether it was taken. *)
Definition status_rel (s : StateTransitionStatus) (v : Contracts.VerusStateStatus) : Prop :=
  match s, v with
  | Uninitialized, Contracts.VUninitialized => True
  | Pending c ttl, Contracts.VPending c' ttl' => c = c' ∧ ttl = ttl' ∧ 0 < ttl
  | Consumed t, Contracts.VConsumed t' => t = t'
  | Expired t, Contracts.VExpired t' => t = t'
  | _, _ => False
  end.

Definition is_consumed_status (s : StateTransitionStatus) : bool :=
  match s with Consumed _ => true | _ => false end.

(** The counter saturates in one model and not in the other; it is 1 once consumed and 0 before. *)
Definition single_rel (m : SingleStateModel.SingleStateModel) (v : Contracts.VerusOAuthStateModel)
    : Prop :=
  status_rel (SingleStateModel.status m) (Contracts.status v) ∧
  SingleStateModel.consumption_count m = Contracts.consumption_count v ∧
  SingleStateModel.consumption_count m =
    if is_consumed_status (SingleStateModel.status m) then 1 else 0.

Definition verus_step (v : Contracts.VerusOAuthStateModel) (o : SingleStateModel.op)
    : Contracts.VerusOAuthStateModel * bool :=
  match o with
  | SingleStateModel.OpInsert ttl t => (Contracts.insert v t ttl, false)
  | SingleStateModel.OpTake t => Contracts.take_state v t
  end.

(** Insertions have a positive time to live, as the Verus theorem requires. *)
Definition op_ok (o : SingleStateModel.op) : Prop :=
  match o with SingleStateModel.OpInsert ttl _ => 0 < ttl | SingleStateModel.OpTake _ => True end.

Lemma single_rel_new : single_rel SingleStateModel.new Contracts.new.
Proof. done. Qed.

Lemma single_rel_step m v o :
  single_rel m v → op_ok o →
  single_rel (SingleStateModel.step m o).1 (verus_step v o).1 ∧
  bool_decide (is_Some (SingleStateModel.step m o).2) = (verus_step v o).2.
Proof.
  intros Hrel Ho. pose proof Hrel as (Hs & Hc & Hn). destruct m as [s n], v as [vs vn]. cbn in *.
  subst vn. destruct o as [ttl t|t]; cbn.
  - destruct s, vs; try done; cbn in *; split; done.
  - destruct s as [|c ttl|tc|te], vs as [|c' ttl'|tc'|te']; try done; cbn in *.
    destruct Hs as (<- & <- & Hpos). subst n.
    unfold u64_saturating_sub. destruct (Z.ltb_spec t (c + ttl)) as [Hlt|Hge].
    + rewrite Z.geb_leb, (proj2 (Z.leb_gt _ _)) by lia. split; [|done].
      split; [done|]. split; [|done]. cbn. unfold u64_saturating_add, u64_max. lia.
    + rewrite Z.geb_leb, (proj2 (Z.leb_le _ _)) by lia. done.
Qed.

Lemma single_rel_run os m v :
  single_rel m v → Forall op_ok os →
  single_rel (run SingleStateModel.step m os).1 (run verus_step v os).1 ∧
  (λ r, bool_decide (is_Some r)) <$> (run SingleStateModel.step m os).2 = (run verus_step v os).2.
Proof.
  revert m v. induction os as [|o os IH]; intros m v Hrel Hos; [done|].
  apply Forall_cons in Hos as [Ho Hos]. cbn [run].
  destruct (single_rel_step m v o Hrel Ho) as [Hr Hb].
  destruct (SingleStateModel.step m o) as [m' r], (verus_step v o) as [v' b]. cbn in Hr, Hb.
  destruct (IH m' v' Hr Hos) as [Hr' Hb'].
  destruct (run SingleStateModel.step m' os), (run verus_step v' os). cbn in *. by rewrite Hb, Hb'.
Qed.

(** ** The statements of verus_kernels.rs *)
Lemma pack_hi hi lo :
  u8_valid hi → u8_valid lo → Z.land (Z.shiftr (VerusKernels.pack_segment hi lo) 8) 0xff = hi.
Proof.
  unfold u8_valid, u8_max, VerusKernels.pack_segment. intros Hh Hl.
  rewrite Z.shiftr_lor, Z.shiftr_shiftl_l by lia. cbn [Z.sub Z.opp Z.add Z.pos_sub].
  rewrite Z.shiftl_0_r, Z.shiftr_div_pow2, (Z.div_small lo) by lia.
  rewrite Z.lor_0_r, seg_lo. apply Z.mod_small. lia.
Qed.

Lemma pack_lo hi lo :
  u8_valid lo → Z.land (VerusKernels.pack_segment hi lo) 0xff = lo.
Proof.
  unfold u8_valid, u8_max, VerusKernels.pack_segment. intros Hl.
  rewrite Z.land_lor_distr_l, !seg_lo, Z.shiftl_mul_pow2 by lia. change (2 ^ 8) with 256.
  rewrite Z_mod_mult, Z.lor_0_l. apply Z.mod_small. lia.
Qed.

Lemma mapped_reduces : VerusKernels.theorem_mapped_ipv6_reduces_to_ipv4.
Proof.
  intros o0 o1 o2 o3 H0 H1 H2 H3. unfold VerusIpFilter.spec_is_restricted_ipv6_segments.
  rewrite !pack_hi, !pack_lo by done. cbn -[VerusIpFilter.spec_is_restricted_ipv4_octets].
  by rewrite !orb_false_r.
Qed.

Lemma sixto4_reduces : VerusKernels.theorem_6to4_embedded_parity.
Proof.
  intros o0 o1 o2 o3 H0 H1 H2 H3. unfold VerusIpFilter.spec_is_restricted_ipv6_segments.
  rewrite !pack_hi, !pack_lo by done. cbn -[VerusIpFilter.spec_is_restricted_ipv4_octets].
  by rewrite !orb_false_r.
Qed.

(** The families by their prefix, for every value of the other seven segments. *)
Lemma family_restricted s0 s1 s2 s3 s4 s5 s6 s7 :
  u16_valid s0 → 0xfc00 ≤ s0 < 0xfe00 ∨ 0xfe80 ≤ s0 →
  VerusIpFilter.spec_is_restricted_ipv6_segments s0 s1 s2 s3 s4 s5 s6 s7 = true.
Proof.
  intros Hs Hf. unfold VerusIpFilter.spec_is_restricted_ipv6_segments.
  assert (s0 / 512 = 126 ∨ s0 / 64 = 1018 ∨ s0 / 64 = 1019 ∨ s0 / 256 = 255) as Hc.
  { unfold u16_valid, u16_max in Hs. Z.to_euclidean_division_equations. lia. }
  rewrite !orb_true_iff, !Z.eqb_eq, land_fe00, (land_ffc0 s0 1018), (land_ffc0 s0 1019), land_ff00
    by done.
  tauto.
Qed.

Lemma family_statements :
  VerusKernels.theorem_ula_blocked ∧ VerusKernels.theorem_link_local_blocked ∧
  VerusKernels.theorem_multicast_blocked ∧ VerusKernels.theorem_site_local_blocked.
Proof.
  unfold VerusKernels.theorem_ula_blocked, VerusKernels.theorem_link_local_blocked,
    VerusKernels.theorem_multicast_blocked, VerusKernels.theorem_site_local_blocked.
  split_and!; intros s1 s2 s3 s4 s5 s6 s7 Hs; intros; unfold u16_valid, u16_max in Hs;
    apply family_restricted; unfold u16_valid, u16_max;
    Z.to_euclidean_division_equations; lia.
Qed.

Lemma ipv4_statements :
  VerusKernels.theorem_rfc1918_172_restricted ∧ VerusKernels.theorem_cgnat_restricted ∧
  VerusKernels.theorem_ipv4_multicast_restricted.
Proof.
  unfold VerusKernels.theorem_rfc1918_172_restricted, VerusKernels.theorem_cgnat_restricted,
    VerusKernels.theorem_ipv4_multicast_restricted, VerusKernels.o0_multicast.
  split_and!; intros o1 o2 o3 Ho; intros Hr.
  - rewrite <-octets_spec, <-contracts_ipv4_spec by done. unfold Contracts.spec_is_restricted_ipv4.
    b2p. cbn. tauto.
  - rewrite <-octets_spec, <-contracts_ipv4_spec by done. unfold Contracts.spec_is_restricted_ipv4.
    b2p. cbn. tauto.
  - b2p. unfold u8_valid, u8_max in Ho. rewrite !Z.mod_small by (rewrite ?Z.mod_small; lia).
    unfold VerusIpFilter.spec_is_restricted_ipv4_octets. b2p.
    assert (224 ≤ 224 + o1 ∧ 224 + o1 ≤ 239) by lia. tauto.
Qed.

Lemma service_auth_statements :
  VerusKernels.theorem_multikey_wrong_len_rejected ∧
  VerusKernels.theorem_multikey_prefix_disambiguation_partition ∧
  VerusKernels.theorem_no_cross_curve_alg_confusion ∧
  VerusKernels.theorem_service_jwt_exp_window_monotonic.
Proof.
  split_and!.
  - intros len b0 b1 b2 [H4 H5]. unfold VerusServiceAuth.spec_classify_multikey_header,
      VerusServiceAuth.spec_multikey_sec1_offset.
    by rewrite (proj2 (Z.eqb_neq len 34)), (proj2 (Z.eqb_neq len 35)).
  - done.
  - intros a c. unfold VerusServiceAuth.spec_is_alg_bound_to_curve.
    split_and!; [done..| |]; intros []; b2p; lia.
  - intros e n l He Hn Hl. unfold VerusServiceAuth.spec_is_service_jwt_exp_valid, u64_valid in *.
    split; intros; b2p; lia.
Qed.

Lemma contract_examples :
  (Contracts.proof_rfc1918_10_restricted ∧ Contracts.proof_rfc1918_172_restricted ∧
   Contracts.proof_rfc1918_192_restricted ∧ Contracts.proof_loopback_restricted ∧
   Contracts.proof_cloud_metadata_restricted ∧ Contracts.proof_cgnat_restricted ∧
   Contracts.proof_public_ip_not_restricted) ∧
  (Contracts.theorem_pkce_short_verifier_rejected ∧ Contracts.theorem_pkce_long_verifier_rejected ∧
   Contracts.theorem_pkce_invalid_character_rejected ∧ Contracts.theorem_pkce_valid_bounds_accepted).
Proof.
  split; split_and!; try done.
  - intros o1 o2 o3 Ho. unfold Contracts.spec_is_restricted_ipv4. b2p. cbn. tauto.
  - intros o1 o2 o3 Ho. unfold Contracts.spec_is_restricted_ipv4. b2p. cbn. tauto.
  - intros len u Hl. unfold Contracts.spec_pkce_verifier_valid. b2p. lia.
  - intros len u Hl. unfold Contracts.spec_pkce_verifier_valid. b2p. lia.
  - intros len _. unfold Contracts.spec_pkce_verifier_valid. apply andb_false_r.
  - intros len Hl. unfold Contracts.spec_pkce_verifier_valid. b2p. lia.
Qed.

Lemma kernel_examples :
  (VerusKernels.theorem_rfc1918_10_restricted ∧ VerusKernels.theorem_rfc1918_192_restricted ∧
   VerusKernels.theorem_loopback_restricted ∧ VerusKernels.theorem_cloud_metadata_restricted ∧
   VerusKernels.test_net3_restricted ∧ VerusKernels.theorem_public_ip_not_restricted ∧
   VerusKernels.theorem_ipv4_reserved_restricted) ∧
  (VerusKernels.theorem_mapped_ietf_translated_blocked ∧ VerusKernels.theorem_teredo_blocked ∧
   VerusKernels.theorem_documentation_blocked ∧ VerusKernels.theorem_unspecified_and_loopback_blocked ∧
   VerusKernels.theorem_public_ipv6_not_restricted) ∧
  (VerusKernels.theorem_multikey_varint_secp256k1_accepted ∧
   VerusKernels.theorem_multikey_legacy_secp256k1_accepted ∧
   VerusKernels.theorem_multikey_varint_p256_accepted).
Proof.
  split; [by split_and!|]. split; [by split_and!|]. split_and!.
  - intros b Hb. unfold VerusServiceAuth.spec_classify_multikey_header,
      VerusServiceAuth.spec_multikey_sec1_offset. by rewrite Hb.
  - intros b1 b2 Hb. unfold VerusServiceAuth.spec_classify_multikey_header,
      VerusServiceAuth.spec_multikey_sec1_offset. by rewrite Hb.
  - intros b Hb. unfold VerusServiceAuth.spec_classify_multikey_header,
      VerusServiceAuth.spec_multikey_sec1_offset. by rewrite Hb.
Qed.

Lemma contract_statements :
  Contracts.theorem_single_use_state_consumption ∧ Contracts.lemma_post_consumption_terminality ∧
  Contracts.theorem_constant_time_eq_soundness ∧
  Contracts.theorem_constant_time_eq_mismatched_first_octet.
Proof.
  assert (Contracts.theorem_constant_time_eq_soundness) as Hct.
  { intros [a0 a1] [b0 b1]. unfold Contracts.spec_constant_time_diff, Contracts.spec_slices_equal.
    rewrite Z.lor_eq_0_iff, !Z.lxor_eq_0_iff. b2p. done. }
  split_and!.
  - intros [s n] it ttl t1 t2 Hs Hn Httl H12 Hi1. cbn in Hs, Hn. subst s n. cbn.
    destruct (t1 <? it + ttl); cbn; split_and!; done || lia.
  - intros [s n] t [tc Hs]. cbn in Hs. by subst s.
  - exact Hct.
  - intros a b Hne. assert (Contracts.spec_slices_equal a b = false) as Hf.
    { unfold Contracts.spec_slices_equal. by rewrite (proj2 (Z.eqb_neq _ _) Hne). }
    split; [done|]. intros Hz%Hct. congruence.
Qed.

(** The comparison of two octets in the accumulator form is the shipped comparison. *)
Lemma ct_contract `{SubtleLaws} a b :
  (Contracts.spec_constant_time_diff a b =? 0) = constant_time_eq [a.1; a.2] [b.1; b.2].
Proof.
  destruct contract_statements as (_ & _ & Hct & _).
  unfold Contracts.theorem_constant_time_eq_soundness in Hct. apply eq_iff_eq_true.
  rewrite Z.eqb_eq, Hct, constant_time_eq_spec. unfold Contracts.spec_slices_equal. b2p.
  destruct a, b; cbn. naive_solver.
Qed.

(** ** Properties *)

(** C30.  The shipped kernels meet the contracts given to Verus: for every input in the range of its
    type, the annotated IPv4, IPv6, multikey and expiry kernels return what their [ensures]
    specification says and what the plain build's twin returns (the specification of expiry is over
    unbounded integers, the code guards against overflow); the PKCE byte validator accepts exactly
    what [spec_pkce_verifier_valid] allows, [constant_time_eq] on two octets is the XOR/OR
    accumulator test, and the range-based IPv4 specification agrees with the mask-based kernel. *)
Theorem verus_contracts_hold `{SubtleLaws} :
  (∀ o0 o1 o2 o3,
     VerusIpFilter.is_restricted_ipv4_octets o0 o1 o2 o3 =
       VerusIpFilter.spec_is_restricted_ipv4_octets o0 o1 o2 o3 ∧
     VerusIpFilter.is_restricted_ipv4_octets o0 o1 o2 o3 = is_restricted_ipv4_octets o0 o1 o2 o3 ∧
     (u8_valid o1 →
      Contracts.spec_is_restricted_ipv4 o0 o1 o2 o3 = is_restricted_ipv4_octets o0 o1 o2 o3)) ∧
  (∀ s0 s1 s2 s3 s4 s5 s6 s7,
     VerusIpFilter.is_restricted_ipv6_segments s0 s1 s2 s3 s4 s5 s6 s7 =
       VerusIpFilter.spec_is_restricted_ipv6_segments s0 s1 s2 s3 s4 s5 s6 s7 ∧
     VerusIpFilter.is_restricted_ipv6_segments s0 s1 s2 s3 s4 s5 s6 s7 =
       is_restricted_ipv6_segments s0 s1 s2 s3 s4 s5 s6 s7) ∧
  (∀ len b0 b1 b2,
     VerusServiceAuth.classify_multikey_header len b0 b1 b2 =
       VerusServiceAuth.spec_classify_multikey_header len b0 b1 b2 ∧
     VerusServiceAuth.classify_multikey_header len b0 b1 b2 = classify_multikey_header len b0 b1 b2 ∧
     VerusServiceAuth.multikey_sec1_offset len b0 b1 b2 =
       VerusServiceAuth.spec_multikey_sec1_offset len b0 b1 b2 ∧
     VerusServiceAuth.multikey_sec1_offset len b0 b1 b2 = multikey_sec1_offset len b0 b1 b2) ∧
  (∀ exp now leeway, u64_valid exp → u64_valid now → u64_valid leeway →
     VerusServiceAuth.is_service_jwt_exp_valid exp now leeway =
       VerusServiceAuth.spec_is_service_jwt_exp_valid exp now leeway ∧
     VerusServiceAuth.is_service_jwt_exp_valid exp now leeway =
       is_service_jwt_exp_valid exp now leeway) ∧
  (∀ v, is_ok (validate_verifier_bytes v) =
     Contracts.spec_pkce_verifier_valid (zlen v) (forallb Contracts.is_unreserved_ascii v)) ∧
  (∀ a b, (Contracts.spec_constant_time_diff a b =? 0) =
     constant_time_eq [a.1; a.2] [b.1; b.2]).
Proof.
  split_and!; intros; split_and?; try done.
  - intros. by apply contracts_ipv4_spec.
  - apply classify_spec.
  - apply offset_spec.
  - by apply exp_spec.
  - apply pkce_contract.
  - apply ct_contract.
Qed.

(** C31.  The state-machine model given to Verus simulates the repository's executable model over
    every sequence of insertions (with a positive time to live) and takes: a take of the executable
    model returns the token exactly when the Verus model's does, the counters agree in spite of the
    saturation of one of them, and over the whole sequence at most one take succeeds. *)
Theorem verus_model_refinement (os : list SingleStateModel.op) :
  Forall op_ok os →
  let '(m, rs) := run SingleStateModel.step SingleStateModel.new os in
  let '(v, bs) := run verus_step Contracts.new os in
  (λ r, bool_decide (is_Some r)) <$> rs = bs ∧
  SingleStateModel.consumption_count m = Contracts.consumption_count v ∧
  Contracts.consumption_count v ≤ 1 ∧ (length (filter (λ b, b = true) bs) ≤ 1)%nat.
Proof.
  intros Hos. destruct (single_rel_run os _ _ single_rel_new Hos) as [Hrel Hbs].
  pose proof (single_state_takes os SingleStateModel.new) as Hlen.
  destruct (run SingleStateModel.step SingleStateModel.new os) as [m rs].
  destruct (run verus_step Contracts.new os) as [v bs]. cbn in Hrel, Hbs, Hlen.
  destruct Hrel as (_ & Hc & Hn). split_and!; [done|done| |].
  - rewrite <-Hc, Hn. by destruct (is_consumed_status _).
  - subst bs. transitivity (length (omap id rs)); [|exact Hlen]. clear.
    induction rs as [|[r|] rs IH]; [done|rewrite fmap_cons, filter_cons..];
      cbn; repeat case_decide; cbn in *; try done; lia.
Qed.

(** With a time to live of zero and a clock that goes back the models differ: one expires the token,
    the other hands it out. *)
Lemma zero_ttl_diverges :
  let os := [SingleStateModel.OpInsert 0 5; SingleStateModel.OpTake 4] in
  (run SingleStateModel.step SingleStateModel.new os).2 = [None; None] ∧
  (run verus_step Contracts.new os).2 = [false; true].
Proof. done. Qed.

(**  The statements the repository gives to Verus are true, and where one computes the first
    segment of an IPv6 address from the second, the family is refused for every value of the other
    seven segments, which the statement does not cover: [fe80:1::] is link-local and not of the
    form [theorem_link_local_blocked] looks at. *)
Theorem verus_statements_hold :
  ((Contracts.proof_rfc1918_10_restricted ∧ Contracts.proof_rfc1918_172_restricted ∧
    Contracts.proof_rfc1918_192_restricted ∧ Contracts.proof_loopback_restricted ∧
    Contracts.proof_cloud_metadata_restricted ∧ Contracts.proof_cgnat_restricted ∧
    Contracts.proof_public_ip_not_restricted) ∧
   (Contracts.theorem_pkce_short_verifier_rejected ∧ Contracts.theorem_pkce_long_verifier_rejected ∧
    Contracts.theorem_pkce_invalid_character_rejected ∧ Contracts.theorem_pkce_valid_bounds_accepted)) ∧
  ((VerusKernels.theorem_rfc1918_10_restricted ∧ VerusKernels.theorem_rfc1918_192_restricted ∧
    VerusKernels.theorem_loopback_restricted ∧ VerusKernels.theorem_cloud_metadata_restricted ∧
    VerusKernels.test_net3_restricted ∧ VerusKernels.theorem_public_ip_not_restricted ∧
    VerusKernels.theorem_ipv4_reserved_restricted) ∧
   (VerusKernels.theorem_mapped_ietf_translated_blocked ∧ VerusKernels.theorem_teredo_blocked ∧
    VerusKernels.theorem_documentation_blocked ∧ VerusKernels.theorem_unspecified_and_loopback_blocked ∧
    VerusKernels.theorem_public_ipv6_not_restricted) ∧
   (VerusKernels.theorem_multikey_varint_secp256k1_accepted ∧
    VerusKernels.theorem_multikey_legacy_secp256k1_accepted ∧
    VerusKernels.theorem_multikey_varint_p256_accepted)) ∧
  (Contracts.theorem_single_use_state_consumption ∧ Contracts.lemma_post_consumption_terminality ∧
   Contracts.theorem_constant_time_eq_soundness ∧
   Contracts.theorem_constant_time_eq_mismatched_first_octet) ∧
  (VerusKernels.theorem_rfc1918_172_restricted ∧ VerusKernels.theorem_cgnat_restricted ∧
   VerusKernels.theorem_ipv4_multicast_restricted) ∧
  (VerusKernels.theorem_mapped_ipv6_reduces_to_ipv4 ∧ VerusKernels.theorem_6to4_embedded_parity) ∧
  (VerusKernels.theorem_ula_blocked ∧ VerusKernels.theorem_link_local_blocked ∧
   VerusKernels.theorem_multicast_blocked ∧ VerusKernels.theorem_site_local_blocked) ∧
  (VerusKernels.theorem_multikey_wrong_len_rejected ∧
   VerusKernels.theorem_multikey_prefix_disambiguation_partition ∧
   VerusKernels.theorem_no_cross_curve_alg_confusion ∧
   VerusKernels.theorem_service_jwt_exp_window_monotonic) ∧
  (∀ s0 s1 s2 s3 s4 s5 s6 s7, u16_valid s0 → 0xfc00 ≤ s0 < 0xfe00 ∨ 0xfe80 ≤ s0 →
     is_restricted_ipv6_segments s0 s1 s2 s3 s4 s5 s6 s7 = true) ∧
  ¬ (∃ s1, s1 < 0x0040 ∧ ((0xfe80 + s1) mod 65536, s1) = (0xfe80, 1)).
Proof.
  split; [apply contract_examples|]. split; [apply kernel_examples|].
  split_and!; try apply contract_statements; try apply ipv4_statements; try apply family_statements;
    try apply service_auth_statements.
  - apply mapped_reduces.
  - apply sixto4_reduces.
  - intros. rewrite segments_spec. by apply family_restricted.
  - by intros (s1 & _ & [= Hm ->]).
Qed.

(** ** Concrete instances *)
Module VerusExamples.
#[local] Instance subtle_ex : Subtle := plain_subtle.
#[local] Instance subtle_ex_laws : SubtleLaws := plain_subtle_laws.

Lemma verus_contracts_hold_witness :
  VerusServiceAuth.is_service_jwt_exp_valid u64_max u64_max 60 =
    VerusServiceAuth.spec_is_service_jwt_exp_valid u64_max u64_max 60 ∧
  Contracts.spec_is_restricted_ipv4 100 64 0 1 = is_restricted_ipv4_octets 100 64 0 1.
Proof.
  split.
  - apply verus_contracts_hold; unfold u64_valid, u64_max; lia.
  - apply verus_contracts_hold. unfold u8_valid, u8_max. lia.
Defined.

Lemma verus_model_refinement_witness :
  let os := [SingleStateModel.OpTake 0; SingleStateModel.OpInsert 10 5; SingleStateModel.OpTake 14;
             SingleStateModel.OpTake 15] in
  (λ r, bool_decide (is_Some r)) <$> (run SingleStateModel.step SingleStateModel.new os).2 =
  [false; false; true; false].
Proof.
  apply (verus_model_refinement [SingleStateModel.OpTake 0; SingleStateModel.OpInsert 10 5;
    SingleStateModel.OpTake 14; SingleStateModel.OpTake 15]).
  repeat constructor.
Defined.
End VerusExamples.
